(** * CPQ editor: the document state engine, verified against its sources

    A shallow embedding of the JavaScript modules of the CPQ editor
    ([Utils], [EventSystem], [StateManager], [MentionSystem],
    [PageManager], [TextEditor]) and the properties their specification
    states about them.

    Conventions of the embedding.
    - A JavaScript value is a [value]: a tree of primitives, arrays and
      plain objects.  Numbers are the integers the editor uses (indices,
      lengths, paddings) and are kept in [Z].  A string is a sequence of
      code units below 256, one [ascii] each.
    - An object is the ordered list of its own properties.  Members that
      built-in prototypes would contribute (methods such as [push] are
      modelled where the code calls them, never as property values) are
      not part of a [value].
    - The module-level variables of the scripts are the fields of a
      [store]; a function that reads or assigns them is a computation in
      the monad [M], which threads the store and an [outcome].
    - An [outcome] is a normal completion, a thrown exception, or
      [Unmodelled]: the step leaves the fragment of JavaScript described
      here (for instance a numeric coercion of a string) and nothing is
      claimed about it. *)

From Stdlib Require Import String Ascii List ZArith NArith Bool Arith Lia.
From Stdlib Require Import DecimalString DecimalN.
Import ListNotations.
Local Open Scope string_scope.
Local Open Scope list_scope.

Set Implicit Arguments.

(* ===================================================================== *)
(** ** Outcomes of a step *)
(* ===================================================================== *)

Inductive exn : Set :=
| TypeError
| SyntaxError
| DOMException.

Inductive outcome (A : Type) : Type :=
| Ok (a : A)
| Throw (e : exn)
| Unmodelled.

Arguments Ok {A} a.
Arguments Throw {A} e.
Arguments Unmodelled {A}.

Definition obind {A B} (m : outcome A) (k : A -> outcome B) : outcome B :=
  match m with
  | Ok a => k a
  | Throw e => Throw e
  | Unmodelled => Unmodelled
  end.

Declare Scope outcome_scope.
Delimit Scope outcome_scope with outcome.
Notation "'let?' x ':=' m 'in' k" := (obind m (fun x => k))
  (at level 10, x name, m at level 100, k at level 200) : outcome_scope.
Local Open Scope outcome_scope.

(* ===================================================================== *)
(** ** JavaScript values *)
(* ===================================================================== *)

Module JS.

Unset Elimination Schemes.
Inductive value : Type :=
| VUndef
| VNull
| VBool (b : bool)
| VNum (n : Z)
| VStr (s : string)
| VArr (elems : list value)
| VObj (props : list (string * value)).
Set Elimination Schemes.

(** Induction over the tree, through the element and property lists. *)
Definition value_ind (P : value -> Prop)
  (Hundef : P VUndef) (Hnull : P VNull)
  (Hbool : forall b, P (VBool b)) (Hnum : forall n, P (VNum n))
  (Hstr : forall s, P (VStr s))
  (Harr : forall l, Forall P l -> P (VArr l))
  (Hobj : forall l, Forall (fun kv => P (snd kv)) l -> P (VObj l)) :
  forall v, P v :=
  fix go (v : value) : P v :=
    match v with
    | VUndef => Hundef
    | VNull => Hnull
    | VBool b => Hbool b
    | VNum n => Hnum n
    | VStr s => Hstr s
    | VArr l =>
        Harr l ((fix elems (l : list value) : Forall P l :=
                   match l with
                   | [] => Forall_nil _
                   | x :: l' => Forall_cons x (go x) (elems l')
                   end) l)
    | VObj l =>
        Hobj l ((fix props (l : list (string * value))
                   : Forall (fun kv => P (snd kv)) l :=
                   match l with
                   | [] => Forall_nil _
                   | kv :: l' => Forall_cons kv (go (snd kv)) (props l')
                   end) l)
    end.

(** [!v] is true exactly on these. *)
Definition falsy (v : value) : bool :=
  match v with
  | VUndef | VNull | VBool false | VNum 0%Z | VStr EmptyString => true
  | _ => false
  end.

Definition truthy (v : value) : bool := negb (falsy v).

Definition nullish (v : value) : bool :=
  match v with VUndef | VNull => true | _ => false end.

(** Objects and arrays are held by reference; everything else by value. *)
Definition is_reference (v : value) : bool :=
  match v with VArr _ | VObj _ => true | _ => false end.

(** [v === s] for a string [s]. *)
Definition strict_eq_str (v : value) (s : string) : bool :=
  match v with VStr t => String.eqb t s | _ => false end.

(* --------------------------------------------------------------------- *)
(** *** Strings *)

Definition dot : ascii := "."%char.

(** [s.split('.')]: never empty; the empty string gives one empty part. *)
Fixpoint split_dot (s : string) : list string :=
  match s with
  | EmptyString => [EmptyString]
  | String c s' =>
      if Ascii.eqb c dot then EmptyString :: split_dot s'
      else match split_dot s' with
           | [] => [String c EmptyString]
           | part :: parts => String c part :: parts
           end
  end.


(** [String(n)] for a non-negative integer, and the keys that are array
    indices: the canonical decimal numerals below 2^32 - 1. *)
Definition key_of_index (n : N) : string :=
  NilEmpty.string_of_uint (N.to_uint n).

Definition index_of_key (k : string) : option N :=
  match NilEmpty.uint_of_string k with
  | Some u =>
      let n := N.of_uint u in
      if (String.eqb (key_of_index n) k && (n <? 4294967295)%N)%bool
      then Some n else None
  | None => None
  end.

Definition string_of_Z (z : Z) : string :=
  NilEmpty.string_of_int (Z.to_int z).

(** The one-character strings of [s], as indexing and spreading give them. *)
Fixpoint chars (s : string) : list string :=
  match s with
  | EmptyString => []
  | String c s' => String c EmptyString :: chars s'
  end.

(* --------------------------------------------------------------------- *)
(** *** Property access *)

Fixpoint lookup (k : string) (props : list (string * value)) : option value :=
  match props with
  | [] => None
  | (k', v) :: rest => if String.eqb k' k then Some v else lookup k rest
  end.

(** Assignment to a property of an object: an existing property keeps
    its place, a new one goes last. *)
Fixpoint define (k : string) (v : value) (props : list (string * value))
  : list (string * value) :=
  match props with
  | [] => [(k, v)]
  | (k', v') :: rest =>
      if String.eqb k' k then (k, v) :: rest else (k', v') :: define k v rest
  end.

(** Assignment to an index of an array: past the end the array grows,
    the skipped positions reading as [undefined]. *)
Fixpoint store_at (i : nat) (v : value) (elems : list value) : list value :=
  match i, elems with
  | O, [] => [v]
  | O, _ :: rest => v :: rest
  | S i', [] => VUndef :: store_at i' v []
  | S i', x :: rest => x :: store_at i' v rest
  end.

(** [v[k]] for a [v] that is neither [null] nor [undefined]. *)
Definition get_prop (v : value) (k : string) : value :=
  match v with
  | VObj props =>
      match lookup k props with Some x => x | None => VUndef end
  | VArr elems =>
      if String.eqb k "length" then VNum (Z.of_nat (List.length elems))
      else match index_of_key k with
           | Some i => nth (N.to_nat i) elems VUndef
           | None => VUndef
           end
  | VStr s =>
      if String.eqb k "length" then VNum (Z.of_nat (String.length s))
      else match index_of_key k with
           | Some i => nth (N.to_nat i) (map VStr (chars s)) VUndef
           | None => VUndef
           end
  | _ => VUndef
  end.

(** The expression [v[k]]: reading through [null] or [undefined] throws. *)
Definition member (v : value) (k : string) : outcome value :=
  if nullish v then Throw TypeError else Ok (get_prop v k).

(** The expression [v[i]] for a number [i] that is an index. *)
Definition member_at (v : value) (i : nat) : outcome value :=
  match v with
  | VArr elems => Ok (nth i elems VUndef)
  | _ => member v (key_of_index (N.of_nat i))
  end.

(** The statement [v[k] = x], returning [v] as it is afterwards.  The
    scripts are classic (sloppy-mode) scripts, so a write to a primitive
    is dropped silently.  Writing a non-index key of an array would give
    the array an extra property, which a [value] does not hold. *)
Definition assign (v : value) (k : string) (x : value) : outcome value :=
  match v with
  | VUndef | VNull => Throw TypeError
  | VObj props => Ok (VObj (define k x props))
  | VArr elems =>
      match index_of_key k with
      | Some i => Ok (VArr (store_at (N.to_nat i) x elems))
      | None => Unmodelled
      end
  | _ => Ok v
  end.

(** [a.push(x)], [a.pop()], [a.shift()] and the spread [...a]. *)
Definition array_push (a : value) (x : value) : outcome value :=
  match a with
  | VArr elems => Ok (VArr (elems ++ [x]))
  | _ => Throw TypeError
  end.

Definition array_pop (a : value) : outcome (value * value) :=
  match a with
  | VArr elems => Ok (last elems VUndef, VArr (removelast elems))
  | _ => Throw TypeError
  end.

Definition array_shift (a : value) : outcome (value * value) :=
  match a with
  | VArr elems => Ok (hd VUndef elems, VArr (tl elems))
  | _ => Throw TypeError
  end.

Definition spread (a : value) : outcome (list value) :=
  match a with
  | VArr elems => Ok elems
  | VStr s => Ok (map VStr (chars s))
  | _ => Throw TypeError
  end.

(** [x > n] and [x >= n] against a number [n]: [undefined] converts to
    NaN and compares false, [null] to 0, a boolean to 0 or 1; strings
    and objects need coercions that are not modelled. *)
Definition to_number (x : value) : outcome (option Z) :=
  match x with
  | VNum m => Ok (Some m)
  | VUndef => Ok None
  | VNull => Ok (Some 0%Z)
  | VBool b => Ok (Some (if b then 1%Z else 0%Z))
  | _ => Unmodelled
  end.

Definition greater_than (x : value) (n : Z) : outcome bool :=
  let? m := to_number x in
  Ok (match m with Some m => (n <? m)%Z | None => false end).

Definition at_least (x : value) (n : Z) : outcome bool :=
  let? m := to_number x in
  Ok (match m with Some m => (n <=? m)%Z | None => false end).

Definition at_most (x : value) (n : Z) : outcome bool :=
  let? m := to_number x in
  Ok (match m with Some m => (m <=? n)%Z | None => false end).

(** [a.splice(i, 0, x)] and [a.splice(i, 1)] on the elements. *)
Definition insert_at (i : nat) (x : value) (elems : list value) : list value :=
  firstn i elems ++ x :: skipn i elems.

Definition remove_at (i : nat) (elems : list value) : list value :=
  firstn i elems ++ skipn (S i) elems.

(** The object that holds a reference under [k], after the referenced
    object has changed in place into [x]. *)
Definition with_member (v : value) (k : string) (x : value) : value :=
  match v with
  | VObj props => VObj (define k x props)
  | VArr elems =>
      match index_of_key k with
      | Some i => VArr (store_at (N.to_nat i) x elems)
      | None => v
      end
  | _ => v
  end.

(** [Object.entries(v)], in the order the properties are held. *)
Definition Object_entries (v : value) : outcome (list (string * value)) :=
  match v with
  | VUndef | VNull => Throw TypeError
  | VObj props => Ok props
  | VArr elems =>
      Ok (combine (map (fun i => key_of_index (N.of_nat i))
                     (seq 0 (List.length elems))) elems)
  | VStr s =>
      Ok (combine (map (fun i => key_of_index (N.of_nat i))
                     (seq 0 (String.length s))) (map VStr (chars s)))
  | _ => Ok []
  end.

(* --------------------------------------------------------------------- *)
(** *** JSON *)

(** [JSON.stringify] gives no text for [undefined]; inside an array
    [undefined] is written [null], inside an object the property is left
    out.  The text is kept as the tree [JSON.parse] reads back from it. *)
Fixpoint serialize (v : value) : value :=
  match v with
  | VArr elems =>
      VArr (map (fun x => match x with
                          | VUndef => VNull
                          | _ => serialize x
                          end) elems)
  | VObj props =>
      VObj ((fix members (l : list (string * value)) :=
               match l with
               | [] => []
               | (k, VUndef) :: rest => members rest
               | (k, x) :: rest => (k, serialize x) :: members rest
               end) props)
  | _ => v
  end.

Definition JSON_stringify (v : value) : option value :=
  match v with
  | VUndef => None
  | _ => Some (serialize v)
  end.

(** [JSON.parse(t)]: the argument is converted to a string first, and
    ["undefined"] is not JSON text. *)
Definition JSON_parse (t : option value) : outcome value :=
  match t with
  | Some tree => Ok tree
  | None => Throw SyntaxError
  end.

(** A value that a JSON round trip gives back unchanged. *)
Fixpoint json_clean (v : value) : bool :=
  match v with
  | VUndef => false
  | VArr elems => forallb json_clean elems
  | VObj props => forallb (fun kv => json_clean (snd kv)) props
  | _ => true
  end.

End JS.
Import JS.

(* ===================================================================== *)
(** ** Computations over module-level variables *)
(* ===================================================================== *)

(** A computation over variables of type [S].  When it throws, the
    variables are as they were at that point: assignments made before
    stay made. *)
Definition comp (S A : Type) : Type := S -> outcome A * S.

Definition ret {S A} (a : A) : comp S A := fun st => (Ok a, st).

Definition bind {S A B} (m : comp S A) (k : A -> comp S B) : comp S B :=
  fun st =>
    match m st with
    | (Ok a, st') => k a st'
    | (Throw e, st') => (Throw e, st')
    | (Unmodelled, st') => (Unmodelled, st')
    end.

Definition lift {S A} (o : outcome A) : comp S A := fun st => (o, st).
Definition reads {S A} (f : S -> A) : comp S A := fun st => (Ok (f st), st).
Definition modify {S} (f : S -> S) : comp S unit := fun st => (Ok tt, f st).

(** [l.forEach(body)]. *)
Fixpoint forEach {S A} (l : list A) (body : A -> comp S unit) : comp S unit :=
  match l with
  | [] => ret tt
  | x :: rest => bind (body x) (fun _ => forEach rest body)
  end.

(** The same computation [n] times in a row. *)
Fixpoint times {S} (n : nat) (m : comp S unit) : comp S unit :=
  match n with
  | O => ret tt
  | S n' => bind m (fun _ => times n' m)
  end.

Declare Scope monad_scope.
Delimit Scope monad_scope with monad.
Notation "x <- m ;; k" := (bind m (fun x => k))
  (at level 61, m at next level, right associativity) : monad_scope.
Notation "m ;; k" := (bind m (fun _ => k))
  (at level 61, right associativity) : monad_scope.
Local Open Scope monad_scope.

(* ===================================================================== *)
(** ** The module-level variables of the core scripts *)
(* ===================================================================== *)

Module Runtime.

(** A function held by the event system.  The behaviour of a callback
    supplied from outside is not part of the model: calling it is
    recorded and nothing else.  [WatchHandler] is the closure [handler]
    that [StateManager.watch] creates; [closure] is its identity. *)
Inductive handler : Type :=
| Callback (f : nat)
| WatchHandler (closure : nat) (pathArray : list string) (callback : nat).

Definition handler_eqb (h1 h2 : handler) : bool :=
  match h1, h2 with
  | Callback f, Callback g => Nat.eqb f g
  | WatchHandler c _ _, WatchHandler c' _ _ => Nat.eqb c c'
  | _, _ => false
  end.

(** What the scripts ask of the browser without waiting for an answer. *)
Inductive request : Type :=
| Alert (message : string)
| Focus (node : nat)
| Confirm (message : string)
| ScrollIntoView (pageId : string)
| PreventDefault.

Record store : Type := mkStore {
  initialState : value;                       (* StateManager *)
  state : value;
  changedPaths : list string;
  listeners : list (string * list handler);   (* EventSystem *)
  closures : nat;                 (* closures created so far *)
  invoked : list (nat * value);   (* calls of callbacks, oldest first *)
  entropy : nat -> string;        (* what the n-th [Math.random] gives *)
  draws : nat;                    (* calls of [Math.random] so far *)
  requests : list request         (* requests to the browser, oldest first *)
}.

Definition set_state (v : value) (st : store) : store :=
  mkStore (initialState st) v (changedPaths st) (listeners st)
    (closures st) (invoked st) (entropy st) (draws st) (requests st).

Definition set_changedPaths (c : list string) (st : store) : store :=
  mkStore (initialState st) (state st) c (listeners st)
    (closures st) (invoked st) (entropy st) (draws st) (requests st).

Definition set_listeners (l : list (string * list handler)) (st : store)
  : store :=
  mkStore (initialState st) (state st) (changedPaths st) l
    (closures st) (invoked st) (entropy st) (draws st) (requests st).

Definition set_closures (n : nat) (st : store) : store :=
  mkStore (initialState st) (state st) (changedPaths st) (listeners st)
    n (invoked st) (entropy st) (draws st) (requests st).

Definition set_invoked (l : list (nat * value)) (st : store) : store :=
  mkStore (initialState st) (state st) (changedPaths st) (listeners st)
    (closures st) l (entropy st) (draws st) (requests st).

Definition set_draws (n : nat) (st : store) : store :=
  mkStore (initialState st) (state st) (changedPaths st) (listeners st)
    (closures st) (invoked st) (entropy st) n (requests st).

Definition set_requests (l : list request) (st : store) : store :=
  mkStore (initialState st) (state st) (changedPaths st) (listeners st)
    (closures st) (invoked st) (entropy st) (draws st) l.

Definition record_call (f : nat) (data : value) (st : store) : store :=
  set_invoked (invoked st ++ [(f, data)]) st.

Definition record_request (r : request) (st : store) : store :=
  set_requests (requests st ++ [r]) st.

(** The scripts' computations over the store. *)
Definition M : Type -> Type := comp store.

End Runtime.
Import Runtime.

(* ===================================================================== *)
(** ** utils.js: [Utils] *)
(* ===================================================================== *)

Module Utils.

(** [generateId(prefix)]: the suffix is what
    [Math.random().toString(36).substr(2, 9)] evaluates to, taken from
    the store's [entropy]. *)
Definition generateId (prefix : string) : M string :=
  n <- reads draws ;;
  random <- reads entropy ;;
  modify (set_draws (S n)) ;;
  ret (prefix ++ "-" ++ random n)%string.

(** [deepClone(obj)] is [JSON.parse(JSON.stringify(obj))]. *)
Definition deepClone (obj : value) : outcome value :=
  JSON_parse (JSON_stringify obj).

End Utils.

(* ===================================================================== *)
(** ** utils.js: the private functions of the [StateManager] closure *)
(* ===================================================================== *)

Module StatePrivate.

(** [hasPathChanged(path)], over the current [changedPaths]. *)
Definition hasPathChanged (changedPaths : list string) (path : string) : bool :=
  existsb (fun changedPath =>
             if String.eqb changedPath path then true
             else if prefix (path ++ ".") changedPath then true
             else if prefix (changedPath ++ ".") path then true
             else false)
          changedPaths.

(** The loop of [getValueAtPath], from [current] over the parts left. *)
Fixpoint walk (current : value) (parts : list string) : value :=
  match parts with
  | [] => current
  | part :: rest =>
      if nullish current then VUndef else walk (get_prop current part) rest
  end.

Definition getValueAtPath (obj : value) (path : string) : value :=
  walk obj (split_dot path).

(** The loop and the final assignment of [setValueAtPath]: [current]
    after the writes.  The objects on the way are held by reference, so
    a change below shows in the object above.  An exception can only
    come from reading or writing through [undefined], which is reached
    only through a primitive, before any write was made. *)
Fixpoint assignPath (current : value) (parts : list string) (v : value)
  : outcome value :=
  match parts with
  | [] => Ok current
  | [last] => assign current last v
  | part :: rest =>
      let? child := member current part in
      let? current := (if falsy child then assign current part (VObj [])
                       else Ok current) in
      let? child := member current part in
      let? child' := assignPath child rest v in
      Ok (if is_reference child then with_member current part child'
          else current)
  end.

(** [setValueAtPath(obj, path, value)]: the object afterwards. *)
Definition setValueAtPath (obj : value) (path : string) (v : value)
  : M value :=
  obj' <- lift (assignPath obj (split_dot path) v) ;;
  modify (fun st => set_changedPaths (changedPaths st ++ [path]) st) ;;
  ret obj'.

End StatePrivate.
Import StatePrivate.

(* ===================================================================== *)
(** ** events.js: [EventSystem] (publish and subscribe) *)
(* ===================================================================== *)

Module EventSystem.

Fixpoint handlers_of (event : string) (l : list (string * list handler))
  : option (list handler) :=
  match l with
  | [] => None
  | (e, hs) :: rest => if String.eqb e event then Some hs
                       else handlers_of event rest
  end.

Fixpoint set_handlers (event : string) (hs : list handler)
  (l : list (string * list handler)) : list (string * list handler) :=
  match l with
  | [] => [(event, hs)]
  | (e, hs') :: rest =>
      if String.eqb e event then (e, hs) :: rest
      else (e, hs') :: set_handlers event hs rest
  end.

(** [callback(data)]. *)
Definition call (h : handler) (data : value) : M unit :=
  match h with
  | Callback f => modify (record_call f data)
  | WatchHandler _ pathArray callback =>
      changed <- reads changedPaths ;;
      let shouldUpdate := existsb (hasPathChanged changed) pathArray in
      if shouldUpdate then modify (record_call callback data) else ret tt
  end.

(** [on(event, callback)]; the subscription it returns is the pair that
    [unsubscribe] hands to [off]. *)
Definition on (event : string) (callback : handler)
  : M (string * handler) :=
  modify (fun st =>
            let hs := match handlers_of event (listeners st) with
                      | Some hs => hs
                      | None => []
                      end in
            set_listeners (set_handlers event (hs ++ [callback])
                                        (listeners st)) st) ;;
  ret (event, callback).

Definition off (event : string) (callback : handler) : M unit :=
  modify (fun st =>
            match handlers_of event (listeners st) with
            | Some hs =>
                set_listeners
                  (set_handlers event
                     (filter (fun cb => negb (handler_eqb cb callback)) hs)
                     (listeners st)) st
            | None => st
            end).

Definition unsubscribe (subscription : string * handler) : M unit :=
  off (fst subscription) (snd subscription).

Definition emit (event : string) (data : value) : M unit :=
  l <- reads listeners ;;
  match handlers_of event l with
  | Some hs => forEach hs (fun callback => call callback data)
  | None => ret tt
  end.

Definition cleanup : M unit :=
  modify (fun st =>
            set_listeners (map (fun eh => (fst eh, [])) (listeners st)) st).

End EventSystem.

(* ===================================================================== *)
(** ** utils.js: the public interface of [StateManager] *)
(* ===================================================================== *)

Module StateManager.

(** The initial state; the three identifiers come from [generateId]
    when the script is loaded. *)
Definition initialState (docId pageId blockId : string) : value :=
  VObj [
    ("document", VObj [
       ("id", VStr docId);
       ("name", VStr "Untitled Template");
       ("pages", VArr [
          VObj [
            ("id", VStr pageId);
            ("header", VStr "");
            ("footer", VStr "");
            ("blocks", VArr [
               VObj [ ("id", VStr blockId);
                      ("type", VStr "text");
                      ("content", VStr "") ] ]);
            ("settings", VObj [
               ("size", VStr "A4");
               ("orientation", VStr "portrait");
               ("padding", VObj [ ("top", VNum 2); ("right", VNum 2);
                                  ("bottom", VNum 2); ("left", VNum 2) ]) ])
          ] ]) ]);
    ("ui", VObj [
       ("currentPage", VNum 0);
       ("activeElement", VNull);
       ("selectionRange", VNull);
       ("showMentionPanel", VBool false);
       ("showStylePanel", VBool false);
       ("mentionQuery", VStr "");
       ("autoSaveStatus", VStr "saved");
       ("activeTab", VStr "create") ]);
    ("history", VObj [ ("past", VArr []); ("future", VArr []) ])
  ].

(** The store once the scripts are loaded: the identifiers of the
    initial document, page and block are the first three draws, [state]
    is a clone of [initialState], nothing is subscribed. *)
Definition loaded (random : nat -> string) : store :=
  let init := initialState ("doc" ++ "-" ++ random 0)%string
                           ("page" ++ "-" ++ random 1)%string
                           ("block" ++ "-" ++ random 2)%string in
  mkStore init (serialize init) [] [] 0 [] random 3 [].

Definition getState : M value :=
  s <- reads state ;;
  lift (Utils.deepClone s).

Definition get (path : string) : M value :=
  s <- reads state ;;
  lift (Utils.deepClone (getValueAtPath s path)).

(** [state.history.past.push(x)], [state.history.future = x] and the
    like: a change made inside [state.history], seen from [state]. *)
Definition in_history (change : value -> outcome value) : M unit :=
  s <- reads state ;;
  history <- lift (member s "history") ;;
  history' <- lift (change history) ;;
  modify (set_state (if is_reference history
                     then with_member s "history" history' else s)).

Definition push_past (x : value) (history : value) : outcome value :=
  let? past := member history "past" in
  let? past' := array_push past x in
  Ok (with_member history "past" past').

Definition trim_past (history : value) : outcome value :=
  let? past := member history "past" in
  let? len := member past "length" in
  let? over := greater_than len 50 in
  if over then
    let? r := array_shift past in
    Ok (with_member history "past" (snd r))
  else Ok history.

Definition update (pathOrUpdates : value) (v : value) : M unit :=
  s <- reads state ;;
  prevState <- lift (Utils.deepClone s) ;;
  modify (set_changedPaths []) ;;
  match pathOrUpdates with
  | VStr path =>
      s <- reads state ;;
      s' <- setValueAtPath s path v ;;
      modify (set_state s')
  | _ =>
      entries <- lift (Object_entries pathOrUpdates) ;;
      forEach entries (fun entry =>
        s <- reads state ;;
        s' <- setValueAtPath s (fst entry) (snd entry) ;;
        modify (set_state s'))
  end ;;
  changed <- reads changedPaths ;;
  if (0 <? List.length changed)%nat then
    in_history (push_past prevState) ;;
    in_history (fun history => assign history "future" (VArr [])) ;;
    in_history trim_past ;;
    s <- reads state ;;
    snapshot <- lift (Utils.deepClone s) ;;
    EventSystem.emit "state:changed"
      (VObj [("changedPaths", VArr (map VStr changed)); ("state", snapshot)])
  else ret tt.

Definition undo : M unit :=
  s <- reads state ;;
  history <- lift (member s "history") ;;
  past <- lift (member history "past") ;;
  len <- lift (member past "length") ;;
  nonempty <- lift (greater_than len 0) ;;
  if nonempty then
    current <- lift (Utils.deepClone s) ;;
    future <- lift (member history "future") ;;
    rest <- lift (spread future) ;;
    let newFuture := VArr (current :: rest) in
    popped <- lift (array_pop past) ;;
    modify (set_state (fst popped)) ;;
    in_history (fun history => assign history "future" newFuture) ;;
    s <- reads state ;;
    snapshot <- lift (Utils.deepClone s) ;;
    EventSystem.emit "state:undo" (VObj [("state", snapshot)])
  else ret tt.

Definition redo : M unit :=
  s <- reads state ;;
  history <- lift (member s "history") ;;
  future <- lift (member history "future") ;;
  len <- lift (member future "length") ;;
  nonempty <- lift (greater_than len 0) ;;
  if nonempty then
    past <- lift (member history "past") ;;
    before <- lift (spread past) ;;
    current <- lift (Utils.deepClone s) ;;
    let newPast := VArr (before ++ [current]) in
    shifted <- lift (array_shift future) ;;
    modify (set_state (fst shifted)) ;;
    in_history (fun history => assign history "past" newPast) ;;
    s <- reads state ;;
    snapshot <- lift (Utils.deepClone s) ;;
    EventSystem.emit "state:redo" (VObj [("state", snapshot)])
  else ret tt.

Definition reset : M unit :=
  init <- reads Runtime.initialState ;;
  s <- lift (Utils.deepClone init) ;;
  modify (set_state s) ;;
  snapshot <- lift (Utils.deepClone s) ;;
  EventSystem.emit "state:reset" (VObj [("state", snapshot)]).

(** The argument of [watch]: one path or an array of paths. *)
Inductive watched : Type :=
| OnePath (path : string)
| Paths (paths : list string).

Definition watch (paths : watched) (callback : nat) : M (string * handler) :=
  let pathArray := match paths with
                   | OnePath p => [p]
                   | Paths ps => ps
                   end in
  c <- reads closures ;;
  modify (set_closures (S c)) ;;
  EventSystem.on "state:changed" (WatchHandler c pathArray callback).

End StateManager.

(* ===================================================================== *)
(** ** mention.js: the suggestions of [MentionSystem] and their filter *)
(* ===================================================================== *)

Module MentionSystem.

(** The [type] of a suggestion with the parameters that go with it. *)
Inductive item_type : Type :=
| heading (level : Z)
| table (rows cols : Z)
| columns (count : Z)
| field.

Record item : Type := mkItem {
  id : string;
  type : item_type;
  icon : list N;         (* the code points of the icon *)
  label : string;
  description : string
}.

(** The multiplication sign U+00D7, one code unit. *)
Definition times_sign : string := String (ascii_of_nat 215) EmptyString.

Definition suggestions : list item := [
  mkItem "h1" (heading 1) [72; 49]%N "Heading 1" "Big section heading";
  mkItem "h2" (heading 2) [72; 50]%N "Heading 2" "Medium section heading";
  mkItem "h3" (heading 3) [72; 51]%N "Heading 3" "Small section heading";
  mkItem "table" (table 3 3) [8862]%N "Table" "Insert a table";
  mkItem "table-2x2" (table 2 2) [8862]%N
    ("Table 2" ++ times_sign ++ "2")
    ("Insert a 2" ++ times_sign ++ "2 table");
  mkItem "table-3x3" (table 3 3) [8862]%N
    ("Table 3" ++ times_sign ++ "3")
    ("Insert a 3" ++ times_sign ++ "3 table");
  mkItem "table-4x4" (table 4 4) [8862]%N
    ("Table 4" ++ times_sign ++ "4")
    ("Insert a 4" ++ times_sign ++ "4 table");
  mkItem "cols-2" (columns 2) [10996]%N "2 Columns" "Insert 2-column layout";
  mkItem "cols-3" (columns 3) [10998]%N "3 Columns" "Insert 3-column layout";
  mkItem "cols-4" (columns 4) [11000]%N "4 Columns" "Insert 4-column layout";
  mkItem "field" field [123; 125]%N "Field" "Insert a dynamic field"
]%string.

(** [c.toLowerCase()] on a code unit below 256: the letters A-Z and the
    accented capitals U+00C0-U+00DE, the multiplication sign excepted. *)
Definition lower_char (c : ascii) : ascii :=
  let n := nat_of_ascii c in
  if ((65 <=? n) && (n <=? 90)
      || (192 <=? n) && (n <=? 222) && negb (n =? 215))%nat%bool
  then ascii_of_nat (n + 32) else c.

Fixpoint toLowerCase (s : string) : string :=
  match s with
  | EmptyString => EmptyString
  | String c s' => String (lower_char c) (toLowerCase s')
  end.

(** [s.includes(sub)]. *)
Fixpoint includes (s sub : string) : bool :=
  if prefix sub s then true
  else match s with
       | EmptyString => false
       | String _ s' => includes s' sub
       end.

Definition filterItems (query : string) : list item :=
  match query with
  | EmptyString => suggestions
  | _ =>
      let query := toLowerCase query in
      filter (fun item =>
                includes (toLowerCase (label item)) query
                || includes (toLowerCase (description item)) query)
             suggestions
  end.

(* --------------------------------------------------------------------- *)
(** *** The panel *)

(** A suggestion as the object the script holds.  The icons have code
    units above 255; [icon] is kept as the array of its code points. *)
Definition item_value (it : item) : value :=
  VObj ([ ("id", VStr (id it)) ]
        ++ match type it with
           | heading level =>
               [ ("type", VStr "heading"); ("level", VNum level) ]
           | table rows cols =>
               [ ("type", VStr "table"); ("rows", VNum rows);
                 ("cols", VNum cols) ]
           | columns count =>
               [ ("type", VStr "columns"); ("count", VNum count) ]
           | field => [ ("type", VStr "field") ]
           end
        ++ [ ("icon", VArr (map (fun n => VNum (Z.of_N n)) (icon it)));
             ("label", VStr (label it));
             ("description", VStr (description it)) ]).

(** [filterItems(query)] for whatever [currentQuery] holds: a truthy
    value that is not a string has no [toLowerCase]. *)
Definition filterItems_of (query : value) : outcome (list item) :=
  if falsy query then Ok suggestions
  else match query with
       | VStr s => Ok (filterItems s)
       | _ => Throw TypeError
       end.

(** A [.mention-item] element: its [dataset.id] and whether its class
    list holds [selected]. *)
Record item_el : Type := mkItemEl {
  item_id : string;
  selected : bool
}.

(** The variables of the module.  The elements are kept by what the
    functions read and write of them: the panel by whether its
    [style.display] is [block], the [.mention-items] container by its
    children, the search input by its [value] and by whether it has the
    focus.  Where the panel is placed on the screen and what is
    scrolled into view are not kept. *)
Record panel : Type := mkPanel {
  core : store;
  mentionPanel : option bool;
  mentionItems : option (list item_el);
  searchInput : option string;
  searchFocused : bool;
  isVisible : bool;
  targetRange : value;
  currentQuery : value
}.

Definition set_core (st : store) (p : panel) : panel :=
  mkPanel st (mentionPanel p) (mentionItems p) (searchInput p)
    (searchFocused p) (isVisible p) (targetRange p) (currentQuery p).

Definition set_mentionPanel (d : option bool) (p : panel) : panel :=
  mkPanel (core p) d (mentionItems p) (searchInput p)
    (searchFocused p) (isVisible p) (targetRange p) (currentQuery p).

Definition set_mentionItems (l : option (list item_el)) (p : panel) : panel :=
  mkPanel (core p) (mentionPanel p) l (searchInput p)
    (searchFocused p) (isVisible p) (targetRange p) (currentQuery p).

Definition set_searchInput (v : option string) (p : panel) : panel :=
  mkPanel (core p) (mentionPanel p) (mentionItems p) v
    (searchFocused p) (isVisible p) (targetRange p) (currentQuery p).

Definition set_isVisible (b : bool) (p : panel) : panel :=
  mkPanel (core p) (mentionPanel p) (mentionItems p) (searchInput p)
    (searchFocused p) b (targetRange p) (currentQuery p).

Definition set_targetRange (r : value) (p : panel) : panel :=
  mkPanel (core p) (mentionPanel p) (mentionItems p) (searchInput p)
    (searchFocused p) (isVisible p) r (currentQuery p).

Definition set_currentQuery (q : value) (p : panel) : panel :=
  mkPanel (core p) (mentionPanel p) (mentionItems p) (searchInput p)
    (searchFocused p) (isVisible p) (targetRange p) q.

Definition in_core {A} (m : M A) : comp panel A :=
  fun p => let (o, st) := m (core p) in (o, set_core st p).

(** The elements [filterAndRenderItems] makes: the first one selected. *)
Fixpoint render (items : list item) (index : nat) : list item_el :=
  match items with
  | [] => []
  | it :: rest => mkItemEl (id it) (Nat.eqb index 0) :: render rest (S index)
  end.

Definition filterAndRenderItems : comp panel unit :=
  items <- reads mentionItems ;;
  match items with
  | None => ret tt
  | Some _ =>
      modify (set_mentionItems (Some [])) ;;
      query <- reads currentQuery ;;
      filteredItems <- lift (filterItems_of query) ;;
      modify (set_mentionItems (Some (render filteredItems 0)))
  end.

(** [data.query || '']. *)
Definition query_of (data : value) : outcome value :=
  let? query := member data "query" in
  Ok (if falsy query then VStr EmptyString else query).

(** [showMentionPanel(data)].  Without a panel the function makes one,
    out of the document, which is not modelled; the focus it gives to
    the search input comes from a timer, after the call. *)
Definition showMentionPanel (data : value) : comp panel unit :=
  p <- reads mentionPanel ;;
  match p with
  | None => lift Unmodelled
  | Some _ =>
      range <- lift (member data "targetRange") ;;
      modify (set_targetRange range) ;;
      query <- lift (query_of data) ;;
      modify (set_currentQuery query) ;;
      in_core (StateManager.update (VStr "ui.showMentionPanel") (VBool true)) ;;
      in_core (StateManager.update (VStr "ui.mentionQuery") query) ;;
      filterAndRenderItems ;;
      modify (set_mentionPanel (Some true)) ;;
      modify (set_isVisible true)
  end.

Definition updateMentionPanel (data : value) : comp panel unit :=
  visible <- reads isVisible ;;
  p <- reads mentionPanel ;;
  match visible, p with
  | true, Some _ =>
      query <- lift (query_of data) ;;
      modify (set_currentQuery query) ;;
      in_core (StateManager.update (VStr "ui.mentionQuery") query) ;;
      input <- reads searchInput ;;
      focused <- reads searchFocused ;;
      match input, focused with
      | Some _, false =>
          match query with
          | VStr s => modify (set_searchInput (Some s))
          | _ => lift Unmodelled
          end
      | _, _ => ret tt
      end ;;
      filterAndRenderItems
  | _, _ => ret tt
  end.

Definition hideMentionPanel : comp panel unit :=
  p <- reads mentionPanel ;;
  match p with
  | None => ret tt
  | Some _ =>
      in_core (StateManager.update (VStr "ui.showMentionPanel")
                 (VBool false)) ;;
      modify (set_mentionPanel (Some false)) ;;
      modify (set_isVisible false) ;;
      modify (set_targetRange VNull)
  end.

(** The first loop of [navigateMentionItems]: the index of the last
    element that is selected, or what [selectedIndex] was. *)
Fixpoint last_selected (items : list item_el) (index selectedIndex : Z) : Z :=
  match items with
  | [] => selectedIndex
  | it :: rest =>
      last_selected rest (index + 1)
        (if selected it then index else selectedIndex)
  end.

(** Its second loop: the element at [newIndex] selected, no other. *)
Fixpoint select_only (items : list item_el) (index newIndex : Z)
  : list item_el :=
  match items with
  | [] => []
  | it :: rest =>
      mkItemEl (item_id it) (Z.eqb index newIndex)
      :: select_only rest (index + 1) newIndex
  end.

Definition navigateMentionItems (direction : Z) : comp panel unit :=
  container <- reads mentionItems ;;
  match container with
  | None => ret tt
  | Some items =>
      let length := Z.of_nat (List.length items) in
      if (length =? 0)%Z then ret tt
      else
        let selectedIndex := last_selected items 0 (-1) in
        let newIndex := (selectedIndex + direction)%Z in
        let newIndex := if (newIndex <? 0)%Z then (length - 1)%Z
                        else newIndex in
        let newIndex := if (length <=? newIndex)%Z then 0%Z else newIndex in
        modify (set_mentionItems (Some (select_only items 0 newIndex)))
  end.

Definition selectMentionItem (itemId : string) : comp panel unit :=
  match find (fun suggestion => String.eqb (id suggestion) itemId) suggestions
  with
  | None => ret tt
  | Some item =>
      in_core (EventSystem.emit "mention:select" (item_value item)) ;;
      hideMentionPanel
  end.

Definition selectCurrentMentionItem : comp panel unit :=
  container <- reads mentionItems ;;
  match container with
  | None => ret tt
  | Some items =>
      match find selected items with
      | Some selectedItem => selectMentionItem (item_id selectedItem)
      | None => ret tt
      end
  end.

(** The handler of [keydown] on the document. *)
Definition handleKeydown (key : string) : comp panel unit :=
  visible <- reads isVisible ;;
  if negb visible then ret tt
  else if String.eqb key "Escape" then
    in_core (modify (record_request PreventDefault)) ;;
    hideMentionPanel
  else if (String.eqb key "ArrowDown" || String.eqb key "ArrowUp")%bool then
    in_core (modify (record_request PreventDefault)) ;;
    navigateMentionItems (if String.eqb key "ArrowDown" then 1 else -1)%Z
  else if String.eqb key "Enter" then
    in_core (modify (record_request PreventDefault)) ;;
    selectCurrentMentionItem
  else ret tt.

End MentionSystem.

(* ===================================================================== *)
(** ** page-manager.js: [PageManager] *)
(* ===================================================================== *)

Module PageManager.

(** [pages.findIndex(page => page.id === pageId)]. *)
Fixpoint first_with_id (elems : list value) (pageId : string) (i : nat)
  : outcome (option nat) :=
  match elems with
  | [] => Ok None
  | page :: rest =>
      let? id := member page "id" in
      if strict_eq_str id pageId then Ok (Some i)
      else first_with_id rest pageId (S i)
  end.

Definition findIndex (pages : value) (pageId : string)
  : outcome (option nat) :=
  match pages with
  | VArr elems => first_with_id elems pageId 0
  | _ => Throw TypeError
  end.

(** [StateManager.get('document.pages') || []]. *)
Definition current_pages : M value :=
  got <- StateManager.get "document.pages" ;;
  ret (if falsy got then VArr [] else got).

Definition default_settings : value :=
  VObj [ ("size", VStr "A4");
         ("orientation", VStr "portrait");
         ("padding", VObj [ ("top", VNum 2); ("right", VNum 2);
                            ("bottom", VNum 2); ("left", VNum 2) ]) ].

Definition from_page_manager : value :=
  VObj [("source", VStr "page-manager")].

(** The scroll to the new page runs from a timer; it is recorded as a
    request when the timer is set. *)
Definition addNewPage : M unit :=
  pageId <- Utils.generateId "page" ;;
  blockId <- Utils.generateId "block" ;;
  let newPage :=
    VObj [ ("id", VStr pageId);
           ("header", VStr "");
           ("footer", VStr "");
           ("blocks", VArr [ VObj [ ("id", VStr blockId);
                                    ("type", VStr "text");
                                    ("content", VStr "") ] ]);
           ("settings", default_settings) ] in
  pages <- current_pages ;;
  elems <- lift (spread pages) ;;
  len <- lift (member pages "length") ;;
  StateManager.update
    (VObj [ ("document.pages", VArr (elems ++ [newPage]));
            ("ui.currentPage", len) ])
    from_page_manager ;;
  modify (record_request (ScrollIntoView pageId)).

(** [blocks.forEach(block => { block.id = Utils.generateId('block'); })]:
    the blocks afterwards. *)
Fixpoint renew_block_ids (blocks : list value) : M (list value) :=
  match blocks with
  | [] => ret []
  | block :: rest =>
      id <- Utils.generateId "block" ;;
      block' <- lift (assign block "id" (VStr id)) ;;
      rest' <- renew_block_ids rest ;;
      ret (block' :: rest')
  end.

Definition duplicatePage (pageId : string) : M unit :=
  pages <- current_pages ;;
  found <- lift (findIndex pages pageId) ;;
  match found with
  | None => ret tt
  | Some pageIndex =>
      sourcePage <- lift (member_at pages pageIndex) ;;
      newPage <- lift (Utils.deepClone sourcePage) ;;
      newId <- Utils.generateId "page" ;;
      newPage <- lift (assign newPage "id" (VStr newId)) ;;
      blocks <- lift (member newPage "blocks") ;;
      blocks' <- match blocks with
                 | VArr elems => renew_block_ids elems
                 | _ => lift (Throw TypeError)
                 end ;;
      let newPage := with_member newPage "blocks" (VArr blocks') in
      elems <- lift (spread pages) ;;
      let newPages := insert_at (pageIndex + 1) newPage elems in
      StateManager.update
        (VObj [ ("document.pages", VArr newPages);
                ("ui.currentPage", VNum (Z.of_nat pageIndex + 1)) ])
        from_page_manager ;;
      modify (record_request (ScrollIntoView newId))
  end.

(** [confirmed] is the answer the user gives if [confirm] is shown. *)
Definition deletePage (pageId : string) (confirmed : bool) : M unit :=
  pages <- current_pages ;;
  len <- lift (member pages "length") ;;
  only <- lift (at_most len 1) ;;
  if only then
    modify (record_request (Alert "Cannot delete the only page."))
  else
    modify (record_request
              (Confirm "Are you sure you want to delete this page?")) ;;
    if negb confirmed then ret tt
    else
      found <- lift (findIndex pages pageId) ;;
      match found with
      | None => ret tt
      | Some pageIndex =>
          elems <- lift (spread pages) ;;
          let newPages := remove_at pageIndex elems in
          newCurrentPage <- StateManager.get "ui.currentPage" ;;
          after <- lift (at_least newCurrentPage (Z.of_nat pageIndex)) ;;
          newCurrentPage <-
            (if after then
               n <- lift (to_number newCurrentPage) ;;
               match n with
               | Some n => ret (VNum (Z.max 0 (n - 1)))
               | None => lift Unmodelled
               end
             else ret newCurrentPage) ;;
          StateManager.update
            (VObj [ ("document.pages", VArr newPages);
                    ("ui.currentPage", newCurrentPage) ])
            from_page_manager
      end.

End PageManager.

(* ===================================================================== *)
(** ** The text editor module ([TextEditor]) and the page it edits *)
(* ===================================================================== *)

Module TextEditor.

(** The part of the document tree the editor works on: the page bodies,
    each a sequence of [.editor-block] elements with one editable
    region.  A region is modelled by the markup it holds, read as one run
    of characters: [innerHTML] and [textContent] are that run, offsets
    count its characters, and its last child is a text node unless the
    run is empty.  [node] is the identity of the element; an element
    that is no longer in the tree is outside the model. *)
Record block_el : Type := mkBlock {
  node : nat;
  blockId : string;        (* [dataset.blockId] *)
  content : string
}.

Record range : Type := mkRange {
  container : nat;         (* the region the range lies in *)
  startOffset : nat;
  endOffset : nat
}.

Record trigger : Type := mkTrigger {
  trigger_range : range;
  trigger_query : string
}.

Record key_event : Type := mkKey {
  key : string;
  ctrlKey : bool;
  metaKey : bool;
  shiftKey : bool
}.

Record page : Type := mkPage {
  core : store;
  activeEditor : option nat;              (* TextEditor's variables *)
  lastKeyPressed : option string;
  mentionTriggerPos : option trigger;
  bodies : list (list block_el);          (* the [.page-body] elements *)
  selection : option range;               (* [window.getSelection()] *)
  nodes : nat                             (* elements created so far *)
}.

Definition set_core (st : store) (pg : page) : page :=
  mkPage st (activeEditor pg) (lastKeyPressed pg) (mentionTriggerPos pg)
    (bodies pg) (selection pg) (nodes pg).

Definition set_activeEditor (e : option nat) (pg : page) : page :=
  mkPage (core pg) e (lastKeyPressed pg) (mentionTriggerPos pg)
    (bodies pg) (selection pg) (nodes pg).

Definition set_lastKeyPressed (k : option string) (pg : page) : page :=
  mkPage (core pg) (activeEditor pg) k (mentionTriggerPos pg)
    (bodies pg) (selection pg) (nodes pg).

Definition set_mentionTriggerPos (t : option trigger) (pg : page) : page :=
  mkPage (core pg) (activeEditor pg) (lastKeyPressed pg) t
    (bodies pg) (selection pg) (nodes pg).

Definition set_bodies (b : list (list block_el)) (pg : page) : page :=
  mkPage (core pg) (activeEditor pg) (lastKeyPressed pg)
    (mentionTriggerPos pg) b (selection pg) (nodes pg).

Definition set_selection (r : option range) (pg : page) : page :=
  mkPage (core pg) (activeEditor pg) (lastKeyPressed pg)
    (mentionTriggerPos pg) (bodies pg) r (nodes pg).

Definition set_nodes (n : nat) (pg : page) : page :=
  mkPage (core pg) (activeEditor pg) (lastKeyPressed pg)
    (mentionTriggerPos pg) (bodies pg) (selection pg) n.

Definition T : Type -> Type := comp page.

(** A computation of the core scripts, run on the page's store. *)
Definition in_core {A} (m : M A) : T A :=
  fun pg => let (o, st) := m (core pg) in (o, set_core st pg).

(* --------------------------------------------------------------------- *)
(** *** The document tree *)

(** [document.querySelector('[data-block-id="..."]')]. *)
Definition querySelector (id : string) (pg : page) : option block_el :=
  find (fun b => String.eqb (blockId b) id) (concat (bodies pg)).

Definition element (n : nat) (pg : page) : option block_el :=
  find (fun b => Nat.eqb (node b) n) (concat (bodies pg)).

(** The [.page-body] an element lies in. *)
Definition pageBody (n : nat) (pg : page) : option (list block_el) :=
  find (existsb (fun b => Nat.eqb (node b) n)) (bodies pg).

Fixpoint before (n : nat) (body : list block_el) : option block_el :=
  match body with
  | b :: ((b' :: _) as rest) =>
      if Nat.eqb (node b') n then Some b else before n rest
  | _ => None
  end.

(** [block.previousElementSibling]. *)
Definition previousElementSibling (n : nat) (pg : page) : option block_el :=
  match pageBody n pg with
  | Some body => before n body
  | None => None
  end.

(** [block.remove()]. *)
Definition remove (n : nat) (pg : page) : page :=
  set_bodies
    (map (filter (fun b => negb (Nat.eqb (node b) n))) (bodies pg)) pg.

(** [block.insertAdjacentElement('afterend', newBlock)]. *)
Definition insert_after (n : nat) (new : block_el) (pg : page) : page :=
  set_bodies
    (map (flat_map (fun b => if Nat.eqb (node b) n then [b; new] else [b]))
         (bodies pg)) pg.

Definition set_content (n : nat) (s : string) (pg : page) : page :=
  set_bodies
    (map (map (fun b => if Nat.eqb (node b) n
                        then mkBlock (node b) (blockId b) s else b))
         (bodies pg)) pg.

(** An element of the tree, by identity. *)
Definition attached (n : nat) : T block_el :=
  pg <- reads (fun pg => pg) ;;
  match element n pg with
  | Some el => ret el
  | None => lift Unmodelled
  end.

(** [selection.getRangeAt(0)]. *)
Definition getRangeAt0 : T range :=
  sel <- reads selection ;;
  match sel with
  | Some r => ret r
  | None => lift (Throw DOMException)
  end.

Definition take (n : nat) (s : string) : string := substring 0 n s.
Definition drop (n : nat) (s : string) : string :=
  substring n (String.length s - n) s.

(** [range.deleteContents()] for a range inside one region. *)
Definition deleteContents (r : range) : T unit :=
  el <- attached (container r) ;;
  modify (set_content (container r)
            (take (startOffset r) (content el)
             ++ drop (endOffset r) (content el))%string) ;;
  modify (fun pg =>
            match selection pg with
            | Some s =>
                if Nat.eqb (container s) (container r)
                then set_selection
                       (Some (mkRange (container r) (startOffset r)
                                      (startOffset r))) pg
                else pg
            | None => pg
            end).

(** [document.execCommand('insertHTML', false, html)]: the markup
    replaces the selection and the caret moves behind it. *)
Definition insertHTML (html : string) : T unit :=
  sel <- reads selection ;;
  match sel with
  | None => ret tt
  | Some r =>
      el <- attached (container r) ;;
      modify (set_content (container r)
                (take (startOffset r) (content el) ++ html
                 ++ drop (endOffset r) (content el))%string) ;;
      let caret := startOffset r + String.length html in
      modify (set_selection (Some (mkRange (container r) caret caret)))
  end.

(** [s.trim() === '']. *)
Definition is_space (c : ascii) : bool :=
  let n := nat_of_ascii c in
  ((9 <=? n) && (n <=? 13) || (n =? 32) || (n =? 160))%nat%bool.

Fixpoint blank (s : string) : bool :=
  match s with
  | EmptyString => true
  | String c s' => is_space c && blank s'
  end.

Definition node_value (n : nat) : value := VNum (Z.of_nat n).

Definition range_value (r : range) : value :=
  VObj [ ("startContainer", node_value (container r));
         ("startOffset", VNum (Z.of_nat (startOffset r)));
         ("endContainer", node_value (container r));
         ("endOffset", VNum (Z.of_nat (endOffset r))) ].

(* --------------------------------------------------------------------- *)
(** *** The markup the module makes *)

(** The double quote and the line feed. *)
Definition quote : string := String (ascii_of_nat 34) EmptyString.
Definition line_feed : string := String (ascii_of_nat 10) EmptyString.

(** [for (let i = 0; i < n; i++) html += piece(i)] for a whole number
    [n]: what the loop appends to [html]. *)
Fixpoint appended (count : nat) (i : Z) (piece : Z -> string) : string :=
  match count with
  | O => EmptyString
  | S count' => (piece i ++ appended count' (i + 1) piece)%string
  end.

Definition loop (n : Z) (piece : Z -> string) : string :=
  appended (Z.to_nat n) 0 piece.

(** The [html] of [insertHeading], [insertTable] and [insertColumns]
    when they call [insertContent]. *)
Definition heading_html (level : Z) : string :=
  ("<h" ++ string_of_Z level ++ " data-heading=" ++ quote ++ "true" ++ quote
   ++ ">Heading " ++ string_of_Z level
   ++ "</h" ++ string_of_Z level ++ "><br>")%string.

Definition header_cell (c : Z) : string :=
  ("<th style=" ++ quote
   ++ "border:1px solid #ddd;padding:8px;text-align:left;" ++ quote
   ++ ">Header " ++ string_of_Z (c + 1) ++ "</th>")%string.

Definition body_cell (r c : Z) : string :=
  ("<td style=" ++ quote ++ "border:1px solid #ddd;padding:8px;" ++ quote
   ++ ">Cell " ++ string_of_Z (r + 1) ++ "-" ++ string_of_Z (c + 1)
   ++ "</td>")%string.

Definition body_row (cols r : Z) : string :=
  ("<tr>" ++ loop cols (body_cell r) ++ "</tr>")%string.

Definition table_html (rows cols : Z) : string :=
  ("<table class=" ++ quote ++ "cpq-table" ++ quote ++ " style=" ++ quote
   ++ "width:100%;border-collapse:collapse;margin:10px 0;" ++ quote ++ ">"
   ++ "<thead><tr>"
   ++ loop cols header_cell
   ++ "</tr></thead><tbody>"
   ++ loop rows (body_row cols)
   ++ "</tbody></table><p><br></p>")%string.

Definition column (i : Z) : string :=
  ("<div class=" ++ quote ++ "column" ++ quote ++ " style=" ++ quote
   ++ "flex:1;" ++ quote ++ ">" ++ line_feed
   ++ "                <p>Column " ++ string_of_Z (i + 1) ++ " content</p>"
   ++ line_feed
   ++ "            </div>")%string.

Definition columns_html (count : Z) : string :=
  ("<div class=" ++ quote ++ "columns columns-" ++ string_of_Z count ++ quote
   ++ " style=" ++ quote ++ "display:flex;gap:20px;margin:10px 0;" ++ quote
   ++ ">"
   ++ loop count column
   ++ "</div><p><br></p>")%string.

(* --------------------------------------------------------------------- *)
(** *** The functions of the module *)

Section Host.

(** [Utils.sanitizeHtml] parses markup with the browser and serialises
    what is left of it; the browser's part is a parameter here. *)
Variable sanitizeHtml : string -> string.

(** The loops that look a block up in a state: the last match stays. *)
Fixpoint scan_blocks (blocks : list value) (id : string) (pIndex bIndex : nat)
  (found : option (nat * nat)) : outcome (option (nat * nat)) :=
  match blocks with
  | [] => Ok found
  | block :: rest =>
      let? bid := member block "id" in
      scan_blocks rest id pIndex (S bIndex)
        (if strict_eq_str bid id then Some (pIndex, bIndex) else found)
  end.

Fixpoint scan_pages (pages : list value) (id : string) (pIndex : nat)
  (found : option (nat * nat)) : outcome (option (nat * nat)) :=
  match pages with
  | [] => Ok found
  | page :: rest =>
      let? blocks := member page "blocks" in
      match blocks with
      | VArr elems =>
          let? found := scan_blocks elems id pIndex 0 found in
          scan_pages rest id (S pIndex) found
      | _ => Throw TypeError
      end
  end.

(** [state.document.pages] of a fresh [getState()], and where the
    block is in it. *)
Definition locate (id : string) : M (value * option (nat * nat)) :=
  s <- StateManager.getState ;;
  doc <- lift (member s "document") ;;
  pages <- lift (member doc "pages") ;;
  match pages with
  | VArr elems =>
      found <- lift (scan_pages elems id 0 None) ;;
      ret (pages, found)
  | _ => lift (Throw TypeError)
  end.

Definition index_key (i : nat) : string := key_of_index (N.of_nat i).

(** The timer that sets the status back to ['saved'] a second later is
    not part of the call. *)
Definition saveBlockContent (id : string) (html : string) : M unit :=
  let sanitizedContent := sanitizeHtml html in
  found <- locate id ;;
  match snd found with
  | Some (pageIndex, blockIndex) =>
      StateManager.update
        (VStr ("document.pages." ++ index_key pageIndex ++ ".blocks."
               ++ index_key blockIndex ++ ".content")%string)
        (VStr sanitizedContent) ;;
      StateManager.update (VStr "ui.autoSaveStatus") (VStr "saving")
  | None => ret tt
  end.

Definition setActiveEditor (editor : option nat) : T unit :=
  active <- reads activeEditor ;;
  let same := match active, editor with
              | Some a, Some e => Nat.eqb a e
              | None, None => true
              | _, _ => false
              end in
  if same then ret tt
  else
    modify (set_activeEditor editor) ;;
    id <- match editor with
          | Some e => el <- attached e ;; ret (VStr (blockId el))
          | None => ret VNull
          end ;;
    in_core (StateManager.update (VStr "ui.activeElement") id) ;;
    in_core (EventSystem.emit "editor:active"
               (VObj [("editor", match editor with
                                 | Some e => node_value e
                                 | None => VNull
                                 end)])).

(** [blocks] of the page at [pageIndex], as [[...pages[pageIndex].blocks]]. *)
Definition blocks_at (pages : value) (pageIndex : nat) : M (list value) :=
  pg <- lift (member_at pages pageIndex) ;;
  blocks <- lift (member pg "blocks") ;;
  lift (spread blocks).

Definition addBlockAfter (id : string) : T unit :=
  pg <- reads (fun pg => pg) ;;
  match querySelector id pg with
  | None => ret tt
  | Some block =>
      newBlockId <- in_core (Utils.generateId "block") ;;
      n <- reads nodes ;;
      modify (set_nodes (S n)) ;;
      modify (insert_after (node block) (mkBlock n newBlockId "")) ;;
      in_core (modify (record_request (Focus n))) ;;
      modify (set_selection (Some (mkRange n 0 0))) ;;
      found <- in_core (locate id) ;;
      match snd found with
      | Some (pageIndex, blockIndex) =>
          let newBlockState := VObj [ ("id", VStr newBlockId);
                                      ("type", VStr "text");
                                      ("content", VStr "") ] in
          blocks <- in_core (blocks_at (fst found) pageIndex) ;;
          in_core (StateManager.update
                     (VStr ("document.pages." ++ index_key pageIndex
                            ++ ".blocks")%string)
                     (VArr (insert_at (blockIndex + 1) newBlockState blocks)))
      | None => ret tt
      end
  end.

Definition deleteBlock (id : string) : T unit :=
  pg <- reads (fun pg => pg) ;;
  match querySelector id pg with
  | None => ret tt
  | Some block =>
      let prevBlock := previousElementSibling (node block) pg in
      found <- in_core (locate id) ;;
      match snd found with
      | Some (pageIndex, blockIndex) =>
          blocks <- in_core (blocks_at (fst found) pageIndex) ;;
          in_core (StateManager.update
                     (VStr ("document.pages." ++ index_key pageIndex
                            ++ ".blocks")%string)
                     (VArr (remove_at blockIndex blocks)))
      | None => ret tt
      end ;;
      modify (remove (node block)) ;;
      match prevBlock with
      | Some prev =>
          in_core (modify (record_request (Focus (node prev)))) ;;
          let len := String.length (content prev) in
          modify (set_selection (Some (mkRange (node prev) len len)))
      | None => ret tt
      end
  end.

Definition insertContent (html : string) : T unit :=
  in_core (EventSystem.emit "mention:hide" VUndef) ;;
  modify (set_mentionTriggerPos None) ;;
  active <- reads activeEditor ;;
  match active with
  | None => ret tt
  | Some editor =>
      pos <- reads mentionTriggerPos ;;
      match pos with
      | Some t =>
          r <- getRangeAt0 ;;
          if Nat.eqb (container (trigger_range t)) (container r)
          then deleteContents
                 (mkRange (container r) (startOffset (trigger_range t))
                          (endOffset r))
          else lift Unmodelled
      | None => ret tt
      end ;;
      insertHTML html ;;
      el <- attached editor ;;
      in_core (saveBlockContent (blockId el) (content el))
  end.

Definition insertHeading (level : Z) : T unit :=
  active <- reads activeEditor ;;
  match active with
  | None => ret tt
  | Some _ => insertContent (heading_html level)
  end.

Definition insertTable (rows cols : Z) : T unit :=
  active <- reads activeEditor ;;
  match active with
  | None => ret tt
  | Some _ => insertContent (table_html rows cols)
  end.

Definition insertColumns (count : Z) : T unit :=
  active <- reads activeEditor ;;
  match active with
  | None => ret tt
  | Some _ => insertContent (columns_html count)
  end.

(** A parameter of a suggestion: a whole number. *)
Definition number_at (data : value) (k : string) : T Z :=
  v <- lift (member data k) ;;
  match v with
  | VNum n => ret n
  | _ => lift Unmodelled
  end.

(** The handler of [mention:select]. *)
Definition handleMentionSelect (data : value) : T unit :=
  type <- lift (member data "type") ;;
  if strict_eq_str type "heading" then
    level <- number_at data "level" ;;
    insertHeading level
  else if strict_eq_str type "table" then
    rows <- number_at data "rows" ;;
    cols <- number_at data "cols" ;;
    insertTable rows cols
  else if strict_eq_str type "columns" then
    count <- number_at data "count" ;;
    insertColumns count
  else ret tt.

Definition handleEditorKeydown (e : key_event) : T unit :=
  modify (set_lastKeyPressed (Some (key e))) ;;
  (if String.eqb (key e) "/" then
     r <- getRangeAt0 ;;
     modify (set_mentionTriggerPos (Some (mkTrigger r ""))) ;;
     in_core (EventSystem.emit "mention:show"
                (VObj [("targetRange", range_value r); ("query", VStr "")]))
   else ret tt) ;;
  (if String.eqb (key e) "Backspace" then
     active <- reads activeEditor ;;
     match active with
     | None => ret tt
     | Some editor =>
         el <- attached editor ;;
         if blank (content el) then
           pg <- reads (fun pg => pg) ;;
           match pageBody editor pg with
           | None => lift Unmodelled
           | Some allBlocks =>
               if (1 <? List.length allBlocks)%nat then
                 in_core (modify (record_request PreventDefault)) ;;
                 deleteBlock (blockId el)
               else ret tt
           end
         else ret tt
     end
   else ret tt) ;;
  (if String.eqb (key e) "Tab" then
     in_core (modify (record_request PreventDefault)) ;;
     insertHTML "&nbsp;&nbsp;&nbsp;&nbsp;"
   else ret tt) ;;
  (if (String.eqb (key e) "z" && (ctrlKey e || metaKey e))%bool then
     in_core (modify (record_request PreventDefault)) ;;
     in_core StateManager.undo
   else ret tt) ;;
  (if (String.eqb (key e) "y" && (ctrlKey e || metaKey e))%bool then
     in_core (modify (record_request PreventDefault)) ;;
     in_core StateManager.redo
   else ret tt) ;;
  (if (String.eqb (key e) "Enter" && negb (shiftKey e))%bool then
     sel <- reads selection ;;
     match sel with
     | None => ret tt
     | Some r =>
         active <- reads activeEditor ;;
         match active with
         | None => ret tt
         | Some editor =>
             el <- attached editor ;;
             if (Nat.eqb (endOffset r) (String.length (content el))
                 && String.eqb (content el) "")%bool
             then
               in_core (modify (record_request PreventDefault)) ;;
               addBlockAfter (blockId el)
             else ret tt
         end
     end
   else ret tt).

Definition handleEditorInput : T unit :=
  pos <- reads mentionTriggerPos ;;
  match pos with
  | None => ret tt
  | Some t =>
      sel <- reads selection ;;
      match sel with
      | None => ret tt
      | Some currentRange =>
          active <- reads activeEditor ;;
          match active with
          | None => lift (Throw TypeError)
          | Some editor =>
              el <- attached editor ;;
              let currentText := content el in
              let triggerOffset := startOffset (trigger_range t) in
              let currentOffset := startOffset currentRange in
              if (triggerOffset <? currentOffset)%nat then
                let query := substring triggerOffset
                               (currentOffset - triggerOffset) currentText in
                if (MentionSystem.includes query " "
                    || MentionSystem.includes query
                         (String (ascii_of_nat 10) EmptyString))%bool
                then
                  in_core (EventSystem.emit "mention:hide" VUndef) ;;
                  modify (set_mentionTriggerPos None)
                else
                  in_core (EventSystem.emit "mention:update"
                             (VObj [("query", VStr query)])) ;;
                  modify (set_mentionTriggerPos
                            (Some (mkTrigger (trigger_range t) query)))
              else
                in_core (EventSystem.emit "mention:hide" VUndef) ;;
                modify (set_mentionTriggerPos None)
          end
      end
  end.

End Host.

End TextEditor.

(* ===================================================================== *)
(** ** navigation.js: [Navigation] *)
(* ===================================================================== *)

Module Navigation.

(** [s.trim()], with the white space of [TextEditor.is_space]. *)
Fixpoint trimStart (s : string) : string :=
  match s with
  | EmptyString => EmptyString
  | String c s' => if TextEditor.is_space c then trimStart s' else s
  end.

Fixpoint trimEnd (s : string) : string :=
  match s with
  | EmptyString => EmptyString
  | String c s' =>
      match trimEnd s' with
      | EmptyString => if TextEditor.is_space c then EmptyString
                       else String c EmptyString
      | rest => String c rest
      end
  end.

Definition trim (s : string) : string := trimEnd (trimStart s).

(** A [.nav-tab] element: its [dataset.tab] and whether its class list
    holds [active]. *)
Record tab_el : Type := mkTab {
  tab : string;
  active : bool
}.

(** The elements the module keeps: the [#template-name] input, by its
    [value], when the document has one, and the tabs. *)
Record bar : Type := mkBar {
  core : store;
  templateNameInput : option string;
  navTabs : list tab_el
}.

Definition set_core (st : store) (b : bar) : bar :=
  mkBar st (templateNameInput b) (navTabs b).

Definition set_templateNameInput (v : option string) (b : bar) : bar :=
  mkBar (core b) v (navTabs b).

Definition set_navTabs (l : list tab_el) (b : bar) : bar :=
  mkBar (core b) (templateNameInput b) l.

Definition in_core {A} (m : M A) : comp bar A :=
  fun b => let (o, st) := m (core b) in (o, set_core st b).

(** The handler of [change] and [blur] on the input. *)
Definition handleTemplateName : comp bar unit :=
  input <- reads templateNameInput ;;
  match input with
  | None => lift (Throw TypeError)
  | Some value =>
      let newName := trim value in
      if truthy (VStr newName)
      then in_core (StateManager.update (VStr "document.name") (VStr newName))
      else ret tt
  end.

(** Putting a value that is not a string into the input converts it,
    which is not modelled. *)
Definition updateTemplateName : comp bar unit :=
  name <- in_core (StateManager.get "document.name") ;;
  input <- reads templateNameInput ;;
  match input with
  | Some _ =>
      if truthy name then
        match name with
        | VStr s => modify (set_templateNameInput (Some s))
        | _ => lift Unmodelled
        end
      else ret tt
  | None => ret tt
  end.

(** The handler of a click on the tab whose [dataset.tab] is [tabName]. *)
Definition handleTabChange (tabName : string) : comp bar unit :=
  in_core (StateManager.update (VStr "ui.activeTab") (VStr tabName)).

Definition updateActiveTab : comp bar unit :=
  activeTab <- in_core (StateManager.get "ui.activeTab") ;;
  modify (fun b =>
            set_navTabs
              (map (fun t => mkTab (tab t) (strict_eq_str activeTab (tab t)))
                   (navTabs b)) b).

End Navigation.

(* ===================================================================== *)
(** ** The application module ([CPQEditor]): saving and loading *)
(* ===================================================================== *)

Module CPQEditor.

(** A promise, by what has become of it when the call returns. *)
Inductive promise : Type :=
| Pending
| Resolved (v : value)
| Rejected (error : exn).

(** The item [cpq-editor-state] of [localStorage]: the JSON text it
    holds, kept as the tree [JSON.parse] reads from it. *)
Record app : Type := mkApp {
  core : store;
  localStorage : option value
}.

Definition set_core (st : store) (a : app) : app :=
  mkApp st (localStorage a).

Definition set_localStorage (item : option value) (a : app) : app :=
  mkApp (core a) item.

Definition in_core {A} (m : M A) : comp app A :=
  fun a => let (o, st) := m (core a) in (o, set_core st a).

(** [try { m } catch (error) { handler(error) }]. *)
Definition try_catch {S A} (m : comp S A) (handler : exn -> comp S A)
  : comp S A :=
  fun st =>
    match m st with
    | (Throw error, st') => handler error st'
    | r => r
    end.

(** [new Promise(executor)]: the executor runs at once, and an
    exception it throws rejects the promise. *)
Definition new_Promise {S} (executor : comp S promise) : comp S promise :=
  fun st =>
    match executor st with
    | (Throw error, st') => (Ok (Rejected error), st')
    | r => r
    end.

Definition getState : comp app value := in_core StateManager.getState.

(** [saveState()] up to the point where it returns; the promise is
    resolved by the timer. *)
Definition saveState : comp app promise :=
  new_Promise
    (try_catch
       (in_core (StateManager.update (VStr "ui.autoSaveStatus")
                   (VStr "saving")) ;;
        ret Pending)
       (fun error =>
          in_core (StateManager.update (VStr "ui.autoSaveStatus")
                     (VStr "error")) ;;
          ret (Rejected error))).

(** The function [saveState] hands to [setTimeout]. *)
Definition saveState_timer : comp app promise :=
  state <- in_core StateManager.getState ;;
  match JSON_stringify state with
  | Some text => modify (set_localStorage (Some text))
  | None => lift Unmodelled
  end ;;
  in_core (StateManager.update (VStr "ui.autoSaveStatus") (VStr "saved")) ;;
  ret (Resolved (VBool true)).

Definition loadState : comp app promise :=
  new_Promise
    (try_catch
       (savedState <- reads localStorage ;;
        match savedState with
        | Some text =>
            state <- lift (JSON_parse (Some text)) ;;
            entries <- lift (Object_entries state) ;;
            forEach entries
              (fun entry =>
                 in_core (StateManager.update (VStr (fst entry))
                            (snd entry))) ;;
            ret (Resolved (VBool true))
        | None => ret (Resolved (VBool false))
        end)
       (fun error => ret (Rejected error))).

End CPQEditor.

(* ===================================================================== *)
(** ** Notions used to state the properties *)
(* ===================================================================== *)

(** The handlers subscribed to an event. *)
Definition subscribed (event : string) (st : store) : list handler :=
  match EventSystem.handlers_of event (listeners st) with
  | Some hs => hs
  | None => []
  end.

(** The calls a handler makes when it is called with [data] while the
    changed paths are [changed]. *)
Definition fired (changed : list string) (data : value) (h : handler)
  : list (nat * value) :=
  match h with
  | Callback f => [(f, data)]
  | WatchHandler _ pathArray callback =>
      if existsb (hasPathChanged changed) pathArray then [(callback, data)]
      else []
  end.

(** The calls made on the way from [st] to [st']. *)
Definition calls_between (st st' : store) : list (nat * value) :=
  skipn (List.length (invoked st)) (invoked st').

(** The function a handler ends up calling. *)
Definition callback_of (h : handler) : nat :=
  match h with
  | Callback f => f
  | WatchHandler _ _ callback => callback
  end.



(** The history kept inside a state. *)
Definition history_of (s : value) : value := get_prop s "history".
Definition past_of (s : value) : value := get_prop (history_of s) "past".
Definition future_of (s : value) : value := get_prop (history_of s) "future".

(** A state with [history.past] or [history.future] replaced. *)
Definition with_past (s : value) (p : value) : value :=
  with_member s "history" (with_member (history_of s) "past" p).
Definition with_future (s : value) (f : value) : value :=
  with_member s "history" (with_member (history_of s) "future" f).

(** A commit is one call of [update]; [perform] makes the calls in turn. *)
Definition commit : Type := (value * value)%type.

Definition perform (cs : list commit) : M unit :=
  forEach cs (fun c => StateManager.update (fst c) (snd c)).

(** The states the commits start from, in the order of the commits. *)
Fixpoint pre_states (cs : list commit) (st : store) : list value :=
  match cs with
  | [] => []
  | c :: rest =>
      state st :: pre_states rest (snd (StateManager.update (fst c) (snd c) st))
  end.

(** The paths a commit writes, as [update] reads them off its argument. *)
Definition written (c : commit) : list string :=
  match fst c with
  | VStr path => [path]
  | v => match Object_entries v with
         | Ok entries => map fst entries
         | _ => []
         end
  end.

(** The commit records a changed path. *)
Definition records (c : commit) : bool :=
  negb (Nat.eqb (List.length (written c)) 0).

(** The path does not start at [history]; none of the paths of the
    commit does. *)
Definition off_history (path : string) : bool :=
  negb (String.eqb (hd EmptyString (split_dot path)) "history").

Definition outside_history (c : commit) : bool :=
  forallb off_history (written c).

(** The parts of [update]: one write of the mutation,
    [setValueAtPath(state, path, value)]; the mutation; and what follows
    it when a path was recorded. *)
Definition write (path : string) (v : value) : M unit :=
  s <- reads state ;;
  s' <- setValueAtPath s path v ;;
  modify (set_state s').

Definition mutation (pathOrUpdates v : value) : M unit :=
  match pathOrUpdates with
  | VStr path => write path v
  | _ =>
      entries <- lift (Object_entries pathOrUpdates) ;;
      forEach entries (fun entry => write (fst entry) (snd entry))
  end.

Definition after_change (prevState : value) (changed : list string) : M unit :=
  StateManager.in_history (StateManager.push_past prevState) ;;
  StateManager.in_history
    (fun history => assign history "future" (VArr [])) ;;
  StateManager.in_history StateManager.trim_past ;;
  s <- reads state ;;
  snapshot <- lift (Utils.deepClone s) ;;
  EventSystem.emit "state:changed"
    (VObj [("changedPaths", VArr (map VStr changed)); ("state", snapshot)]).

(** Two stores that differ in [state] and [changedPaths] at most. *)
Definition same_but_state (st st' : store) : Prop :=
  st' = set_changedPaths (changedPaths st') (set_state (state st') st).

(** A computation that calls nothing and subscribes nothing. *)
Definition quiet {A} (m : M A) : Prop :=
  forall st r st', m st = (r, st') ->
    listeners st' = listeners st /\ invoked st' = invoked st.

(** A computation whose calls all come from handlers of [event]. *)
Definition calls_only {A} (event : string) (m : M A) : Prop :=
  forall st r st', m st = (r, st') ->
    listeners st' = listeners st
    /\ exists l, invoked st' = invoked st ++ l
                 /\ forall f d, In (f, d) l ->
                      exists h, In h (subscribed event st)
                                /\ f = callback_of h.

(** A key that is neither an array index nor [length]. *)
Definition name (k : string) : Prop :=
  index_of_key k = None /\ String.eqb k "length" = false.

(** The cap on [past]: the oldest entry goes once there are more than 50. *)
Definition capped (l : list value) : list value :=
  if (50 <? List.length l)%nat then tl l else l.

(** The last [n] elements of a list. *)
Definition lastn {A} (n : nat) (l : list A) : list A :=
  skipn (List.length l - n) l.

(** How [JSON.stringify] writes the properties of an object and the
    elements of an array. *)
Fixpoint members (l : list (string * value)) : list (string * value) :=
  match l with
  | [] => []
  | (k, VUndef) :: rest => members rest
  | (k, x) :: rest => (k, serialize x) :: members rest
  end.

Definition element_json (x : value) : value :=
  match x with
  | VUndef => VNull
  | _ => serialize x
  end.

(** [n] steps of undo are there to take: [past] ends with a snapshot
    whose own [past] ends with a snapshot, and so on, [n] deep. *)
Fixpoint undoable (n : nat) (s : value) : Prop :=
  match n with
  | O => exists ps, past_of s = VArr ps
  | S n' => exists ps x, past_of s = VArr (ps ++ [x]) /\ undoable n' x
  end.

(** [n] times undo, then [n] times redo. *)
Definition roundtrip (n : nat) : M unit :=
  times n StateManager.undo ;; times n StateManager.redo.

(** [sub] occurs in [s]. *)
Definition occurs_in (sub s : string) : Prop :=
  exists a b, s = (a ++ sub ++ b)%string.

(** The test [filterItems] applies to an item. *)
Definition matches (query : string) (item : MentionSystem.item) : bool :=
  MentionSystem.includes
    (MentionSystem.toLowerCase (MentionSystem.label item))
    (MentionSystem.toLowerCase query)
  || MentionSystem.includes
       (MentionSystem.toLowerCase (MentionSystem.description item))
       (MentionSystem.toLowerCase query).

Definition is_table (item : MentionSystem.item) : Prop :=
  exists rows cols,
    MentionSystem.type item = MentionSystem.table rows cols.

(** The shape of a block and of a page in the state. *)
Definition is_block (b : value) : bool :=
  match b with
  | VObj props =>
      match lookup "id" props with
      | Some (VStr _) => true
      | _ => false
      end
  | _ => false
  end.

Definition is_page (p : value) : bool :=
  match p with
  | VObj props =>
      match lookup "id" props, lookup "blocks" props with
      | Some (VStr _), Some (VArr blocks) => forallb is_block blocks
      | _, _ => false
      end
  | _ => false
  end.

Definition id_of (v : value) : value := get_prop v "id".

Definition blocks_of (p : value) : list value :=
  match get_prop p "blocks" with
  | VArr blocks => blocks
  | _ => []
  end.

(** The blocks of a copied page once each has been given the identifier
    drawn for it, the first of them drawing number [n]. *)
Fixpoint renewed (random : nat -> string) (n : nat) (blocks : list value)
  : list value :=
  match blocks with
  | [] => []
  | block :: rest =>
      with_member block "id" (VStr ("block" ++ "-" ++ random n)%string)
      :: renewed random (S n) rest
  end.

(** The identifiers drawn for the copy of [p] are new to [p]: the one
    for the page is not the page's, and none for a block is the
    identifier of a block of [p]. *)
Definition fresh_for (p : value) (random : nat -> string) (n : nat) : Prop :=
  VStr ("page" ++ "-" ++ random n)%string <> id_of p
  /\ forall j b,
       j < List.length (blocks_of p) -> In b (blocks_of p) ->
       VStr ("block" ++ "-" ++ random (S n + j))%string <> id_of b.

(** Draws of the random source for the examples: nine characters in
    base 36 each.  In [repeating_random] the fourth draw repeats the
    second. *)
Definition sample_random (n : nat) : string :=
  match n with
  | 0 => "k3j9x0q2m"
  | 1 => "a1b2c3d4e"
  | 2 => "z9y8x7w6v"
  | 3 => "h7g6f5d4s"
  | _ => "q5w6e7r8t"
  end.

Definition repeating_random (n : nat) : string :=
  match n with
  | 3 => "a1b2c3d4e"
  | _ => sample_random n
  end.

(** The pages of a state. *)
Definition pages_of (s : value) : list value :=
  match getValueAtPath s "document.pages" with
  | VArr pages => pages
  | _ => []
  end.

(** A page in the browser right after loading: the one block of the
    initial document, holding [text], with the caret at [caret]. *)
Definition editing (random : nat -> string) (text : string) (caret : nat)
  (session : option TextEditor.trigger) : TextEditor.page :=
  TextEditor.mkPage (StateManager.loaded random) (Some 0) None session
    [[TextEditor.mkBlock 0 ("block" ++ "-" ++ random 2)%string text]]
    (Some (TextEditor.mkRange 0 caret caret)) 1.

(** Commits for the examples: sixty that set the current page to 1, 2,
    ..., 60, and two that set the current page and the document name. *)
Definition sixty_commits : list commit :=
  map (fun v => (VStr "ui.currentPage", v))
      (map (fun i => VNum (Z.of_nat i)) (seq 1 60)).

Definition two_commits : list commit :=
  [ (VStr "ui.currentPage", VNum 1);
    (VStr "document.name", VStr "Quote") ].
(* ===================================================================== *)
(** ** Notions used for the further properties *)
(* ===================================================================== *)

(** The names every object inherits from [Object.prototype].  A key
    with one of these names is found on an object that does not hold
    it, and a write through it lands outside the object; the other keys
    are read and written on the object itself. *)
Definition inherited : list string :=
  [ "__proto__"; "constructor"; "hasOwnProperty"; "isPrototypeOf";
    "propertyIsEnumerable"; "toLocaleString"; "toString"; "valueOf";
    "__defineGetter__"; "__defineSetter__"; "__lookupGetter__";
    "__lookupSetter__" ].

Definition own_key (k : string) : bool :=
  negb (existsb (String.eqb k) inherited).

(** A path none of whose parts is an inherited name. *)
Definition own_path (path : string) : bool :=
  forallb own_key (split_dot path).

(** A whole number that the code, which computes in doubles, adds to
    and subtracts from without rounding. *)
Definition safe_integer (n : Z) : Prop := (- 2 ^ 53 < n < 2 ^ 53)%Z.

(** A write along [parts] reaches its target: what it goes through is an
    object or an array, or a falsy value, which [setValueAtPath]
    replaces by a new object. *)
Fixpoint writable (current : value) (parts : list string) : bool :=
  match parts with
  | [] => true
  | [_] => is_reference current
  | part :: rest =>
      is_reference current
      && (falsy (get_prop current part)
          || writable (get_prop current part) rest)
  end.

(** Every watcher among the handlers of [state:changed] was made by
    [watch]: its closure is one of those counted. *)
Definition watchers_counted (st : store) : Prop :=
  forall c paths callback,
    In (WatchHandler c paths callback) (subscribed "state:changed" st) ->
    c < closures st.

(** The page [addNewPage] makes: no header, no footer, one empty text
    block, the default settings. *)
Definition blank_page (pageId blockId : string) : value :=
  VObj [ ("id", VStr pageId);
         ("header", VStr "");
         ("footer", VStr "");
         ("blocks", VArr [ VObj [ ("id", VStr blockId);
                                  ("type", VStr "text");
                                  ("content", VStr "") ] ]);
         ("settings", PageManager.default_settings) ].

(** [ui.currentPage] after the page at [pageIndex] was deleted. *)
Definition current_after_delete (pageIndex : nat) (current : Z) : Z :=
  if (Z.of_nat pageIndex <=? current)%Z then Z.max 0 (current - 1)
  else current.

(** [q] lies beside [path]: the two paths have the same first parts,
    then [path] goes on with one part and [q] with another, which is
    not [length]. *)
Definition beside (path q : string) : Prop :=
  exists common k rest k' rest',
    split_dot path = common ++ k :: rest
    /\ split_dot q = common ++ k' :: rest'
    /\ k <> k' /\ k' <> "length".

(** The write along [parts] finds every object and array on its way in
    place: nothing has to be created. *)
Fixpoint through (current : value) (parts : list string) : bool :=
  match parts with
  | [] => true
  | [last] =>
      match current with
      | VObj _ => true
      | VArr _ => match index_of_key last with Some _ => true | None => false end
      | _ => false
      end
  | part :: rest =>
      is_reference current
      && is_reference (get_prop current part)
      && through (get_prop current part) rest
  end.

(** The places of the blocks with identifier [id] in the pages of a
    state, each a page index and a block index, in the order of the
    document; and the place the editor's loops end with, the last one. *)
Fixpoint block_places (blocks : list value) (id : string)
  (pIndex bIndex : nat) : list (nat * nat) :=
  match blocks with
  | [] => []
  | block :: rest =>
      (if strict_eq_str (id_of block) id then [(pIndex, bIndex)] else [])
      ++ block_places rest id pIndex (S bIndex)
  end.

Fixpoint places (pages : list value) (id : string) (pIndex : nat)
  : list (nat * nat) :=
  match pages with
  | [] => []
  | page :: rest =>
      block_places (blocks_of page) id pIndex 0 ++ places rest id (S pIndex)
  end.

Definition located (pages : list value) (id : string) : option (nat * nat) :=
  last (map Some (places pages id 0)) None.

(** The path of a block in the state, and of its content. *)
Definition block_path (pIndex bIndex : nat) : string :=
  "document.pages." ++ TextEditor.index_key pIndex ++ ".blocks."
  ++ TextEditor.index_key bIndex.

Definition content_path (pIndex bIndex : nat) : string :=
  block_path pIndex bIndex ++ ".content".

(** The path of the blocks of a page in the state. *)
Definition blocks_path (pIndex : nat) : string :=
  "document.pages." ++ TextEditor.index_key pIndex ++ ".blocks".

(** The identifiers of the blocks of the page at [pIndex], as the
    state holds them. *)
Definition ids_at (s : value) (pIndex : nat) : list value :=
  match getValueAtPath s (blocks_path pIndex) with
  | VArr blocks => map id_of blocks
  | _ => []
  end.

(** An identifier made of letters, digits, hyphens and underscores, as
    [generateId] makes them: it can be written into a selector as it
    is. *)
Definition word_char (c : ascii) : bool :=
  let n := nat_of_ascii c in
  ((48 <=? n) && (n <=? 57) || (65 <=? n) && (n <=? 90)
   || (97 <=? n) && (n <=? 122) || (n =? 45) || (n =? 95))%nat%bool.

Fixpoint plain_id (id : string) : bool :=
  match id with
  | EmptyString => true
  | String c rest => word_char c && plain_id rest
  end.

(** The block [addBlockAfter] makes in the state. *)
Definition empty_block (id : string) : value :=
  VObj [ ("id", VStr id); ("type", VStr "text"); ("content", VStr "") ].

(** A number that is an array index: below 2^32 - 1. *)
Definition is_index (i : nat) : Prop := (N.of_nat i < 4294967295)%N.

(** The store after [emit(event, data)]. *)
Definition emitted (event : string) (data : value) (st : store) : store :=
  set_invoked
    (invoked st
     ++ flat_map (fired (changedPaths st) data) (subscribed event st)) st.

(** The text of a region after markup was put in place of the part
    between two offsets. *)
Definition spliced (text : string) (from to : nat) (html : string) : string :=
  (TextEditor.take from text ++ html ++ TextEditor.drop to text)%string.

(** The application right after loading, with nothing stored; the same
    after [saveState] and its timer have run; and after the template
    was renamed since. *)
Definition fresh_app : CPQEditor.app :=
  CPQEditor.mkApp (StateManager.loaded sample_random) None.

Definition saved_app : CPQEditor.app :=
  snd ((CPQEditor.saveState ;; CPQEditor.saveState_timer) fresh_app).

Definition renamed_app : CPQEditor.app :=
  snd (CPQEditor.in_core
         (StateManager.update (VStr "document.name") (VStr "Quote"))
         saved_app).

(** The fields of a stored state. *)
Definition stored_field (k : string) (a : CPQEditor.app) : value :=
  match CPQEditor.localStorage a with
  | Some stored => get_prop stored k
  | None => VUndef
  end.

(** Exactly the element at [i] is selected. *)
Definition only_selected (i : nat) (items : list MentionSystem.item_el)
  : Prop :=
  forall j, j < List.length items ->
    MentionSystem.selected
      (nth j items (MentionSystem.mkItemEl EmptyString false))
    = Nat.eqb j i.

(** The index [steps] places further round a list of [n] elements. *)
Definition round (n i : nat) (steps : Z) : nat :=
  Z.to_nat ((Z.of_nat i + steps) mod Z.of_nat n).

(** The panel as [showMentionPanel] leaves it for the query [q], in the
    application right after loading. *)
Definition open_panel (q : string) : MentionSystem.panel :=
  MentionSystem.mkPanel (StateManager.loaded sample_random) (Some true)
    (Some (MentionSystem.render (MentionSystem.filterItems q) 0))
    (Some q) false true (TextEditor.range_value (TextEditor.mkRange 0 0 0))
    (VStr q).

(** The same with a subscriber of [mention:select], as the text editor
    is one. *)
Definition listening_panel (q : string) : MentionSystem.panel :=
  MentionSystem.set_core
    (snd (EventSystem.on "mention:select" (Callback 3)
            (StateManager.loaded sample_random)))
    (open_panel q).

(** How often [sub] occurs in [s]: the number of places where it
    starts. *)
Fixpoint occurrences (sub s : string) : nat :=
  match s with
  | EmptyString => 0
  | String _ s' => (if prefix sub s then 1 else 0) + occurrences sub s'
  end.

(** The character [c] occurs nowhere in [s]. *)
Fixpoint without (c : ascii) (s : string) : bool :=
  match s with
  | EmptyString => true
  | String a s' => negb (Ascii.eqb a c) && without c s'
  end.

(** The opening tag of one column of a layout. *)
Definition column_tag : string :=
  ("<div class=" ++ TextEditor.quote ++ "column" ++ TextEditor.quote)%string.

(** The editor after a second block was added behind the block of the
    initial document, which holds [Hello] in the tree. *)
Definition two_blocks : TextEditor.page :=
  snd (TextEditor.addBlockAfter "block-z9y8x7w6v"
         (editing sample_random "Hello" 5 None)).

(** The characters [JSON.stringify] writes for one character of a
    string: two for the quote, the backslash and the control characters
    that have a short form, six for the other control characters. *)
Definition escape_length (c : ascii) : N :=
  let n := nat_of_ascii c in
  if ((n =? 34) || (n =? 92))%nat%bool then 2%N
  else if (32 <=? n)%nat then 1%N
  else if ((n =? 8) || (n =? 9) || (n =? 10) || (n =? 12) || (n =? 13))%nat%bool
       then 2%N
  else 6%N.

Fixpoint quoted_length (s : string) : N :=
  match s with
  | EmptyString => 2%N
  | String c s' => (escape_length c + quoted_length s')%N
  end.

Definition total (l : list N) : N := fold_right N.add 0%N l.

(** The number of characters of the text of a tree that holds no
    [undefined]: the brackets, the members, and a comma between two
    members; a property is written with its quoted key and a colon. *)
Fixpoint text_length (v : value) : N :=
  match v with
  | VUndef => 0%N
  | VNull => 4%N
  | VBool true => 4%N
  | VBool false => 5%N
  | VNum n => N.of_nat (String.length (string_of_Z n))
  | VStr s => quoted_length s
  | VArr elems =>
      (2 + total (map text_length elems)
       + N.of_nat (pred (List.length elems)))%N
  | VObj props =>
      (2 + total (map (fun '(k, x) => quoted_length k + 1 + text_length x)
                      props)
       + N.of_nat (pred (List.length props)))%N
  end.

(** The length of the string [JSON.stringify(v)] has to build. *)
Definition json_length (v : value) : N := text_length (serialize v).

(** The greatest length a string can have: in ECMAScript [2^53 - 1], in
    V8 on a 64-bit machine [2^29 - 24]; [JSON.stringify] throws a
    [RangeError] for a longer text. *)
Definition max_string_length : N := (2 ^ 53 - 1)%N.
Definition v8_max_string_length : N := (2 ^ 29 - 24)%N.

(** Two states that are equal field for field but for the redo lists
    ([history.future]) of the snapshots kept in [history.past], at any
    depth: either they are equal, or the fields outside [history] are
    equal, the fields of [history] other than [past] and [future] are
    equal, and the snapshots in [history.past] are such states one by
    one. *)
#[warnings="-register-all"] Inductive same_but_redo_lists : value -> value -> Prop :=
| same_state s : same_but_redo_lists s s
| same_but_history s t ps pt :
    (forall k, k <> "history" -> get_prop t k = get_prop s k) ->
    (forall k, k <> "past" -> k <> "future" ->
       get_prop (history_of t) k = get_prop (history_of s) k) ->
    past_of s = VArr ps ->
    past_of t = VArr pt ->
    Forall2 same_but_redo_lists ps pt ->
    same_but_redo_lists s t.

(** [n] commits back, the history is as commits alone leave it below
    the cap: [past] ends with a snapshot, a JSON value, whose own [past]
    is the rest of it, and so on, [n] deep. *)
Fixpoint committed (n : nat) (s : value) : Prop :=
  match n with
  | O => exists ps, past_of s = VArr ps
  | S n' =>
      exists ps x,
        past_of s = VArr (ps ++ [x])
        /\ past_of x = VArr (map element_json ps)
        /\ serialize x = x
        /\ committed n' x
  end.

(* ===================================================================== *)
(** ** Reasoning about computations *)
(* ===================================================================== *)

Lemma obind_Ok {A B} (m : outcome A) (k : A -> outcome B) (b : B) :
  obind m k = Ok b -> exists a, m = Ok a /\ k a = Ok b.
Proof. destruct m; simpl; intros H; try discriminate; eauto. Qed.

Lemma bind_Ok {S A B} (m : comp S A) (k : A -> comp S B) st b st' :
  bind m k st = (Ok b, st') ->
  exists a st1, m st = (Ok a, st1) /\ k a st1 = (Ok b, st').
Proof.
  unfold bind. destruct (m st) as [[a | e |] st1]; intros H;
    try discriminate; eauto.
Qed.

Lemma bind_run {S A B} (m : comp S A) (k : A -> comp S B) st a st1 :
  m st = (Ok a, st1) -> bind m k st = k a st1.
Proof. unfold bind. intros ->. reflexivity. Qed.

Lemma lift_Ok {S A} (o : outcome A) (st : S) a st' :
  lift o st = (Ok a, st') -> o = Ok a /\ st' = st.
Proof. unfold lift. intros H. inversion H. auto. Qed.

Lemma reads_Ok {S A} (f : S -> A) (st : S) a st' :
  reads f st = (Ok a, st') -> a = f st /\ st' = st.
Proof. unfold reads. intros H. inversion H. auto. Qed.

Lemma modify_Ok {S} (f : S -> S) (st : S) u st' :
  modify f st = (Ok u, st') -> st' = f st.
Proof. unfold modify. intros H. inversion H. auto. Qed.

Lemma ret_Ok {S A} (a : A) (st : S) b st' :
  ret a st = (Ok b, st') -> b = a /\ st' = st.
Proof. unfold ret. intros H. inversion H. auto. Qed.

(** Takes a computation that completed apart, step by step. *)
Ltac step H :=
  let a := fresh "a" in
  let st := fresh "st" in
  let H1 := fresh "Hstep" in
  let H2 := fresh "Hstore" in
  lazymatch type of H with
  | bind ?m _ _ = (Ok _, _) =>
      apply bind_Ok in H; destruct H as (a & st & H1 & H);
      lazymatch m with
      | lift _ => apply lift_Ok in H1; destruct H1 as [H1 H2]; subst st
      | reads _ => apply reads_Ok in H1; destruct H1 as [H1 H2]; subst a st
      | modify _ => apply modify_Ok in H1; subst st
      | ret _ => apply ret_Ok in H1; destruct H1 as [H1 H2]; subst a st
      | _ => idtac
      end
  | lift _ _ = (Ok _, _) =>
      apply lift_Ok in H; destruct H as [H H2]; try subst
  | reads _ _ = (Ok _, _) =>
      apply reads_Ok in H; destruct H as [H H2]; try subst
  | modify _ _ = (Ok _, _) => apply modify_Ok in H; try subst
  | ret _ _ = (Ok _, _) =>
      apply ret_Ok in H; destruct H as [H H2]; try subst
  end.

Ltac steps H := repeat step H.

(* ===================================================================== *)
(** ** Values, properties and JSON *)
(* ===================================================================== *)

Lemma eta_store st :
  mkStore (initialState st) (state st) (changedPaths st) (listeners st)
    (closures st) (invoked st) (entropy st) (draws st) (requests st) = st.
Proof. destruct st; reflexivity. Qed.

Lemma deepClone_Ok v v' :
  Utils.deepClone v = Ok v' -> v <> VUndef /\ v' = serialize v.
Proof.
  unfold Utils.deepClone, JSON_stringify, JSON_parse.
  destruct v; intros H; inversion H; split; congruence.
Qed.

Lemma deepClone_defined v :
  v <> VUndef -> Utils.deepClone v = Ok (serialize v).
Proof. destruct v; intros H; try reflexivity. congruence. Qed.

Lemma deepClone_undefined : Utils.deepClone VUndef = Throw SyntaxError.
Proof. reflexivity. Qed.

(* ===================================================================== *)
(** ** Emitting an event *)
(* ===================================================================== *)

Lemma forEach_call hs data st :
  forEach hs (fun callback => EventSystem.call callback data) st
  = (Ok tt,
     set_invoked (invoked st ++ flat_map (fired (changedPaths st) data) hs) st).
Proof.
  revert st. induction hs as [| h hs IH]; intros st.
  - simpl. unfold ret, set_invoked. rewrite app_nil_r, eta_store. reflexivity.
  - simpl forEach. unfold bind.
    assert (Hcall : EventSystem.call h data st
                    = (Ok tt, set_invoked (invoked st
                         ++ fired (changedPaths st) data h) st)).
    { destruct h as [f | c ps cb]; simpl.
      - reflexivity.
      - unfold bind, reads. destruct (existsb _ ps); simpl.
        + reflexivity.
        + unfold ret, set_invoked. rewrite app_nil_r, eta_store. reflexivity. }
    rewrite Hcall, IH. simpl. unfold set_invoked. simpl.
    rewrite <- app_assoc. reflexivity.
Qed.

Lemma emit_spec event data st :
  EventSystem.emit event data st
  = (Ok tt,
     set_invoked (invoked st
                  ++ flat_map (fired (changedPaths st) data)
                       (subscribed event st)) st).
Proof.
  unfold EventSystem.emit, subscribed, bind, reads.
  destruct (EventSystem.handlers_of event (listeners st)) as [hs |].
  - apply forEach_call.
  - simpl. unfold ret, set_invoked. rewrite app_nil_r, eta_store. reflexivity.
Qed.

(* ===================================================================== *)
(** ** C2: reading a path that is not there *)
(* ===================================================================== *)

(** Whatever the state, [get] throws once [getValueAtPath] comes back
    with [undefined]: the clone of [undefined] does not parse. *)
Lemma get_of_missing_path st path :
  getValueAtPath (state st) path = VUndef ->
  StateManager.get path st = (Throw SyntaxError, st).
Proof.
  intros H. unfold StateManager.get, bind, reads, lift. rewrite H. reflexivity.
Qed.

(** C2 (the code departs from the claim): in the store the scripts start
    with, [ui.missing] addresses nothing, [getValueAtPath] gives
    [undefined] for it, and [StateManager.get("ui.missing")] throws a
    SyntaxError where the claim has it return [undefined]. *)
Theorem C2_get_missing_path_throws :
  let st := StateManager.loaded (fun _ => "x") in
  getValueAtPath (state st) "ui.missing" = VUndef
  /\ StateManager.get "ui.missing" st = (Throw SyntaxError, st).
Proof. split; reflexivity. Qed.

(* ===================================================================== *)
(** ** The steps of [update] *)
(* ===================================================================== *)

Lemma same_but_state_refl st : same_but_state st st.
Proof. unfold same_but_state. destruct st; reflexivity. Qed.

Lemma same_but_state_trans st1 st2 st3 :
  same_but_state st1 st2 -> same_but_state st2 st3 -> same_but_state st1 st3.
Proof.
  unfold same_but_state. intros H12 H23. rewrite H23 at 1. rewrite H12 at 1.
  reflexivity.
Qed.

Lemma same_but_state_set_state st s : same_but_state st (set_state s st).
Proof. unfold same_but_state. destruct st; reflexivity. Qed.

Lemma same_but_state_set_changed st c :
  same_but_state st (set_changedPaths c st).
Proof. unfold same_but_state. destruct st; reflexivity. Qed.

Lemma same_but_state_fields st st' :
  same_but_state st st' ->
  listeners st' = listeners st /\ invoked st' = invoked st
  /\ closures st' = closures st /\ initialState st' = initialState st
  /\ entropy st' = entropy st /\ draws st' = draws st
  /\ requests st' = requests st.
Proof. unfold same_but_state. intros ->. simpl. repeat split. Qed.

Create HintDb frame.

#[local] Hint Resolve same_but_state_refl same_but_state_set_state
  same_but_state_set_changed : frame.

Lemma setValueAtPath_Ok obj path v st obj' st' :
  setValueAtPath obj path v st = (Ok obj', st') ->
  assignPath obj (split_dot path) v = Ok obj'
  /\ st' = set_changedPaths (changedPaths st ++ [path]) st.
Proof.
  unfold setValueAtPath. intros H. steps H. auto.
Qed.

Lemma write_Ok path v st u st' :
  write path v st = (Ok u, st') ->
  assignPath (state st) (split_dot path) v = Ok (state st')
  /\ changedPaths st' = changedPaths st ++ [path]
  /\ same_but_state st st'.
Proof.
  unfold write. intros H. step H. step H.
  apply setValueAtPath_Ok in Hstep. destruct Hstep as [Ha ->].
  step H. simpl. repeat split; auto.
Qed.

Lemma writes_Ok entries st st' :
  forEach entries (fun entry => write (fst entry) (snd entry)) st
  = (Ok tt, st') ->
  changedPaths st' = changedPaths st ++ map fst entries
  /\ same_but_state st st'.
Proof.
  revert st. induction entries as [| [p v] entries IH]; intros st H.
  - simpl in H. step H. simpl. rewrite app_nil_r. auto with frame.
  - simpl in H. step H. apply write_Ok in Hstep.
    destruct Hstep as (_ & Hc & Hs). apply IH in H. destruct H as [Hc' Hs'].
    split.
    + rewrite Hc', Hc. simpl. rewrite <- app_assoc. reflexivity.
    + eapply same_but_state_trans; eauto.
Qed.

Lemma in_history_Ok change st u st' :
  StateManager.in_history change st = (Ok u, st') ->
  exists history history',
    member (state st) "history" = Ok history
    /\ change history = Ok history'
    /\ st' = set_state (if is_reference history
                        then with_member (state st) "history" history'
                        else state st) st.
Proof.
  unfold StateManager.in_history. intros H. steps H.
  eexists _, _. repeat split; eauto.
Qed.

Lemma in_history_frame change st u st' :
  StateManager.in_history change st = (Ok u, st') ->
  changedPaths st' = changedPaths st /\ same_but_state st st'.
Proof.
  intros H. apply in_history_Ok in H. destruct H as (h & h' & _ & _ & ->).
  split; [reflexivity | auto with frame].
Qed.

Lemma update_unfold pathOrUpdates v :
  StateManager.update pathOrUpdates v =
  (s <- reads state ;;
   prevState <- lift (Utils.deepClone s) ;;
   modify (set_changedPaths []) ;;
   mutation pathOrUpdates v ;;
   changed <- reads changedPaths ;;
   if (0 <? List.length changed)%nat then after_change prevState changed
   else ret tt).
Proof.
  unfold StateManager.update, mutation, after_change, write.
  destruct pathOrUpdates; reflexivity.
Qed.

Lemma mutation_Ok pathOrUpdates v st u st' :
  mutation pathOrUpdates v st = (Ok u, st') ->
  changedPaths st' = changedPaths st ++ written (pathOrUpdates, v)
  /\ same_but_state st st'.
Proof.
  assert (Hgen : forall entries,
             Object_entries pathOrUpdates = Ok entries ->
             forEach entries (fun entry => write (fst entry) (snd entry)) st
             = (Ok u, st') ->
             (forall p, pathOrUpdates <> VStr p) ->
             changedPaths st' = changedPaths st ++ written (pathOrUpdates, v)
             /\ same_but_state st st').
  { intros entries He H Hn. destruct u. apply writes_Ok in H.
    destruct H as [Hc Hs]. split; auto.
    rewrite Hc. unfold written. simpl fst.
    destruct pathOrUpdates; try rewrite He; try reflexivity.
    exfalso. eapply Hn. reflexivity. }
  unfold mutation.
  destruct pathOrUpdates as [| | b | n | path | elems | props]; intros H;
    try (step H; eapply Hgen; eauto; congruence).
  apply write_Ok in H. destruct H as (_ & Hc & Hs). auto.
Qed.

Lemma after_change_frame prevState changed st u st' :
  after_change prevState changed st = (Ok u, st') ->
  changedPaths st' = changedPaths st.
Proof.
  unfold after_change. intros H.
  step H. apply in_history_frame in Hstep. destruct Hstep as [Hc1 _].
  step H. apply in_history_frame in Hstep. destruct Hstep as [Hc2 _].
  step H. apply in_history_frame in Hstep. destruct Hstep as [Hc3 _].
  step H. step H. rewrite emit_spec in H. inversion H; subst. simpl.
  congruence.
Qed.

Lemma mutation_nothing pathOrUpdates v st u st' :
  mutation pathOrUpdates v st = (Ok u, st') ->
  written (pathOrUpdates, v) = [] ->
  st' = st.
Proof.
  unfold mutation, written. simpl fst.
  destruct pathOrUpdates as [| | b | n | path | elems | props];
    intros H Hw; try discriminate;
    step H; rewrite Hstep in Hw;
    destruct a as [| e es]; try discriminate;
    simpl in H; step H; reflexivity.
Qed.

(* ===================================================================== *)
(** ** C6: a commit that records no path *)
(* ===================================================================== *)

(** C6: when the mutation of an [update] has recorded no changed path,
    the state is what it was, its history included (nothing pushed on
    [past], [future] not cleared), and no callback was called. *)
Theorem C6_no_change_no_history_entry :
  forall pathOrUpdates v st st',
    StateManager.update pathOrUpdates v st = (Ok tt, st') ->
    changedPaths st' = [] ->
    state st' = state st
    /\ past_of (state st') = past_of (state st)
    /\ future_of (state st') = future_of (state st)
    /\ invoked st' = invoked st
    /\ calls_between st st' = [].
Proof.
  intros pu v st st' H Hnone. rewrite update_unfold in H.
  step H. step H. step H. step H.
  pose proof (mutation_Ok _ _ _ Hstep0) as [Hc Hs]. simpl in Hc.
  step H.
  destruct (0 <? List.length (changedPaths st0))%nat eqn:Hlen.
  - apply after_change_frame in H. rewrite Hnone in H.
    rewrite <- H in Hlen. discriminate.
  - step H. rewrite Hnone in Hc. symmetry in Hc.
    apply (mutation_nothing _ _ _ Hstep0) in Hc. subst.
    unfold calls_between. simpl. rewrite skipn_all. repeat split.
Qed.

(** A commit with no entries is such a commit. *)
Lemma C6_witness :
  let st := StateManager.loaded (fun _ => "x") in
  let st' := snd (StateManager.update (VObj []) VUndef st) in
  state st' = state st
  /\ past_of (state st') = past_of (state st)
  /\ future_of (state st') = future_of (state st)
  /\ invoked st' = invoked st
  /\ calls_between st st' = [].
Proof.
  apply (@C6_no_change_no_history_entry (VObj []) VUndef); reflexivity.
Defined.

(* ===================================================================== *)
(** ** Paths and their segments *)
(* ===================================================================== *)

Lemma append_assoc (a b c : string) :
  ((a ++ b) ++ c = a ++ (b ++ c))%string.
Proof. induction a as [| x a IH]; simpl; congruence. Qed.

Lemma split_dot_cons s : exists part parts, split_dot s = part :: parts.
Proof.
  destruct s as [| c s]; simpl; eauto.
  destruct (Ascii.eqb c dot); eauto.
  destruct (split_dot s); eauto.
Qed.

Lemma split_dot_nonempty s : split_dot s <> [].
Proof. destruct (split_dot_cons s) as (p & ps & ->). discriminate. Qed.

Lemma split_dot_app a b :
  split_dot (a ++ String dot b) = split_dot a ++ split_dot b.
Proof.
  induction a as [| c a IH]; simpl.
  - reflexivity.
  - destruct (Ascii.eqb c dot).
    + rewrite IH. reflexivity.
    + rewrite IH. destruct (split_dot_cons a) as (p & ps & ->). reflexivity.
Qed.




Lemma prefix_app p s :
  prefix p s = true <-> exists r, s = (p ++ r)%string.
Proof.
  revert s. induction p as [| c p IH]; intros s.
  - destruct s; simpl; split; eauto.
  - destruct s as [| d s]; simpl.
    + split; [discriminate | intros [r Hr]; discriminate].
    + destruct (ascii_dec c d) as [-> | Hn].
      * rewrite IH. split; intros [r Hr]; exists r; congruence.
      * split; [discriminate | intros [r Hr]; congruence].
Qed.



(* ===================================================================== *)
(** ** What a commit calls *)
(* ===================================================================== *)

Lemma handlers_of_set event hs l :
  EventSystem.handlers_of event (EventSystem.set_handlers event hs l)
  = Some hs.
Proof.
  induction l as [| [e hs'] l IH]; simpl.
  - rewrite String.eqb_refl. reflexivity.
  - destruct (String.eqb e event) eqn:He; simpl; rewrite He; auto.
Qed.

Lemma handlers_of_set_other event event' hs l :
  event <> event' ->
  EventSystem.handlers_of event' (EventSystem.set_handlers event hs l)
  = EventSystem.handlers_of event' l.
Proof.
  intros Hne.
  induction l as [| [e hs'] l IH];
    cbn [EventSystem.handlers_of EventSystem.set_handlers].
  - destruct (String.eqb_spec event event'); [congruence | reflexivity].
  - destruct (String.eqb_spec e event) as [-> | Hn];
      cbn [EventSystem.handlers_of].
    + destruct (String.eqb_spec event event'); [congruence | reflexivity].
    + rewrite IH. reflexivity.
Qed.

Lemma handlers_of_In event l hs :
  EventSystem.handlers_of event l = Some hs -> In (event, hs) l.
Proof.
  induction l as [| [e hs'] l IH]; simpl; [discriminate |].
  destruct (String.eqb_spec e event) as [-> | Hne]; intros H.
  - inversion H. auto.
  - auto.
Qed.

Lemma subscribed_In event st h :
  In h (subscribed event st) ->
  exists hs, In (event, hs) (listeners st) /\ In h hs.
Proof.
  unfold subscribed.
  destruct (EventSystem.handlers_of event (listeners st)) as [hs |] eqn:H.
  - intros Hin. exists hs. split; auto using handlers_of_In.
  - intros [].
Qed.

Lemma fired_callback changed data h f d :
  In (f, d) (fired changed data h) -> f = callback_of h /\ d = data.
Proof.
  destruct h as [g | c ps cb]; simpl.
  - intros [H | []]. inversion H. auto.
  - destruct (existsb _ ps); simpl; [| intros []].
    intros [H | []]. inversion H. auto.
Qed.

Lemma after_change_Ok prevState changed st u st' :
  after_change prevState changed st = (Ok u, st') ->
  exists s data,
    st' = set_invoked
            (invoked st
             ++ flat_map (fired (changedPaths st) data)
                  (subscribed "state:changed" st))
            (set_state s st).
Proof.
  unfold after_change. intros H.
  step H. apply in_history_Ok in Hstep. destruct Hstep as (? & ? & _ & _ & ->).
  step H. apply in_history_Ok in Hstep. destruct Hstep as (? & ? & _ & _ & ->).
  step H. apply in_history_Ok in Hstep. destruct Hstep as (? & ? & _ & _ & ->).
  step H. step H. rewrite emit_spec in H. inversion H; subst. clear H.
  eexists _, _. unfold subscribed. simpl.
  unfold set_invoked, set_state. simpl. reflexivity.
Qed.

(** The calls made by an [update] that completes. *)
Lemma update_calls pathOrUpdates v st st' :
  StateManager.update pathOrUpdates v st = (Ok tt, st') ->
  listeners st' = listeners st
  /\ closures st' = closures st
  /\ changedPaths st' = written (pathOrUpdates, v)
  /\ exists data,
       invoked st'
       = invoked st
         ++ (if (0 <? List.length (changedPaths st'))%nat
             then flat_map (fired (changedPaths st') data)
                    (subscribed "state:changed" st)
             else []).
Proof.
  intros H. rewrite update_unfold in H.
  step H. step H. step H. step H.
  apply mutation_Ok in Hstep0. destruct Hstep0 as [Hc Hs]. simpl in Hc.
  apply same_but_state_fields in Hs. simpl in Hs.
  destruct Hs as (Hl & Hi & Hcl & _).
  step H.
  destruct (0 <? List.length (changedPaths st0))%nat eqn:Hlen.
  - apply after_change_Ok in H. destruct H as (s & data & ->). simpl.
    rewrite Hlen. refine (conj Hl (conj Hcl (conj Hc (ex_intro _ data _)))).
    unfold subscribed. simpl. rewrite Hl, Hi. reflexivity.
  - step H. rewrite Hlen.
    refine (conj Hl (conj Hcl (conj Hc (ex_intro _ VUndef _)))).
    rewrite app_nil_r. auto.
Qed.

(* ===================================================================== *)
(** ** C7: when a watcher is called *)
(* ===================================================================== *)

Lemma watch_spec paths callback st :
  StateManager.watch paths callback st
  = (Ok ("state:changed",
         WatchHandler (closures st)
           match paths with
           | StateManager.OnePath p => [p]
           | StateManager.Paths ps => ps
           end callback),
     set_listeners
       (EventSystem.set_handlers "state:changed"
          (subscribed "state:changed" st
           ++ [WatchHandler (closures st)
                 match paths with
                 | StateManager.OnePath p => [p]
                 | StateManager.Paths ps => ps
                 end callback])
          (listeners st))
       (set_closures (S (closures st)) st)).
Proof. reflexivity. Qed.



(* ===================================================================== *)
(** ** C10: what undo, redo and reset call *)
(* ===================================================================== *)

Lemma quiet_lift {A} (o : outcome A) : quiet (lift o).
Proof. intros st r st' H. inversion H. auto. Qed.

Lemma quiet_reads {A} (f : store -> A) : quiet (reads f).
Proof. intros st r st' H. inversion H. auto. Qed.

Lemma quiet_ret {A} (a : A) : quiet (ret a).
Proof. intros st r st' H. inversion H. auto. Qed.

Lemma quiet_set_state s : quiet (modify (set_state s)).
Proof. intros st r st' H. inversion H. auto. Qed.

Lemma quiet_bind {A B} (m : M A) (k : A -> M B) :
  quiet m -> (forall a, quiet (k a)) -> quiet (bind m k).
Proof.
  intros Hm Hk st r st'. unfold bind.
  destruct (m st) as [[a | e |] st1] eqn:E; intros H;
    destruct (Hm _ _ _ E) as [Hl Hi].
  - destruct (Hk a _ _ _ H) as [Hl' Hi']. split; congruence.
  - inversion H; subst. auto.
  - inversion H; subst. auto.
Qed.

Lemma quiet_in_history change : quiet (StateManager.in_history change).
Proof.
  unfold StateManager.in_history.
  repeat (apply quiet_bind; [| intros ?]);
    auto using quiet_lift, quiet_reads, quiet_set_state.
Qed.

Lemma calls_only_quiet {A} event (m : M A) : quiet m -> calls_only event m.
Proof.
  intros Hm st r st' H. destruct (Hm _ _ _ H) as [Hl Hi]. split; auto.
  exists []. rewrite app_nil_r. split; auto. intros f d [].
Qed.

Lemma calls_only_bind {A B} event (m : M A) (k : A -> M B) :
  quiet m -> (forall a, calls_only event (k a)) ->
  calls_only event (bind m k).
Proof.
  intros Hm Hk st r st'. unfold bind.
  destruct (m st) as [[a | e |] st1] eqn:E; intros H;
    destruct (Hm _ _ _ E) as [Hl Hi].
  - destruct (Hk a _ _ _ H) as (Hl' & l & Hinv & Hfrom).
    split; [congruence |]. exists l. split; [congruence |].
    unfold subscribed in *. rewrite <- Hl. exact Hfrom.
  - inversion H; subst. split; auto. exists []. rewrite app_nil_r.
    split; auto. intros f d [].
  - inversion H; subst. split; auto. exists []. rewrite app_nil_r.
    split; auto. intros f d [].
Qed.

Lemma calls_only_emit event data :
  calls_only event (EventSystem.emit event data).
Proof.
  intros st r st' H. rewrite emit_spec in H. inversion H; subst. clear H.
  split; [reflexivity |]. eexists. split; [reflexivity |].
  intros f d Hin. apply in_flat_map in Hin. destruct Hin as (h & Hh & Hf).
  apply fired_callback in Hf. destruct Hf as [-> _]. eauto.
Qed.

Ltac calls_only_steps :=
  repeat first
    [ apply calls_only_emit
    | apply calls_only_bind;
      [ auto using quiet_lift, quiet_reads, quiet_set_state,
          quiet_in_history, quiet_ret
      | intros ? ]
    | match goal with
      | |- calls_only _ (if ?b then _ else _) => destruct b
      end
    | apply calls_only_quiet; apply quiet_ret ].

Lemma undo_calls : calls_only "state:undo" StateManager.undo.
Proof. unfold StateManager.undo. calls_only_steps. Qed.

Lemma redo_calls : calls_only "state:redo" StateManager.redo.
Proof. unfold StateManager.redo. calls_only_steps. Qed.

Lemma reset_calls : calls_only "state:reset" StateManager.reset.
Proof. unfold StateManager.reset. calls_only_steps. Qed.

(** C10: [watch] subscribes its handler to [state:changed] and to no
    other event; and a callback that is only reached through handlers
    subscribed to [state:changed], as the callbacks given to [watch]
    are, is called by none of [undo], [redo] and [reset], whatever
    their outcome: they emit [state:undo], [state:redo] and
    [state:reset]. *)
Theorem C10_watchers_not_called_by_undo_redo_reset :
  forall (cb : nat) (st : store),
    (forall event hs h,
        In (event, hs) (listeners st) -> In h hs -> callback_of h = cb ->
        event = "state:changed") ->
    (forall paths,
        (exists h, fst (StateManager.watch paths cb st)
                   = Ok ("state:changed", h))
        /\ forall event, event <> "state:changed" ->
             subscribed event (snd (StateManager.watch paths cb st))
             = subscribed event st)
    /\ forall op,
         In op [StateManager.undo; StateManager.redo; StateManager.reset] ->
         forall data, ~ In (cb, data) (calls_between st (snd (op st))).
Proof.
  intros cb st Hinv. split.
  - intros paths. rewrite watch_spec. split; [simpl; eauto |].
    intros event Hne. unfold subscribed. cbn [snd listeners set_listeners].
    rewrite handlers_of_set_other by congruence. reflexivity.
  - intros op Hop data Hin.
    assert (Hcalls : exists event, event <> "state:changed"
                                   /\ calls_only event op).
    { simpl in Hop. destruct Hop as [<- | [<- | [<- | []]]].
      - exists "state:undo". split; [discriminate | apply undo_calls].
      - exists "state:redo". split; [discriminate | apply redo_calls].
      - exists "state:reset". split; [discriminate | apply reset_calls]. }
    destruct Hcalls as (event & Hne & Hcalls).
    destruct (op st) as [r st'] eqn:E. simpl in Hin.
    destruct (Hcalls _ _ _ E) as (_ & l & Hl & Hfrom).
    unfold calls_between in Hin.
    rewrite Hl, skipn_app, skipn_all, Nat.sub_diag in Hin. simpl in Hin.
    destruct (Hfrom _ _ Hin) as (h & Hh & Hcb).
    apply subscribed_In in Hh. destruct Hh as (hs & H1 & H2).
    apply Hne. eapply Hinv; eauto.
Qed.

(** A watcher of [document.pages], after one commit, through undo. *)
Lemma C10_witness :
  let st := snd ((StateManager.watch (StateManager.OnePath "document.pages") 7
                  ;; StateManager.update (VStr "document.pages") (VArr []))
                   (StateManager.loaded (fun _ => "x"))) in
  (forall paths,
      (exists h, fst (StateManager.watch paths 7 st)
                 = Ok ("state:changed", h))
      /\ forall event, event <> "state:changed" ->
           subscribed event (snd (StateManager.watch paths 7 st))
           = subscribed event st)
  /\ forall op,
       In op [StateManager.undo; StateManager.redo; StateManager.reset] ->
       forall data, ~ In (7, data) (calls_between st (snd (op st))).
Proof.
  apply C10_watchers_not_called_by_undo_redo_reset.
  intros event hs h Hin. vm_compute in Hin.
  destruct Hin as [Hin | []]. inversion Hin; subst. reflexivity.
Defined.

(* ===================================================================== *)
(** ** Properties of objects *)
(* ===================================================================== *)

Lemma lookup_define_same k v props : lookup k (define k v props) = Some v.
Proof.
  induction props as [| [k' v'] props IH]; cbn [define lookup].
  - rewrite String.eqb_refl. reflexivity.
  - destruct (String.eqb_spec k' k) as [-> | Hne]; cbn [lookup].
    + rewrite String.eqb_refl. reflexivity.
    + destruct (String.eqb_spec k' k); [congruence | exact IH].
Qed.

Lemma lookup_define_other k k' v props :
  k <> k' -> lookup k' (define k v props) = lookup k' props.
Proof.
  intros Hne. induction props as [| [k0 v0] props IH]; cbn [define lookup].
  - destruct (String.eqb_spec k k'); [congruence | reflexivity].
  - destruct (String.eqb_spec k0 k) as [-> | Hn]; cbn [lookup].
    + destruct (String.eqb_spec k k'); [congruence | reflexivity].
    + rewrite IH. reflexivity.
Qed.

Lemma name_history : name "history". Proof. split; reflexivity. Qed.
Lemma name_past : name "past". Proof. split; reflexivity. Qed.
Lemma name_future : name "future". Proof. split; reflexivity. Qed.

Create HintDb names.

#[local] Hint Resolve name_history name_past name_future : names.

(** Only an object holds an object or an array under a name. *)
Lemma get_prop_reference v k :
  name k -> is_reference (get_prop v k) = true ->
  exists props, v = VObj props /\ lookup k props = Some (get_prop v k).
Proof.
  intros [Hi Hl] H. destruct v as [| | b | n | s | elems | props];
    cbn [get_prop] in *; try discriminate.
  - rewrite Hl, Hi in H. discriminate.
  - rewrite Hl, Hi in H. discriminate.
  - exists props. split; auto.
    destruct (lookup k props); [reflexivity | discriminate].
Qed.

Lemma get_prop_VObj props k :
  get_prop (VObj props) k
  = match lookup k props with Some x => x | None => VUndef end.
Proof. reflexivity. Qed.

Lemma get_with_member_same props k x :
  get_prop (with_member (VObj props) k x) k = x.
Proof. cbn [with_member get_prop]. rewrite lookup_define_same. auto. Qed.

Lemma get_with_member_other props k k' x :
  k <> k' ->
  get_prop (with_member (VObj props) k x) k' = get_prop (VObj props) k'.
Proof.
  intros H. cbn [with_member get_prop]. rewrite lookup_define_other; auto.
Qed.

Lemma member_defined v k :
  nullish v = false -> member v k = Ok (get_prop v k).
Proof. unfold member. intros ->. reflexivity. Qed.

Lemma member_Ok v k x :
  member v k = Ok x -> nullish v = false /\ x = get_prop v k.
Proof.
  unfold member. destruct (nullish v); intros H; inversion H. auto.
Qed.

(** The shape the history operations rely on: an object whose
    [history] is an object whose [past] is an array. *)
Lemma past_array_shape s ps :
  past_of s = VArr ps ->
  exists props hprops,
    s = VObj props
    /\ lookup "history" props = Some (VObj hprops)
    /\ lookup "past" hprops = Some (VArr ps).
Proof.
  unfold past_of, history_of. intros H.
  destruct (get_prop_reference (get_prop s "history") name_past)
    as (hprops & Hh & Hp); [rewrite H; reflexivity |].
  destruct (get_prop_reference s name_history) as (props & Hs & Hl);
    [rewrite Hh; reflexivity |].
  exists props, hprops. rewrite Hh in Hl. rewrite H in Hp. auto.
Qed.

Lemma history_object_shape s hprops :
  history_of s = VObj hprops ->
  exists props, s = VObj props /\ lookup "history" props = Some (VObj hprops).
Proof.
  unfold history_of. intros H.
  destruct (get_prop_reference s name_history) as (props & Hs & Hl);
    [rewrite H; reflexivity |].
  exists props. rewrite H in Hl. auto.
Qed.

Lemma past_of_with_past props hprops p :
  lookup "history" props = Some (VObj hprops) ->
  past_of (with_past (VObj props) p) = p.
Proof.
  intros H. unfold past_of, with_past, history_of.
  rewrite get_with_member_same, get_prop_VObj, H.
  apply get_with_member_same.
Qed.

Lemma future_of_with_past props hprops p :
  lookup "history" props = Some (VObj hprops) ->
  future_of (with_past (VObj props) p) = future_of (VObj props).
Proof.
  intros H. unfold future_of, with_past, history_of.
  rewrite get_with_member_same, get_prop_VObj, H.
  apply get_with_member_other. discriminate.
Qed.

Lemma future_of_with_future props hprops f :
  lookup "history" props = Some (VObj hprops) ->
  future_of (with_future (VObj props) f) = f.
Proof.
  intros H. unfold future_of, with_future, history_of.
  rewrite get_with_member_same, get_prop_VObj, H.
  apply get_with_member_same.
Qed.

Lemma past_of_with_future props hprops f :
  lookup "history" props = Some (VObj hprops) ->
  past_of (with_future (VObj props) f) = past_of (VObj props).
Proof.
  intros H. unfold past_of, with_future, history_of.
  rewrite get_with_member_same, get_prop_VObj, H.
  apply get_with_member_other. discriminate.
Qed.

Lemma other_fields_with_past s p k :
  k <> "history" -> get_prop (with_past s p) k = get_prop s k.
Proof.
  intros H. unfold with_past. destruct s; try reflexivity.
  apply get_with_member_other. congruence.
Qed.

(* ===================================================================== *)
(** ** The history steps of a commit *)
(* ===================================================================== *)

Lemma in_history_run change st props h h' :
  state st = VObj props ->
  lookup "history" props = Some h ->
  is_reference h = true ->
  change h = Ok h' ->
  StateManager.in_history change st
  = (Ok tt, set_state (with_member (VObj props) "history" h') st).
Proof.
  intros Hs Hl Hr Hc. unfold StateManager.in_history.
  cbn [bind reads]. rewrite Hs.
  rewrite member_defined by reflexivity. cbn [bind lift].
  rewrite get_prop_VObj, Hl, Hc. cbn [modify]. rewrite Hr. reflexivity.
Qed.

Lemma push_past_run x hprops ps :
  lookup "past" hprops = Some (VArr ps) ->
  StateManager.push_past x (VObj hprops)
  = Ok (with_member (VObj hprops) "past" (VArr (ps ++ [x]))).
Proof.
  intros H. unfold StateManager.push_past.
  rewrite member_defined by reflexivity. cbn [obind].
  rewrite get_prop_VObj, H. reflexivity.
Qed.

Lemma greater_than_length (l : list value) (n : nat) :
  greater_than (VNum (Z.of_nat (List.length l))) (Z.of_nat n)
  = Ok (n <? List.length l)%nat.
Proof.
  unfold greater_than, to_number. cbn [obind]. f_equal.
  destruct (Nat.ltb_spec n (List.length l)) as [H | H].
  - apply Z.ltb_lt. lia.
  - apply Z.ltb_ge. lia.
Qed.

Lemma trim_past_run hprops l :
  lookup "past" hprops = Some (VArr l) ->
  StateManager.trim_past (VObj hprops)
  = Ok (with_member (VObj hprops) "past" (VArr (capped l))).
Proof.
  intros H. unfold StateManager.trim_past.
  rewrite member_defined by reflexivity. cbn [obind].
  rewrite get_prop_VObj, H.
  rewrite member_defined by reflexivity. cbn [obind].
  change (get_prop (VArr l) "length") with (VNum (Z.of_nat (List.length l))).
  change 50%Z with (Z.of_nat 50). rewrite greater_than_length. cbn [obind].
  unfold capped. destruct (50 <? List.length l)%nat.
  - reflexivity.
  - f_equal. cbn [with_member]. f_equal.
    clear - H. induction hprops as [| [k v] hprops IH];
      cbn [lookup define] in *; [discriminate |].
    destruct (String.eqb_spec k "past") as [-> | Hne].
    + inversion H. reflexivity.
    + rewrite <- IH by assumption. reflexivity.
Qed.

(** What follows the writes of a commit, run on a state whose history
    has an array for [past]. *)
Lemma after_change_run prevState changed st ps :
  past_of (state st) = VArr ps ->
  exists s' data,
    after_change prevState changed st
    = (Ok tt,
       set_invoked (invoked st
                    ++ flat_map (fired (changedPaths st) data)
                         (subscribed "state:changed" st))
                   (set_state s' st))
    /\ past_of s' = VArr (capped (ps ++ [prevState]))
    /\ future_of s' = VArr []
    /\ (forall k, k <> "history" -> get_prop s' k = get_prop (state st) k).
Proof.
  intros Hp. destruct (past_array_shape _ Hp) as (props & hprops & Hs & Hh & Hl).
  unfold after_change.
  (* state.history.past.push(prevState) *)
  erewrite bind_run
    by (eapply in_history_run; eauto using push_past_run).
  set (h1 := with_member (VObj hprops) "past" (VArr (ps ++ [prevState]))).
  set (s1 := with_member (VObj props) "history" h1).
  (* state.history.future = [] *)
  erewrite bind_run.
  2:{ eapply in_history_run with (h := h1).
      - reflexivity.
      - cbn [with_member]. apply lookup_define_same.
      - reflexivity.
      - reflexivity. }
  set (h2 := VObj (define "future" (VArr [])
                     (define "past" (VArr (ps ++ [prevState])) hprops))).
  set (props1 := define "history" h1 props).
  set (s2 := with_member (VObj props1) "history" h2).
  (* the cap *)
  erewrite bind_run.
  2:{ eapply in_history_run with (h := h2).
      - reflexivity.
      - cbn [with_member]. apply lookup_define_same.
      - reflexivity.
      - apply trim_past_run with (l := ps ++ [prevState]).
        rewrite lookup_define_other by discriminate.
        apply lookup_define_same. }
  set (h3 := with_member h2 "past" (VArr (capped (ps ++ [prevState])))).
  set (props2 := define "history" h2 props1).
  set (s3 := with_member (VObj props2) "history" h3).
  cbn [bind reads set_state state lift].
  rewrite deepClone_defined by discriminate. rewrite emit_spec.
  exists s3. eexists. split; [reflexivity |].
  split; [| split].
  - unfold past_of, history_of, s3. rewrite get_with_member_same.
    apply get_with_member_same.
  - unfold future_of, history_of, s3. rewrite get_with_member_same.
    unfold h3, h2. rewrite get_with_member_other by discriminate.
    rewrite get_prop_VObj, lookup_define_same. reflexivity.
  - intros k Hk. unfold s3, props2, props1.
    rewrite get_with_member_other by congruence.
    rewrite !get_prop_VObj.
    rewrite !lookup_define_other by congruence. rewrite Hs. reflexivity.
Qed.

Lemma push_past_Ok x history history' :
  StateManager.push_past x history = Ok history' ->
  exists ps, get_prop history "past" = VArr ps.
Proof.
  unfold StateManager.push_past. intros H.
  apply obind_Ok in H. destruct H as (p & Hm & H).
  apply member_Ok in Hm. destruct Hm as [_ ->].
  apply obind_Ok in H. destruct H as (p' & Hp & _).
  destruct (get_prop history "past"); try discriminate. eauto.
Qed.

Lemma after_change_Ok_shape prevState changed st u st' :
  after_change prevState changed st = (Ok u, st') ->
  exists ps, past_of (state st) = VArr ps.
Proof.
  unfold after_change. intros H. step H.
  apply in_history_Ok in Hstep.
  destruct Hstep as (h & h' & Hm & Hp & _).
  apply member_Ok in Hm. destruct Hm as [_ ->].
  apply push_past_Ok in Hp. exact Hp.
Qed.

(** The state a commit that recorded a path leaves, in terms of the
    state [mid] its writes produced and of the snapshot taken before. *)
Lemma update_history pathOrUpdates v st st' :
  StateManager.update pathOrUpdates v st = (Ok tt, st') ->
  records (pathOrUpdates, v) = true ->
  exists mid ps,
    mutation pathOrUpdates v (set_changedPaths [] st) = (Ok tt, mid)
    /\ past_of (state mid) = VArr ps
    /\ past_of (state st') = VArr (capped (ps ++ [serialize (state st)]))
    /\ future_of (state st') = VArr []
    /\ (forall k, k <> "history" ->
                  get_prop (state st') k = get_prop (state mid) k).
Proof.
  intros H Hrec. rewrite update_unfold in H.
  step H. step H. step H. step H.
  apply deepClone_Ok in Hstep. destruct Hstep as [_ ->].
  pose proof (mutation_Ok _ _ _ Hstep0) as [Hc _]. simpl in Hc.
  step H.
  assert (Hlen : (0 <? List.length (changedPaths st0))%nat = true).
  { rewrite Hc. unfold records in Hrec.
    destruct (List.length (written (pathOrUpdates, v))); [discriminate |].
    reflexivity. }
  rewrite Hlen in H.
  destruct (after_change_Ok_shape _ _ _ H) as (ps & Hps).
  destruct (after_change_run (serialize (state st)) (changedPaths st0) st0 Hps)
    as (s' & data & Hrun & Hpast & Hfut & Hother).
  rewrite Hrun in H. inversion H; subst. clear H. simpl.
  exists st0, ps. destruct a1. repeat split; auto.
Qed.

(* ===================================================================== *)
(** ** Writes that stay outside [history] *)
(* ===================================================================== *)

Lemma assign_other s k x s' k' :
  assign s k x = Ok s' -> k <> k' -> name k' ->
  get_prop s' k' = get_prop s k'.
Proof.
  intros H Hne [Hi Hl].
  destruct s as [| | b | n | t | elems | props]; cbn [assign] in H;
    try discriminate; try (inversion H; reflexivity).
  - destruct (index_of_key k); inversion H.
    cbn [get_prop]. rewrite Hl, Hi. reflexivity.
  - inversion H. cbn [get_prop]. rewrite lookup_define_other; auto.
Qed.

Lemma with_member_other s k x k' :
  k <> k' -> name k' -> get_prop (with_member s k x) k' = get_prop s k'.
Proof.
  intros Hne [Hi Hl].
  destruct s as [| | b | n | t | elems | props]; cbn [with_member];
    try reflexivity.
  - destruct (index_of_key k); [| reflexivity].
    cbn [get_prop]. rewrite Hl, Hi. reflexivity.
  - cbn [get_prop]. rewrite lookup_define_other; auto.
Qed.

Lemma assignPath_other s k rest v s' k' :
  assignPath s (k :: rest) v = Ok s' -> k <> k' -> name k' ->
  get_prop s' k' = get_prop s k'.
Proof.
  intros H Hne Hn. destruct rest as [| r rest].
  - cbn [assignPath] in H. eapply assign_other; eauto.
  - cbn [assignPath] in H.
    apply obind_Ok in H. destruct H as (child0 & _ & H).
    apply obind_Ok in H. destruct H as (s1 & Hs1 & H).
    apply obind_Ok in H. destruct H as (child & _ & H).
    apply obind_Ok in H. destruct H as (child' & _ & H).
    inversion H; subst. clear H.
    assert (H1 : get_prop s1 k' = get_prop s k').
    { destruct (falsy child0).
      - eapply assign_other; eauto.
      - inversion Hs1. reflexivity. }
    destruct (is_reference child); [| exact H1].
    rewrite with_member_other; auto.
Qed.

Lemma write_outside path v st u st' :
  write path v st = (Ok u, st') ->
  off_history path = true ->
  history_of (state st') = history_of (state st).
Proof.
  intros H Hp. apply write_Ok in H. destruct H as (Ha & _ & _).
  unfold off_history in Hp.
  destruct (split_dot_cons path) as (k & rest & Hs). rewrite Hs in *.
  cbn [hd] in Hp. unfold history_of.
  eapply assignPath_other; eauto using name_history.
  intros ->. discriminate.
Qed.

Lemma writes_outside entries st st' :
  forEach entries (fun entry => write (fst entry) (snd entry)) st
  = (Ok tt, st') ->
  forallb off_history (map fst entries) = true ->
  history_of (state st') = history_of (state st).
Proof.
  revert st. induction entries as [| [p v] entries IH]; intros st H Hall.
  - simpl in H. step H. reflexivity.
  - simpl in H. step H. simpl in Hall.
    apply andb_true_iff in Hall. destruct Hall as [Hp Hall].
    apply write_outside in Hstep; auto.
    rewrite (IH _ H Hall). exact Hstep.
Qed.

Lemma mutation_outside pathOrUpdates v st st' :
  mutation pathOrUpdates v st = (Ok tt, st') ->
  outside_history (pathOrUpdates, v) = true ->
  history_of (state st') = history_of (state st).
Proof.
  unfold outside_history, written, mutation. simpl fst.
  destruct pathOrUpdates as [| | b | n | path | elems | props];
    intros H Hout;
    try (step H; rewrite Hstep in Hout; eapply writes_outside; eauto).
  eapply write_outside; eauto. simpl in Hout.
  rewrite andb_true_r in Hout. exact Hout.
Qed.

(** A commit outside [history] pushes the snapshot on the [past] that
    was there, under the cap. *)
Lemma commit_past c st st' ps :
  StateManager.update (fst c) (snd c) st = (Ok tt, st') ->
  records c = true -> outside_history c = true ->
  past_of (state st) = VArr ps ->
  past_of (state st') = VArr (capped (ps ++ [serialize (state st)])).
Proof.
  destruct c as [pu v]. simpl fst; simpl snd. intros H Hrec Hout Hp.
  destruct (update_history _ _ _ H Hrec) as (mid & ps' & Hm & Hp' & Hpast & _).
  apply mutation_outside in Hm; auto. simpl in Hm.
  unfold past_of in Hp'. rewrite Hm in Hp'. fold (past_of (state st)) in Hp'.
  rewrite Hp in Hp'. inversion Hp'; subst. exact Hpast.
Qed.

Lemma perform_cons c cs st st' :
  perform (c :: cs) st = (Ok tt, st') ->
  exists st1,
    StateManager.update (fst c) (snd c) st = (Ok tt, st1)
    /\ perform cs st1 = (Ok tt, st').
Proof.
  unfold perform. cbn [forEach]. intros H. step H. destruct a. eauto.
Qed.

Lemma perform_past cs : forall st st' ps,
  perform cs st = (Ok tt, st') ->
  forallb records cs = true -> forallb outside_history cs = true ->
  past_of (state st) = VArr ps ->
  past_of (state st')
  = VArr (fold_left (fun acc s => capped (acc ++ [serialize s]))
            (pre_states cs st) ps).
Proof.
  induction cs as [| c cs IH]; intros st st' ps H Hrec Hout Hp.
  - unfold perform in H. simpl in H. step H. exact Hp.
  - apply perform_cons in H. destruct H as (st1 & Hup & H).
    simpl in Hrec, Hout.
    apply andb_true_iff in Hrec. destruct Hrec as [Hr Hrec].
    apply andb_true_iff in Hout. destruct Hout as [Ho Hout].
    cbn [pre_states fold_left]. rewrite Hup. cbn [snd].
    eapply IH; eauto. eapply commit_past; eauto.
Qed.

Lemma pre_states_length cs : forall st,
  List.length (pre_states cs st) = List.length cs.
Proof. induction cs as [| c cs IH]; intros st; simpl; auto. Qed.

(* ===================================================================== *)
(** ** The cap keeps the most recent entries *)
(* ===================================================================== *)

Lemma capped_length l :
  List.length l <= 51 -> List.length (capped l) <= 50.
Proof.
  unfold capped. intros H. destruct (Nat.ltb_spec 50 (List.length l)).
  - destruct l; simpl in *; lia.
  - lia.
Qed.

Lemma capped_lastn l :
  List.length l <= 51 -> capped l = lastn 50 l.
Proof.
  unfold capped, lastn. intros H.
  destruct (Nat.ltb_spec 50 (List.length l)) as [Hlt | Hge].
  - replace (List.length l - 50) with 1 by lia. destruct l; reflexivity.
  - replace (List.length l - 50) with 0 by lia. reflexivity.
Qed.

Lemma lastn_app_lastn {A} n (l1 l2 : list A) :
  lastn n (lastn n l1 ++ l2) = lastn n (l1 ++ l2).
Proof.
  unfold lastn. rewrite !length_app, length_skipn.
  destruct (Nat.le_gt_cases (List.length l1) n) as [Hle | Hgt].
  - replace (List.length l1 - n) with 0 by lia. simpl.
    f_equal. lia.
  - rewrite !skipn_app, length_skipn.
    replace (List.length l1 - (List.length l1 - n) + List.length l2 - n)
      with (List.length l2) by lia.
    rewrite skipn_skipn.
    replace (List.length l2 - (List.length l1 - (List.length l1 - n)))
      with (List.length l2 - n) by lia.
    replace (List.length l1 + List.length l2 - n - List.length l1)
      with (List.length l2 - n) by lia.
    f_equal. f_equal.
    replace (List.length l2 + (List.length l1 - n))
      with (List.length l1 + List.length l2 - n) by lia.
    destruct (Nat.le_gt_cases (List.length l2) 0) as [H0 | H0].
    + destruct l2; simpl in *; [| lia].
      rewrite Nat.add_0_r. reflexivity.
    + reflexivity.
Qed.

Lemma fold_capped (f : value -> value) l : forall acc,
  List.length acc <= 50 ->
  fold_left (fun acc s => capped (acc ++ [f s])) l acc
  = lastn 50 (acc ++ map f l).
Proof.
  induction l as [| x l IH]; intros acc Hacc.
  - simpl. rewrite app_nil_r. unfold lastn.
    replace (List.length acc - 50) with 0 by lia. reflexivity.
  - cbn [fold_left map].
    assert (Hlen : List.length (acc ++ [f x]) <= 51).
    { rewrite length_app. simpl. lia. }
    rewrite IH by (apply capped_length; exact Hlen).
    rewrite capped_lastn by exact Hlen.
    rewrite lastn_app_lastn, <- app_assoc. reflexivity.
Qed.

(* ===================================================================== *)
(** ** Commits run forward *)
(* ===================================================================== *)

Lemma write_run path v st s' :
  assignPath (state st) (split_dot path) v = Ok s' ->
  write path v st
  = (Ok tt, set_state s' (set_changedPaths (changedPaths st ++ [path]) st)).
Proof.
  intros H. unfold write, setValueAtPath.
  cbv [bind reads lift modify ret]. rewrite H. reflexivity.
Qed.

(** A commit run forward: the snapshot is taken, the writes lead to
    [mid], a path was recorded, and [mid] has a history to push on. *)
Lemma update_run pathOrUpdates v st mid ps :
  state st <> VUndef ->
  mutation pathOrUpdates v (set_changedPaths [] st) = (Ok tt, mid) ->
  records (pathOrUpdates, v) = true ->
  past_of (state mid) = VArr ps ->
  exists s' data,
    StateManager.update pathOrUpdates v st
    = (Ok tt,
       set_invoked (invoked mid
                    ++ flat_map (fired (changedPaths mid) data)
                         (subscribed "state:changed" mid))
                   (set_state s' mid))
    /\ past_of s' = VArr (capped (ps ++ [serialize (state st)]))
    /\ future_of s' = VArr []
    /\ (forall k, k <> "history" -> get_prop s' k = get_prop (state mid) k).
Proof.
  intros Hdef Hmut Hrec Hp.
  rewrite update_unfold.
  erewrite bind_run by reflexivity.
  erewrite bind_run by (unfold lift; rewrite deepClone_defined; eauto).
  erewrite bind_run by reflexivity.
  erewrite bind_run by exact Hmut.
  erewrite bind_run by reflexivity.
  pose proof (mutation_Ok _ _ _ Hmut) as [Hc _]. simpl in Hc.
  assert (Hlen : (0 <? List.length (changedPaths mid))%nat = true).
  { rewrite Hc. unfold records in Hrec.
    destruct (List.length (written (pathOrUpdates, v))); [discriminate |].
    reflexivity. }
  rewrite Hlen.
  destruct (after_change_run (serialize (state st)) (changedPaths mid) mid Hp)
    as (s' & data & Hrun & Hrest).
  exists s', data. split; [exact Hrun | exact Hrest].
Qed.

(** Commits that set [ui.currentPage] complete on any state that has a
    session object and a history. *)
Lemma update_currentPage_run v st u ps :
  get_prop (state st) "ui" = VObj u ->
  past_of (state st) = VArr ps ->
  exists st' u' ps',
    StateManager.update (VStr "ui.currentPage") v st = (Ok tt, st')
    /\ get_prop (state st') "ui" = VObj u'
    /\ past_of (state st') = VArr ps'.
Proof.
  intros Hu Hp.
  destruct (past_array_shape _ Hp) as (props & hprops & Hs & Hh & Hl).
  set (mid := with_member (VObj props) "ui"
                (VObj (define "currentPage" v u))).
  assert (Hmid : past_of mid = VArr ps).
  { unfold past_of, history_of, mid.
    rewrite get_with_member_other by discriminate.
    rewrite get_prop_VObj, Hh, get_prop_VObj, Hl. reflexivity. }
  destruct (@update_run (VStr "ui.currentPage") v st
              (set_state mid
                 (set_changedPaths
                    (changedPaths (set_changedPaths [] st)
                     ++ ["ui.currentPage"])
                    (set_changedPaths [] st))) ps)
    as (s' & data & Hrun & Hpast & _ & Hother).
  - rewrite Hs. discriminate.
  - cbn [mutation]. apply write_run. cbn [state set_changedPaths].
    rewrite Hs.
    change (split_dot "ui.currentPage") with ["ui"; "currentPage"].
    cbn [assignPath].
    rewrite member_defined by reflexivity. cbn [obind].
    rewrite Hs in Hu. rewrite Hu. cbn [falsy obind].
    rewrite member_defined by reflexivity. cbn [obind].
    rewrite Hu. reflexivity.
  - reflexivity.
  - exact Hmid.
  - rewrite Hrun. eexists _, _, _. split; [reflexivity |].
    cbn [state set_invoked set_state]. split; [| exact Hpast].
    rewrite Hother by discriminate. cbn [state set_state].
    unfold mid. apply get_with_member_same.
Qed.

Lemma currentPage_commits_complete vs : forall st u ps,
  get_prop (state st) "ui" = VObj u ->
  past_of (state st) = VArr ps ->
  fst (perform (map (fun v => (VStr "ui.currentPage", v)) vs) st) = Ok tt.
Proof.
  induction vs as [| v vs IH]; intros st u ps Hu Hp.
  - reflexivity.
  - destruct (update_currentPage_run v st Hu Hp)
      as (st' & u' & ps' & Hrun & Hu' & Hp').
    unfold perform. cbn [map forEach fst snd].
    erewrite bind_run by exact Hrun.
    exact (IH st' u' ps' Hu' Hp').
Qed.

Lemma completes_pair {A} (m : M A) st a :
  fst (m st) = Ok a -> m st = (Ok a, snd (m st)).
Proof. destruct (m st) as [r st']. simpl. intros ->. reflexivity. Qed.

(* ===================================================================== *)
(** ** Snapshots *)
(* ===================================================================== *)

Lemma serialize_VObj props : serialize (VObj props) = VObj (members props).
Proof. reflexivity. Qed.

Lemma serialize_VArr elems :
  serialize (VArr elems) = VArr (map element_json elems).
Proof. reflexivity. Qed.

Lemma serialize_defined v : v <> VUndef -> serialize v <> VUndef.
Proof. destruct v; simpl; congruence. Qed.

Lemma element_json_defined x : element_json x <> VUndef.
Proof. destruct x; simpl; congruence. Qed.

Lemma element_json_serialize x : x <> VUndef -> element_json x = serialize x.
Proof. destruct x; simpl; congruence. Qed.

Lemma lookup_members k props v :
  lookup k props = Some v -> v <> VUndef ->
  lookup k (members props) = Some (serialize v).
Proof.
  induction props as [| [k' x] props IH]; cbn [lookup]; [discriminate |].
  destruct (String.eqb_spec k' k) as [-> | Hne]; intros H Hv.
  - inversion H; subst.
    destruct v; try congruence; cbn [members lookup];
      rewrite String.eqb_refl; reflexivity.
  - destruct x; cbn [members lookup]; auto;
      destruct (String.eqb_spec k' k); try congruence; auto.
Qed.

Lemma serialize_idempotent v : serialize (serialize v) = serialize v.
Proof.
  induction v as [| | b | n | s | elems IH | props IH] using value_ind;
    try reflexivity.
  - rewrite !serialize_VArr. f_equal. rewrite map_map.
    induction IH as [| x elems Hx _ IHl]; cbn [map]; [reflexivity |].
    f_equal; [| exact IHl].
    destruct x; try reflexivity; rewrite element_json_serialize;
      try exact Hx; apply serialize_defined; discriminate.
  - rewrite !serialize_VObj. f_equal.
    induction IH as [| [k x] props Hx _ IHl]; cbn [members]; [reflexivity |].
    cbn [snd] in Hx.
    destruct x; try exact IHl; cbn [members]; rewrite IHl;
      try reflexivity.
    + rewrite <- Hx at 2. rewrite serialize_VArr.
      cbn [members]. rewrite <- serialize_VArr. reflexivity.
    + rewrite <- Hx at 2. rewrite serialize_VObj.
      cbn [members]. rewrite <- serialize_VObj. reflexivity.
Qed.

Lemma history_of_serialize s hprops :
  history_of s = VObj hprops ->
  history_of (serialize s) = VObj (members hprops).
Proof.
  intros H. destruct (history_object_shape _ H) as (props & -> & Hl).
  unfold history_of. rewrite serialize_VObj, get_prop_VObj.
  rewrite (lookup_members _ _ Hl) by discriminate. reflexivity.
Qed.

Lemma past_of_serialize s ps :
  past_of s = VArr ps ->
  past_of (serialize s) = VArr (map element_json ps).
Proof.
  intros H. destruct (past_array_shape _ H) as (props & hprops & -> & Hh & Hl).
  unfold past_of. erewrite history_of_serialize
    by (unfold history_of; rewrite get_prop_VObj, Hh; reflexivity).
  rewrite get_prop_VObj, (lookup_members _ _ Hl) by discriminate.
  reflexivity.
Qed.

Lemma future_of_serialize s hprops fs :
  history_of s = VObj hprops ->
  future_of s = VArr fs ->
  future_of (serialize s) = VArr (map element_json fs).
Proof.
  intros Hh H. unfold future_of in *.
  rewrite (history_of_serialize _ Hh). rewrite Hh in H.
  rewrite get_prop_VObj in *.
  destruct (lookup "future" hprops) as [f |] eqn:Hf; [| discriminate].
  subst f. rewrite (lookup_members _ _ Hf) by discriminate. reflexivity.
Qed.

Lemma undoable_history n s :
  undoable n s -> exists hprops, history_of s = VObj hprops.
Proof.
  intros H.
  assert (Hp : exists ps, past_of s = VArr ps).
  { destruct n; simpl in H.
    - exact H.
    - destruct H as (ps & x & Hp & _). eauto. }
  destruct Hp as (ps & Hp).
  destruct (past_array_shape _ Hp) as (props & hprops & -> & Hh & _).
  exists hprops. unfold history_of. rewrite get_prop_VObj, Hh. reflexivity.
Qed.

Lemma undoable_defined n s : undoable n s -> s <> VUndef.
Proof.
  intros H. destruct (undoable_history _ _ H) as (h & Hh).
  intros ->. discriminate.
Qed.

Lemma undoable_serialize n : forall s,
  undoable n s -> undoable n (serialize s).
Proof.
  induction n as [| n IH]; intros s H; simpl in *.
  - destruct H as (ps & Hp). rewrite (past_of_serialize _ Hp). eauto.
  - destruct H as (ps & x & Hp & Hx).
    rewrite (past_of_serialize _ Hp). rewrite map_app. simpl map.
    rewrite element_json_serialize by (eapply undoable_defined; eauto).
    eauto.
Qed.

Lemma undoable_same_past n s s' :
  past_of s' = past_of s -> undoable n s -> undoable n s'.
Proof. intros H. destruct n; simpl; rewrite H; auto. Qed.

(* ===================================================================== *)
(** ** Undo and redo, run forward *)
(* ===================================================================== *)

Lemma bind_lift {S A B} (o : outcome A) (k : A -> comp S B) st a :
  o = Ok a -> bind (lift o) k st = k a st.
Proof. intros ->. reflexivity. Qed.

Lemma bind_reads {S A B} (f : S -> A) (k : A -> comp S B) st :
  bind (reads f) k st = k (f st) st.
Proof. reflexivity. Qed.

Lemma bind_modify {S B} (f : S -> S) (k : unit -> comp S B) st :
  bind (modify f) k st = k tt (f st).
Proof. reflexivity. Qed.

Lemma last_snoc (l : list value) x d : last (l ++ [x]) d = x.
Proof. apply last_last. Qed.

Lemma undo_run st ps x fs hx :
  past_of (state st) = VArr (ps ++ [x]) ->
  future_of (state st) = VArr fs ->
  history_of x = VObj hx ->
  exists st',
    StateManager.undo st = (Ok tt, st')
    /\ state st' = with_future x (VArr (serialize (state st) :: fs)).
Proof.
  intros Hp Hf Hx.
  destruct (past_array_shape _ Hp) as (props & hprops & Hs & Hh & Hl).
  destruct (history_object_shape _ Hx) as (xprops & Ex & Hxh).
  assert (Hhist : get_prop (state st) "history" = VObj hprops).
  { rewrite Hs, get_prop_VObj, Hh. reflexivity. }
  unfold future_of, history_of in Hf. rewrite Hhist in Hf.
  unfold StateManager.undo.
  rewrite bind_reads.
  erewrite bind_lift by (apply member_defined; rewrite Hs; reflexivity).
  rewrite Hhist.
  erewrite bind_lift by (apply member_defined; reflexivity).
  rewrite get_prop_VObj, Hl.
  erewrite bind_lift by (apply member_defined; reflexivity).
  change (get_prop (VArr (ps ++ [x])) "length")
    with (VNum (Z.of_nat (List.length (ps ++ [x])))).
  erewrite bind_lift by (apply (greater_than_length (ps ++ [x]) 0)).
  replace (0 <? List.length (ps ++ [x]))%nat with true
    by (symmetry; apply Nat.ltb_lt; rewrite length_app; simpl; lia).
  erewrite bind_lift
    by (apply deepClone_defined; rewrite Hs; discriminate).
  erewrite bind_lift by (apply member_defined; reflexivity).
  rewrite Hf.
  erewrite bind_lift by reflexivity.
  erewrite bind_lift by reflexivity.
  cbn [fst]. rewrite last_snoc. rewrite bind_modify. rewrite Ex.
  erewrite bind_run.
  2:{ eapply in_history_run with (h := VObj hx).
      - reflexivity.
      - exact Hxh.
      - reflexivity.
      - reflexivity. }
  rewrite bind_reads.
  erewrite bind_lift by (apply deepClone_defined; discriminate).
  rewrite emit_spec. eexists. split; [reflexivity |].
  cbn [state set_invoked set_state]. unfold with_future, history_of.
  rewrite get_prop_VObj, Hxh. reflexivity.
Qed.

Lemma redo_run st ps y fs hy :
  past_of (state st) = VArr ps ->
  future_of (state st) = VArr (y :: fs) ->
  history_of y = VObj hy ->
  exists st',
    StateManager.redo st = (Ok tt, st')
    /\ state st' = with_past y (VArr (ps ++ [serialize (state st)])).
Proof.
  intros Hp Hf Hy.
  destruct (past_array_shape _ Hp) as (props & hprops & Hs & Hh & Hl).
  destruct (history_object_shape _ Hy) as (yprops & Ey & Hyh).
  assert (Hhist : get_prop (state st) "history" = VObj hprops).
  { rewrite Hs, get_prop_VObj, Hh. reflexivity. }
  unfold future_of, history_of in Hf. rewrite Hhist in Hf.
  unfold StateManager.redo.
  rewrite bind_reads.
  erewrite bind_lift by (apply member_defined; rewrite Hs; reflexivity).
  rewrite Hhist.
  erewrite bind_lift by (apply member_defined; reflexivity).
  rewrite Hf.
  erewrite bind_lift by (apply member_defined; reflexivity).
  change (get_prop (VArr (y :: fs)) "length")
    with (VNum (Z.of_nat (List.length (y :: fs)))).
  erewrite bind_lift by (apply (greater_than_length (y :: fs) 0)).
  cbn [List.length Nat.ltb Nat.leb].
  erewrite bind_lift by (apply member_defined; reflexivity).
  rewrite get_prop_VObj, Hl.
  erewrite bind_lift by reflexivity.
  erewrite bind_lift
    by (apply deepClone_defined; rewrite Hs; discriminate).
  erewrite bind_lift by reflexivity.
  cbn [fst hd]. rewrite bind_modify. rewrite Ey.
  erewrite bind_run.
  2:{ eapply in_history_run with (h := VObj hy).
      - reflexivity.
      - exact Hyh.
      - reflexivity.
      - reflexivity. }
  rewrite bind_reads.
  erewrite bind_lift by (apply deepClone_defined; discriminate).
  rewrite emit_spec. eexists. split; [reflexivity |].
  cbn [state set_invoked set_state]. unfold with_past, history_of.
  rewrite get_prop_VObj, Hyh. reflexivity.
Qed.

(* ===================================================================== *)
(** ** C1: undo n times, then redo n times *)
(* ===================================================================== *)

Lemma bind_assoc {A B C} (m : M A) (f : A -> M B) (g : B -> M C) st :
  bind (bind m f) g st = bind m (fun a => bind (f a) g) st.
Proof.
  unfold bind. destruct (m st) as [[a | e |] st1]; try reflexivity.
Qed.

Lemma bind_ext {A B} (m : M A) (k k' : A -> M B) st :
  (forall a st1, k a st1 = k' a st1) -> bind m k st = bind m k' st.
Proof.
  intros H. unfold bind. destruct (m st) as [[a | e |] st1]; auto.
Qed.

Lemma bind_ret_r (m : M unit) st : bind m (fun _ => ret tt) st = m st.
Proof.
  unfold bind, ret. destruct (m st) as [[[] | e |] st1]; reflexivity.
Qed.

Lemma times_snoc n (m : M unit) : forall st,
  times (S n) m st = bind (times n m) (fun _ => m) st.
Proof.
  induction n as [| n IH]; intros st.
  - cbn [times]. rewrite bind_ret_r. reflexivity.
  - change (times (S (S n)) m) with (bind m (fun _ => times (S n) m)).
    change (times (S n) m) with (bind m (fun _ => times n m)) at 2.
    rewrite bind_assoc. apply bind_ext. intros a st1. apply IH.
Qed.

Lemma roundtrip_S n st :
  roundtrip (S n) st
  = bind StateManager.undo
      (fun _ => bind (roundtrip n) (fun _ => StateManager.redo)) st.
Proof.
  unfold roundtrip.
  change (times (S n) StateManager.undo)
    with (bind StateManager.undo (fun _ => times n StateManager.undo)).
  rewrite bind_assoc. apply bind_ext. intros a st1.
  rewrite bind_assoc. apply bind_ext. intros a' st2.
  apply times_snoc.
Qed.

Lemma roundtrip_0 st : roundtrip 0 st = (Ok tt, st).
Proof. reflexivity. Qed.

(** From a state with [n + 1] snapshots to go back through and an array
    for [future], the round trip, run with no bound on the size of a
    snapshot, ends in the snapshot of that state with another [past]. *)
Lemma roundtrip_run n : forall st fs,
  undoable (S n) (state st) ->
  future_of (state st) = VArr fs ->
  exists st' pl,
    roundtrip (S n) st = (Ok tt, st')
    /\ state st' = with_past (serialize (state st)) (VArr pl).
Proof.
  induction n as [| n IH]; intros st fs Hun Hf.
  - (* one undo, one redo *)
    destruct Hun as (ps & x & Hp & Hx).
    destruct (undoable_history _ _ Hx) as (hx & Hhx).
    destruct (undo_run _ _ _ Hp Hf Hhx) as (st1 & Hundo & Hs1).
    destruct (history_object_shape _ Hhx) as (xprops & Ex & Hxl).
    destruct Hx as (psx & Hpx).
    destruct (undoable_history (S 0) (state st)) as (hs & Hhs);
      [simpl; eauto |].
    destruct (@redo_run st1 psx (serialize (state st)) fs (members hs))
      as (st2 & Hredo & Hs2).
    + rewrite Hs1, Ex. erewrite past_of_with_future by exact Hxl.
      rewrite <- Ex. exact Hpx.
    + rewrite Hs1, Ex. erewrite future_of_with_future by exact Hxl.
      reflexivity.
    + apply history_of_serialize. exact Hhs.
    + exists st2. eexists. rewrite roundtrip_S.
      erewrite bind_run by exact Hundo.
      erewrite bind_run by apply roundtrip_0.
      split; [exact Hredo | exact Hs2].
  - (* one undo, the round trip below, one redo *)
    destruct Hun as (ps & x & Hp & Hx).
    destruct (undoable_history _ _ Hx) as (hx & Hhx).
    destruct (undo_run _ _ _ Hp Hf Hhx) as (st1 & Hundo & Hs1).
    destruct (history_object_shape _ Hhx) as (xprops & Ex & Hxl).
    destruct (undoable_history (S (S n)) (state st)) as (hs & Hhs);
      [simpl; eauto |].
    assert (Hp1 : past_of (state st1) = past_of x).
    { rewrite Hs1, Ex. eapply past_of_with_future; eauto. }
    assert (Hf1 : future_of (state st1)
                  = VArr (serialize (state st) :: fs)).
    { rewrite Hs1, Ex. eapply future_of_with_future; eauto. }
    destruct (IH st1 (serialize (state st) :: fs)) as (st2 & pl & Hround & Hs2).
    + eapply undoable_same_past; eauto.
    + exact Hf1.
    + destruct (undoable_history (S n) (state st1)) as (h1 & Hh1);
        [eapply undoable_same_past; eauto |].
      destruct (history_object_shape _ (history_of_serialize _ Hh1))
        as (cprops & Ec & Hcl).
      destruct (@redo_run st2 pl (serialize (state st))
                  (map element_json fs) (members hs))
        as (st3 & Hredo & Hs3).
      * rewrite Hs2, Ec. eapply past_of_with_past; eauto.
      * rewrite Hs2, Ec. erewrite future_of_with_past by exact Hcl.
        rewrite <- Ec. erewrite future_of_serialize by eauto.
        cbn [map].
        rewrite element_json_serialize
          by (apply serialize_defined; intros E; rewrite E in Hhs;
              discriminate).
        rewrite serialize_idempotent. reflexivity.
      * apply history_of_serialize. exact Hhs.
      * exists st3. eexists. rewrite roundtrip_S.
        erewrite bind_run by exact Hundo.
        erewrite bind_run by exact Hround.
        split; [exact Hredo | exact Hs3].
Qed.

(** After a commit that recorded a path, one more undo is there to
    take, and nothing is there to redo. *)
Lemma commit_undoable c st st' n :
  StateManager.update (fst c) (snd c) st = (Ok tt, st') ->
  records c = true ->
  undoable n (state st) ->
  undoable (S n) (state st') /\ future_of (state st') = VArr [].
Proof.
  destruct c as [pu v]. simpl fst; simpl snd. intros H Hrec Hun.
  destruct (update_history _ _ _ H Hrec)
    as (mid & ps & _ & _ & Hpast & Hfut & _).
  split; [| exact Hfut].
  assert (Hends : exists ps', capped (ps ++ [serialize (state st)])
                              = ps' ++ [serialize (state st)]).
  { unfold capped.
    destruct (50 <? List.length (ps ++ [serialize (state st)]))%nat eqn:E.
    - destruct ps as [| p ps].
      + simpl in E. discriminate.
      + exists ps. reflexivity.
    - eauto. }
  destruct Hends as (ps' & Hends). rewrite Hends in Hpast.
  simpl. exists ps', (serialize (state st)). split; [exact Hpast |].
  apply undoable_serialize. exact Hun.
Qed.

Lemma commits_undoable cs : forall st st' n,
  perform cs st = (Ok tt, st') ->
  forallb records cs = true ->
  undoable n (state st) ->
  undoable (n + List.length cs) (state st')
  /\ (cs <> [] -> future_of (state st') = VArr []).
Proof.
  induction cs as [| c cs IH]; intros st st' n H Hrec Hun.
  - unfold perform in H. simpl in H. step H. simpl.
    rewrite Nat.add_0_r. split; [exact Hun | congruence].
  - apply perform_cons in H. destruct H as (st1 & Hup & H).
    simpl in Hrec. apply andb_true_iff in Hrec. destruct Hrec as [Hr Hrec].
    destruct (@commit_undoable c st st1 n Hup Hr Hun) as [Hun1 Hf1].
    destruct (IH st1 st' (S n) H Hrec Hun1) as [Hun' Hf'].
    cbn [List.length]. rewrite Nat.add_succ_r. split; [exact Hun' |].
    intros _. destruct cs as [| c' cs].
    + unfold perform in H. simpl in H. step H. exact Hf1.
    + apply Hf'. discriminate.
Qed.

Lemma undoable_fewer n : forall m s, undoable (m + n) s -> undoable n s.
Proof.
  induction n as [| n IH]; intros m s H.
  - destruct m; simpl in *.
    + exact H.
    + destruct H as (ps & x & Hp & _). eauto.
  - rewrite Nat.add_succ_r in H. simpl in *.
    destruct H as (ps & x & Hp & Hx). eauto.
Qed.

Lemma json_clean_serialize v : json_clean v = true -> serialize v = v.
Proof.
  induction v as [| | b | n | s | elems IH | props IH] using value_ind;
    try reflexivity; cbn [json_clean]; intros H.
  - rewrite serialize_VArr. f_equal.
    induction IH as [| x elems Hx _ IHl]; [reflexivity |].
    cbn [forallb] in H. apply andb_true_iff in H. destruct H as [H1 H2].
    cbn [map]. rewrite IHl by exact H2. f_equal.
    rewrite element_json_serialize; [auto |].
    intros ->. discriminate.
  - rewrite serialize_VObj. f_equal.
    induction IH as [| [k x] props Hx _ IHl]; [reflexivity |].
    cbn [forallb snd] in H, Hx. apply andb_true_iff in H.
    destruct H as [H1 H2].
    cbn [members]. rewrite IHl by exact H2.
    destruct x; try discriminate; try reflexivity;
      rewrite <- (Hx H1) at 2; reflexivity.
Qed.

(* ===================================================================== *)
(** ** The size of the snapshots *)
(* ===================================================================== *)

Lemma total_app l1 l2 : total (l1 ++ l2) = (total l1 + total l2)%N.
Proof.
  induction l1 as [| x l1 IH]; cbn [app total fold_right]; [reflexivity |].
  fold (total (l1 ++ l2)). fold (total l1). rewrite IH. lia.
Qed.

Lemma total_In x l : In x l -> (x <= total l)%N.
Proof.
  induction l as [| y l IH]; [intros [] |].
  cbn [total fold_right]. fold (total l).
  intros [-> | H]; [lia |]. specialize (IH H). lia.
Qed.

Lemma total_le {A} (f g : A -> N) l :
  (forall x, f x <= g x)%N -> (total (map f l) <= total (map g l))%N.
Proof.
  intros H. induction l as [| x l IH]; [reflexivity |].
  cbn [map total fold_right]. fold (total (map f l)). fold (total (map g l)).
  specialize (H x). lia.
Qed.

Lemma json_length_serialize v : json_length (serialize v) = json_length v.
Proof. unfold json_length. rewrite serialize_idempotent. reflexivity. Qed.

Lemma element_json_length x :
  (json_length x <= text_length (element_json x))%N.
Proof.
  unfold json_length. destruct x; cbn [element_json]; try reflexivity.
  cbn. lia.
Qed.

(** The text of an array holds the texts of its elements. *)
Lemma json_length_elements elems :
  (total (map json_length elems) <= json_length (VArr elems))%N.
Proof.
  unfold json_length at 2. rewrite serialize_VArr. cbn [text_length].
  rewrite map_map.
  pose proof (@total_le _ json_length
                (fun x => text_length (element_json x)) elems
                element_json_length).
  lia.
Qed.

(** The text of an object holds the text of each of its fields. *)
Lemma json_length_field props k :
  (json_length (get_prop (VObj props) k) <= json_length (VObj props))%N.
Proof.
  rewrite get_prop_VObj.
  destruct (lookup k props) as [v |] eqn:Hl; [| cbn; lia].
  assert (Hd : v = VUndef \/ v <> VUndef)
    by (destruct v; [left; reflexivity | right; discriminate ..]).
  destruct Hd as [-> | Hv]; [cbn; lia |].
  pose proof (lookup_members _ _ Hl Hv) as Hm.
  unfold json_length at 2. rewrite serialize_VObj. cbn [text_length].
  assert (Hin : In (k, serialize v) (members props)).
  { clear - Hm. induction (members props) as [| [k' x] l IH];
      [discriminate |].
    cbn [lookup] in Hm. destruct (String.eqb_spec k' k) as [-> | Hne].
    - inversion Hm. left. reflexivity.
    - right. exact (IH Hm). }
  pose proof (total_In _ _
                (in_map (fun '(k, x) => quoted_length k + 1 + text_length x)%N
                        _ _ Hin)) as Hle.
  cbn beta iota in Hle. unfold json_length. lia.
Qed.

(** A state holds its history: its text is at least as long as the
    texts of the snapshots in [history.past] together. *)
Lemma state_holds_past s ps :
  past_of s = VArr ps ->
  (total (map json_length ps) <= json_length s)%N.
Proof.
  intros H. destruct (past_array_shape _ H) as (props & hprops & -> & Hh & Hl).
  pose proof (json_length_field props "history") as H1.
  rewrite get_prop_VObj, Hh in H1.
  pose proof (json_length_field hprops "past") as H2.
  rewrite get_prop_VObj, Hl in H2.
  pose proof (json_length_elements ps). lia.
Qed.

Lemma capped_room (l : list value) : List.length l <= 50 -> capped l = l.
Proof.
  unfold capped. intros H.
  destruct (Nat.ltb_spec 50 (List.length l)); [lia | reflexivity].
Qed.

(** Below the cap every commit adds a snapshot of the whole state, the
    earlier snapshots included: the snapshots together double with each
    commit. *)
Lemma snapshots_double cs : forall st st' ps,
  cs <> [] ->
  perform cs st = (Ok tt, st') ->
  forallb records cs = true -> forallb outside_history cs = true ->
  past_of (state st) = VArr ps ->
  List.length ps + List.length cs <= 50 ->
  exists ps',
    past_of (state st') = VArr ps'
    /\ (2 ^ N.of_nat (List.length cs - 1)
        * (total (map json_length ps) + json_length (state st))
        <= total (map json_length ps'))%N.
Proof.
  induction cs as [| c cs IH]; intros st st' ps Hne H Hrec Hout Hp Hlen;
    [congruence |].
  apply perform_cons in H. destruct H as (st1 & Hup & H).
  cbn [forallb] in Hrec, Hout.
  apply andb_true_iff in Hrec. destruct Hrec as [Hr Hrec].
  apply andb_true_iff in Hout. destruct Hout as [Ho Hout].
  cbn [List.length] in Hlen.
  pose proof (commit_past _ _ Hup Hr Ho Hp) as Hp1.
  rewrite capped_room in Hp1 by (rewrite length_app; cbn; lia).
  assert (Hsum : total (map json_length (ps ++ [serialize (state st)]))
                 = (total (map json_length ps) + json_length (state st))%N).
  { rewrite map_app, total_app. cbn [map total fold_right].
    rewrite json_length_serialize. lia. }
  destruct cs as [| c' cs].
  - unfold perform in H. cbn [forEach] in H. inversion H; subst st'.
    eexists. split; [exact Hp1 |]. rewrite Hsum.
    cbn [List.length Nat.sub N.of_nat]. rewrite N.pow_0_r. lia.
  - destruct (IH st1 st' _ ltac:(discriminate) H Hrec Hout Hp1)
      as (ps' & Hp' & Hle).
    { rewrite length_app. cbn [List.length] in *. lia. }
    exists ps'. split; [exact Hp' |].
    pose proof (state_holds_past _ Hp1) as Hhold.
    rewrite Hsum in Hle, Hhold.
    cbn [List.length Nat.sub] in Hle |- *. rewrite Nat.sub_0_r in *.
    rewrite Nat2N.inj_succ, N.pow_succ_r'.
    set (a := (total (map json_length ps) + json_length (state st))%N) in *.
    set (b := json_length (state st1)) in *.
    set (p := (2 ^ N.of_nat (List.length cs))%N) in *.
    assert (p * (a + a) <= p * (a + b))%N
      by (apply N.mul_le_mono_l; lia).
    lia.
Qed.

(* ===================================================================== *)
(** ** C5: the cap on the history *)
(* ===================================================================== *)

(** C5 (the code departs from the claim).  A snapshot is a copy of the
    whole state, the history with its earlier snapshots included, so
    below the cap the text that [JSON.stringify] has to write for the
    state doubles with each commit: after [n] commits from an empty
    history, [n] from 1 to 50, each recording a changed path outside
    [history], it is at least [2^(n-1)] times as long as the text of the
    state at the start.  The text passes the greatest length of a string
    long before the history holds the 51 entries that the cap would cut
    back to 50. *)
Theorem C5_snapshots_double_with_each_commit :
  forall (cs : list commit) (st0 st' : store),
    cs <> [] ->
    List.length cs <= 50 ->
    past_of (state st0) = VArr [] ->
    forallb records cs = true ->
    forallb outside_history cs = true ->
    perform cs st0 = (Ok tt, st') ->
    (2 ^ N.of_nat (List.length cs - 1) * json_length (state st0)
     <= json_length (state st'))%N.
Proof.
  intros cs st0 st' Hne Hlen Hempty Hrec Hout Hrun.
  destruct (@snapshots_double cs st0 st' [] Hne Hrun Hrec Hout Hempty)
    as (ps' & Hp' & Hle); [cbn; lia |].
  pose proof (state_holds_past _ Hp'). cbn [map total fold_right] in Hle.
  rewrite N.add_0_l in Hle. lia.
Qed.

(** The calls [update('ui.currentPage', i)] for [i] from 1, from the
    state the scripts start with, whose text has 495 characters: were
    there no bound on a text, the state after 22 of them would have a
    text longer than V8 allows a string to be, and the state after 46 of
    them a text longer than any ECMAScript string. *)
Lemma C5_witness :
  let st0 := StateManager.loaded sample_random in
  json_length (state st0) = 495%N
  /\ (v8_max_string_length
      < json_length (state (snd (perform (firstn 22 sixty_commits) st0))))%N
  /\ (max_string_length
      < json_length (state (snd (perform (firstn 46 sixty_commits) st0))))%N.
Proof.
  cbv zeta. split; [vm_compute; reflexivity |].
  assert (Hrun : forall n,
            perform (firstn n sixty_commits)
              (StateManager.loaded sample_random)
            = (Ok tt,
               snd (perform (firstn n sixty_commits)
                      (StateManager.loaded sample_random)))).
  { intros n. apply completes_pair. unfold sixty_commits.
    rewrite firstn_map.
    eapply currentPage_commits_complete; reflexivity. }
  split.
  - pose proof (@C5_snapshots_double_with_each_commit
                  (firstn 22 sixty_commits)
                  (StateManager.loaded sample_random) _
                  ltac:(discriminate) ltac:(cbn; lia) eq_refl eq_refl eq_refl
                  (Hrun 22)) as H.
    eapply N.lt_le_trans; [| exact H]. vm_compute. reflexivity.
  - pose proof (@C5_snapshots_double_with_each_commit
                  (firstn 46 sixty_commits)
                  (StateManager.loaded sample_random) _
                  ltac:(discriminate) ltac:(cbn; lia) eq_refl eq_refl eq_refl
                  (Hrun 46)) as H.
    eapply N.lt_le_trans; [| exact H]. vm_compute. reflexivity.
Defined.

(* ===================================================================== *)
(** ** Snapshots with another history *)
(* ===================================================================== *)

Lemma members_length props : List.length (members props) <= List.length props.
Proof.
  induction props as [| [k x] props IH]; [reflexivity |].
  destruct x; cbn [members List.length]; lia.
Qed.

(** An object that is its own snapshot holds no [undefined], and its
    fields are their own snapshots. *)
Lemma serialized_fields props :
  members props = props ->
  forall k v, In (k, v) props -> v <> VUndef /\ serialize v = v.
Proof.
  induction props as [| [k' x] props IH]; intros H k v Hin; [destruct Hin |].
  assert (Hx : x <> VUndef).
  { intros ->. cbn [members] in H.
    pose proof (members_length props) as Hl. rewrite H in Hl.
    cbn [List.length] in Hl. lia. }
  assert (Hm : members ((k', x) :: props) = (k', serialize x) :: members props)
    by (destruct x; try reflexivity; congruence).
  rewrite Hm in H. inversion H as [[Hs Hrest]].
  destruct Hin as [E | Hin].
  - inversion E; subst. split; assumption.
  - exact (IH Hrest k v Hin).
Qed.

Lemma lookup_In k props v : lookup k props = Some v -> In (k, v) props.
Proof.
  induction props as [| [k' x] props IH]; [discriminate |].
  cbn [lookup]. destruct (String.eqb_spec k' k) as [-> | Hne]; intros H.
  - inversion H. left. reflexivity.
  - right. exact (IH H).
Qed.

Lemma serialized_field props k v :
  serialize (VObj props) = VObj props ->
  lookup k props = Some v -> v <> VUndef /\ serialize v = v.
Proof.
  rewrite serialize_VObj. intros H Hl. inversion H as [Hm].
  exact (serialized_fields Hm _ _ (lookup_In _ _ Hl)).
Qed.

Lemma members_define k y props :
  members props = props -> y <> VUndef ->
  members (define k y props) = define k (serialize y) props.
Proof.
  intros Hm Hy.
  assert (Hone : forall k', members [(k', y)] = [(k', serialize y)])
    by (intros k'; destruct y; try reflexivity; congruence).
  induction props as [| [k' x] props IH]; cbn [define]; [apply Hone |].
  destruct (serialized_fields Hm k' x (or_introl eq_refl)) as [Hx Hs].
  assert (Hrest : members props = props).
  { assert (Hc : members ((k', x) :: props)
                 = (k', serialize x) :: members props)
      by (destruct x; try reflexivity; congruence).
    rewrite Hc in Hm. injection Hm as _ Hr. exact Hr. }
  destruct (String.eqb k' k).
  - transitivity ((k, serialize y) :: members props);
      [destruct y; try reflexivity; congruence |].
    rewrite Hrest. reflexivity.
  - transitivity ((k', serialize x) :: members (define k y props));
      [destruct x; try reflexivity; congruence |].
    rewrite IH by exact Hrest. rewrite Hs. reflexivity.
Qed.

(** The snapshot of a snapshot with one field replaced. *)
Lemma serialize_with_member props k y :
  serialize (VObj props) = VObj props -> y <> VUndef ->
  serialize (with_member (VObj props) k y)
  = with_member (VObj props) k (serialize y).
Proof.
  intros H Hy. cbn [with_member]. rewrite serialize_VObj.
  rewrite serialize_VObj in H. inversion H as [Hm]. rewrite Hm.
  rewrite members_define by assumption. reflexivity.
Qed.

Lemma serialize_with_future x hx f :
  serialize x = x -> history_of x = VObj hx -> f <> VUndef ->
  serialize (with_future x f) = with_future x (serialize f).
Proof.
  intros Hs Hh Hf.
  destruct (history_object_shape _ Hh) as (props & -> & Hl).
  destruct (serialized_field _ Hs Hl) as [_ Hsh].
  unfold with_future. rewrite Hh.
  rewrite serialize_with_member; [| exact Hs | cbn; discriminate].
  rewrite serialize_with_member; [reflexivity | exact Hsh | assumption].
Qed.

Lemma serialize_with_past x hx p :
  serialize x = x -> history_of x = VObj hx -> p <> VUndef ->
  serialize (with_past x p) = with_past x (serialize p).
Proof.
  intros Hs Hh Hp.
  destruct (history_object_shape _ Hh) as (props & -> & Hl).
  destruct (serialized_field _ Hs Hl) as [_ Hsh].
  unfold with_past. rewrite Hh.
  rewrite serialize_with_member; [| exact Hs | cbn; discriminate].
  rewrite serialize_with_member; [reflexivity | exact Hsh | assumption].
Qed.

Lemma history_of_with_future props hprops f :
  lookup "history" props = Some (VObj hprops) ->
  history_of (with_future (VObj props) f)
  = with_member (VObj hprops) "future" f.
Proof.
  intros H. unfold with_future, history_of.
  rewrite get_with_member_same, get_prop_VObj, H. reflexivity.
Qed.

Lemma history_of_with_past props hprops p :
  lookup "history" props = Some (VObj hprops) ->
  history_of (with_past (VObj props) p)
  = with_member (VObj hprops) "past" p.
Proof.
  intros H. unfold with_past, history_of.
  rewrite get_with_member_same, get_prop_VObj, H. reflexivity.
Qed.

Lemma other_fields_with_future s f k :
  k <> "history" -> get_prop (with_future s f) k = get_prop s k.
Proof.
  intros H. unfold with_future. destruct s; try reflexivity.
  apply get_with_member_other. congruence.
Qed.

Lemma with_future_object x hx f :
  history_of x = VObj hx ->
  exists props, with_future x f = VObj props
                /\ lookup "history" props
                   = Some (with_member (VObj hx) "future" f).
Proof.
  intros Hh. destruct (history_object_shape _ Hh) as (props & -> & Hl).
  unfold with_future. rewrite Hh. cbn [with_member].
  eexists. split; [reflexivity |]. apply lookup_define_same.
Qed.

(** A snapshot with another redo list, and with other snapshots in its
    [past] that differ in their redo lists alone, differs in the redo
    lists alone. *)
Lemma same_but_redo_lists_with_future x hx ps f :
  history_of x = VObj hx -> past_of x = VArr ps ->
  same_but_redo_lists x (with_future x f).
Proof.
  intros Hh Hp. destruct (history_object_shape _ Hh) as (props & -> & Hl).
  apply same_but_history with (ps := ps) (pt := ps).
  - intros k Hk. apply other_fields_with_future. exact Hk.
  - intros k _ Hk. rewrite (history_of_with_future _ _ Hl), Hh.
    apply get_with_member_other. congruence.
  - exact Hp.
  - rewrite (past_of_with_future _ _ Hl). exact Hp.
  - clear. induction ps; constructor; [apply same_state | assumption].
Qed.

Lemma same_but_redo_lists_with_past x hx ps pt f :
  history_of x = VObj hx -> past_of x = VArr ps ->
  Forall2 same_but_redo_lists ps pt ->
  same_but_redo_lists x (with_past (with_future x f) (VArr pt)).
Proof.
  intros Hh Hp Hall.
  destruct (@with_future_object x hx f Hh) as (props' & Hw & Hl').
  destruct (history_object_shape _ Hh) as (props & Ex & Hl).
  cbn [with_member] in Hl'.
  apply same_but_history with (ps := ps) (pt := pt).
  - intros k Hk. rewrite other_fields_with_past by exact Hk.
    apply other_fields_with_future. exact Hk.
  - intros k Hk1 Hk2. rewrite Hw, (history_of_with_past _ _ Hl').
    rewrite get_with_member_other by congruence.
    change (VObj (define "future" f hx))
      with (with_member (VObj hx) "future" f).
    rewrite get_with_member_other by congruence. rewrite Hh. reflexivity.
  - exact Hp.
  - rewrite Hw. apply (past_of_with_past _ _ Hl').
  - exact Hall.
Qed.

Lemma Forall2_same (l : list value) : Forall2 same_but_redo_lists l l.
Proof. induction l; constructor; [apply same_state | assumption]. Qed.

Lemma element_json_idempotent x : element_json (element_json x) = element_json x.
Proof.
  destruct x; try reflexivity; cbn [element_json];
    rewrite element_json_serialize by (cbn; congruence);
    apply serialize_idempotent.
Qed.

Lemma map_element_json_idempotent l :
  map element_json (map element_json l) = map element_json l.
Proof.
  rewrite map_map. apply map_ext. intros x. apply element_json_idempotent.
Qed.

(* ===================================================================== *)
(** ** The history that commits leave *)
(* ===================================================================== *)

Lemma committed_undoable n : forall s, committed n s -> undoable n s.
Proof.
  induction n as [| n IH]; intros s H; cbn in *; [exact H |].
  destruct H as (ps & x & Hp & _ & _ & Hx). eauto.
Qed.

Lemma committed_same_past n s s' :
  past_of s' = past_of s -> committed n s -> committed n s'.
Proof. intros H. destruct n; cbn; rewrite H; auto. Qed.

Lemma committed_serialize n s : committed n s -> committed n (serialize s).
Proof.
  destruct n as [| n]; cbn.
  - intros (ps & Hp). rewrite (past_of_serialize _ Hp). eauto.
  - intros (ps & x & Hp & Hpx & Hsx & Hx).
    rewrite (past_of_serialize _ Hp), map_app. cbn [map].
    assert (Hd : x <> VUndef)
      by (intros ->; cbn in Hpx; discriminate).
    rewrite element_json_serialize, Hsx by exact Hd.
    exists (map element_json ps), x.
    rewrite map_element_json_idempotent. auto.
Qed.

(** After a commit that recorded a path outside [history], with room
    below the cap, the history is one commit deeper. *)
Lemma commit_committed c st st' ps n :
  StateManager.update (fst c) (snd c) st = (Ok tt, st') ->
  records c = true -> outside_history c = true ->
  past_of (state st) = VArr ps -> List.length ps < 50 ->
  committed n (state st) ->
  past_of (state st') = VArr (ps ++ [serialize (state st)])
  /\ committed (S n) (state st').
Proof.
  intros Hup Hr Ho Hp Hlen Hc.
  pose proof (commit_past _ _ Hup Hr Ho Hp) as Hp1.
  rewrite capped_room in Hp1 by (rewrite length_app; cbn; lia).
  split; [exact Hp1 |].
  cbn [committed]. exists ps, (serialize (state st)).
  split; [exact Hp1 |]. split; [apply past_of_serialize; exact Hp |].
  split; [apply serialize_idempotent |].
  apply committed_serialize. exact Hc.
Qed.

Lemma commits_committed cs : forall st st' ps n,
  perform cs st = (Ok tt, st') ->
  forallb records cs = true -> forallb outside_history cs = true ->
  past_of (state st) = VArr ps ->
  List.length ps + List.length cs <= 50 ->
  committed n (state st) ->
  committed (n + List.length cs) (state st').
Proof.
  induction cs as [| c cs IH]; intros st st' ps n H Hrec Hout Hp Hlen Hc.
  - unfold perform in H. cbn [forEach] in H. inversion H; subst.
    cbn [List.length]. rewrite Nat.add_0_r. exact Hc.
  - apply perform_cons in H. destruct H as (st1 & Hup & H).
    cbn [forallb] in Hrec, Hout.
    apply andb_true_iff in Hrec. destruct Hrec as [Hr Hrec].
    apply andb_true_iff in Hout. destruct Hout as [Ho Hout].
    cbn [List.length] in *.
    destruct (@commit_committed c st st1 ps n Hup Hr Ho Hp ltac:(lia) Hc)
      as [Hp1 Hc1].
    rewrite Nat.add_succ_r.
    apply (IH st1 st' _ (S n) H Hrec Hout Hp1);
      [rewrite length_app; cbn; lia | exact Hc1].
Qed.

Lemma snapshot_with_past x hx f pl :
  serialize x = x -> history_of x = VObj hx -> f <> VUndef ->
  map element_json pl = pl ->
  serialize (with_past (serialize (with_future x f)) (VArr pl))
  = with_past (with_future x (serialize f)) (VArr pl).
Proof.
  intros Hs Hh Hf Hpl.
  rewrite (@serialize_with_future x hx f Hs Hh Hf).
  destruct (history_object_shape _ Hh) as (props & Ex & Hl).
  assert (Hh' : history_of (with_future x (serialize f))
                = VObj (define "future" (serialize f) hx)).
  { rewrite Ex. rewrite (history_of_with_future _ _ Hl). reflexivity. }
  assert (Hs' : serialize (with_future x (serialize f))
                = with_future x (serialize f)).
  { rewrite <- (@serialize_with_future x hx f Hs Hh Hf).
    apply serialize_idempotent. }
  rewrite (@serialize_with_past _ _ (VArr pl) Hs' Hh' ltac:(discriminate)).
  rewrite serialize_VArr, Hpl. reflexivity.
Qed.

(* ===================================================================== *)
(** ** The round trip and the history *)
(* ===================================================================== *)

(** From a state [n + 1] commits deep with an array for [future], the
    round trip, run with no bound on the size of a snapshot, ends in the
    snapshot of that state with another [past], whose entries are those
    of the snapshot but for their redo lists. *)
Lemma roundtrip_restores n : forall st fs,
  committed (S n) (state st) ->
  future_of (state st) = VArr fs ->
  exists st' pn pl,
    roundtrip (S n) st = (Ok tt, st')
    /\ state st' = with_past (serialize (state st)) (VArr pl)
    /\ past_of (serialize (state st)) = VArr pn
    /\ Forall2 same_but_redo_lists pn pl
    /\ map element_json pl = pl.
Proof.
  induction n as [| n IH]; intros st fs Hun Hf.
  - (* one undo, one redo *)
    destruct Hun as (ps & x & Hp & Hpx & Hsx & _).
    destruct (past_array_shape _ Hpx) as (xprops & hx & Ex & Hxl & _).
    assert (Hhx : history_of x = VObj hx)
      by (rewrite Ex; unfold history_of; rewrite get_prop_VObj, Hxl;
          reflexivity).
    destruct (past_array_shape _ Hp) as (sprops & hs & Es & Hsl & _).
    assert (Hhs : history_of (state st) = VObj hs)
      by (rewrite Es; unfold history_of; rewrite get_prop_VObj, Hsl;
          reflexivity).
    destruct (undo_run _ _ _ Hp Hf Hhx) as (st1 & Hundo & Hs1).
    destruct (@redo_run st1 (map element_json ps) (serialize (state st)) fs
                (members hs))
      as (st2 & Hredo & Hs2).
    + rewrite Hs1, Ex. erewrite past_of_with_future by exact Hxl.
      rewrite <- Ex. exact Hpx.
    + rewrite Hs1, Ex. erewrite future_of_with_future by exact Hxl.
      reflexivity.
    + apply history_of_serialize. exact Hhs.
    + assert (Hd : x <> VUndef) by (rewrite Ex; discriminate).
      exists st2, (map element_json (ps ++ [x])),
        (map element_json ps ++ [serialize (state st1)]).
      rewrite roundtrip_S.
      erewrite bind_run by exact Hundo.
      erewrite bind_run by apply roundtrip_0.
      split; [exact Hredo |]. split; [exact Hs2 |].
      split; [apply past_of_serialize; exact Hp |].
      rewrite map_app. cbn [map].
      rewrite element_json_serialize, Hsx by exact Hd.
      split.
      * apply Forall2_app; [apply Forall2_same |].
        constructor; [| constructor].
        rewrite Hs1.
        assert (HF : VArr (serialize (state st) :: fs) <> VUndef)
          by discriminate.
        rewrite (@serialize_with_future x hx _ Hsx Hhx HF).
        apply (@same_but_redo_lists_with_future x hx _ _ Hhx Hpx).
      * rewrite map_app, map_element_json_idempotent. cbn [map].
        rewrite element_json_serialize, serialize_idempotent;
          [reflexivity |].
        apply serialize_defined. rewrite Hs1, Ex. discriminate.
  - (* one undo, the round trip below, one redo *)
    destruct Hun as (ps & x & Hp & Hpx & Hsx & Hx).
    destruct (past_array_shape _ Hpx) as (xprops & hx & Ex & Hxl & _).
    assert (Hhx : history_of x = VObj hx)
      by (rewrite Ex; unfold history_of; rewrite get_prop_VObj, Hxl;
          reflexivity).
    destruct (past_array_shape _ Hp) as (sprops & hs & Es & Hsl & _).
    assert (Hhs : history_of (state st) = VObj hs)
      by (rewrite Es; unfold history_of; rewrite get_prop_VObj, Hsl;
          reflexivity).
    destruct (undo_run _ _ _ Hp Hf Hhx) as (st1 & Hundo & Hs1).
    assert (Hp1 : past_of (state st1) = past_of x).
    { rewrite Hs1, Ex. eapply past_of_with_future; eauto. }
    assert (Hf1 : future_of (state st1)
                  = VArr (serialize (state st) :: fs)).
    { rewrite Hs1, Ex. eapply future_of_with_future; eauto. }
    assert (Hh1 : history_of (state st1)
                  = VObj (define "future"
                            (VArr (serialize (state st) :: fs)) hx)).
    { rewrite Hs1, Ex. rewrite (history_of_with_future _ _ Hxl).
      reflexivity. }
    destruct (IH st1 (serialize (state st) :: fs))
      as (st2 & pn1 & pl & Hround & Hs2 & Hpn1 & Hall & Hclean).
    + eapply committed_same_past; eauto.
    + exact Hf1.
    + assert (Epn1 : pn1 = map element_json ps).
      { rewrite Hpx in Hp1.
        pose proof (past_of_serialize _ Hp1) as E. rewrite E in Hpn1.
        inversion Hpn1. apply map_element_json_idempotent. }
      subst pn1.
      destruct (history_object_shape _ (history_of_serialize _ Hh1))
        as (cprops & Ec & Hcl).
      destruct (@redo_run st2 pl (serialize (state st))
                  (map element_json fs) (members hs))
        as (st3 & Hredo & Hs3).
      * rewrite Hs2, Ec. eapply past_of_with_past; eauto.
      * rewrite Hs2, Ec. erewrite future_of_with_past by exact Hcl.
        rewrite <- Ec. erewrite future_of_serialize by eauto.
        cbn [map].
        rewrite element_json_serialize
          by (apply serialize_defined; rewrite Es; discriminate).
        rewrite serialize_idempotent. reflexivity.
      * apply history_of_serialize. exact Hhs.
      * assert (Hd : x <> VUndef) by (rewrite Ex; discriminate).
        exists st3, (map element_json (ps ++ [x])),
          (pl ++ [serialize (state st2)]).
        rewrite roundtrip_S.
        erewrite bind_run by exact Hundo.
        erewrite bind_run by exact Hround.
        split; [exact Hredo |]. split; [exact Hs3 |].
        split; [apply past_of_serialize; exact Hp |].
        rewrite map_app. cbn [map].
        rewrite element_json_serialize, Hsx by exact Hd.
        split.
        { apply Forall2_app; [exact Hall |].
          constructor; [| constructor].
          rewrite Hs2, Hs1.
          assert (HF : VArr (serialize (state st) :: fs) <> VUndef)
            by discriminate.
          rewrite (@snapshot_with_past x hx _ pl Hsx Hhx HF Hclean).
          apply (@same_but_redo_lists_with_past x hx _ pl _ Hhx Hpx Hall). }
        { rewrite map_app, Hclean. cbn [map].
          rewrite element_json_serialize, serialize_idempotent;
            [reflexivity |].
          apply serialize_defined. rewrite Hs2, Ec. discriminate. }
Qed.

(** C1, as the code has it: after commits C1..Cn (n at least 1, each
    recording a changed path, from a state that has a history), when
    undo n times and then redo n times complete, they end in the
    snapshot of the state after Cn with another [history.past].  Every
    field outside [history] is that of the state after Cn (as its JSON
    snapshot, which is the state itself when it holds no [undefined]),
    and [history.future] is empty as after Cn.  When the commits write
    outside [history] and the history stays within its cap,
    [history.past] holds the snapshots it held after Cn, equal field for
    field but for their redo lists; those are not given back.  (A
    snapshot holds the whole earlier history, and the calls complete
    only while its text fits a string.) *)
Theorem C1_undo_redo_restores_all_but_redo_lists :
  forall (cs : list commit) (st0 st_n st_f : store) (ps0 : list value),
    cs <> [] ->
    forallb records cs = true ->
    past_of (state st0) = VArr ps0 ->
    perform cs st0 = (Ok tt, st_n) ->
    roundtrip (List.length cs) st_n = (Ok tt, st_f) ->
    exists pf,
      state st_f = with_past (serialize (state st_n)) (VArr pf)
      /\ (forall k, k <> "history" ->
            get_prop (state st_f) k = get_prop (serialize (state st_n)) k)
      /\ future_of (state st_f) = VArr []
      /\ (json_clean (state st_n) = true ->
          forall k, k <> "history" ->
            get_prop (state st_f) k = get_prop (state st_n) k)
      /\ (forallb outside_history cs = true ->
          List.length ps0 + List.length cs <= 50 ->
          exists pn,
            past_of (serialize (state st_n)) = VArr pn
            /\ Forall2 same_but_redo_lists pn pf).
Proof.
  intros cs st0 st_n st_f ps0 Hne Hrec Hp0 Hrun Hround.
  destruct (@commits_undoable cs st0 st_n 0 Hrun Hrec) as [Hun Hfut];
    [simpl; eauto |].
  specialize (Hfut Hne). simpl in Hun.
  destruct cs as [| c cs]; [congruence |].
  cbn [List.length] in *.
  destruct (@roundtrip_run (List.length cs) st_n [] Hun Hfut)
    as (st' & pl & Hround' & Hs).
  rewrite Hround in Hround'. inversion Hround'; subst st'.
  exists pl. split; [exact Hs |].
  assert (Hother : forall k, k <> "history" ->
            get_prop (state st_f) k = get_prop (serialize (state st_n)) k).
  { intros k Hk. rewrite Hs. apply other_fields_with_past. exact Hk. }
  split; [exact Hother |]. split; [| split].
  - destruct (undoable_history _ _ Hun) as (hs & Hhs).
    destruct (history_object_shape _ (history_of_serialize _ Hhs))
      as (cprops & Ec & Hcl).
    rewrite Hs, Ec. erewrite future_of_with_past by exact Hcl.
    rewrite <- Ec. erewrite future_of_serialize by eauto. reflexivity.
  - intros Hclean k Hk. rewrite Hother by exact Hk.
    rewrite json_clean_serialize by exact Hclean. reflexivity.
  - intros Hout Hlen.
    pose proof (@commits_committed (c :: cs) st0 st_n ps0 0 Hrun Hrec Hout
                  Hp0 Hlen ltac:(cbn; eauto)) as Hc.
    cbn [List.length Nat.add] in Hc.
    destruct (@roundtrip_restores (List.length cs) st_n [] Hc Hfut)
      as (st' & pn & pl' & Hround'' & Hs' & Hpn & Hall & _).
    rewrite Hround in Hround''. inversion Hround''; subst st'.
    assert (E : pl' = pl).
    { destruct (undoable_history _ _ Hun) as (hs & Hhs).
      destruct (history_object_shape _ (history_of_serialize _ Hhs))
        as (cprops & Ec & Hcl).
      pose proof (f_equal past_of Hs) as E1.
      pose proof (f_equal past_of Hs') as E2.
      rewrite Ec in E1, E2.
      rewrite (past_of_with_past _ _ Hcl) in E1.
      rewrite (past_of_with_past _ _ Hcl) in E2.
      rewrite E1 in E2. inversion E2. reflexivity. }
    subst pl'. exists pn. split; assumption.
Qed.

(** Two commits from the state the scripts start with, two undos and
    two redos. *)
Lemma C1_witness :
  let st0 := StateManager.loaded (fun _ => "x") in
  let st_n := snd (perform two_commits st0) in
  let st_f := snd (roundtrip 2 st_n) in
  exists pn pf,
    state st_f = with_past (serialize (state st_n)) (VArr pf)
    /\ (forall k, k <> "history" ->
          get_prop (state st_f) k = get_prop (state st_n) k)
    /\ future_of (state st_f) = VArr []
    /\ past_of (serialize (state st_n)) = VArr pn
    /\ Forall2 same_but_redo_lists pn pf.
Proof.
  cbv zeta.
  destruct (@C1_undo_redo_restores_all_but_redo_lists two_commits
              (StateManager.loaded (fun _ => "x"))
              (snd (perform two_commits (StateManager.loaded (fun _ => "x"))))
              (snd (roundtrip 2
                      (snd (perform two_commits
                              (StateManager.loaded (fun _ => "x"))))))
              [])
    as (pf & Hs & _ & Hfut & Hclean & Hpast).
  - discriminate.
  - reflexivity.
  - reflexivity.
  - vm_compute. reflexivity.
  - vm_compute. reflexivity.
  - destruct (Hpast eq_refl ltac:(cbn; lia)) as (pn & Hpn & Hall).
    exists pn, pf. split; [exact Hs |].
    split; [apply Hclean; vm_compute; reflexivity |].
    split; [exact Hfut |]. split; [exact Hpn | exact Hall].
Defined.

(** C1 as stated fails.  One commit from the store the scripts start
    with, one undo and one redo, all completing, end in a state that is
    not the state after the commit: the snapshot in [history.past] now
    carries the redo list that [undo] recorded, so its [history.future]
    has one entry, where after the commit it had none.  And with the
    history at its cap (here after a commit that put fifty entries into
    [history.past]), one commit, one undo and one redo leave 51 entries
    in [history.past], where the commit left 50: [redo] puts the
    snapshot back without looking at the cap.  And after a commit that
    writes [history.past] itself, one undo and one redo leave one entry
    there, where the commit left two. *)
Lemma C1_counterexample :
  let st0 := StateManager.loaded (fun _ => "x") in
  let st1 := snd (StateManager.update (VStr "ui.currentPage") (VNum 1) st0) in
  let st2 := snd (StateManager.undo st1) in
  let st3 := snd (StateManager.redo st2) in
  let full :=
    snd (StateManager.update (VStr "history.past") (VArr (repeat VNull 50))
           st0) in
  let full1 :=
    snd (StateManager.update (VStr "ui.currentPage") (VNum 1) full) in
  let full2 := snd (StateManager.undo full1) in
  let full3 := snd (StateManager.redo full2) in
  let own1 :=
    snd (StateManager.update (VStr "history.past") (VArr [VNull]) st0) in
  let own2 := snd (StateManager.undo own1) in
  let own3 := snd (StateManager.redo own2) in
  (StateManager.update (VStr "ui.currentPage") (VNum 1) st0 = (Ok tt, st1)
   /\ StateManager.undo st1 = (Ok tt, st2)
   /\ StateManager.redo st2 = (Ok tt, st3)
   /\ getValueAtPath (state st1) "history.past.0.history.future.length"
      = VNum 0
   /\ getValueAtPath (state st3) "history.past.0.history.future.length"
      = VNum 1
   /\ state st3 <> state st1)
  /\ (StateManager.update (VStr "history.past") (VArr (repeat VNull 50)) st0
      = (Ok tt, full)
      /\ StateManager.update (VStr "ui.currentPage") (VNum 1) full
         = (Ok tt, full1)
      /\ StateManager.undo full1 = (Ok tt, full2)
      /\ StateManager.redo full2 = (Ok tt, full3)
      /\ getValueAtPath (state full) "history.past.length" = VNum 50
      /\ getValueAtPath (state full1) "history.past.length" = VNum 50
      /\ getValueAtPath (state full3) "history.past.length" = VNum 51)
  /\ (StateManager.update (VStr "history.past") (VArr [VNull]) st0
      = (Ok tt, own1)
      /\ StateManager.undo own1 = (Ok tt, own2)
      /\ StateManager.redo own2 = (Ok tt, own3)
      /\ getValueAtPath (state own1) "history.past.length" = VNum 2
      /\ getValueAtPath (state own3) "history.past.length" = VNum 1).
Proof.
  cbv zeta. split.
  - split; [vm_compute; reflexivity |].
    split; [vm_compute; reflexivity |].
    split; [vm_compute; reflexivity |].
    split; [vm_compute; reflexivity |].
    split; [vm_compute; reflexivity |].
    intros H.
    apply (f_equal (fun s =>
             getValueAtPath s "history.past.0.history.future.length")) in H.
    vm_compute in H. discriminate H.
  - split.
    + split; [vm_compute; reflexivity |].
      split; [vm_compute; reflexivity |].
      split; [vm_compute; reflexivity |].
      split; [vm_compute; reflexivity |].
      split; [vm_compute; reflexivity |].
      split; vm_compute; reflexivity.
    + split; [vm_compute; reflexivity |].
      split; [vm_compute; reflexivity |].
      split; [vm_compute; reflexivity |].
      split; vm_compute; reflexivity.
Qed.

(* ===================================================================== *)
(** ** C9: filtering the suggestions *)
(* ===================================================================== *)

Lemma includes_occurs s sub :
  MentionSystem.includes s sub = true <-> occurs_in sub s.
Proof.
  unfold occurs_in. induction s as [| c s IH]; cbn [MentionSystem.includes].
  - destruct (prefix sub "") eqn:Hp.
    + apply prefix_app in Hp. destruct Hp as (r & Hr).
      split; auto. intros _. exists "", r. exact Hr.
    + split; [discriminate |]. intros (a & b & H).
      destruct a; [| discriminate]. simpl in H.
      assert (Hp' : prefix sub "" = true) by (apply prefix_app; eauto).
      congruence.
  - destruct (prefix sub (String c s)) eqn:Hp.
    + apply prefix_app in Hp. destruct Hp as (r & Hr).
      split; auto. intros _. exists "", r. exact Hr.
    + rewrite IH. split.
      * intros (a & b & ->). exists (String c a), b. reflexivity.
      * intros (a & b & H). destruct a as [| d a].
        -- simpl in H.
           assert (Hp' : prefix sub (String c s) = true)
             by (apply prefix_app; eauto).
           congruence.
        -- inversion H. eauto.
Qed.

Lemma includes_empty s : MentionSystem.includes s "" = true.
Proof. apply includes_occurs. exists "", s. reflexivity. Qed.

Lemma filterItems_filter query :
  MentionSystem.filterItems query
  = filter (matches query) MentionSystem.suggestions.
Proof.
  destruct query as [| c q].
  - change (MentionSystem.filterItems "") with MentionSystem.suggestions.
    transitivity (filter (fun _ => true) MentionSystem.suggestions).
    + induction MentionSystem.suggestions as [| i l IH]; simpl; congruence.
    + apply filter_ext. intros item. unfold matches.
      cbn [MentionSystem.toLowerCase]. rewrite includes_empty. reflexivity.
  - reflexivity.
Qed.

(** C9: [filterItems] is a filter of the catalog, in catalog order: the
    empty query gives the whole catalog; any query gives the items
    whose label or description, in lower case, contains the query in
    lower case (so two queries that differ in case only give the same
    items); and the query [table] gives the four table items, which are
    all the table items of the catalog and no other. *)
Theorem C9_suggestion_filtering :
  MentionSystem.filterItems "" = MentionSystem.suggestions
  /\ (forall query,
        MentionSystem.filterItems query
        = filter (matches query) MentionSystem.suggestions)
  /\ (forall query item,
        In item (MentionSystem.filterItems query)
        <-> In item MentionSystem.suggestions
            /\ (occurs_in (MentionSystem.toLowerCase query)
                  (MentionSystem.toLowerCase (MentionSystem.label item))
                \/ occurs_in (MentionSystem.toLowerCase query)
                     (MentionSystem.toLowerCase
                        (MentionSystem.description item))))
  /\ (forall query query',
        MentionSystem.toLowerCase query = MentionSystem.toLowerCase query' ->
        MentionSystem.filterItems query = MentionSystem.filterItems query')
  /\ MentionSystem.filterItems "table"
     = firstn 4 (skipn 3 MentionSystem.suggestions)
  /\ MentionSystem.filterItems "TABLE" = MentionSystem.filterItems "table"
  /\ (forall item,
        In item (MentionSystem.filterItems "table")
        <-> In item MentionSystem.suggestions /\ is_table item).
Proof.
  split; [reflexivity |].
  split; [apply filterItems_filter |].
  split.
  { intros query item. rewrite filterItems_filter, filter_In.
    unfold matches. rewrite orb_true_iff, !includes_occurs. reflexivity. }
  split.
  { intros query query' H. rewrite !filterItems_filter.
    apply filter_ext. intros item. unfold matches. rewrite H. reflexivity. }
  split; [vm_compute; reflexivity |].
  split; [vm_compute; reflexivity |].
  intros item. split.
  - intros H. vm_compute in H.
    destruct H as [<- | [<- | [<- | [<- | []]]]];
      (split; [vm_compute; tauto | eexists _, _; reflexivity]).
  - intros [H (rows & cols & Ht)]. vm_compute in H.
    destruct H as [<- | [<- | [<- | [<- | [<- | [<- | [<- | [<- |
                  [<- | [<- | [<- | []]]]]]]]]]]];
      try discriminate Ht; vm_compute; tauto.
Qed.

(** Two spellings of one query. *)
Lemma C9_witness :
  MentionSystem.filterItems "Table" = MentionSystem.filterItems "tAbLe".
Proof.
  apply (proj1 (proj2 (proj2 (proj2 C9_suggestion_filtering)))).
  reflexivity.
Defined.

(* ===================================================================== *)
(** ** Pages in the state *)
(* ===================================================================== *)

Lemma name_document : name "document". Proof. split; reflexivity. Qed.
Lemma name_pages : name "pages". Proof. split; reflexivity. Qed.
Lemma name_ui : name "ui". Proof. split; reflexivity. Qed.
Lemma name_blocks : name "blocks". Proof. split; reflexivity. Qed.

Lemma pages_shape s pages :
  getValueAtPath s "document.pages" = VArr pages ->
  exists props dprops,
    s = VObj props
    /\ lookup "document" props = Some (VObj dprops)
    /\ lookup "pages" dprops = Some (VArr pages).
Proof.
  unfold getValueAtPath.
  change (split_dot "document.pages") with ["document"; "pages"].
  cbn [walk]. intros H.
  destruct (nullish s); [discriminate |].
  destruct (nullish (get_prop s "document")); [discriminate |].
  destruct (get_prop_reference (get_prop s "document") name_pages)
    as (dprops & Hd & Hp); [rewrite H; reflexivity |].
  destruct (get_prop_reference s name_document) as (props & Hs & Hl);
    [rewrite Hd; reflexivity |].
  exists props, dprops. rewrite Hd in Hl. rewrite H in Hp. auto.
Qed.

Lemma get_run path st v :
  getValueAtPath (state st) path = v -> v <> VUndef ->
  StateManager.get path st = (Ok (serialize v), st).
Proof.
  intros H Hv. unfold StateManager.get. rewrite bind_reads, H.
  unfold lift. rewrite deepClone_defined by exact Hv. reflexivity.
Qed.

Lemma current_pages_run st pages :
  getValueAtPath (state st) "document.pages" = VArr pages ->
  PageManager.current_pages st = (Ok (VArr (map element_json pages)), st).
Proof.
  intros H. unfold PageManager.current_pages.
  erewrite bind_run by (apply (get_run _ _ H); discriminate).
  reflexivity.
Qed.

Lemma json_clean_elements elems :
  forallb json_clean elems = true -> map element_json elems = elems.
Proof.
  intros H.
  assert (Hc : json_clean (VArr elems) = true) by exact H.
  apply json_clean_serialize in Hc. rewrite serialize_VArr in Hc.
  congruence.
Qed.

Lemma strict_eq_str_true v s : strict_eq_str v s = true <-> v = VStr s.
Proof.
  destruct v; simpl; try (split; [discriminate | congruence]).
  rewrite String.eqb_eq. split; congruence.
Qed.

Lemma is_page_shape p :
  is_page p = true ->
  exists props id blocks,
    p = VObj props
    /\ lookup "id" props = Some (VStr id)
    /\ lookup "blocks" props = Some (VArr blocks)
    /\ forallb is_block blocks = true.
Proof.
  destruct p as [| | b | n | s | elems | props]; try discriminate.
  cbn [is_page].
  destruct (lookup "id" props) as [[| | | | id | |] |] eqn:Hid;
    try discriminate.
  destruct (lookup "blocks" props) as [[| | | | | blocks |] |] eqn:Hbl;
    try discriminate.
  intros H. exists props, id, blocks. auto.
Qed.

Lemma is_block_shape b :
  is_block b = true ->
  exists props id, b = VObj props /\ lookup "id" props = Some (VStr id).
Proof.
  destruct b as [| | x | n | s | elems | props]; try discriminate.
  cbn [is_block].
  destruct (lookup "id" props) as [[| | | | id | |] |] eqn:Hid;
    try discriminate.
  intros _. exists props, id. auto.
Qed.

Lemma first_with_id_none pages pageId : forall i,
  forallb is_page pages = true ->
  (forall q, In q pages -> id_of q <> VStr pageId) ->
  PageManager.first_with_id pages pageId i = Ok None.
Proof.
  induction pages as [| q pages IH]; intros i Hall Hno; [reflexivity |].
  cbn [forallb] in Hall. apply andb_true_iff in Hall.
  destruct Hall as [Hq Hall].
  destruct (is_page_shape _ Hq) as (props & id & blocks & -> & _).
  cbn [PageManager.first_with_id].
  rewrite member_defined by reflexivity. cbn [obind].
  destruct (strict_eq_str (get_prop (VObj props) "id") pageId) eqn:E.
  - apply strict_eq_str_true in E. exfalso.
    apply (Hno (VObj props)); [left; reflexivity | exact E].
  - apply IH; auto. intros q' Hin. apply Hno. right. exact Hin.
Qed.

Lemma first_with_id_found before p after pageId : forall i,
  forallb is_page (before ++ p :: after) = true ->
  (forall q, In q before -> id_of q <> VStr pageId) ->
  id_of p = VStr pageId ->
  PageManager.first_with_id (before ++ p :: after) pageId i
  = Ok (Some (i + List.length before)).
Proof.
  induction before as [| q before IH]; intros i Hall Hno Hp.
  - cbn [app forallb] in *. apply andb_true_iff in Hall.
    destruct Hall as [Hq _].
    destruct (is_page_shape _ Hq) as (props & id & blocks & -> & _).
    cbn [PageManager.first_with_id].
    rewrite member_defined by reflexivity. cbn [obind].
    unfold id_of in Hp. rewrite Hp. cbn [strict_eq_str].
    rewrite String.eqb_refl. simpl. rewrite Nat.add_0_r. reflexivity.
  - cbn [app forallb] in *. apply andb_true_iff in Hall.
    destruct Hall as [Hq Hall].
    destruct (is_page_shape _ Hq) as (props & id & blocks & -> & _).
    cbn [PageManager.first_with_id].
    rewrite member_defined by reflexivity. cbn [obind].
    destruct (strict_eq_str (get_prop (VObj props) "id") pageId) eqn:E.
    + apply strict_eq_str_true in E. exfalso.
      apply (Hno (VObj props)); [left; reflexivity | exact E].
    + rewrite IH; auto.
      * cbn [List.length]. f_equal. f_equal. lia.
      * intros q' Hin. apply Hno. right. exact Hin.
Qed.

Lemma generateId_run prefix st :
  Utils.generateId prefix st
  = (Ok (prefix ++ "-" ++ entropy st (draws st))%string,
     set_draws (S (draws st)) st).
Proof. reflexivity. Qed.

Lemma renew_run blocks : forall st,
  forallb is_block blocks = true ->
  PageManager.renew_block_ids blocks st
  = (Ok (renewed (entropy st) (draws st) blocks),
     set_draws (draws st + List.length blocks) st).
Proof.
  induction blocks as [| b blocks IH]; intros st Hall.
  - cbn [PageManager.renew_block_ids renewed List.length].
    unfold ret, set_draws. rewrite Nat.add_0_r, eta_store. reflexivity.
  - cbn [forallb] in Hall. apply andb_true_iff in Hall.
    destruct Hall as [Hb Hall].
    destruct (is_block_shape _ Hb) as (props & id & -> & _).
    cbn [PageManager.renew_block_ids renewed].
    erewrite bind_run by apply generateId_run.
    erewrite bind_lift by reflexivity.
    erewrite bind_run by (apply IH; exact Hall).
    unfold ret. cbn [entropy draws set_draws List.length].
    rewrite Nat.add_succ_r. reflexivity.
Qed.

Lemma insert_at_middle before p after q :
  insert_at (List.length before + 1) q (before ++ p :: after)
  = before ++ p :: q :: after.
Proof.
  unfold insert_at.
  replace (List.length before + 1)
    with (List.length (before ++ [p]) + 0)
    by (rewrite length_app; simpl; lia).
  replace (before ++ p :: after) with ((before ++ [p]) ++ after)
    by (rewrite <- app_assoc; reflexivity).
  rewrite firstn_app_2, skipn_app, skipn_all2 by lia.
  replace (List.length (before ++ [p]) + 0 - List.length (before ++ [p]))
    with 0 by lia.
  simpl. rewrite app_nil_r, <- app_assoc. reflexivity.
Qed.

(** The two writes of the page manager's commits, run forward. *)
Lemma pages_commit_run st props dprops u ps newPages current :
  state st = VObj props ->
  lookup "document" props = Some (VObj dprops) ->
  get_prop (state st) "ui" = VObj u ->
  past_of (state st) = VArr ps ->
  exists st',
    StateManager.update
      (VObj [ ("document.pages", newPages); ("ui.currentPage", current) ])
      PageManager.from_page_manager st
    = (Ok tt, st')
    /\ getValueAtPath (state st') "document.pages" = newPages
    /\ getValueAtPath (state st') "ui.currentPage" = current
    /\ entropy st' = entropy st /\ draws st' = draws st
    /\ requests st' = requests st.
Proof.
  intros Hs Hd Hu Hp.
  destruct (past_array_shape _ Hp) as (props' & hprops & Hs' & Hh & Hl).
  rewrite Hs in Hs'. inversion Hs'; subst props'. clear Hs'.
  rewrite Hs in Hu.
  set (s1 := with_member (VObj props) "document"
               (VObj (define "pages" newPages dprops))).
  set (s2 := with_member s1 "ui" (VObj (define "currentPage" current u))).
  assert (Hw1 : assignPath (VObj props) (split_dot "document.pages") newPages
                = Ok s1).
  { change (split_dot "document.pages") with ["document"; "pages"].
    cbn [assignPath]. rewrite member_defined by reflexivity. cbn [obind].
    rewrite get_prop_VObj, Hd. cbn [falsy obind].
    rewrite member_defined by reflexivity. cbn [obind].
    rewrite get_prop_VObj, Hd. reflexivity. }
  assert (Hu1 : get_prop s1 "ui" = VObj u).
  { unfold s1. rewrite get_with_member_other by discriminate. exact Hu. }
  assert (Hw2 : assignPath s1 (split_dot "ui.currentPage") current = Ok s2).
  { change (split_dot "ui.currentPage") with ["ui"; "currentPage"].
    cbn [assignPath]. rewrite member_defined by reflexivity. cbn [obind].
    rewrite Hu1. cbn [falsy obind].
    rewrite member_defined by reflexivity. cbn [obind].
    rewrite Hu1. reflexivity. }
  set (mid := set_state s2
                (set_changedPaths ["document.pages"; "ui.currentPage"] st)).
  destruct (@update_run
              (VObj [ ("document.pages", newPages);
                      ("ui.currentPage", current) ])
              PageManager.from_page_manager st mid ps)
    as (s' & data & Hrun & _ & _ & Hother).
  - rewrite Hs. discriminate.
  - cbn [mutation]. erewrite bind_lift by reflexivity.
    cbn [forEach fst snd].
    erewrite bind_run
      by (apply write_run; cbn [state set_changedPaths]; rewrite Hs;
          exact Hw1).
    erewrite bind_run by (apply write_run; exact Hw2).
    reflexivity.
  - reflexivity.
  - cbn [mid state set_state]. unfold past_of, history_of, s2, s1.
    rewrite !with_member_other by (try discriminate; apply name_history).
    rewrite get_prop_VObj, Hh, get_prop_VObj, Hl. reflexivity.
  - rewrite Hrun. eexists. split; [reflexivity |].
    cbn [state set_invoked set_state entropy draws requests mid
         set_changedPaths].
    repeat split.
    + unfold getValueAtPath.
      change (split_dot "document.pages") with ["document"; "pages"].
      cbn [walk].
      assert (Hdoc : get_prop s' "document"
                     = VObj (define "pages" newPages dprops)).
      { rewrite Hother by discriminate. cbn [mid state set_state].
        unfold s2.
        rewrite with_member_other by (try discriminate; apply name_document).
        unfold s1. apply get_with_member_same. }
      destruct (get_prop_reference s' name_document) as (sp & Es & _);
        [rewrite Hdoc; reflexivity |].
      rewrite Hdoc. rewrite Es at 1. cbn [nullish].
      rewrite get_prop_VObj, lookup_define_same. reflexivity.
    + unfold getValueAtPath.
      change (split_dot "ui.currentPage") with ["ui"; "currentPage"].
      cbn [walk].
      assert (Hui : get_prop s' "ui"
                    = VObj (define "currentPage" current u)).
      { rewrite Hother by discriminate. cbn [mid state set_state].
        unfold s2, s1. cbn [with_member]. apply get_with_member_same. }
      destruct (get_prop_reference s' name_ui) as (sp & Es & _);
        [rewrite Hui; reflexivity |].
      rewrite Hui. rewrite Es at 1. cbn [nullish].
      rewrite get_prop_VObj, lookup_define_same. reflexivity.
Qed.

(* ===================================================================== *)
(** ** C8: duplicating a page *)
(* ===================================================================== *)

Lemma renewed_length random blocks : forall n,
  List.length (renewed random n blocks) = List.length blocks.
Proof. induction blocks as [| b blocks IH]; intros n; simpl; auto. Qed.

Lemma nth_renewed random blocks : forall n j,
  j < List.length blocks ->
  nth j (renewed random n blocks) VUndef
  = with_member (nth j blocks VUndef) "id"
      (VStr ("block" ++ "-" ++ random (n + j))%string).
Proof.
  induction blocks as [| b blocks IH]; intros n j Hj; simpl in Hj; [lia |].
  destruct j as [| j]; cbn [renewed nth].
  - rewrite Nat.add_0_r. reflexivity.
  - rewrite IH by lia. rewrite Nat.add_succ_r. reflexivity.
Qed.

Lemma In_nth_lt (l : list value) x :
  In x l -> exists j, j < List.length l /\ nth j l VUndef = x.
Proof. apply In_nth. Qed.

Lemma forallb_nth (f : value -> bool) l j :
  forallb f l = true -> j < List.length l -> f (nth j l VUndef) = true.
Proof.
  intros H Hj. rewrite forallb_forall in H. apply H. apply nth_In. exact Hj.
Qed.

(** C8, as the code has it: in a state whose pages are JSON values of
    the page shape, [duplicatePage] of an identifier no page has
    changes nothing; and for the first page [p] with the identifier,
    it completes and puts right after [p] a page [q] that has the
    fields of [p] outside [id] and [blocks], and as many blocks, each
    with the fields of the block of [p] it copies outside [id].  The
    identifiers of [q] and of its blocks are the ones drawn at random
    for them; they differ from the identifier of [p] and from those of
    its blocks when the draws do, which the code does not check. *)
Theorem C8_duplicate_page :
  forall (st : store) (pages : list value) (pageId : string)
         (u : list (string * value)) (ps : list value),
    getValueAtPath (state st) "document.pages" = VArr pages ->
    forallb json_clean pages = true ->
    forallb is_page pages = true ->
    get_prop (state st) "ui" = VObj u ->
    past_of (state st) = VArr ps ->
    ((forall q, In q pages -> id_of q <> VStr pageId) ->
     PageManager.duplicatePage pageId st = (Ok tt, st))
    /\ forall before p after,
         pages = before ++ p :: after ->
         id_of p = VStr pageId ->
         (forall q, In q before -> id_of q <> VStr pageId) ->
         exists st' q,
           PageManager.duplicatePage pageId st = (Ok tt, st')
           /\ getValueAtPath (state st') "document.pages"
              = VArr (before ++ p :: q :: after)
           /\ id_of q = VStr ("page" ++ "-" ++ entropy st (draws st))%string
           /\ List.length (blocks_of q) = List.length (blocks_of p)
           /\ (forall j, j < List.length (blocks_of p) ->
                 id_of (nth j (blocks_of q) VUndef)
                 = VStr ("block" ++ "-"
                         ++ entropy st (S (draws st) + j))%string)
           /\ (forall k, k <> "id" -> k <> "blocks" ->
                 get_prop q k = get_prop p k)
           /\ (forall j k, k <> "id" ->
                 get_prop (nth j (blocks_of q) VUndef) k
                 = get_prop (nth j (blocks_of p) VUndef) k)
           /\ (fresh_for p (entropy st) (draws st) ->
               id_of q <> id_of p
               /\ forall b' b, In b' (blocks_of q) -> In b (blocks_of p) ->
                               id_of b' <> id_of b).
Proof.
  intros st pages pageId u ps Hpages Hclean Hshape Hu Hp.
  pose proof (current_pages_run _ Hpages) as Hcur.
  rewrite (json_clean_elements _ Hclean) in Hcur.
  split.
  - intros Hno. unfold PageManager.duplicatePage.
    erewrite bind_run by exact Hcur.
    erewrite bind_lift
      by (cbn [PageManager.findIndex]; apply first_with_id_none; auto).
    reflexivity.
  - intros before p after -> Hid Hfirst.
    destruct (pages_shape _ Hpages) as (props & dprops & Hs & Hd & _).
    assert (Hpage : is_page p = true).
    { rewrite forallb_forall in Hshape. apply Hshape.
      apply in_or_app. right. left. reflexivity. }
    destruct (is_page_shape _ Hpage) as (pprops & id & blocks & Ep & Hpi & Hpb & Hbs).
    assert (Hpc : serialize p = p).
    { apply json_clean_serialize. rewrite forallb_forall in Hclean.
      apply Hclean. apply in_or_app. right. left. reflexivity. }
    set (n := draws st).
    set (newId := ("page" ++ "-" ++ entropy st n)%string).
    set (q := with_member (VObj (define "id" (VStr newId) pprops)) "blocks"
                (VArr (renewed (entropy st) (S n) blocks))).
    destruct (@pages_commit_run
                (set_draws (S n + List.length blocks) st) props dprops u ps
                (VArr (before ++ p :: q :: after))
                (VNum (Z.of_nat (List.length before) + 1)))
      as (st' & Hup & Hnew & _ & _ & _ & _); auto.
    exists (record_request (ScrollIntoView newId) st'), q.
    split.
    { unfold PageManager.duplicatePage.
      erewrite bind_run by exact Hcur.
      erewrite bind_lift
        by (cbn [PageManager.findIndex];
            apply (@first_with_id_found before p after pageId 0); auto).
      cbn [Nat.add].
      erewrite bind_lift by (cbn [member_at]; rewrite nth_middle; reflexivity).
      erewrite bind_lift
        by (rewrite deepClone_defined, Hpc; [reflexivity |];
            rewrite Ep; discriminate).
      erewrite bind_run by apply generateId_run.
      rewrite Ep. erewrite bind_lift by reflexivity.
      erewrite bind_lift by (apply member_defined; reflexivity).
      rewrite get_prop_VObj, lookup_define_other, Hpb by discriminate.
      erewrite bind_run by (apply renew_run; exact Hbs).
      erewrite bind_lift by reflexivity.
      cbn [entropy draws set_draws].
      fold n. fold newId. fold q.
      rewrite insert_at_middle. rewrite <- Ep.
      replace (set_draws (S n + List.length blocks) (set_draws (S n) st))
        with (set_draws (S n + List.length blocks) st) by reflexivity.
      erewrite bind_run by exact Hup. reflexivity. }
    assert (Hbq : blocks_of q = renewed (entropy st) (S n) blocks).
    { unfold blocks_of, q. rewrite get_with_member_same. reflexivity. }
    assert (Hbp : blocks_of p = blocks).
    { unfold blocks_of. rewrite Ep, get_prop_VObj, Hpb. reflexivity. }
    assert (Hidq : id_of q = VStr newId).
    { unfold id_of, q. rewrite get_with_member_other by discriminate.
      rewrite get_prop_VObj, lookup_define_same. reflexivity. }
    assert (Hidb : forall j, j < List.length blocks ->
              id_of (nth j (renewed (entropy st) (S n) blocks) VUndef)
              = VStr ("block" ++ "-" ++ entropy st (S n + j))%string).
    { intros j Hj. rewrite nth_renewed by exact Hj.
      destruct (is_block_shape _ (forallb_nth _ _ Hbs Hj))
        as (bprops & bid & -> & _).
      unfold id_of. apply get_with_member_same. }
    split; [exact Hnew |]. split; [exact Hidq |].
    rewrite Hbq, Hbp. split; [apply renewed_length |].
    split; [exact Hidb |]. split; [| split].
    + intros k Hk1 Hk2. unfold q.
      rewrite get_with_member_other by congruence.
      rewrite Ep, !get_prop_VObj, lookup_define_other by congruence.
      reflexivity.
    + intros j k Hk.
      destruct (Nat.lt_ge_cases j (List.length blocks)) as [Hj | Hj].
      * rewrite nth_renewed by exact Hj.
        destruct (is_block_shape _ (forallb_nth _ _ Hbs Hj))
          as (bprops & bid & -> & _).
        apply get_with_member_other. congruence.
      * rewrite !nth_overflow
          by (try rewrite renewed_length; exact Hj).
        reflexivity.
    + intros [Hfp Hfb]. split.
      * rewrite Hidq. exact Hfp.
      * intros b' b Hin' Hin.
        apply In_nth_lt in Hin'. destruct Hin' as (j & Hj & <-).
        rewrite renewed_length in Hj. rewrite Hidb by exact Hj.
        apply Hfb; rewrite Hbp; assumption.
Qed.

(** The initial page, duplicated with draws that are all different. *)
Lemma C8_witness :
  let st := StateManager.loaded sample_random in
  let pages := pages_of (state st) in
  ((forall q, In q pages -> id_of q <> VStr "page-a1b2c3d4e") ->
   PageManager.duplicatePage "page-a1b2c3d4e" st = (Ok tt, st))
  /\ forall before p after,
       pages = before ++ p :: after ->
       id_of p = VStr "page-a1b2c3d4e" ->
       (forall q, In q before -> id_of q <> VStr "page-a1b2c3d4e") ->
       exists st' q,
         PageManager.duplicatePage "page-a1b2c3d4e" st = (Ok tt, st')
         /\ getValueAtPath (state st') "document.pages"
            = VArr (before ++ p :: q :: after)
         /\ id_of q = VStr ("page" ++ "-" ++ entropy st (draws st))%string
         /\ List.length (blocks_of q) = List.length (blocks_of p)
         /\ (forall j, j < List.length (blocks_of p) ->
               id_of (nth j (blocks_of q) VUndef)
               = VStr ("block" ++ "-"
                       ++ entropy st (S (draws st) + j))%string)
         /\ (forall k, k <> "id" -> k <> "blocks" ->
               get_prop q k = get_prop p k)
         /\ (forall j k, k <> "id" ->
               get_prop (nth j (blocks_of q) VUndef) k
               = get_prop (nth j (blocks_of p) VUndef) k)
         /\ (fresh_for p (entropy st) (draws st) ->
             id_of q <> id_of p
             /\ forall b' b, In b' (blocks_of q) -> In b (blocks_of p) ->
                             id_of b' <> id_of b).
Proof.
  cbv zeta.
  eapply (@C8_duplicate_page (StateManager.loaded sample_random)
            (pages_of (state (StateManager.loaded sample_random)))
            "page-a1b2c3d4e").
  - vm_compute. reflexivity.
  - vm_compute. reflexivity.
  - vm_compute. reflexivity.
  - vm_compute. reflexivity.
  - vm_compute. reflexivity.
Defined.

(** C8 as stated fails: when the draw for the new page repeats the
    draw that named the source page, the copy has the identifier of the
    source. *)
Lemma C8_counterexample :
  let st := StateManager.loaded repeating_random in
  let st' := snd (PageManager.duplicatePage "page-a1b2c3d4e" st) in
  PageManager.duplicatePage "page-a1b2c3d4e" st = (Ok tt, st')
  /\ getValueAtPath (state st) "document.pages.length" = VNum 1
  /\ getValueAtPath (state st) "document.pages.0.id" = VStr "page-a1b2c3d4e"
  /\ getValueAtPath (state st') "document.pages.length" = VNum 2
  /\ getValueAtPath (state st') "document.pages.0.id" = VStr "page-a1b2c3d4e"
  /\ getValueAtPath (state st') "document.pages.1.id" = VStr "page-a1b2c3d4e".
Proof.
  cbv zeta.
  split; [vm_compute; reflexivity |].
  split; [vm_compute; reflexivity |].
  split; [vm_compute; reflexivity |].
  split; [vm_compute; reflexivity |].
  split; vm_compute; reflexivity.
Qed.

(* ===================================================================== *)
(** ** C4: the last page and the last block *)
(* ===================================================================== *)

Lemma in_core_run {A} (m : M A) pg a st' :
  m (TextEditor.core pg) = (Ok a, st') ->
  TextEditor.in_core m pg = (Ok a, TextEditor.set_core st' pg).
Proof. unfold TextEditor.in_core. intros ->. reflexivity. Qed.

Lemma deletePage_only_page st pageId confirmed p :
  getValueAtPath (state st) "document.pages" = VArr [p] ->
  PageManager.deletePage pageId confirmed st
  = (Ok tt, record_request (Alert "Cannot delete the only page.") st).
Proof.
  intros H. unfold PageManager.deletePage.
  erewrite bind_run by (apply current_pages_run; exact H).
  erewrite bind_lift by (apply member_defined; reflexivity).
  erewrite bind_lift by reflexivity.
  reflexivity.
Qed.

Lemma backspace_on_only_block e pg editor el only :
  TextEditor.key e = "Backspace" ->
  TextEditor.activeEditor pg = Some editor ->
  TextEditor.element editor pg = Some el ->
  TextEditor.pageBody editor pg = Some [only] ->
  TextEditor.handleEditorKeydown e pg
  = (Ok tt, TextEditor.set_lastKeyPressed (Some "Backspace") pg).
Proof.
  intros Hk Ha He Hb. unfold TextEditor.handleEditorKeydown. rewrite Hk.
  change (String.eqb "Backspace" "/") with false.
  change (String.eqb "Backspace" "Backspace") with true.
  change (String.eqb "Backspace" "Tab") with false.
  change (String.eqb "Backspace" "z") with false.
  change (String.eqb "Backspace" "y") with false.
  change (String.eqb "Backspace" "Enter") with false.
  cbn [andb].
  unfold TextEditor.attached.
  cbv [bind modify ret reads lift]. cbn [TextEditor.activeEditor
    TextEditor.set_lastKeyPressed].
  rewrite Ha.
  change (TextEditor.element editor
            (TextEditor.set_lastKeyPressed (Some "Backspace") pg))
    with (TextEditor.element editor pg).
  rewrite He.
  destruct (TextEditor.blank (TextEditor.content el)); [| reflexivity].
  cbv beta.
  change (TextEditor.pageBody editor
            (TextEditor.set_lastKeyPressed (Some "Backspace") pg))
    with (TextEditor.pageBody editor pg).
  rewrite Hb. reflexivity.
Qed.

(** C4, as the code has it: [deletePage] on a document with exactly one
    page shows the alert and leaves the state unchanged; and a Backspace
    in an editor whose page body holds exactly one block does not reach
    [deleteBlock], so the state and the page body stay as they are.
    The refusal for blocks is made there, by the key handler:
    [deleteBlock] itself has no guard. *)
Theorem C4_last_entity_guards :
  (forall st pageId confirmed p,
      getValueAtPath (state st) "document.pages" = VArr [p] ->
      exists st',
        PageManager.deletePage pageId confirmed st = (Ok tt, st')
        /\ state st' = state st
        /\ requests st'
           = requests st ++ [Alert "Cannot delete the only page."])
  /\ (forall e pg editor el only,
        TextEditor.key e = "Backspace" ->
        TextEditor.activeEditor pg = Some editor ->
        TextEditor.element editor pg = Some el ->
        TextEditor.pageBody editor pg = Some [only] ->
        exists pg',
          TextEditor.handleEditorKeydown e pg = (Ok tt, pg')
          /\ state (TextEditor.core pg') = state (TextEditor.core pg)
          /\ TextEditor.bodies pg' = TextEditor.bodies pg).
Proof.
  split.
  - intros st pageId confirmed p H.
    rewrite (@deletePage_only_page st pageId confirmed p H).
    eexists. repeat split.
  - intros e pg editor el only Hk Ha He Hb.
    rewrite (@backspace_on_only_block e pg editor el only Hk Ha He Hb).
    eexists. repeat split.
Qed.

(** The initial document has one page with one block: deleting the page
    and pressing Backspace in the empty block both change nothing. *)
Lemma C4_witness :
  (exists st',
      PageManager.deletePage "page-a1b2c3d4e" true
        (StateManager.loaded sample_random) = (Ok tt, st')
      /\ state st' = state (StateManager.loaded sample_random)
      /\ requests st' = [Alert "Cannot delete the only page."])
  /\ (exists pg',
        TextEditor.handleEditorKeydown
          (TextEditor.mkKey "Backspace" false false false)
          (editing sample_random "" 0 None) = (Ok tt, pg')
        /\ state (TextEditor.core pg')
           = state (StateManager.loaded sample_random)
        /\ TextEditor.bodies pg'
           = TextEditor.bodies (editing sample_random "" 0 None)).
Proof.
  destruct C4_last_entity_guards as [Hpage Hblock]. split.
  - eapply (Hpage (StateManager.loaded sample_random)). reflexivity.
  - eapply (Hblock _ (editing sample_random "" 0 None)); reflexivity.
Defined.

(** C4 as stated fails for blocks: [deleteBlock], called for the only
    block of the only page (the block is in the document tree), removes
    it from the state, which is left with a page without blocks. *)
Lemma C4_counterexample :
  let pg := editing sample_random "" 0 None in
  let pg' := snd (TextEditor.deleteBlock "block-z9y8x7w6v" pg) in
  TextEditor.deleteBlock "block-z9y8x7w6v" pg = (Ok tt, pg')
  /\ getValueAtPath (state (TextEditor.core pg))
       "document.pages.0.blocks.length" = VNum 1
  /\ getValueAtPath (state (TextEditor.core pg))
       "document.pages.0.blocks.0.id" = VStr "block-z9y8x7w6v"
  /\ getValueAtPath (state (TextEditor.core pg'))
       "document.pages.0.blocks.length" = VNum 0
  /\ state (TextEditor.core pg') <> state (TextEditor.core pg).
Proof.
  cbv zeta.
  split; [vm_compute; reflexivity |].
  split; [vm_compute; reflexivity |].
  split; [vm_compute; reflexivity |].
  split; [vm_compute; reflexivity |].
  intros H.
  apply (f_equal (fun s =>
           getValueAtPath s "document.pages.0.blocks.length")) in H.
  vm_compute in H. discriminate H.
Qed.

(* ===================================================================== *)
(** ** C3: committing a suggestion *)
(* ===================================================================== *)

(** [insertContent] clears [mentionTriggerPos] before it looks at it:
    whatever the session was, the call goes as with none. *)
Lemma insertContent_ignores_session sanitizeHtml html pg :
  TextEditor.insertContent sanitizeHtml html pg
  = TextEditor.insertContent sanitizeHtml html
      (TextEditor.set_mentionTriggerPos None pg).
Proof.
  unfold TextEditor.insertContent.
  erewrite bind_run by (apply in_core_run; apply emit_spec).
  symmetry.
  erewrite bind_run by (apply in_core_run; apply emit_spec).
  rewrite !bind_modify. reflexivity.
Qed.

(** C3 (the code departs from the claim): the editor holds [/tab], the
    session was triggered at offset 0 and the caret is at offset 4.
    Committing an item inserts its markup at the caret and saves the
    block, and the span from the anchor to the caret is still there:
    the editor holds [/tab<table>], where the claim has the span
    deleted first and the editor holding [<table>]. *)
Theorem C3_insertContent_keeps_trigger_text :
  forall sanitizeHtml : string -> string,
    let session := TextEditor.mkTrigger (TextEditor.mkRange 0 0 0) "tab" in
    let pg := editing sample_random "/tab" 4 (Some session) in
    let pg' := snd (TextEditor.insertContent sanitizeHtml "<table>" pg) in
    fst (TextEditor.insertContent sanitizeHtml "<table>" pg) = Ok tt
    /\ option_map TextEditor.content (TextEditor.element 0 pg')
       = Some "/tab<table>"
    /\ getValueAtPath (state (TextEditor.core pg'))
         "document.pages.0.blocks.0.content"
       = VStr (sanitizeHtml "/tab<table>")
    /\ TextEditor.mentionTriggerPos pg' = None.
Proof.
  intros sanitizeHtml. cbv zeta.
  split; [vm_compute; reflexivity |].
  split; [vm_compute; reflexivity |].
  split; vm_compute; reflexivity.
Qed.

(* ===================================================================== *)
(** * Further properties of the code *)
(* ===================================================================== *)

(* ===================================================================== *)
(** ** utils.js: [Utils.deepClone] *)
(* ===================================================================== *)

Lemma json_clean_element x : 
  (x <> VUndef -> json_clean (serialize x) = true) ->
  json_clean (element_json x) = true.
Proof.
  intros H. destruct x; try (apply H; discriminate). reflexivity.
Qed.

Lemma json_clean_serialized v : v <> VUndef -> json_clean (serialize v) = true.
Proof.
  induction v as [| | b | n | s | elems IH | props IH] using value_ind;
    intros Hv; try reflexivity; try congruence.
  - rewrite serialize_VArr. cbn [json_clean].
    induction IH as [| x l Hx _ IHl]; [reflexivity |].
    cbn [map forallb]. rewrite IHl by discriminate.
    rewrite json_clean_element by exact Hx. reflexivity.
  - rewrite serialize_VObj. cbn [json_clean].
    induction IH as [| [k x] l Hx _ IHl]; [reflexivity |].
    cbn [snd] in Hx.
    assert (IHl' := IHl ltac:(discriminate)).
    destruct x; cbn [members forallb snd]; try exact IHl';
      rewrite IHl', andb_true_r; apply Hx; discriminate.
Qed.

(** X1: [deepClone(obj)] throws (a SyntaxError) for [undefined] and for
    nothing else.  A clone holds no [undefined] anywhere, cloning it
    again gives it back, and a value that holds no [undefined] is its
    own clone. *)
Theorem deepClone_contract (obj : value) :
  (Utils.deepClone obj = Throw SyntaxError <-> obj = VUndef)
  /\ (forall clone, Utils.deepClone obj = Ok clone ->
        json_clean clone = true /\ Utils.deepClone clone = Ok clone)
  /\ (json_clean obj = true -> Utils.deepClone obj = Ok obj).
Proof.
  split; [| split].
  - split.
    + intros H. destruct obj; try discriminate. reflexivity.
    + intros ->. reflexivity.
  - intros clone H. apply deepClone_Ok in H. destruct H as [Hv ->].
    split; [apply json_clean_serialized; exact Hv |].
    rewrite deepClone_defined by (apply serialize_defined; exact Hv).
    rewrite serialize_idempotent. reflexivity.
  - intros H. rewrite deepClone_defined.
    + rewrite json_clean_serialize by exact H. reflexivity.
    + intros ->. discriminate.
Qed.

(** A page with a block whose [content] was never set. *)
Lemma deepClone_contract_witness :
  let obj := VObj [("id", VStr "b1"); ("content", VUndef);
                   ("cells", VArr [VNum 1; VUndef])] in
  let clone := VObj [("id", VStr "b1"); ("cells", VArr [VNum 1; VNull])] in
  Utils.deepClone obj = Ok clone
  /\ json_clean clone = true /\ Utils.deepClone clone = Ok clone.
Proof.
  cbv zeta. split; [reflexivity |].
  apply (proj1 (proj2 (@deepClone_contract
                         (VObj [("id", VStr "b1"); ("content", VUndef);
                                ("cells", VArr [VNum 1; VUndef])])))).
  reflexivity.
Defined.

(* ===================================================================== *)
(** ** utils.js: [setValueAtPath] and [getValueAtPath] *)
(* ===================================================================== *)

Lemma index_of_key_sound k i :
  index_of_key k = Some i ->
  key_of_index i = k /\ String.eqb k "length" = false.
Proof.
  unfold index_of_key. intros H.
  destruct (NilEmpty.uint_of_string k) as [u |] eqn:Hu; [| discriminate].
  destruct (String.eqb (key_of_index (N.of_uint u)) k) eqn:He;
    [| discriminate].
  destruct (N.of_uint u <? 4294967295)%N; [| discriminate].
  cbn in H. inversion H; subst. apply String.eqb_eq in He. split; [exact He |].
  destruct (String.eqb k "length") eqn:Hl; [| reflexivity].
  apply String.eqb_eq in Hl. rewrite Hl in Hu. vm_compute in Hu. discriminate.
Qed.

Lemma nth_store_at_same i x : forall elems,
  nth i (store_at i x elems) VUndef = x.
Proof.
  induction i as [| i IH]; intros [| y elems]; cbn; auto.
Qed.

Lemma nth_store_at_other i x : forall j elems,
  i <> j -> nth j (store_at i x elems) VUndef = nth j elems VUndef.
Proof.
  induction i as [| i IH]; intros [| j] [| y elems] Hne; cbn; auto;
    try congruence.
  - destruct j; reflexivity.
  - rewrite IH by congruence. destruct j; reflexivity.
Qed.

Lemma get_prop_store_at k i x elems :
  index_of_key k = Some i ->
  get_prop (VArr (store_at (N.to_nat i) x elems)) k = x.
Proof.
  intros Hk. destruct (index_of_key_sound _ Hk) as [_ Hl].
  cbn [get_prop]. rewrite Hl, Hk. apply nth_store_at_same.
Qed.

Lemma get_prop_store_at_other k i x elems k' :
  index_of_key k = Some i -> k <> k' -> String.eqb k' "length" = false ->
  get_prop (VArr (store_at (N.to_nat i) x elems)) k' = get_prop (VArr elems) k'.
Proof.
  intros Hk Hne Hl. cbn [get_prop]. rewrite Hl.
  destruct (index_of_key k') as [j |] eqn:Hj; [| reflexivity].
  apply nth_store_at_other. intros Heq. apply Hne.
  apply N2Nat.inj in Heq. subst j.
  destruct (index_of_key_sound _ Hk) as [<- _].
  destruct (index_of_key_sound _ Hj) as [<- _]. reflexivity.
Qed.

(** What is read under [k] right after [k] was assigned. *)
Lemma assign_same s k x s' :
  assign s k x = Ok s' -> is_reference s = true ->
  get_prop s' k = x /\ is_reference s' = true.
Proof.
  intros H Hr.
  destruct s as [| | b | n | t | elems | props]; try discriminate;
    cbn [assign] in H.
  - destruct (index_of_key k) as [i |] eqn:Hk; inversion H; subst.
    split; [apply get_prop_store_at; exact Hk | reflexivity].
  - inversion H; subst. cbn [get_prop]. rewrite lookup_define_same.
    split; reflexivity.
Qed.

Lemma with_member_same s k x :
  is_reference (get_prop s k) = true ->
  get_prop (with_member s k x) k = x
  /\ is_reference (with_member s k x) = true.
Proof.
  intros Hr.
  destruct s as [| | b | n | t | elems | props]; try discriminate;
    cbn [with_member].
  - cbn [get_prop] in Hr.
    destruct (String.eqb k "length"); [discriminate |].
    destruct (index_of_key k) as [i |] eqn:Hk; [| discriminate].
    exfalso. revert Hr. generalize (N.to_nat i). generalize (chars t).
    intros l. induction l as [| c l IH]; intros [| n0]; cbn; try discriminate.
    apply IH.
  - cbn [get_prop] in Hr.
    destruct (String.eqb k "length"); [discriminate |].
    destruct (index_of_key k) as [i |] eqn:Hk; [| discriminate].
    split; [apply get_prop_store_at; exact Hk | reflexivity].
  - cbn [get_prop]. rewrite lookup_define_same. split; reflexivity.
Qed.

Lemma assign_sibling s k x s' k' :
  assign s k x = Ok s' -> k <> k' -> String.eqb k' "length" = false ->
  get_prop s' k' = get_prop s k' /\ nullish s' = nullish s.
Proof.
  intros H Hne Hl.
  destruct s as [| | b | n | t | elems | props]; cbn [assign] in H;
    try discriminate; try (inversion H; split; reflexivity).
  - destruct (index_of_key k) as [i |] eqn:Hk; inversion H; subst.
    split; [eapply get_prop_store_at_other; eauto | reflexivity].
  - inversion H; subst. cbn [get_prop].
    rewrite lookup_define_other by exact Hne. split; reflexivity.
Qed.

Lemma with_member_sibling s k x k' :
  k <> k' -> String.eqb k' "length" = false ->
  get_prop (with_member s k x) k' = get_prop s k'
  /\ nullish (with_member s k x) = nullish s.
Proof.
  intros Hne Hl.
  destruct s as [| | b | n | t | elems | props]; cbn [with_member];
    try (split; reflexivity).
  - destruct (index_of_key k) as [i |] eqn:Hk; [| split; reflexivity].
    split; [eapply get_prop_store_at_other; eauto | reflexivity].
  - cbn [get_prop]. rewrite lookup_define_other by exact Hne.
    split; reflexivity.
Qed.

Lemma assignPath_two current part p2 rest v :
  assignPath current (part :: p2 :: rest) v
  = (let? child := member current part in
     let? current := (if falsy child then assign current part (VObj [])
                      else Ok current) in
     let? child := member current part in
     let? child' := assignPath child (p2 :: rest) v in
     Ok (if is_reference child then with_member current part child'
         else current))%outcome.
Proof. reflexivity. Qed.

Lemma writable_two current part p2 rest :
  writable current (part :: p2 :: rest)
  = is_reference current
    && (falsy (get_prop current part)
        || writable (get_prop current part) (p2 :: rest)).
Proof. reflexivity. Qed.

Lemma writable_reference current parts :
  parts <> [] -> writable current parts = true -> is_reference current = true.
Proof.
  destruct parts as [| p [| p2 rest]]; intros Hp H; [congruence | exact H |].
  rewrite writable_two in H. apply andb_true_iff in H. tauto.
Qed.

Lemma writable_new_object parts :
  parts <> [] -> writable (VObj []) parts = true.
Proof.
  destruct parts as [| p [| p2 rest]]; intros Hp;
    [congruence | reflexivity | reflexivity].
Qed.

Lemma reference_not_falsy v : is_reference v = true -> falsy v = false.
Proof. destruct v; try discriminate; reflexivity. Qed.

Lemma reference_not_nullish v : is_reference v = true -> nullish v = false.
Proof. destruct v; try discriminate; reflexivity. Qed.

(** A write that goes through objects and arrays arrives: the value is
    read back along the same parts. *)
Lemma assignPath_reaches parts : forall current v current',
  parts <> [] ->
  assignPath current parts v = Ok current' ->
  writable current parts = true ->
  walk current' parts = v /\ is_reference current' = true.
Proof.
  induction parts as [| part rest IH]; intros current v current' Hp H Hw;
    [congruence |].
  destruct rest as [| p2 rest].
  - cbn [assignPath] in H. cbn [writable] in Hw.
    destruct (assign_same _ _ _ H Hw) as [Hg Hr].
    cbn [walk]. rewrite (reference_not_nullish _ Hr). split; assumption.
  - rewrite assignPath_two in H. rewrite writable_two in Hw.
    apply andb_true_iff in Hw. destruct Hw as [Hr Hw].
    apply obind_Ok in H. destruct H as (child0 & Hc0 & H).
    apply member_Ok in Hc0. destruct Hc0 as [_ ->].
    apply obind_Ok in H. destruct H as (current1 & H1 & H).
    apply obind_Ok in H. destruct H as (child & Hc & H).
    apply member_Ok in Hc. destruct Hc as [_ ->].
    apply obind_Ok in H. destruct H as (child' & Hrec & H).
    inversion H; subst current'; clear H.
    assert (Hchild : writable (get_prop current1 part) (p2 :: rest) = true
                     /\ is_reference current1 = true).
    { destruct (falsy (get_prop current part)) eqn:Hf.
      - destruct (assign_same _ _ _ H1 Hr) as [-> Hr1].
        split; [apply writable_new_object; discriminate | exact Hr1].
      - inversion H1; subst current1. split; [exact Hw | exact Hr]. }
    destruct Hchild as [Hwc Hr1].
    destruct (IH _ _ _ ltac:(discriminate) Hrec Hwc) as [Hwalk Hrc'].
    assert (Hrc : is_reference (get_prop current1 part) = true)
      by (eapply writable_reference; [| exact Hwc]; discriminate).
    rewrite Hrc.
    destruct (with_member_same current1 part child' Hrc) as [Hg Hr'].
    split; [| exact Hr'].
    cbn [walk]. rewrite (reference_not_nullish _ Hr'), Hg. exact Hwalk.
Qed.

Lemma walk_undefined parts : walk VUndef parts = VUndef.
Proof. destruct parts; reflexivity. Qed.

Lemma walk_cons current part rest :
  nullish current = false ->
  walk current (part :: rest) = walk (get_prop current part) rest.
Proof. intros H. cbn [walk]. rewrite H. reflexivity. Qed.

(** Below a falsy value there is nothing to read, the [length] of the
    empty string excepted. *)
Lemma walk_falsy p common k' rest' :
  falsy p = true -> String.eqb k' "length" = false ->
  walk p (common ++ k' :: rest') = VUndef.
Proof.
  intros Hf Hl.
  destruct p as [| | [|] | [| n | n] | [| c t] | elems | props];
    try discriminate; destruct common as [| c2 common];
    cbn [app walk nullish get_prop]; try apply walk_undefined;
    try reflexivity.
  - rewrite Hl. destruct (index_of_key k') as [i |].
    + cbn [chars map]. destruct (N.to_nat i); apply walk_undefined.
    + apply walk_undefined.
  - destruct (String.eqb c2 "length").
    + destruct common; cbn [app walk nullish get_prop]; apply walk_undefined.
    + destruct (index_of_key c2) as [i |].
      * cbn [chars map]. destruct (N.to_nat i); apply walk_undefined.
      * apply walk_undefined.
Qed.

Lemma walk_new_object common k' rest' :
  walk (VObj []) (common ++ k' :: rest') = VUndef.
Proof.
  destruct common; cbn [app walk nullish get_prop lookup];
    apply walk_undefined.
Qed.

(** The first step of [setValueAtPath] at a part: the object is as it
    was, or the part was falsy and now holds a new object. *)
Lemma assign_new_object obj c current1 :
  (if falsy (get_prop obj c) then assign obj c (VObj []) else Ok obj)
  = Ok current1 ->
  current1 = obj
  \/ (falsy (get_prop obj c) = true /\ get_prop current1 c = VObj []).
Proof.
  destruct (falsy (get_prop obj c)) eqn:Hf; intros H;
    [| inversion H; auto].
  destruct (is_reference obj) eqn:Hr.
  - right. split; [reflexivity |]. eapply assign_same; eauto.
  - left. destruct obj; try discriminate; cbn [assign] in H;
      inversion H; reflexivity.
Qed.

Lemma assignPath_sibling s k rest v s' k' :
  assignPath s (k :: rest) v = Ok s' ->
  k <> k' -> String.eqb k' "length" = false ->
  get_prop s' k' = get_prop s k' /\ nullish s' = nullish s.
Proof.
  intros H Hne Hl. destruct rest as [| p2 rest].
  - cbn [assignPath] in H. eapply assign_sibling; eauto.
  - rewrite assignPath_two in H.
    apply obind_Ok in H. destruct H as (child0 & _ & H).
    apply obind_Ok in H. destruct H as (s1 & Hs1 & H).
    apply obind_Ok in H. destruct H as (child & _ & H).
    apply obind_Ok in H. destruct H as (child' & _ & H).
    inversion H; subst; clear H.
    assert (H1 : get_prop s1 k' = get_prop s k' /\ nullish s1 = nullish s).
    { destruct (falsy child0).
      - eapply assign_sibling; eauto.
      - inversion Hs1. split; reflexivity. }
    destruct (is_reference child); [| exact H1].
    destruct (with_member_sibling s1 child' Hne Hl) as [-> ->]. exact H1.
Qed.

(** A write leaves alone what lies beside its path: where the two paths
    part, the other one does not go on with [length]. *)
Lemma assignPath_frame common : forall obj k rest v obj' k' rest',
  assignPath obj (common ++ k :: rest) v = Ok obj' ->
  k <> k' -> String.eqb k' "length" = false ->
  walk obj' (common ++ k' :: rest') = walk obj (common ++ k' :: rest').
Proof.
  induction common as [| c common IH];
    intros obj k rest v obj' k' rest' H Hne Hl.
  - cbn [app] in *.
    destruct (assignPath_sibling _ _ _ H Hne Hl) as [Hg Hn].
    cbn [walk]. rewrite Hg, Hn. reflexivity.
  - cbn [app] in *.
    remember (common ++ k :: rest) as tail eqn:Htail.
    destruct tail as [| p2 r2]; [destruct common; discriminate |].
    rewrite assignPath_two in H.
    apply obind_Ok in H. destruct H as (child0 & Hc0 & H).
    apply member_Ok in Hc0. destruct Hc0 as [Hn0 ->].
    apply obind_Ok in H. destruct H as (current1 & H1 & H).
    apply obind_Ok in H. destruct H as (child & Hc & H).
    apply member_Ok in Hc. destruct Hc as [Hn1 ->].
    apply obind_Ok in H. destruct H as (child' & Hrec & H).
    inversion H; subst obj'; clear H.
    rewrite Htail in Hrec.
    specialize (IH _ _ _ _ _ _ rest' Hrec Hne Hl).
    apply assign_new_object in H1.
    destruct (is_reference (get_prop current1 c)) eqn:Hr.
    + destruct (with_member_same current1 c child' Hr) as [Hg Hr'].
      rewrite !walk_cons by auto using reference_not_nullish.
      rewrite Hg, IH.
      destruct H1 as [-> | [Hf Hnew]]; [reflexivity |].
      rewrite Hnew, walk_new_object, walk_falsy; auto.
    + destruct H1 as [-> | [Hf Hnew]]; [reflexivity |].
      rewrite Hnew in Hr. discriminate.
Qed.

(** X2: for a path none of whose parts is a name that objects inherit
    ([constructor], [__proto__], [toString], ...): when
    [setValueAtPath(obj, path, value)] goes through objects and arrays
    only, creating an object wherever it finds a falsy value,
    [getValueAtPath(obj, path)] afterwards is [value], and the path is
    the last of the changed paths. *)
Theorem setValueAtPath_then_getValueAtPath obj path v st obj' st' :
  own_path path = true ->
  setValueAtPath obj path v st = (Ok obj', st') ->
  writable obj (split_dot path) = true ->
  getValueAtPath obj' path = v
  /\ changedPaths st' = changedPaths st ++ [path].
Proof.
  intros _ H Hw. apply setValueAtPath_Ok in H. destruct H as [H ->].
  split; [| reflexivity].
  unfold getValueAtPath.
  eapply assignPath_reaches; eauto using split_dot_nonempty.
Qed.

(** The block of the initial document gets its content; the panel size
    is written below [ui.panel], which is created on the way. *)
Lemma setValueAtPath_then_getValueAtPath_witness :
  let st := StateManager.loaded sample_random in
  let r := setValueAtPath (state st) "document.pages.0.blocks.0.content"
             (VStr "Dear customer") st in
  let r' := setValueAtPath (state st) "ui.panel.size.width" (VNum 250) st in
  (exists obj',
      fst r = Ok obj'
      /\ getValueAtPath obj' "document.pages.0.blocks.0.content"
         = VStr "Dear customer"
      /\ changedPaths (snd r) = ["document.pages.0.blocks.0.content"])
  /\ (exists obj',
         fst r' = Ok obj'
         /\ getValueAtPath obj' "ui.panel.size.width" = VNum 250
         /\ getValueAtPath obj' "ui.panel"
            = VObj [("size", VObj [("width", VNum 250)])]).
Proof.
  cbv zeta. split.
  - eexists. split; [vm_compute; reflexivity |].
    apply (@setValueAtPath_then_getValueAtPath
             (state (StateManager.loaded sample_random))
             "document.pages.0.blocks.0.content" (VStr "Dear customer")
             (StateManager.loaded sample_random)).
    + reflexivity.
    + vm_compute. reflexivity.
    + vm_compute. reflexivity.
  - eexists. split; [vm_compute; reflexivity |].
    split; [| vm_compute; reflexivity].
    eapply (@setValueAtPath_then_getValueAtPath
              (state (StateManager.loaded sample_random))
              "ui.panel.size.width" (VNum 250)
              (StateManager.loaded sample_random)).
    + reflexivity.
    + vm_compute. reflexivity.
    + vm_compute. reflexivity.
Defined.



(* ===================================================================== *)
(** ** utils.js: [StateManager.update] and [StateManager.get] *)
(* ===================================================================== *)

Lemma off_history_first path :
  off_history path = true ->
  exists k rest, split_dot path = k :: rest /\ k <> "history".
Proof.
  unfold off_history. intros H.
  destruct (split_dot_cons path) as (k & rest & Hs). rewrite Hs in H.
  exists k, rest. split; [exact Hs |]. cbn [hd] in H.
  intros ->. discriminate.
Qed.

(** Two states that agree outside [history] read the same along a path
    that does not start there. *)
Lemma getValueAtPath_off_history s s' q :
  nullish s = false -> nullish s' = false ->
  (forall k, k <> "history" -> get_prop s' k = get_prop s k) ->
  off_history q = true ->
  getValueAtPath s' q = getValueAtPath s q.
Proof.
  intros Hn Hn' Hsame Hq. unfold getValueAtPath.
  destruct (off_history_first _ Hq) as (k & rest & -> & Hk).
  rewrite !walk_cons by assumption. rewrite Hsame by exact Hk. reflexivity.
Qed.

Lemma past_array_not_nullish s ps : past_of s = VArr ps -> nullish s = false.
Proof.
  intros H. destruct (past_array_shape _ H) as (props & _ & -> & _).
  reflexivity.
Qed.




(* ===================================================================== *)
(** ** utils.js: [StateManager.undo], [redo] and [reset] *)
(* ===================================================================== *)

Lemma capped_snoc ps (x : value) : exists ps', capped (ps ++ [x]) = ps' ++ [x].
Proof.
  unfold capped. destruct (50 <? List.length (ps ++ [x]))%nat eqn:E.
  - destruct ps as [| p ps]; [discriminate |]. exists ps. reflexivity.
  - exists ps. reflexivity.
Qed.

Lemma past_array_history s ps :
  past_of s = VArr ps -> exists hprops, history_of s = VObj hprops.
Proof.
  intros H. destruct (past_array_shape _ H) as (props & hprops & -> & Hh & _).
  exists hprops. unfold history_of. rewrite get_prop_VObj, Hh. reflexivity.
Qed.

(** X5: [undo] right after a commit gives back the state the commit
    started from, as its JSON snapshot: every field outside [history]
    and [history.past] are those of the snapshot, and [history.future]
    holds one entry, the snapshot of the state the commit had reached. *)
Theorem undo_after_update pathOrUpdates v st st1 ps0 :
  StateManager.update pathOrUpdates v st = (Ok tt, st1) ->
  records (pathOrUpdates, v) = true ->
  past_of (state st) = VArr ps0 ->
  exists st2,
    StateManager.undo st1 = (Ok tt, st2)
    /\ state st2
       = with_future (serialize (state st)) (VArr [serialize (state st1)])
    /\ (forall k, k <> "history" ->
          get_prop (state st2) k = get_prop (serialize (state st)) k)
    /\ past_of (state st2) = past_of (serialize (state st))
    /\ future_of (state st2) = VArr [serialize (state st1)]
    /\ (json_clean (state st) = true ->
        state st2 = with_future (state st) (VArr [serialize (state st1)])).
Proof.
  intros H Hrec Hp0.
  destruct (update_history _ _ _ H Hrec)
    as (mid & ps & _ & _ & Hp1 & Hf1 & _).
  destruct (capped_snoc ps (serialize (state st))) as (ps' & Hc).
  rewrite Hc in Hp1.
  destruct (past_array_history _ Hp0) as (hprops & Hh).
  pose proof (history_of_serialize _ Hh) as Hh'.
  destruct (@undo_run st1 ps' _ [] _ Hp1 Hf1 Hh') as (st2 & Hu & Hs).
  exists st2. split; [exact Hu |]. split; [exact Hs |].
  destruct (history_object_shape _ Hh') as (xprops & Ex & Hxh).
  split; [| split; [| split]].
  - intros k Hk. rewrite Hs. unfold with_future. rewrite Ex.
    apply get_with_member_other. congruence.
  - rewrite Hs, Ex.
    apply (past_of_with_future _ _ Hxh).
  - rewrite Hs, Ex. apply (future_of_with_future _ _ Hxh).
  - intros Hj. rewrite Hs, (json_clean_serialize _ Hj). reflexivity.
Qed.

(** One commit on the initial document, undone. *)
Lemma undo_after_update_witness :
  let st := StateManager.loaded sample_random in
  let st1 := snd (StateManager.update (VStr "document.name") (VStr "Quote")
                    st) in
  exists st2,
    StateManager.undo st1 = (Ok tt, st2)
    /\ state st2
       = with_future (serialize (state st)) (VArr [serialize (state st1)])
    /\ (forall k, k <> "history" ->
          get_prop (state st2) k = get_prop (serialize (state st)) k)
    /\ past_of (state st2) = past_of (serialize (state st))
    /\ future_of (state st2) = VArr [serialize (state st1)]
    /\ (json_clean (state st) = true ->
        state st2 = with_future (state st) (VArr [serialize (state st1)])).
Proof.
  cbv zeta.
  apply (@undo_after_update (VStr "document.name") (VStr "Quote")
           (StateManager.loaded sample_random) _ []).
  - vm_compute. reflexivity.
  - reflexivity.
  - reflexivity.
Defined.

Lemma future_array_shape s fs :
  future_of s = VArr fs ->
  exists props hprops,
    s = VObj props
    /\ lookup "history" props = Some (VObj hprops)
    /\ lookup "future" hprops = Some (VArr fs).
Proof.
  unfold future_of, history_of. intros H.
  destruct (get_prop_reference (get_prop s "history") name_future)
    as (hprops & Hh & Hp); [rewrite H; reflexivity |].
  destruct (get_prop_reference s name_history) as (props & Hs & Hl);
    [rewrite Hh; reflexivity |].
  exists props, hprops. rewrite Hh in Hl. rewrite H in Hp. auto.
Qed.

Lemma undo_nothing st :
  past_of (state st) = VArr [] -> StateManager.undo st = (Ok tt, st).
Proof.
  intros Hp.
  destruct (past_array_shape _ Hp) as (props & hprops & Hs & Hh & Hl).
  unfold StateManager.undo. rewrite bind_reads.
  erewrite bind_lift by (apply member_defined; rewrite Hs; reflexivity).
  rewrite Hs, get_prop_VObj, Hh.
  erewrite bind_lift by (apply member_defined; reflexivity).
  rewrite get_prop_VObj, Hl.
  erewrite bind_lift by (apply member_defined; reflexivity).
  erewrite bind_lift by reflexivity. reflexivity.
Qed.

Lemma redo_nothing st :
  future_of (state st) = VArr [] -> StateManager.redo st = (Ok tt, st).
Proof.
  intros Hf.
  destruct (future_array_shape _ Hf) as (props & hprops & Hs & Hh & Hl).
  unfold StateManager.redo. rewrite bind_reads.
  erewrite bind_lift by (apply member_defined; rewrite Hs; reflexivity).
  rewrite Hs, get_prop_VObj, Hh.
  erewrite bind_lift by (apply member_defined; reflexivity).
  rewrite get_prop_VObj, Hl.
  erewrite bind_lift by (apply member_defined; reflexivity).
  erewrite bind_lift by reflexivity. reflexivity.
Qed.

(** X6: with an empty [history.past], [undo] changes nothing and calls
    nobody; so does [redo] with an empty [history.future].  A commit
    empties [history.future]: right after it [redo] does nothing,
    whatever was undone before. *)
Theorem undo_redo_with_nothing_to_do st :
  (past_of (state st) = VArr [] -> StateManager.undo st = (Ok tt, st))
  /\ (future_of (state st) = VArr [] -> StateManager.redo st = (Ok tt, st))
  /\ (forall pathOrUpdates v st0,
        StateManager.update pathOrUpdates v st0 = (Ok tt, st) ->
        records (pathOrUpdates, v) = true ->
        StateManager.redo st = (Ok tt, st)).
Proof.
  split; [apply undo_nothing |]. split; [apply redo_nothing |].
  intros pu v st0 H Hrec. apply redo_nothing.
  destruct (update_history _ _ _ H Hrec) as (_ & _ & _ & _ & _ & Hf & _).
  exact Hf.
Qed.

(** The initial document has nothing to undo; a commit, an undo and a
    second commit leave nothing to redo. *)
Lemma undo_redo_with_nothing_to_do_witness :
  let st := StateManager.loaded sample_random in
  let st3 := snd ((StateManager.update (VStr "document.name") (VStr "Quote")
                   ;; StateManager.undo
                   ;; StateManager.update (VStr "ui.activeTab")
                        (VStr "preview")) st) in
  StateManager.undo st = (Ok tt, st)
  /\ StateManager.redo st3 = (Ok tt, st3).
Proof.
  cbv zeta. split.
  - apply (proj1 (undo_redo_with_nothing_to_do
                    (StateManager.loaded sample_random))).
    reflexivity.
  - apply (proj2 (proj2 (undo_redo_with_nothing_to_do _))
             (VStr "ui.activeTab") (VStr "preview")
             (snd ((StateManager.update (VStr "document.name") (VStr "Quote")
                    ;; StateManager.undo) (StateManager.loaded sample_random)))).
    + vm_compute. reflexivity.
    + reflexivity.
Defined.

Lemma initialState_clean docId pageId blockId :
  json_clean (StateManager.initialState docId pageId blockId) = true.
Proof. reflexivity. Qed.

(** X7: [reset] puts the initial state back, with the identifiers the
    document had when the scripts were loaded, and tells the subscribers
    of [state:reset], each with a snapshot of it.  Nothing of the
    history survives: [undo] and [redo] do nothing afterwards. *)
Theorem reset_restores_the_initial_state st docId pageId blockId :
  initialState st = StateManager.initialState docId pageId blockId ->
  exists st',
    StateManager.reset st = (Ok tt, st')
    /\ state st' = StateManager.initialState docId pageId blockId
    /\ st' = set_invoked
               (invoked st
                ++ flat_map
                     (fired (changedPaths st)
                        (VObj [("state", StateManager.initialState
                                           docId pageId blockId)]))
                     (subscribed "state:reset" st))
               (set_state (StateManager.initialState docId pageId blockId) st)
    /\ StateManager.undo st' = (Ok tt, st')
    /\ StateManager.redo st' = (Ok tt, st').
Proof.
  intros Hi. unfold StateManager.reset.
  rewrite bind_reads, Hi.
  assert (Hc : Utils.deepClone (StateManager.initialState docId pageId blockId)
               = Ok (StateManager.initialState docId pageId blockId)).
  { rewrite deepClone_defined by discriminate.
    rewrite json_clean_serialize by apply initialState_clean. reflexivity. }
  erewrite bind_lift by exact Hc.
  rewrite bind_modify.
  erewrite bind_lift by exact Hc.
  rewrite emit_spec. eexists. split; [reflexivity |].
  split; [reflexivity |]. split; [reflexivity |].
  split; [apply undo_nothing | apply redo_nothing]; reflexivity.
Qed.

(** Two commits, then reset. *)
Lemma reset_restores_the_initial_state_witness :
  let st0 := StateManager.loaded sample_random in
  let st := snd (perform two_commits st0) in
  exists st',
    StateManager.reset st = (Ok tt, st')
    /\ state st' = state st0
    /\ StateManager.undo st' = (Ok tt, st').
Proof.
  cbv zeta.
  destruct (@reset_restores_the_initial_state
              (snd (perform two_commits (StateManager.loaded sample_random)))
              "doc-k3j9x0q2m" "page-a1b2c3d4e" "block-z9y8x7w6v")
    as (st' & Hr & Hs & _ & Hu & _).
  - vm_compute. reflexivity.
  - exists st'. split; [exact Hr |]. split; [| exact Hu].
    rewrite Hs. vm_compute. reflexivity.
Defined.

(* ===================================================================== *)
(** ** events.js: [EventSystem.on], [off], [emit] and [cleanup] *)
(* ===================================================================== *)

Lemma subscribed_set_listeners event hs st :
  subscribed event
    (set_listeners (EventSystem.set_handlers event hs (listeners st)) st)
  = hs.
Proof.
  unfold subscribed. cbn [listeners set_listeners].
  rewrite handlers_of_set. reflexivity.
Qed.

Lemma subscribed_set_listeners_other event e hs st :
  event <> e ->
  subscribed e
    (set_listeners (EventSystem.set_handlers event hs (listeners st)) st)
  = subscribed e st.
Proof.
  intros Hne. unfold subscribed. cbn [listeners set_listeners].
  rewrite handlers_of_set_other by exact Hne. reflexivity.
Qed.

Lemma on_run event cb st :
  EventSystem.on event cb st
  = (Ok (event, cb),
     set_listeners
       (EventSystem.set_handlers event (subscribed event st ++ [cb])
          (listeners st)) st).
Proof. reflexivity. Qed.

Lemma calls_between_set_invoked st l :
  calls_between st (set_invoked (invoked st ++ l) st) = l.
Proof.
  unfold calls_between. cbn [invoked set_invoked].
  rewrite skipn_app, skipn_all, Nat.sub_diag. reflexivity.
Qed.

(** X8: for an event whose name is not one that objects inherit
    ([constructor], [toString], ...; the table of the handlers is a
    plain object): [on(event, callback)] puts the callback behind the
    handlers already subscribed to the event and leaves other events
    alone; an [emit(event, data)] then calls the handlers of the event
    in the order of their subscription, each with [data], the new one
    last (a watcher among them passes the call on when one of its paths
    changed), and touches neither the subscriptions nor the state. *)
Theorem emit_calls_subscribers_in_order event cb data st :
  own_key event = true ->
  let st1 := snd (EventSystem.on event cb st) in
  let st2 := snd (EventSystem.emit event data st1) in
  EventSystem.on event cb st = (Ok (event, cb), st1)
  /\ subscribed event st1 = subscribed event st ++ [cb]
  /\ (forall e, own_key e = true -> e <> event ->
        subscribed e st1 = subscribed e st)
  /\ EventSystem.emit event data st1 = (Ok tt, st2)
  /\ calls_between st1 st2
     = flat_map (fired (changedPaths st) data) (subscribed event st)
       ++ fired (changedPaths st) data cb
  /\ listeners st2 = listeners st1
  /\ state st2 = state st.
Proof.
  intros _. cbv zeta. rewrite on_run. cbn [snd].
  split; [reflexivity |].
  split; [apply subscribed_set_listeners |].
  split; [intros e _ He; apply subscribed_set_listeners_other; congruence |].
  rewrite emit_spec. cbn [snd].
  split; [reflexivity |].
  split; [| split; reflexivity].
  rewrite calls_between_set_invoked, subscribed_set_listeners.
  rewrite flat_map_app. cbn [flat_map]. rewrite app_nil_r. reflexivity.
Qed.

(** A second subscriber of [mention:select] is called after the first. *)
Lemma emit_calls_subscribers_in_order_witness :
  let st := snd (EventSystem.on "mention:select" (Callback 3)
                   (StateManager.loaded sample_random)) in
  let st1 := snd (EventSystem.on "mention:select" (Callback 7) st) in
  let st2 := snd (EventSystem.emit "mention:select" (VNum 1) st1) in
  subscribed "mention:select" st1 = [Callback 3; Callback 7]
  /\ calls_between st1 st2 = [(3, VNum 1); (7, VNum 1)].
Proof.
  cbv zeta.
  destruct (@emit_calls_subscribers_in_order "mention:select" (Callback 7)
              (VNum 1)
              (snd (EventSystem.on "mention:select" (Callback 3)
                      (StateManager.loaded sample_random))) eq_refl)
    as (_ & Hsub & _ & _ & Hcalls & _).
  split; [exact Hsub | exact Hcalls].
Defined.

Lemma handler_eqb_refl h : handler_eqb h h = true.
Proof. destruct h; cbn; apply Nat.eqb_refl. Qed.

Lemma off_run event cb st :
  subscribed event (snd (EventSystem.off event cb st))
  = filter (fun h => negb (handler_eqb h cb)) (subscribed event st)
  /\ forall e, e <> event ->
       subscribed e (snd (EventSystem.off event cb st)) = subscribed e st.
Proof.
  unfold EventSystem.off, modify. cbn [snd].
  unfold subscribed at 2.
  destruct (EventSystem.handlers_of event (listeners st)) as [hs |] eqn:Hh.
  - split; [apply subscribed_set_listeners |].
    intros e He. apply subscribed_set_listeners_other. congruence.
  - split; [| reflexivity]. unfold subscribed. rewrite Hh. reflexivity.
Qed.

(** X9: for an event whose name is not one that objects inherit:
    [off(event, callback)] takes out every subscription of the callback
    to the event, however often it was subscribed, keeps the other
    handlers of the event in their order and leaves other events
    alone.  So a subscription followed by [off] leaves the handlers
    that were there before, without the callback; and an [emit] after
    [off] makes the calls of the remaining handlers only. *)
Theorem off_removes_every_subscription event cb data st :
  own_key event = true ->
  let st1 := snd (EventSystem.off event cb st) in
  let st2 := snd (EventSystem.off event cb (snd (EventSystem.on event cb st))) in
  fst (EventSystem.off event cb st) = Ok tt
  /\ subscribed event st1
     = filter (fun h => negb (handler_eqb h cb)) (subscribed event st)
  /\ (forall h, In h (subscribed event st1) -> handler_eqb h cb = false)
  /\ (forall e, own_key e = true -> e <> event ->
        subscribed e st1 = subscribed e st)
  /\ subscribed event st2 = subscribed event st1
  /\ calls_between st1 (snd (EventSystem.emit event data st1))
     = flat_map (fired (changedPaths st) data)
         (filter (fun h => negb (handler_eqb h cb)) (subscribed event st)).
Proof.
  intros _. cbv zeta. destruct (off_run event cb st) as [Hoff Hother].
  split; [reflexivity |].
  split; [exact Hoff |].
  split.
  { intros h Hin. rewrite Hoff in Hin. apply filter_In in Hin.
    destruct Hin as [_ Hin]. apply negb_true_iff in Hin. exact Hin. }
  split; [intros e _ He; exact (Hother e He) |].
  split.
  { rewrite (proj1 (off_run event cb _)), Hoff, on_run. cbn [snd].
    rewrite subscribed_set_listeners, filter_app. cbn [filter].
    rewrite handler_eqb_refl. cbn [negb]. apply app_nil_r. }
  rewrite emit_spec. cbn [snd].
  rewrite calls_between_set_invoked, Hoff.
  replace (changedPaths (snd (EventSystem.off event cb st)))
    with (changedPaths st); [reflexivity |].
  unfold EventSystem.off, modify. cbn [snd].
  destruct (EventSystem.handlers_of event (listeners st)); reflexivity.
Qed.

(** A callback subscribed twice is gone after one [off]. *)
Lemma off_removes_every_subscription_witness :
  let st :=
    snd ((EventSystem.on "mention:hide" (Callback 3) ;;
          EventSystem.on "mention:hide" (Callback 7) ;;
          EventSystem.on "mention:hide" (Callback 3))
           (StateManager.loaded sample_random)) in
  let st1 := snd (EventSystem.off "mention:hide" (Callback 3) st) in
  subscribed "mention:hide" st = [Callback 3; Callback 7; Callback 3]
  /\ subscribed "mention:hide" st1 = [Callback 7]
  /\ calls_between st1 (snd (EventSystem.emit "mention:hide" VUndef st1))
     = [(7, VUndef)].
Proof.
  cbv zeta.
  destruct (@off_removes_every_subscription "mention:hide" (Callback 3) VUndef
              (snd ((EventSystem.on "mention:hide" (Callback 3) ;;
                     EventSystem.on "mention:hide" (Callback 7) ;;
                     EventSystem.on "mention:hide" (Callback 3))
                      (StateManager.loaded sample_random))) eq_refl)
    as (_ & Hsub & _ & _ & _ & Hcalls).
  split; [reflexivity |]. split; [exact Hsub | exact Hcalls].
Defined.

Lemma set_invoked_same st : set_invoked (invoked st ++ []) st = st.
Proof. rewrite app_nil_r. destruct st; reflexivity. Qed.

Lemma handlers_of_cleared event (l : list (string * list handler)) :
  let cleared := map (fun eh => (fst eh, @nil handler)) l in
  EventSystem.handlers_of event cleared = None
  \/ EventSystem.handlers_of event cleared = Some [].
Proof.
  cbv zeta. induction l as [| [e hs] l IH]; [left; reflexivity |].
  cbn [map EventSystem.handlers_of fst].
  destruct (String.eqb e event); [right; reflexivity | exact IH].
Qed.

Lemma subscribed_cleanup event st :
  subscribed event (snd (EventSystem.cleanup st)) = [].
Proof.
  unfold subscribed, EventSystem.cleanup, modify. cbn [snd listeners
    set_listeners].
  destruct (handlers_of_cleared event (listeners st)) as [-> | ->];
    reflexivity.
Qed.

(** X10: after [cleanup] no event has a handler left: an [emit] of an
    event (whose name is not one that objects inherit) calls nobody
    and changes nothing, and a commit is made without anybody being
    told. *)
Theorem cleanup_silences_every_event st :
  let st1 := snd (EventSystem.cleanup st) in
  fst (EventSystem.cleanup st) = Ok tt
  /\ state st1 = state st
  /\ (forall event, own_key event = true -> subscribed event st1 = [])
  /\ (forall event data, own_key event = true ->
        EventSystem.emit event data st1 = (Ok tt, st1))
  /\ (forall pathOrUpdates v st2,
        StateManager.update pathOrUpdates v st1 = (Ok tt, st2) ->
        invoked st2 = invoked st).
Proof.
  cbv zeta. split; [reflexivity |]. split; [reflexivity |].
  split; [intros event _; apply subscribed_cleanup |].
  split.
  - intros event data _. rewrite emit_spec, subscribed_cleanup.
    cbn [flat_map]. rewrite set_invoked_same. reflexivity.
  - intros pu v st2 H. apply update_calls in H.
    destruct H as (_ & _ & _ & data & ->).
    rewrite subscribed_cleanup. cbn [flat_map].
    destruct (0 <? _)%nat; rewrite app_nil_r; reflexivity.
Qed.

(** Nothing is subscribed when the scripts are loaded. *)
Lemma watchers_counted_loaded random :
  watchers_counted (StateManager.loaded random).
Proof. intros c paths callback []. Qed.

(** X11: [watch] gives every watcher a handler of its own, so the
    subscription it returns unsubscribes that watcher and no other: the
    handlers of [state:changed] are afterwards the ones there were
    before the watcher was made, among them any watcher made earlier
    for the same paths and the same callback. *)
Theorem unsubscribe_removes_that_watcher_only paths cb st :
  watchers_counted st ->
  let st1 := snd (StateManager.watch paths cb st) in
  exists subscription,
    StateManager.watch paths cb st = (Ok subscription, st1)
    /\ watchers_counted st1
    /\ subscribed "state:changed"
         (snd (EventSystem.unsubscribe subscription st1))
       = subscribed "state:changed" st
    /\ forall e, e <> "state:changed" ->
         subscribed e (snd (EventSystem.unsubscribe subscription st1))
         = subscribed e st.
Proof.
  intros Hc. cbv zeta. rewrite watch_spec. cbn [snd].
  eexists. split; [reflexivity |].
  set (w := WatchHandler (closures st) _ cb).
  set (st1 := set_listeners _ _).
  assert (Hsub : subscribed "state:changed" st1
                 = subscribed "state:changed" st ++ [w]).
  { unfold st1, subscribed. cbn [listeners set_listeners set_closures].
    rewrite handlers_of_set. reflexivity. }
  split; [| split].
  - intros c p f Hin. rewrite Hsub in Hin.
    unfold st1. cbn [closures set_listeners set_closures].
    apply in_app_or in Hin. destruct Hin as [Hin | [Hin | []]].
    + apply Hc in Hin. lia.
    + unfold w in Hin. inversion Hin; subst. lia.
  - unfold EventSystem.unsubscribe. cbn [fst snd].
    rewrite (proj1 (off_run "state:changed" w st1)), Hsub, filter_app.
    cbn [filter]. rewrite handler_eqb_refl. cbn [negb].
    rewrite app_nil_r. apply forallb_filter_id.
    apply forallb_forall. intros h Hin. apply negb_true_iff.
    destruct h as [f | c p f]; [reflexivity |].
    cbn [handler_eqb w]. apply Nat.eqb_neq. apply Hc in Hin. lia.
  - intros e He. unfold EventSystem.unsubscribe. cbn [fst snd].
    rewrite (proj2 (off_run "state:changed" w st1)) by exact He.
    unfold st1, subscribed. cbn [listeners set_listeners set_closures].
    rewrite handlers_of_set_other by congruence. reflexivity.
Qed.

(** Two watchers of the pages with the same callback; the second one is
    unsubscribed and the first one stays. *)
Lemma unsubscribe_removes_that_watcher_only_witness :
  let st := snd (StateManager.watch (StateManager.OnePath "document.pages") 7
                   (StateManager.loaded sample_random)) in
  let st1 := snd (StateManager.watch (StateManager.OnePath "document.pages") 7
                    st) in
  exists subscription,
    StateManager.watch (StateManager.OnePath "document.pages") 7 st
    = (Ok subscription, st1)
    /\ subscribed "state:changed"
         (snd (EventSystem.unsubscribe subscription st1))
       = [WatchHandler 0 ["document.pages"] 7].
Proof.
  cbv zeta.
  destruct (@unsubscribe_removes_that_watcher_only
              (StateManager.OnePath "document.pages") 7
              (snd (StateManager.watch (StateManager.OnePath "document.pages")
                      7 (StateManager.loaded sample_random))))
    as (sub & Hw & _ & Hs & _).
  - intros c p f [Hin | []]. inversion Hin. cbn. lia.
  - exists sub. split; [exact Hw |]. rewrite Hs. reflexivity.
Defined.

(* ===================================================================== *)
(** ** page-manager.js: [addNewPage] and [deletePage] *)
(* ===================================================================== *)

Lemma remove_at_middle before (p : value) after :
  remove_at (List.length before) (before ++ p :: after) = before ++ after.
Proof.
  unfold remove_at.
  rewrite firstn_app, firstn_all, Nat.sub_diag. cbn [firstn].
  rewrite app_nil_r.
  replace (S (List.length before)) with (List.length (before ++ [p]))
    by (rewrite length_app; simpl; lia).
  replace (before ++ p :: after) with ((before ++ [p]) ++ after)
    by (rewrite <- app_assoc; reflexivity).
  rewrite skipn_app, skipn_all, Nat.sub_diag. reflexivity.
Qed.

(** X12: [addNewPage] puts a new page behind the pages of the document:
    no header, no footer, one empty text block, the default settings,
    and identifiers drawn for the page and for its block.  It makes the
    new page the current one and asks for it to be scrolled into view. *)
Theorem addNewPage_appends_a_blank_page st pages u ps :
  getValueAtPath (state st) "document.pages" = VArr pages ->
  forallb json_clean pages = true ->
  get_prop (state st) "ui" = VObj u ->
  past_of (state st) = VArr ps ->
  let pageId := ("page" ++ "-" ++ entropy st (draws st))%string in
  let blockId := ("block" ++ "-" ++ entropy st (S (draws st)))%string in
  exists st',
    PageManager.addNewPage st = (Ok tt, st')
    /\ getValueAtPath (state st') "document.pages"
       = VArr (pages ++ [blank_page pageId blockId])
    /\ getValueAtPath (state st') "ui.currentPage"
       = VNum (Z.of_nat (List.length pages))
    /\ draws st' = S (S (draws st))
    /\ requests st' = requests st ++ [ScrollIntoView pageId].
Proof.
  intros Hpages Hclean Hu Hp. cbv zeta.
  destruct (pages_shape _ Hpages) as (props & dprops & Hs & Hd & _).
  set (pageId := ("page" ++ "-" ++ entropy st (draws st))%string).
  set (blockId := ("block" ++ "-" ++ entropy st (S (draws st)))%string).
  set (st2 := set_draws (S (S (draws st))) st).
  assert (Hcur : PageManager.current_pages st2 = (Ok (VArr pages), st2)).
  { rewrite <- (json_clean_elements _ Hclean) at 1.
    apply current_pages_run. exact Hpages. }
  destruct (@pages_commit_run st2 props dprops u ps
              (VArr (pages ++ [blank_page pageId blockId]))
              (VNum (Z.of_nat (List.length pages))))
    as (st' & Hup & Hnew & Hcp & _ & Hdr & Hrq); auto.
  exists (record_request (ScrollIntoView pageId) st').
  split.
  { unfold PageManager.addNewPage.
    erewrite bind_run by apply generateId_run.
    erewrite bind_run by apply generateId_run.
    cbn [entropy draws set_draws].
    change (set_draws (S (S (draws st))) (set_draws (S (draws st)) st))
      with st2.
    erewrite bind_run by exact Hcur.
    erewrite bind_lift by reflexivity.
    erewrite bind_lift by reflexivity.
    cbn [get_prop String.eqb Ascii.eqb Bool.eqb].
    fold pageId. fold blockId.
    erewrite bind_run by exact Hup. reflexivity. }
  cbn [state draws requests record_request set_requests].
  rewrite Hdr, Hrq. auto.
Qed.

(** A second page for the initial document. *)
Lemma addNewPage_appends_a_blank_page_witness :
  let st := StateManager.loaded sample_random in
  exists st',
    PageManager.addNewPage st = (Ok tt, st')
    /\ getValueAtPath (state st') "document.pages"
       = VArr (pages_of (state st)
               ++ [blank_page "page-h7g6f5d4s" "block-q5w6e7r8t"])
    /\ getValueAtPath (state st') "ui.currentPage" = VNum 1
    /\ draws st' = 5
    /\ requests st' = [ScrollIntoView "page-h7g6f5d4s"].
Proof.
  cbv zeta.
  eapply (@addNewPage_appends_a_blank_page
            (StateManager.loaded sample_random)
            (pages_of (state (StateManager.loaded sample_random))));
    reflexivity.
Defined.

(** X13: [deletePage] on a document with more than one page asks for
    confirmation.  Declined, or for an identifier no page has, it
    changes nothing.  Confirmed, it takes out the first page with the
    identifier and keeps the others in their order; [ui.currentPage],
    a whole number below 2^53 in size, goes down by one (not below 0)
    when it was at or behind the deleted page and stays otherwise, so
    that a current page that was one of the pages is one of the pages
    left. *)
Theorem deletePage_removes_the_page st pages pageId u ps current :
  getValueAtPath (state st) "document.pages" = VArr pages ->
  forallb json_clean pages = true ->
  forallb is_page pages = true ->
  2 <= List.length pages ->
  get_prop (state st) "ui" = VObj u ->
  past_of (state st) = VArr ps ->
  getValueAtPath (state st) "ui.currentPage" = VNum current ->
  safe_integer current ->
  let asked :=
    record_request (Confirm "Are you sure you want to delete this page?") st in
  PageManager.deletePage pageId false st = (Ok tt, asked)
  /\ ((forall q, In q pages -> id_of q <> VStr pageId) ->
      PageManager.deletePage pageId true st = (Ok tt, asked))
  /\ forall before p after,
       pages = before ++ p :: after ->
       id_of p = VStr pageId ->
       (forall q, In q before -> id_of q <> VStr pageId) ->
       exists st',
         PageManager.deletePage pageId true st = (Ok tt, st')
         /\ getValueAtPath (state st') "document.pages"
            = VArr (before ++ after)
         /\ getValueAtPath (state st') "ui.currentPage"
            = VNum (current_after_delete (List.length before) current)
         /\ requests st' = requests asked
         /\ ((0 <= current < Z.of_nat (List.length pages))%Z ->
             (0 <= current_after_delete (List.length before) current
              < Z.of_nat (List.length (before ++ after)))%Z).
Proof.
  intros Hpages Hclean Hshape Hlen Hu Hp Hcur _. cbv zeta.
  pose proof (current_pages_run _ Hpages) as Hcp.
  rewrite (json_clean_elements _ Hclean) in Hcp.
  assert (Hmore : (Z.of_nat (List.length pages) <=? 1)%Z = false)
    by (apply Z.leb_gt; lia).
  split; [| split].
  - unfold PageManager.deletePage.
    erewrite bind_run by exact Hcp.
    erewrite bind_lift by (apply member_defined; reflexivity).
    erewrite bind_lift by reflexivity.
    cbn [get_prop String.eqb Ascii.eqb Bool.eqb]. rewrite Hmore.
    reflexivity.
  - intros Hno. unfold PageManager.deletePage.
    erewrite bind_run by exact Hcp.
    erewrite bind_lift by (apply member_defined; reflexivity).
    erewrite bind_lift by reflexivity.
    cbn [get_prop String.eqb Ascii.eqb Bool.eqb]. rewrite Hmore.
    rewrite bind_modify. cbn [negb].
    erewrite bind_lift
      by (cbn [PageManager.findIndex]; apply first_with_id_none; auto).
    reflexivity.
  - intros before p after Hsplit Hid Hfirst.
    destruct (pages_shape _ Hpages) as (props & dprops & Hs & Hd & _).
    set (asked := record_request
                    (Confirm "Are you sure you want to delete this page?") st).
    destruct (@pages_commit_run asked props dprops u ps
                (VArr (before ++ after))
                (VNum (current_after_delete (List.length before) current)))
      as (st' & Hup & Hnew & Hnc & _ & _ & Hrq); auto.
    exists st'. split.
    { unfold PageManager.deletePage.
      erewrite bind_run by exact Hcp.
      erewrite bind_lift by (apply member_defined; reflexivity).
      erewrite bind_lift by reflexivity.
      cbn [get_prop String.eqb Ascii.eqb Bool.eqb]. rewrite Hmore.
      rewrite bind_modify. cbn [negb]. fold asked.
      erewrite bind_lift
        by (cbn [PageManager.findIndex]; rewrite Hsplit;
            apply (@first_with_id_found before p after pageId 0);
            [rewrite <- Hsplit; exact Hshape | exact Hfirst | exact Hid]).
      cbn [Nat.add].
      erewrite bind_lift by reflexivity.
      erewrite bind_run
        by (apply (@get_run "ui.currentPage" asked (VNum current));
            [exact Hcur | discriminate]).
      cbn [serialize].
      erewrite bind_lift by reflexivity.
      cbn [spread]. rewrite Hsplit, remove_at_middle.
      unfold current_after_delete in Hup.
      destruct (Z.of_nat (List.length before) <=? current)%Z.
      - erewrite bind_run.
        2:{ erewrite bind_lift by reflexivity. reflexivity. }
        exact Hup.
      - erewrite bind_run by reflexivity. exact Hup. }
    split; [exact Hnew |]. split; [exact Hnc |]. split; [exact Hrq |].
    intros Hin. rewrite Hsplit in Hin. rewrite length_app in *.
    cbn [List.length] in Hin.
    unfold current_after_delete.
    destruct (Z.of_nat (List.length before) <=? current)%Z eqn:E.
    + apply Z.leb_le in E. rewrite Hsplit, length_app in Hlen.
      cbn [List.length] in Hlen. lia.
    + apply Z.leb_gt in E. lia.
Qed.

(** The initial document with a second page added, which is the current
    one; the first page is deleted. *)
Lemma deletePage_removes_the_page_witness :
  let st := snd (PageManager.addNewPage (StateManager.loaded sample_random)) in
  exists st',
    PageManager.deletePage "page-a1b2c3d4e" true st = (Ok tt, st')
    /\ getValueAtPath (state st') "document.pages"
       = VArr [blank_page "page-h7g6f5d4s" "block-q5w6e7r8t"]
    /\ getValueAtPath (state st) "ui.currentPage" = VNum 1
    /\ getValueAtPath (state st') "ui.currentPage" = VNum 0.
Proof.
  cbv zeta.
  set (st := snd (PageManager.addNewPage (StateManager.loaded sample_random))).
  destruct (@deletePage_removes_the_page st (pages_of (state st))
              "page-a1b2c3d4e"
              match get_prop (state st) "ui" with
              | VObj u => u
              | _ => []
              end
              match past_of (state st) with
              | VArr ps => ps
              | _ => []
              end 1)
    as (_ & _ & H); try (vm_compute; reflexivity).
  { unfold safe_integer. lia. }
  destruct (H [] (nth 0 (pages_of (state st)) VUndef)
              [blank_page "page-h7g6f5d4s" "block-q5w6e7r8t"])
    as (st' & Hd & Hpages & Hcur & _);
    try (vm_compute; reflexivity).
  - intros q [].
  - exists st'. split; [exact Hd |]. split; [exact Hpages |].
    split; [vm_compute; reflexivity | exact Hcur].
Defined.

(* ===================================================================== *)
(** ** Commits of one path, run forward *)
(* ===================================================================== *)

Lemma through_two current part p2 rest :
  through current (part :: p2 :: rest)
  = is_reference current
    && is_reference (get_prop current part)
    && through (get_prop current part) (p2 :: rest).
Proof. reflexivity. Qed.

Lemma through_writable parts : forall current,
  through current parts = true -> writable current parts = true.
Proof.
  induction parts as [| part rest IH]; intros current H; [reflexivity |].
  destruct rest as [| p2 rest].
  - cbn [through] in H. cbn [writable].
    destruct current; try discriminate; reflexivity.
  - rewrite through_two in H. rewrite writable_two.
    apply andb_true_iff in H. destruct H as [H Ht].
    apply andb_true_iff in H. destruct H as [Hr Hc].
    rewrite Hr, (IH _ Ht), orb_true_r. reflexivity.
Qed.

Lemma assignPath_through parts : forall current v,
  parts <> [] -> through current parts = true ->
  exists current', assignPath current parts v = Ok current'.
Proof.
  induction parts as [| part rest IH]; intros current v Hp H; [congruence |].
  destruct rest as [| p2 rest].
  - cbn [through] in H. cbn [assignPath].
    destruct current as [| | b | n | t | elems | props]; try discriminate.
    + cbn [assign]. destruct (index_of_key part); [| discriminate].
      eexists. reflexivity.
    + eexists. reflexivity.
  - rewrite through_two in H. rewrite assignPath_two.
    apply andb_true_iff in H. destruct H as [H Ht].
    apply andb_true_iff in H. destruct H as [Hr Hc].
    rewrite member_defined by (apply reference_not_nullish; exact Hr).
    cbn [obind]. rewrite (reference_not_falsy _ Hc). cbn [obind].
    rewrite member_defined by (apply reference_not_nullish; exact Hr).
    cbn [obind].
    destruct (IH (get_prop current part) v ltac:(discriminate) Ht)
      as (child' & ->).
    cbn [obind]. eexists. reflexivity.
Qed.

(** A commit of one path outside [history], in a state where the path
    leads through objects and arrays. *)
Lemma update_path_run path v st ps :
  through (state st) (split_dot path) = true ->
  off_history path = true ->
  past_of (state st) = VArr ps ->
  exists st' data,
    StateManager.update (VStr path) v st = (Ok tt, st')
    /\ getValueAtPath (state st') path = v
    /\ (forall q, beside path q -> off_history q = true ->
          getValueAtPath (state st') q = getValueAtPath (state st) q)
    /\ past_of (state st') = VArr (capped (ps ++ [serialize (state st)]))
    /\ future_of (state st') = VArr []
    /\ st' = set_invoked
               (invoked st
                ++ flat_map (fired [path] data)
                     (subscribed "state:changed" st))
               (set_state (state st') (set_changedPaths [path] st)).
Proof.
  intros Ht Hoff Hp.
  destruct (@assignPath_through (split_dot path) (state st) v
              (split_dot_nonempty path) Ht) as (s1 & Ha).
  set (mid := set_state s1 (set_changedPaths [path] st)).
  assert (Hm : mutation (VStr path) v (set_changedPaths [] st) = (Ok tt, mid)).
  { cbn [mutation]. rewrite (write_run _ _ (set_changedPaths [] st) Ha).
    reflexivity. }
  assert (Hh : history_of s1 = history_of (state st)).
  { change s1 with (state mid).
    change (state st) with (state (set_changedPaths [] st)).
    eapply write_outside; [exact Hm | exact Hoff]. }
  assert (Hp1 : past_of (state mid) = VArr ps).
  { unfold past_of. cbn [mid state set_state]. rewrite Hh. exact Hp. }
  destruct (@update_run (VStr path) v st mid ps) as (s' & data & Hrun & Hpast & Hfut & Hsame);
    auto.
  { intros E. rewrite E in Hp. discriminate. }
  eexists. exists data. split; [exact Hrun |].
  cbn [state set_invoked set_state].
  assert (Hoffs : forall q, off_history q = true ->
                    getValueAtPath s' q = getValueAtPath s1 q).
  { intros q Hq. apply getValueAtPath_off_history; auto.
    - eapply past_array_not_nullish. exact Hp1.
    - eapply past_array_not_nullish. exact Hpast. }
  split; [| split; [| split; [| split]]].
  - rewrite Hoffs by exact Hoff. unfold getValueAtPath.
    eapply assignPath_reaches;
      eauto using split_dot_nonempty, through_writable.
  - intros q (common & k & rest & k' & rest' & Hpp & Hq & Hne & Hl) Hoffq.
    rewrite Hoffs by exact Hoffq. unfold getValueAtPath.
    rewrite Hpp in Ha. rewrite Hq.
    eapply assignPath_frame; eauto. apply String.eqb_neq. exact Hl.
  - exact Hpast.
  - exact Hfut.
  - reflexivity.
Qed.

(* ===================================================================== *)
(** ** The paths of pages and blocks *)
(* ===================================================================== *)

Lemma split_dot_uint u :
  split_dot (NilEmpty.string_of_uint u) = [NilEmpty.string_of_uint u].
Proof.
  induction u; cbn [NilEmpty.string_of_uint split_dot];
    try reflexivity; rewrite IHu; reflexivity.
Qed.

Lemma split_dot_index_key i :
  split_dot (TextEditor.index_key i) = [TextEditor.index_key i].
Proof. apply split_dot_uint. Qed.

Lemma index_of_key_of_index n :
  (n < 4294967295)%N -> index_of_key (key_of_index n) = Some n.
Proof.
  intros Hn. unfold index_of_key, key_of_index.
  rewrite NilEmpty.usu, DecimalN.Unsigned.of_to, String.eqb_refl.
  apply N.ltb_lt in Hn. rewrite Hn. reflexivity.
Qed.

Lemma get_prop_index elems i :
  is_index i ->
  get_prop (VArr elems) (TextEditor.index_key i) = nth i elems VUndef.
Proof.
  intros Hi. unfold TextEditor.index_key.
  pose proof (index_of_key_of_index Hi) as Hk.
  destruct (index_of_key_sound _ Hk) as [_ Hl].
  cbn [get_prop]. rewrite Hl, Hk, Nat2N.id. reflexivity.
Qed.

Lemma split_dot_block_path pIndex bIndex :
  split_dot (block_path pIndex bIndex)
  = ["document"; "pages"; TextEditor.index_key pIndex;
     "blocks"; TextEditor.index_key bIndex].
Proof.
  unfold block_path.
  change ("document.pages." ++ TextEditor.index_key pIndex ++ ".blocks."
          ++ TextEditor.index_key bIndex)%string
    with ("document"
          ++ String dot ("pages"
          ++ String dot (TextEditor.index_key pIndex
          ++ String dot ("blocks"
          ++ String dot (TextEditor.index_key bIndex)))))%string.
  rewrite !split_dot_app, !split_dot_index_key. reflexivity.
Qed.

Lemma split_dot_content_path pIndex bIndex :
  split_dot (content_path pIndex bIndex)
  = ["document"; "pages"; TextEditor.index_key pIndex;
     "blocks"; TextEditor.index_key bIndex; "content"].
Proof.
  unfold content_path.
  change (block_path pIndex bIndex ++ ".content")%string
    with (block_path pIndex bIndex ++ String dot "content")%string.
  rewrite split_dot_app, split_dot_block_path. reflexivity.
Qed.

Lemma content_path_spelled pIndex bIndex :
  ("document.pages." ++ TextEditor.index_key pIndex ++ ".blocks."
   ++ TextEditor.index_key bIndex ++ ".content")%string
  = content_path pIndex bIndex.
Proof.
  unfold content_path, block_path.
  rewrite !append_assoc. reflexivity.
Qed.

(* ===================================================================== *)
(** ** Reading a path in a snapshot *)
(* ===================================================================== *)

Lemma nth_element_json elems i :
  nth i elems VUndef <> VUndef ->
  nth i (map element_json elems) VUndef = serialize (nth i elems VUndef).
Proof.
  revert i. induction elems as [| x elems IH]; intros [| i] H;
    cbn [nth map] in *; try congruence.
  - apply element_json_serialize. exact H.
  - apply IH. exact H.
Qed.

Lemma get_prop_serialize s k :
  get_prop s k <> VUndef ->
  get_prop (serialize s) k = serialize (get_prop s k).
Proof.
  intros H.
  destruct s as [| | b | n | t | elems | props]; try reflexivity.
  - cbn [serialize get_prop].
    destruct (String.eqb k "length"); [reflexivity |].
    destruct (index_of_key k) as [i |]; [| reflexivity].
    generalize (N.to_nat i). generalize (chars t). clear.
    intros l. induction l as [| c l IH]; intros [| j]; cbn [map nth];
      try reflexivity. apply IH.
  - rewrite serialize_VArr. cbn [get_prop] in *.
    rewrite length_map.
    destruct (String.eqb k "length"); [reflexivity |].
    destruct (index_of_key k) as [i |]; [| congruence].
    apply nth_element_json. exact H.
  - rewrite serialize_VObj. rewrite !get_prop_VObj in *.
    destruct (lookup k props) as [x |] eqn:Hl; [| congruence].
    rewrite (lookup_members _ _ Hl H). reflexivity.
Qed.

(** What is read along a path in the snapshot of a state is the
    snapshot of what is read in the state. *)
Lemma walk_serialize parts : forall s,
  walk s parts <> VUndef ->
  walk (serialize s) parts = serialize (walk s parts).
Proof.
  induction parts as [| part rest IH]; intros s H; [reflexivity |].
  cbn [walk] in *.
  destruct (nullish s) eqn:Hn; [congruence |].
  assert (Hn' : nullish (serialize s) = false)
    by (destruct s; try discriminate; reflexivity).
  rewrite Hn'.
  assert (Hg : get_prop s part <> VUndef).
  { intros E. rewrite E, walk_undefined in H. congruence. }
  rewrite (get_prop_serialize _ _ Hg). apply IH. exact H.
Qed.

(** X14: for a path that addresses a value in the state, [get(path)]
    returns what [getState()] holds at that path (both are clones, of
    the value and of the whole state). *)
Theorem get_reads_what_getState_holds st path :
  getValueAtPath (state st) path <> VUndef ->
  exists snapshot v,
    StateManager.getState st = (Ok snapshot, st)
    /\ StateManager.get path st = (Ok v, st)
    /\ getValueAtPath snapshot path = v.
Proof.
  intros H.
  exists (serialize (state st)), (serialize (getValueAtPath (state st) path)).
  split; [| split].
  - unfold StateManager.getState. rewrite bind_reads.
    unfold lift. rewrite deepClone_defined; [reflexivity |].
    intros E. rewrite E in H. apply H. unfold getValueAtPath.
    apply walk_undefined.
  - apply get_run; [reflexivity | exact H].
  - apply walk_serialize. exact H.
Qed.

(** The blocks of the first page of the initial document. *)
Lemma get_reads_what_getState_holds_witness :
  let st := StateManager.loaded sample_random in
  exists snapshot v,
    StateManager.getState st = (Ok snapshot, st)
    /\ StateManager.get "document.pages.0.blocks" st = (Ok v, st)
    /\ getValueAtPath snapshot "document.pages.0.blocks" = v.
Proof.
  cbv zeta.
  apply (@get_reads_what_getState_holds
           (StateManager.loaded sample_random) "document.pages.0.blocks").
  vm_compute. discriminate.
Defined.

(* ===================================================================== *)
(** ** The text editor: where a block is in the state *)
(* ===================================================================== *)

Lemma last_cons_default {A} (l : list A) : forall x d,
  last (x :: l) d = last l x.
Proof.
  induction l as [| a l IH]; intros x d; [reflexivity |].
  change (last (x :: a :: l) d) with (last (a :: l) d).
  rewrite (IH a d), (IH a x). reflexivity.
Qed.

Lemma last_app_default {A} (l1 : list A) : forall l2 d,
  last (l1 ++ l2) d = last l2 (last l1 d).
Proof.
  induction l1 as [| a l1 IH]; intros l2 d; [reflexivity |].
  cbn [app]. rewrite !last_cons_default. apply IH.
Qed.

Lemma last_Some_In {A} (l : list A) x :
  last (map Some l) None = Some x -> In x l.
Proof.
  induction l as [| a l IH]; [discriminate |].
  cbn [map]. rewrite last_cons_default.
  destruct l as [| b l].
  - cbn. intros H. inversion H. left. reflexivity.
  - intros H. right. apply IH. cbn [map] in *.
    rewrite last_cons_default in *. exact H.
Qed.

Lemma scan_blocks_run blocks id p : forall b found,
  forallb is_block blocks = true ->
  TextEditor.scan_blocks blocks id p b found
  = Ok (last (map Some (block_places blocks id p b)) found).
Proof.
  induction blocks as [| block blocks IH]; intros b found H; [reflexivity |].
  cbn [forallb] in H. apply andb_true_iff in H. destruct H as [Hb H].
  destruct (is_block_shape _ Hb) as (props & bid & -> & Hid).
  cbn [TextEditor.scan_blocks]. rewrite member_defined by reflexivity.
  cbn [obind]. rewrite IH by exact H. cbn [block_places]. unfold id_of.
  rewrite map_app, last_app_default.
  destruct (strict_eq_str (get_prop (VObj props) "id") id); reflexivity.
Qed.

Lemma scan_pages_run pages id : forall p found,
  forallb is_page pages = true ->
  TextEditor.scan_pages pages id p found
  = Ok (last (map Some (places pages id p)) found).
Proof.
  induction pages as [| page pages IH]; intros p found H; [reflexivity |].
  cbn [forallb] in H. apply andb_true_iff in H. destruct H as [Hp H].
  destruct (is_page_shape _ Hp) as (props & pid & blocks & -> & _ & Hb & Hbs).
  cbn [TextEditor.scan_pages]. rewrite member_defined by reflexivity.
  cbn [obind]. rewrite get_prop_VObj, Hb.
  rewrite scan_blocks_run by exact Hbs. cbn [obind].
  rewrite IH by exact H. cbn [places]. unfold blocks_of.
  rewrite get_prop_VObj, Hb, map_app, last_app_default. reflexivity.
Qed.

(** The pages as [getState()] gives them. *)
Lemma snapshot_pages s pages :
  getValueAtPath s "document.pages" = VArr pages ->
  forallb json_clean pages = true ->
  member (serialize s) "document"
  = Ok (get_prop (serialize s) "document")
  /\ member (get_prop (serialize s) "document") "pages" = Ok (VArr pages).
Proof.
  intros H Hc.
  destruct (pages_shape _ H) as (props & dprops & -> & Hd & Hp).
  rewrite serialize_VObj.
  split; [reflexivity |].
  rewrite get_prop_VObj.
  rewrite (lookup_members _ _ Hd) by discriminate.
  rewrite serialize_VObj. rewrite member_defined by reflexivity.
  rewrite get_prop_VObj.
  rewrite (lookup_members _ _ Hp) by discriminate.
  rewrite serialize_VArr, (json_clean_elements _ Hc). reflexivity.
Qed.

Lemma getState_run st :
  state st <> VUndef ->
  StateManager.getState st = (Ok (serialize (state st)), st).
Proof.
  intros H. unfold StateManager.getState. rewrite bind_reads.
  unfold lift. rewrite deepClone_defined by exact H. reflexivity.
Qed.

Lemma pages_state_defined s pages :
  getValueAtPath s "document.pages" = VArr pages -> s <> VUndef.
Proof. intros H ->. discriminate. Qed.

Lemma locate_run id st pages :
  getValueAtPath (state st) "document.pages" = VArr pages ->
  forallb json_clean pages = true ->
  forallb is_page pages = true ->
  TextEditor.locate id st = (Ok (VArr pages, located pages id), st).
Proof.
  intros H Hc Hs. unfold TextEditor.locate.
  erewrite bind_run by (apply getState_run; eapply pages_state_defined; eauto).
  destruct (snapshot_pages _ H Hc) as [Hd Hp].
  erewrite bind_lift by exact Hd.
  erewrite bind_lift by exact Hp.
  cbv beta iota.
  erewrite bind_lift by (apply scan_pages_run; exact Hs).
  reflexivity.
Qed.

Lemma block_places_sound blocks id p : forall b0 P B,
  In (P, B) (block_places blocks id p b0) ->
  P = p /\ b0 <= B /\ B - b0 < List.length blocks
  /\ id_of (nth (B - b0) blocks VUndef) = VStr id.
Proof.
  induction blocks as [| block blocks IH]; intros b0 P B Hin; [destruct Hin |].
  cbn [block_places] in Hin. apply in_app_or in Hin.
  destruct Hin as [Hin | Hin].
  - destruct (strict_eq_str (id_of block) id) eqn:E; [| destruct Hin].
    destruct Hin as [Hin | []]. inversion Hin; subst.
    rewrite Nat.sub_diag. cbn [nth List.length].
    apply strict_eq_str_true in E. repeat split; auto; lia.
  - apply IH in Hin. destruct Hin as (-> & Hle & Hlt & Hid).
    replace (B - b0) with (S (B - S b0)) by lia.
    cbn [nth List.length]. repeat split; auto; lia.
Qed.

Lemma places_sound pages id : forall p0 P B,
  In (P, B) (places pages id p0) ->
  p0 <= P /\ P - p0 < List.length pages
  /\ B < List.length (blocks_of (nth (P - p0) pages VUndef))
  /\ id_of (nth B (blocks_of (nth (P - p0) pages VUndef)) VUndef) = VStr id.
Proof.
  induction pages as [| page pages IH]; intros p0 P B Hin; [destruct Hin |].
  cbn [places] in Hin. apply in_app_or in Hin.
  destruct Hin as [Hin | Hin].
  - apply block_places_sound in Hin. destruct Hin as (-> & _ & Hlt & Hid).
    rewrite Nat.sub_0_r in *. rewrite Nat.sub_diag. cbn [nth List.length].
    repeat split; auto; lia.
  - apply IH in Hin. destruct Hin as (Hle & Hlt & Hb & Hid).
    replace (P - p0) with (S (P - S p0)) by lia.
    cbn [nth List.length]. repeat split; auto; lia.
Qed.

Lemma located_sound pages id P B :
  located pages id = Some (P, B) ->
  P < List.length pages
  /\ B < List.length (blocks_of (nth P pages VUndef))
  /\ id_of (nth B (blocks_of (nth P pages VUndef)) VUndef) = VStr id.
Proof.
  unfold located. intros H. apply last_Some_In in H.
  apply places_sound in H. rewrite Nat.sub_0_r in H. tauto.
Qed.

Lemma block_places_none blocks id p : forall b0,
  (forall b, In b blocks -> id_of b <> VStr id) ->
  block_places blocks id p b0 = [].
Proof.
  induction blocks as [| block blocks IH]; intros b0 H; [reflexivity |].
  cbn [block_places]. rewrite IH by (intros b Hb; apply H; right; exact Hb).
  destruct (strict_eq_str (id_of block) id) eqn:E; [| reflexivity].
  apply strict_eq_str_true in E. exfalso. apply (H block); [left |]; auto.
Qed.

Lemma located_none pages id :
  (forall p b, In p pages -> In b (blocks_of p) -> id_of b <> VStr id) ->
  located pages id = None.
Proof.
  unfold located. intros H.
  assert (Hp : forall p0, places pages id p0 = []).
  { induction pages as [| page pages IH]; intros p0; [reflexivity |].
    cbn [places]. rewrite block_places_none, IH; auto.
    - intros p b Hp Hb. apply (H p b); [right |]; auto.
    - intros b Hb. apply (H page b); [left |]; auto. }
  rewrite Hp. reflexivity.
Qed.

(** The path of the content of a block that is there leads through
    objects and arrays. *)
Lemma block_there s pages P B :
  getValueAtPath s "document.pages" = VArr pages ->
  forallb is_page pages = true ->
  P < List.length pages ->
  B < List.length (blocks_of (nth P pages VUndef)) ->
  is_index P -> is_index B ->
  exists props dprops pprops bprops,
    s = VObj props
    /\ get_prop s "document" = VObj dprops
    /\ get_prop (VObj dprops) "pages" = VArr pages
    /\ get_prop (VArr pages) (TextEditor.index_key P) = VObj pprops
    /\ get_prop (VObj pprops) "blocks"
       = VArr (blocks_of (nth P pages VUndef))
    /\ get_prop (VArr (blocks_of (nth P pages VUndef)))
         (TextEditor.index_key B)
       = VObj bprops
    /\ nth P pages VUndef = VObj pprops
    /\ nth B (blocks_of (nth P pages VUndef)) VUndef = VObj bprops.
Proof.
  intros H Hs HP HB HiP HiB.
  destruct (pages_shape _ H) as (props & dprops & -> & Hd & Hp).
  pose proof (forallb_nth _ _ Hs HP) as Hpage.
  destruct (is_page_shape _ Hpage) as (pprops & pid & blocks & Ep & _ & Hb & Hbs).
  assert (Hblocks : blocks_of (nth P pages VUndef) = blocks).
  { unfold blocks_of. rewrite Ep, get_prop_VObj, Hb. reflexivity. }
  rewrite Hblocks in *.
  pose proof (forallb_nth _ _ Hbs HB) as Hblock.
  destruct (is_block_shape _ Hblock) as (bprops & bid & Eb & _).
  exists props, dprops, pprops, bprops.
  rewrite !get_prop_index by assumption.
  rewrite !get_prop_VObj, Hd, Hp, Hb. auto 10.
Qed.

Lemma content_path_through s pages P B :
  getValueAtPath s "document.pages" = VArr pages ->
  forallb is_page pages = true ->
  P < List.length pages ->
  B < List.length (blocks_of (nth P pages VUndef)) ->
  is_index P -> is_index B ->
  through s (split_dot (content_path P B)) = true.
Proof.
  intros H Hs HP HB HiP HiB.
  destruct (block_there _ H Hs HP HB HiP HiB)
    as (props & dprops & pprops & bprops & -> & H1 & H2 & H3 & H4 & H5 & _).
  rewrite split_dot_content_path. rewrite !through_two.
  rewrite H1, H2, H3, H4, H5. reflexivity.
Qed.

Lemma beside_document_ui path rest :
  split_dot path = "document" :: rest -> beside path "ui".
Proof.
  intros H. exists [], "document", rest, "ui", [].
  rewrite H. repeat split; try reflexivity; discriminate.
Qed.

Lemma walk_one s k : nullish s = false -> walk s [k] = get_prop s k.
Proof. intros H. cbn [walk]. rewrite H. reflexivity. Qed.

Lemma status_path_through s u :
  nullish s = false -> get_prop s "ui" = VObj u ->
  through s (split_dot "ui.autoSaveStatus") = true.
Proof.
  intros Hn Hu.
  change (split_dot "ui.autoSaveStatus") with ["ui"; "autoSaveStatus"].
  rewrite through_two, Hu.
  destruct (get_prop_reference s name_ui) as (props & -> & _);
    [rewrite Hu; reflexivity |].
  reflexivity.
Qed.

Lemma getValueAtPath_with_future x f q hx :
  history_of x = VObj hx -> off_history q = true ->
  getValueAtPath (with_future x f) q = getValueAtPath x q.
Proof.
  intros Hh Hq.
  destruct (history_object_shape _ Hh) as (props & -> & Hl).
  apply getValueAtPath_off_history; auto.
  intros k Hk. unfold with_future. apply get_with_member_other. congruence.
Qed.

(** [saveBlockContent], run forward. *)
Lemma saveBlockContent_run sanitizeHtml st pages id html u ps :
  getValueAtPath (state st) "document.pages" = VArr pages ->
  forallb json_clean pages = true ->
  forallb is_page pages = true ->
  get_prop (state st) "ui" = VObj u ->
  past_of (state st) = VArr ps ->
  ((forall p b, In p pages -> In b (blocks_of p) -> id_of b <> VStr id) ->
   TextEditor.saveBlockContent sanitizeHtml id html st = (Ok tt, st))
  /\ forall P B,
       located pages id = Some (P, B) -> is_index P -> is_index B ->
       exists st',
         TextEditor.saveBlockContent sanitizeHtml id html st = (Ok tt, st')
         /\ id_of (getValueAtPath (state st) (block_path P B)) = VStr id
         /\ getValueAtPath (state st') (content_path P B)
            = VStr (sanitizeHtml html)
         /\ getValueAtPath (state st') "ui.autoSaveStatus" = VStr "saving"
         /\ (forall q,
               beside (content_path P B) q -> beside "ui.autoSaveStatus" q ->
               off_history q = true ->
               getValueAtPath (state st') q = getValueAtPath (state st) q)
         /\ exists st'',
              StateManager.undo st' = (Ok tt, st'')
              /\ getValueAtPath (state st'') (content_path P B)
                 = VStr (sanitizeHtml html)
              /\ forall status,
                   getValueAtPath (state st) "ui.autoSaveStatus" = VStr status ->
                   getValueAtPath (state st'') "ui.autoSaveStatus"
                   = VStr status.
Proof.
  intros Hpages Hclean Hshape Hu Hp.
  pose proof (locate_run id _ Hpages Hclean Hshape) as Hloc.
  split.
  - intros Hno. unfold TextEditor.saveBlockContent.
    erewrite bind_run by exact Hloc. cbn [snd].
    rewrite located_none by exact Hno. reflexivity.
  - intros P B Hfound HiP HiB.
    destruct (located_sound _ _ Hfound) as (HP & HB & Hid).
    pose proof (content_path_through _ Hpages Hshape HP HB HiP HiB) as Ht.
    assert (Hoffc : off_history (content_path P B) = true).
    { unfold off_history. rewrite split_dot_content_path. reflexivity. }
    destruct (@update_path_run (content_path P B) (VStr (sanitizeHtml html))
                st ps Ht Hoffc Hp)
      as (st1 & data1 & Hup1 & Hread1 & Hframe1 & Hpast1 & Hfut1 & _).
    assert (Hn1 : nullish (state st1) = false)
      by (eapply past_array_not_nullish; exact Hpast1).
    assert (Hn0 : nullish (state st) = false)
      by (eapply past_array_not_nullish; exact Hp).
    assert (Hu1 : get_prop (state st1) "ui" = VObj u).
    { rewrite <- Hu, <- !walk_one by assumption.
      apply (Hframe1 "ui"); [| reflexivity].
      eapply beside_document_ui. apply split_dot_content_path. }
    destruct (@update_path_run "ui.autoSaveStatus" (VStr "saving") st1 _
                (@status_path_through (state st1) u Hn1 Hu1) eq_refl Hpast1)
      as (st2 & data2 & Hup2 & Hread2 & Hframe2 & Hpast2 & Hfut2 & _).
    assert (Hbeside : beside "ui.autoSaveStatus" (content_path P B)).
    { exists [], "ui", ["autoSaveStatus"], "document",
        ["pages"; TextEditor.index_key P; "blocks"; TextEditor.index_key B;
         "content"].
      rewrite split_dot_content_path.
      repeat split; try reflexivity; discriminate. }
    exists st2. split.
    { unfold TextEditor.saveBlockContent.
      erewrite bind_run by exact Hloc. cbn [snd]. rewrite Hfound.
      rewrite content_path_spelled.
      erewrite bind_run by exact Hup1. exact Hup2. }
    split.
    { destruct (block_there _ Hpages Hshape HP HB HiP HiB)
        as (props & dprops & pprops & bprops
            & Es & H1 & H2 & H3 & H4 & H5 & _ & Eb).
      unfold getValueAtPath. rewrite split_dot_block_path.
      rewrite walk_cons by exact Hn0. rewrite H1.
      rewrite walk_cons by reflexivity. rewrite H2.
      rewrite walk_cons by reflexivity. rewrite H3.
      rewrite walk_cons by reflexivity. rewrite H4.
      rewrite walk_one by reflexivity. rewrite H5, <- Eb. exact Hid. }
    split.
    { rewrite Hframe2 by assumption. exact Hread1. }
    split; [exact Hread2 |].
    split.
    { intros q Hq1 Hq2 Hoff. rewrite Hframe2, Hframe1 by assumption.
      reflexivity. }
    destruct (capped_snoc (capped (ps ++ [serialize (state st)]))
                (serialize (state st1))) as (ps' & Hc).
    rewrite Hc in Hpast2.
    destruct (past_array_history _ Hpast1) as (h1 & Hh1).
    pose proof (history_of_serialize _ Hh1) as Hh1'.
    destruct (@undo_run st2 ps' _ [] _ Hpast2 Hfut2 Hh1')
      as (st3 & Hundo & Hs3).
    exists st3. split; [exact Hundo |].
    rewrite Hs3. split.
    + rewrite (getValueAtPath_with_future _ _ _ Hh1') by exact Hoffc.
      unfold getValueAtPath in *.
      rewrite walk_serialize by (rewrite Hread1; discriminate).
      rewrite Hread1. reflexivity.
    + intros status Hstatus.
      rewrite (getValueAtPath_with_future _ _ _ Hh1') by reflexivity.
      assert (Hs1 : getValueAtPath (state st1) "ui.autoSaveStatus"
                    = VStr status).
      { rewrite Hframe1; [exact Hstatus | | reflexivity].
        exists [], "document",
          ["pages"; TextEditor.index_key P; "blocks"; TextEditor.index_key B;
           "content"], "ui", ["autoSaveStatus"].
        rewrite split_dot_content_path.
        repeat split; try reflexivity; discriminate. }
      unfold getValueAtPath in *.
      rewrite walk_serialize by (rewrite Hs1; discriminate).
      rewrite Hs1. reflexivity.
Qed.

(** X15: [saveBlockContent(blockId, content)] does nothing when no
    block of the state has the identifier.  Otherwise it makes two
    commits: the sanitized content into the block (the last one with
    the identifier, in the order of the document), then
    [ui.autoSaveStatus] set to [saving]; what lies beside these two
    paths is as before.  Being the second commit, the status is what
    one [undo] takes back: the content stays saved. *)
Theorem saveBlockContent_commits_content_then_status
  sanitizeHtml st pages id html u ps :
  getValueAtPath (state st) "document.pages" = VArr pages ->
  forallb json_clean pages = true ->
  forallb is_page pages = true ->
  get_prop (state st) "ui" = VObj u ->
  past_of (state st) = VArr ps ->
  ((forall p b, In p pages -> In b (blocks_of p) -> id_of b <> VStr id) ->
   TextEditor.saveBlockContent sanitizeHtml id html st = (Ok tt, st))
  /\ forall P B,
       located pages id = Some (P, B) -> is_index P -> is_index B ->
       exists st',
         TextEditor.saveBlockContent sanitizeHtml id html st = (Ok tt, st')
         /\ id_of (getValueAtPath (state st) (block_path P B)) = VStr id
         /\ getValueAtPath (state st') (content_path P B)
            = VStr (sanitizeHtml html)
         /\ getValueAtPath (state st') "ui.autoSaveStatus" = VStr "saving"
         /\ (forall q,
               beside (content_path P B) q -> beside "ui.autoSaveStatus" q ->
               off_history q = true ->
               getValueAtPath (state st') q = getValueAtPath (state st) q)
         /\ exists st'',
              StateManager.undo st' = (Ok tt, st'')
              /\ getValueAtPath (state st'') (content_path P B)
                 = VStr (sanitizeHtml html)
              /\ forall status,
                   getValueAtPath (state st) "ui.autoSaveStatus" = VStr status ->
                   getValueAtPath (state st'') "ui.autoSaveStatus"
                   = VStr status.
Proof. apply saveBlockContent_run. Qed.

(** The block of the initial document is saved (with a sanitizer that
    finds nothing to remove); one undo later the content is still in
    the state and the status is back to [saved]. *)
Lemma saveBlockContent_commits_content_then_status_witness :
  let st := StateManager.loaded sample_random in
  exists st',
    TextEditor.saveBlockContent (fun html => html) "block-z9y8x7w6v"
      "<b>Dear customer</b>" st = (Ok tt, st')
    /\ getValueAtPath (state st') "document.pages.0.blocks.0.content"
       = VStr "<b>Dear customer</b>"
    /\ getValueAtPath (state st') "ui.autoSaveStatus" = VStr "saving"
    /\ exists st'',
         StateManager.undo st' = (Ok tt, st'')
         /\ getValueAtPath (state st'') "document.pages.0.blocks.0.content"
            = VStr "<b>Dear customer</b>"
         /\ getValueAtPath (state st'') "ui.autoSaveStatus" = VStr "saved".
Proof.
  cbv zeta.
  destruct (@saveBlockContent_commits_content_then_status
              (fun html => html) (StateManager.loaded sample_random)
              (pages_of (state (StateManager.loaded sample_random)))
              "block-z9y8x7w6v" "<b>Dear customer</b>"
              match get_prop (state (StateManager.loaded sample_random)) "ui"
              with VObj u => u | _ => [] end [])
    as [_ H]; try reflexivity.
  destruct (H 0 0) as (st' & Hsave & _ & Hc & Hs & _ & st'' & Hu & Hc' & Hs');
    try reflexivity.
  exists st'. split; [exact Hsave |]. split; [exact Hc |].
  split; [exact Hs |].
  exists st''. split; [exact Hu |]. split; [exact Hc' |].
  apply Hs'. reflexivity.
Defined.

Lemma saveBlockContent_nowhere sanitizeHtml st pages id html :
  getValueAtPath (state st) "document.pages" = VArr pages ->
  forallb json_clean pages = true ->
  forallb is_page pages = true ->
  located pages id = None ->
  TextEditor.saveBlockContent sanitizeHtml id html st = (Ok tt, st).
Proof.
  intros Hpages Hclean Hshape Hno. unfold TextEditor.saveBlockContent.
  erewrite bind_run by (apply locate_run; eauto).
  cbn [snd]. rewrite Hno. reflexivity.
Qed.

(* ===================================================================== *)
(** ** The text editor: the document tree *)
(* ===================================================================== *)

Lemma find_map_same {A} (f : A -> bool) (g : A -> A) l :
  (forall a, f (g a) = f a) ->
  find f (map g l) = option_map g (find f l).
Proof.
  intros H. induction l as [| a l IH]; [reflexivity |].
  cbn [map find]. rewrite H. destruct (f a); [reflexivity | exact IH].
Qed.

Lemma find_node el n (l : list TextEditor.block_el) :
  find (fun b => Nat.eqb (TextEditor.node b) n) l = Some el ->
  TextEditor.node el = n.
Proof.
  intros H. apply find_some in H. destruct H as [_ H].
  apply Nat.eqb_eq in H. exact H.
Qed.

Lemma element_set_content n text pg el :
  TextEditor.element n pg = Some el ->
  TextEditor.element n (TextEditor.set_content n text pg)
  = Some (TextEditor.mkBlock n (TextEditor.blockId el) text).
Proof.
  unfold TextEditor.element, TextEditor.set_content. intros H.
  cbn [TextEditor.bodies TextEditor.set_bodies].
  rewrite <- concat_map.
  rewrite find_map_same.
  - rewrite H. cbn [option_map]. pose proof (find_node _ _ H) as Hn.
    rewrite Hn, Nat.eqb_refl. reflexivity.
  - intros b. destruct (Nat.eqb (TextEditor.node b) n) eqn:E;
      [cbn [TextEditor.node] |]; exact E.
Qed.

Lemma emit_run event data st :
  EventSystem.emit event data st = (Ok tt, emitted event data st).
Proof. apply emit_spec. Qed.

Lemma attached_run n pg el :
  TextEditor.element n pg = Some el ->
  TextEditor.attached n pg = (Ok el, pg).
Proof.
  intros H. unfold TextEditor.attached. rewrite bind_reads, H. reflexivity.
Qed.

Lemma insertHTML_run html pg r el :
  TextEditor.selection pg = Some r ->
  TextEditor.element (TextEditor.container r) pg = Some el ->
  TextEditor.insertHTML html pg
  = (Ok tt,
     TextEditor.set_selection
       (Some (TextEditor.mkRange (TextEditor.container r)
                (TextEditor.startOffset r + String.length html)
                (TextEditor.startOffset r + String.length html)))
       (TextEditor.set_content (TextEditor.container r)
          (TextEditor.take (TextEditor.startOffset r) (TextEditor.content el)
           ++ html
           ++ TextEditor.drop (TextEditor.endOffset r) (TextEditor.content el))
          pg)).
Proof.
  intros Hs He. unfold TextEditor.insertHTML.
  rewrite bind_reads, Hs.
  erewrite bind_run by (apply attached_run; exact He).
  rewrite !bind_modify. reflexivity.
Qed.

(** X16: [insertContent(html)] first tells the subscribers of
    [mention:hide] and forgets the trigger session.  Without an active
    editor that is all it does.  With one, and the selection in it, the
    markup takes the place of the selection, the caret goes behind it,
    and the editor's block is saved: the state holds the sanitized text
    of the editor as the content of the block, and the status is
    [saving]. *)
Theorem insertContent_inserts_and_saves sanitizeHtml html pg :
  let hidden :=
    TextEditor.set_mentionTriggerPos None
      (TextEditor.set_core
         (emitted "mention:hide" VUndef (TextEditor.core pg)) pg) in
  (TextEditor.activeEditor pg = None ->
   TextEditor.insertContent sanitizeHtml html pg = (Ok tt, hidden))
  /\ forall editor el from to pages u ps P B,
       TextEditor.activeEditor pg = Some editor ->
       TextEditor.element editor pg = Some el ->
       TextEditor.selection pg = Some (TextEditor.mkRange editor from to) ->
       getValueAtPath (state (TextEditor.core pg)) "document.pages"
       = VArr pages ->
       forallb json_clean pages = true ->
       forallb is_page pages = true ->
       get_prop (state (TextEditor.core pg)) "ui" = VObj u ->
       past_of (state (TextEditor.core pg)) = VArr ps ->
       located pages (TextEditor.blockId el) = Some (P, B) ->
       is_index P -> is_index B ->
       let text := spliced (TextEditor.content el) from to html in
       let caret := from + String.length html in
       exists pg',
         TextEditor.insertContent sanitizeHtml html pg = (Ok tt, pg')
         /\ TextEditor.mentionTriggerPos pg' = None
         /\ TextEditor.element editor pg'
            = Some (TextEditor.mkBlock editor (TextEditor.blockId el) text)
         /\ TextEditor.selection pg'
            = Some (TextEditor.mkRange editor caret caret)
         /\ getValueAtPath (state (TextEditor.core pg')) (content_path P B)
            = VStr (sanitizeHtml text)
         /\ getValueAtPath (state (TextEditor.core pg')) "ui.autoSaveStatus"
            = VStr "saving".
Proof.
  cbv zeta. split.
  - intros Ha. unfold TextEditor.insertContent.
    erewrite bind_run by (apply in_core_run; apply emit_run).
    rewrite bind_modify, bind_reads.
    cbn [TextEditor.activeEditor TextEditor.set_mentionTriggerPos
         TextEditor.set_core].
    rewrite Ha. reflexivity.
  - intros editor el from to pages u ps P B Ha He Hsel Hpages Hclean Hshape
      Hu Hp Hloc HiP HiB.
    set (text := spliced (TextEditor.content el) from to html).
    set (caret := from + String.length html).
    set (st1 := emitted "mention:hide" VUndef (TextEditor.core pg)).
    destruct (@saveBlockContent_run sanitizeHtml st1 pages
                (TextEditor.blockId el) text u ps)
      as [_ Hsave]; auto.
    destruct (Hsave P B Hloc HiP HiB)
      as (st' & Hrun & _ & Hc & Hs & _).
    set (pg3 := TextEditor.set_selection
                  (Some (TextEditor.mkRange editor caret caret))
                  (TextEditor.set_content editor text
                     (TextEditor.set_mentionTriggerPos None
                        (TextEditor.set_core st1 pg)))).
    exists (TextEditor.set_core st' pg3).
    assert (He3 : TextEditor.element editor pg3
                  = Some (TextEditor.mkBlock editor (TextEditor.blockId el)
                            text)).
    { unfold pg3.
      apply (@element_set_content editor text
               (TextEditor.set_mentionTriggerPos None
                  (TextEditor.set_core st1 pg)) el).
      exact He. }
    split.
    { unfold TextEditor.insertContent.
      erewrite bind_run by (apply in_core_run; apply emit_run).
      fold st1.
      rewrite bind_modify, bind_reads.
      cbn [TextEditor.activeEditor TextEditor.set_mentionTriggerPos
           TextEditor.set_core].
      rewrite Ha. rewrite bind_reads.
      cbn [TextEditor.mentionTriggerPos].
      erewrite bind_run by reflexivity.
      erewrite bind_run
        by (apply (@insertHTML_run html _ (TextEditor.mkRange editor from to)
                     el); [exact Hsel | exact He]).
      cbn [TextEditor.container TextEditor.startOffset TextEditor.endOffset].
      fold (spliced (TextEditor.content el) from to html).
      fold text. fold caret.
      change (TextEditor.set_selection _ _) with pg3.
      erewrite bind_run by (apply attached_run; exact He3).
      cbn [TextEditor.blockId TextEditor.content].
      apply in_core_run. exact Hrun. }
    split; [reflexivity |].
    split; [exact He3 |].
    split; [reflexivity |].
    split; [exact Hc | exact Hs].
Qed.

(** Markup put at the caret in the block of the initial document. *)
Lemma insertContent_inserts_and_saves_witness :
  let pg := editing sample_random "Dear  customer" 5 None in
  exists pg',
    TextEditor.insertContent (fun html => html) "<b>valued</b>" pg
    = (Ok tt, pg')
    /\ TextEditor.element 0 pg'
       = Some (TextEditor.mkBlock 0 "block-z9y8x7w6v"
                 "Dear <b>valued</b> customer")
    /\ TextEditor.selection pg' = Some (TextEditor.mkRange 0 18 18)
    /\ getValueAtPath (state (TextEditor.core pg'))
         "document.pages.0.blocks.0.content"
       = VStr "Dear <b>valued</b> customer".
Proof.
  cbv zeta.
  destruct (@insertContent_inserts_and_saves (fun html => html)
              "<b>valued</b>" (editing sample_random "Dear  customer" 5 None))
    as [_ H].
  destruct (H 0 (TextEditor.mkBlock 0 "block-z9y8x7w6v" "Dear  customer") 5 5
              (pages_of (state (StateManager.loaded sample_random)))
              match get_prop (state (StateManager.loaded sample_random)) "ui"
              with VObj u => u | _ => [] end [] 0 0)
    as (pg' & Hrun & _ & He & Hs & Hc & _); try reflexivity.
  exists pg'. split; [exact Hrun |]. split; [exact He |].
  split; [exact Hs | exact Hc].
Defined.

(* ===================================================================== *)
(** ** navigation.js: the name of the template *)
(* ===================================================================== *)

Lemma trimStart_blank s :
  TextEditor.blank s = true -> Navigation.trimStart s = EmptyString.
Proof.
  induction s as [| c s IH]; [reflexivity |].
  cbn [TextEditor.blank Navigation.trimStart]. intros H.
  apply andb_true_iff in H. destruct H as [-> H]. apply IH. exact H.
Qed.

Lemma trimStart_first s :
  TextEditor.blank s = false ->
  exists c rest,
    Navigation.trimStart s = String c rest /\ TextEditor.is_space c = false.
Proof.
  induction s as [| c s IH]; [discriminate |].
  cbn [TextEditor.blank Navigation.trimStart]. intros H.
  destruct (TextEditor.is_space c) eqn:E.
  - apply IH. exact H.
  - exists c, s. split; [reflexivity | exact E].
Qed.

Lemma trimEnd_first c rest :
  TextEditor.is_space c = false ->
  exists rest', Navigation.trimEnd (String c rest) = String c rest'.
Proof.
  intros H. cbn [Navigation.trimEnd]. rewrite H.
  destruct (Navigation.trimEnd rest); eexists; reflexivity.
Qed.

Lemma trimEnd_last s : forall front c,
  Navigation.trimEnd s = (front ++ String c EmptyString)%string ->
  TextEditor.is_space c = false.
Proof.
  induction s as [| a s IH]; intros front c H.
  - destruct front; discriminate.
  - cbn [Navigation.trimEnd] in H.
    destruct (Navigation.trimEnd s) as [| b t] eqn:E.
    + destruct (TextEditor.is_space a) eqn:Ea.
      * destruct front; discriminate.
      * destruct front as [| f front]; cbn in H.
        -- inversion H; subst. exact Ea.
        -- inversion H. destruct front; discriminate.
    + destruct front as [| f front]; cbn in H; [discriminate |].
      inversion H; subst. eapply IH. eassumption.
Qed.

Lemma name_path_through s d :
  get_prop s "document" = VObj d ->
  through s (split_dot "document.name") = true.
Proof.
  intros Hd.
  change (split_dot "document.name") with ["document"; "name"].
  rewrite through_two, Hd.
  destruct (get_prop_reference s name_document) as (props & -> & _);
    [rewrite Hd; reflexivity |].
  reflexivity.
Qed.

Lemma nav_in_core_run {A} (m : M A) b a st' :
  m (Navigation.core b) = (Ok a, st') ->
  Navigation.in_core m b = (Ok a, Navigation.set_core st' b).
Proof. unfold Navigation.in_core. intros ->. reflexivity. Qed.

(** X17: a name typed into the template-name input is committed
    trimmed, and not at all when nothing is left of it: an input of
    white space only changes nothing, no history entry is made and
    nobody is told.  Otherwise [document.name] is the trimmed input,
    which is not empty and neither starts nor ends with white space,
    what lies beside the name is as before, and [updateTemplateName]
    then shows the trimmed name in the input. *)
Theorem handleTemplateName_commits_the_trimmed_name b typed d ps :
  Navigation.templateNameInput b = Some typed ->
  get_prop (state (Navigation.core b)) "document" = VObj d ->
  past_of (state (Navigation.core b)) = VArr ps ->
  (TextEditor.blank typed = true ->
   Navigation.handleTemplateName b = (Ok tt, b))
  /\ (TextEditor.blank typed = false ->
      exists b1 b2 c rest,
        Navigation.handleTemplateName b = (Ok tt, b1)
        /\ Navigation.updateTemplateName b1 = (Ok tt, b2)
        /\ Navigation.trim typed = String c rest
        /\ TextEditor.is_space c = false
        /\ (forall front l,
              Navigation.trim typed = (front ++ String l EmptyString)%string ->
              TextEditor.is_space l = false)
        /\ getValueAtPath (state (Navigation.core b1)) "document.name"
           = VStr (Navigation.trim typed)
        /\ (forall q, beside "document.name" q -> off_history q = true ->
              getValueAtPath (state (Navigation.core b1)) q
              = getValueAtPath (state (Navigation.core b)) q)
        /\ Navigation.templateNameInput b2 = Some (Navigation.trim typed)
        /\ Navigation.core b2 = Navigation.core b1).
Proof.
  intros Hin Hd Hp. split.
  - intros Hb. unfold Navigation.handleTemplateName.
    rewrite bind_reads, Hin. unfold Navigation.trim.
    rewrite (trimStart_blank typed Hb). reflexivity.
  - intros Hb.
    destruct (trimStart_first _ Hb) as (c & rest0 & E & Hc).
    destruct (@trimEnd_first c rest0 Hc) as (rest & E').
    assert (Ht : Navigation.trim typed = String c rest)
      by (unfold Navigation.trim; rewrite E; exact E').
    destruct (@update_path_run "document.name"
                (VStr (Navigation.trim typed)) (Navigation.core b) ps
                (name_path_through _ Hd) eq_refl Hp)
      as (st1 & data & Hup & Hread & Hframe & _).
    assert (Htruthy : truthy (VStr (Navigation.trim typed)) = true)
      by (rewrite Ht; reflexivity).
    exists (Navigation.set_core st1 b),
      (Navigation.set_templateNameInput (Some (Navigation.trim typed))
         (Navigation.set_core st1 b)), c, rest.
    split.
    { unfold Navigation.handleTemplateName.
      rewrite bind_reads, Hin. cbv zeta. rewrite Htruthy.
      apply nav_in_core_run. exact Hup. }
    split.
    { unfold Navigation.updateTemplateName.
      erewrite bind_run
        by (apply nav_in_core_run; apply get_run;
            [exact Hread | discriminate]).
      rewrite bind_reads.
      cbn [Navigation.templateNameInput Navigation.set_core]. rewrite Hin.
      cbn [serialize]. rewrite Htruthy. reflexivity. }
    split; [exact Ht |]. split; [exact Hc |].
    split.
    { intros front l Hl. unfold Navigation.trim in Hl.
      eapply trimEnd_last. exact Hl. }
    split; [exact Hread |]. split; [exact Hframe |].
    split; reflexivity.
Qed.

(** A name typed with blanks around it, and an input of blanks. *)
Lemma handleTemplateName_commits_the_trimmed_name_witness :
  let b := Navigation.mkBar (StateManager.loaded sample_random)
             (Some "  Quote 2024 ") [] in
  let blanks := Navigation.mkBar (StateManager.loaded sample_random)
                  (Some "   ") [] in
  Navigation.handleTemplateName blanks = (Ok tt, blanks)
  /\ exists b1 b2,
       Navigation.handleTemplateName b = (Ok tt, b1)
       /\ Navigation.updateTemplateName b1 = (Ok tt, b2)
       /\ getValueAtPath (state (Navigation.core b1)) "document.name"
          = VStr "Quote 2024"
       /\ Navigation.templateNameInput b2 = Some "Quote 2024".
Proof.
  cbv zeta. split.
  - apply (proj1 (@handleTemplateName_commits_the_trimmed_name
                    (Navigation.mkBar (StateManager.loaded sample_random)
                       (Some "   ") [])
                    "   "
                    match get_prop (state (StateManager.loaded sample_random))
                            "document"
                    with VObj d => d | _ => [] end []
                    eq_refl eq_refl eq_refl)).
    reflexivity.
  - destruct (proj2 (@handleTemplateName_commits_the_trimmed_name
                       (Navigation.mkBar (StateManager.loaded sample_random)
                          (Some "  Quote 2024 ") [])
                       "  Quote 2024 "
                       match get_prop
                               (state (StateManager.loaded sample_random))
                               "document"
                       with VObj d => d | _ => [] end []
                       eq_refl eq_refl eq_refl) eq_refl)
      as (b1 & b2 & c & rest & H1 & H2 & _ & _ & _ & Hr & _ & Hi & _).
    exists b1, b2. split; [exact H1 |]. split; [exact H2 |].
    split; [exact Hr | exact Hi].
Defined.

(* ===================================================================== *)
(** ** The application module: saving and loading the state *)
(* ===================================================================== *)

Lemma app_in_core_run {A} (m : M A) a r st' :
  m (CPQEditor.core a) = (Ok r, st') ->
  CPQEditor.in_core m a = (Ok r, CPQEditor.set_core st' a).
Proof. unfold CPQEditor.in_core. intros ->. reflexivity. Qed.

Lemma promise_run {S} (m : comp S CPQEditor.promise) handler st r st' :
  m st = (Ok r, st') ->
  CPQEditor.new_Promise (CPQEditor.try_catch m handler) st = (Ok r, st').
Proof.
  intros H. unfold CPQEditor.new_Promise, CPQEditor.try_catch.
  rewrite H. reflexivity.
Qed.

Lemma beside_top k k' :
  split_dot k = [k] -> split_dot k' = [k'] -> k <> k' -> k' <> "length" ->
  beside k k'.
Proof.
  intros Hk Hk' Hne Hl. exists [], k, [], k', [].
  rewrite Hk, Hk'. auto.
Qed.

(** A commit that replaces [history] by an object with a [past]. *)
Lemma update_history_run h hs sp st ps :
  h = VObj hs -> lookup "past" hs = Some (VArr sp) ->
  past_of (state st) = VArr ps ->
  exists st',
    StateManager.update (VStr "history") h st = (Ok tt, st')
    /\ past_of (state st') = VArr (capped (sp ++ [serialize (state st)]))
    /\ future_of (state st') = VArr []
    /\ (forall k, k <> "history" ->
          get_prop (state st') k = get_prop (state st) k).
Proof.
  intros -> Hsp Hp.
  destruct (past_array_shape _ Hp) as (props & hprops & Hs & _ & _).
  set (mid := set_state (VObj (define "history" (VObj hs) props))
                (set_changedPaths ["history"] st)).
  destruct (@update_run (VStr "history") (VObj hs) st mid sp)
    as (s' & data & Hrun & Hpast & Hfut & Hsame).
  - rewrite Hs. discriminate.
  - cbn [mutation].
    rewrite (@write_run "history" (VObj hs) (set_changedPaths [] st)
               (VObj (define "history" (VObj hs) props))).
    + reflexivity.
    + cbn [state set_changedPaths]. rewrite Hs. reflexivity.
  - reflexivity.
  - unfold past_of, history_of, mid. cbn [state set_state].
    rewrite get_prop_VObj, lookup_define_same, get_prop_VObj, Hsp.
    reflexivity.
  - eexists. split; [exact Hrun |]. cbn [state set_invoked set_state].
    split; [exact Hpast |]. split; [exact Hfut |].
    intros k Hk. rewrite Hsame by exact Hk. unfold mid.
    cbn [state set_state]. rewrite Hs, !get_prop_VObj.
    rewrite lookup_define_other by congruence. reflexivity.
Qed.

Lemma state_object_top s ps k :
  past_of s = VArr ps -> split_dot k = [k] ->
  through s (split_dot k) = true.
Proof.
  intros Hp ->. destruct (past_array_shape _ Hp) as (props & _ & -> & _).
  reflexivity.
Qed.

Lemma getValueAtPath_top s k :
  nullish s = false -> split_dot k = [k] ->
  getValueAtPath s k = get_prop s k.
Proof.
  intros Hn Hk. unfold getValueAtPath. rewrite Hk. apply walk_one. exact Hn.
Qed.

(** X18: [loadState] resolves to [false] and changes nothing when
    nothing is stored.  With a stored state of the three fields
    [document], [ui] and [history], it makes three commits, one per
    field, and resolves to [true]: [document] and [ui] are the stored
    ones; [history.past] is the stored past followed by one more
    snapshot, under the cap of 50 - the snapshot of the state that
    already has the stored document and ui, which is what an [undo]
    goes back to - and [history.future] is empty: the redo list that
    was stored is not restored. *)
Theorem loadState_restores_document_and_ui a :
  (CPQEditor.localStorage a = None ->
   CPQEditor.loadState a = (Ok (CPQEditor.Resolved (VBool false)), a))
  /\ forall d u hs sp ps,
       CPQEditor.localStorage a
       = Some (VObj [("document", d); ("ui", u); ("history", VObj hs)]) ->
       lookup "past" hs = Some (VArr sp) ->
       past_of (state (CPQEditor.core a)) = VArr ps ->
       exists a' before,
         CPQEditor.loadState a = (Ok (CPQEditor.Resolved (VBool true)), a')
         /\ getValueAtPath (state (CPQEditor.core a')) "document" = d
         /\ getValueAtPath (state (CPQEditor.core a')) "ui" = u
         /\ past_of (state (CPQEditor.core a'))
            = VArr (capped (sp ++ [serialize before]))
         /\ getValueAtPath before "document" = d
         /\ getValueAtPath before "ui" = u
         /\ future_of (state (CPQEditor.core a')) = VArr []
         /\ CPQEditor.localStorage a' = CPQEditor.localStorage a.
Proof.
  split.
  - intros Hn. unfold CPQEditor.loadState.
    apply promise_run. rewrite bind_reads, Hn. reflexivity.
  - intros d u hs sp ps Hst Hsp Hp.
    destruct (@update_path_run "document" d (CPQEditor.core a) ps)
      as (st1 & data1 & Hup1 & Hread1 & Hframe1 & Hpast1 & _);
      [eapply state_object_top; eauto | reflexivity | exact Hp |].
    destruct (@update_path_run "ui" u st1
                (capped (ps ++ [serialize (state (CPQEditor.core a))])))
      as (st2 & data2 & Hup2 & Hread2 & Hframe2 & Hpast2 & _);
      [eapply state_object_top; eauto | reflexivity | exact Hpast1 |].
    destruct (@update_history_run (VObj hs) hs sp st2
                (capped (capped (ps ++ [serialize (state (CPQEditor.core a))])
                         ++ [serialize (state st1)]))
                eq_refl Hsp Hpast2)
      as (st3 & Hup3 & Hpast3 & Hfut3 & Hsame3).
    assert (Hdoc2 : getValueAtPath (state st2) "document" = d).
    { rewrite Hframe2; [exact Hread1 | | reflexivity].
      apply beside_top; try reflexivity; discriminate. }
    assert (Hn2 : nullish (state st2) = false)
      by (eapply past_array_not_nullish; exact Hpast2).
    assert (Hn3 : nullish (state st3) = false)
      by (eapply past_array_not_nullish; exact Hpast3).
    exists (CPQEditor.set_core st3 a), (state st2).
    split.
    { unfold CPQEditor.loadState. apply promise_run.
      rewrite bind_reads, Hst.
      erewrite bind_lift by reflexivity.
      erewrite bind_lift by reflexivity.
      cbn [forEach fst snd].
      erewrite bind_run.
      2:{ erewrite bind_run by (apply app_in_core_run; exact Hup1).
          erewrite bind_run by (apply app_in_core_run; exact Hup2).
          erewrite bind_run by (apply app_in_core_run; exact Hup3).
          reflexivity. }
      reflexivity. }
    cbn [CPQEditor.core CPQEditor.set_core CPQEditor.localStorage].
    split.
    { rewrite getValueAtPath_top, Hsame3, <- getValueAtPath_top;
        try reflexivity; try assumption. discriminate. }
    split.
    { rewrite getValueAtPath_top, Hsame3, <- getValueAtPath_top;
        try reflexivity; try assumption. discriminate. }
    split; [exact Hpast3 |]. split; [exact Hdoc2 |].
    split; [exact Hread2 |]. split; [exact Hfut3 | reflexivity].
Qed.

(** The state saved from the initial document is loaded after the
    template was renamed: the name is the saved one again. *)
Lemma loadState_restores_document_and_ui_witness :
  getValueAtPath (state (CPQEditor.core renamed_app)) "document.name"
  = VStr "Quote"
  /\ exists a',
       CPQEditor.loadState renamed_app
       = (Ok (CPQEditor.Resolved (VBool true)), a')
       /\ getValueAtPath (state (CPQEditor.core a')) "document"
          = stored_field "document" renamed_app
       /\ getValueAtPath (state (CPQEditor.core a')) "document.name"
          = VStr "Untitled Template"
       /\ future_of (state (CPQEditor.core a')) = VArr [].
Proof.
  split; [vm_compute; reflexivity |].
  pose proof (proj2 (@loadState_restores_document_and_ui renamed_app)
              (stored_field "document" renamed_app)
              (stored_field "ui" renamed_app)
              match stored_field "history" renamed_app with
              | VObj hs => hs
              | _ => []
              end
              match get_prop (stored_field "history" renamed_app) "past" with
              | VArr sp => sp
              | _ => []
              end
              match past_of (state (CPQEditor.core renamed_app)) with
              | VArr ps => ps
              | _ => []
              end) as H.
  assert (H1 : CPQEditor.localStorage renamed_app =
      Some
        (VObj
           [("document", stored_field "document" renamed_app);
            ("ui", stored_field "ui" renamed_app);
            ("history",
             VObj
               match stored_field "history" renamed_app with
               | VObj hs => hs
               | _ => []
               end)])) by (vm_compute; reflexivity).
  specialize (H H1).
  assert (H2 : lookup "past"
        match stored_field "history" renamed_app with
        | VObj hs => hs
        | _ => []
        end =
      Some
        (VArr
           match get_prop (stored_field "history" renamed_app) "past" with
           | VArr sp => sp
           | _ => []
           end)) by (vm_compute; reflexivity).
  specialize (H H2).
  assert (H3 : past_of (state (CPQEditor.core renamed_app)) =
      VArr
        match past_of (state (CPQEditor.core renamed_app)) with
        | VArr ps => ps
        | _ => []
        end) by (vm_compute; reflexivity).
  specialize (H H3).
  destruct H as (a' & before & Hl & Hd & _ & _ & _ & _ & Hf & _).
  exists a'. split; [exact Hl |]. split; [exact Hd |].
  split; [| exact Hf].
  assert (Hn : nullish (state (CPQEditor.core a')) = false).
  { destruct (future_array_shape _ Hf) as (props & _ & -> & _).
    reflexivity. }
  unfold getValueAtPath in *.
  change (split_dot "document.name") with ["document"; "name"].
  change (split_dot "document") with ["document"] in Hd.
  rewrite walk_cons by exact Hn.
  rewrite walk_one in Hd by exact Hn. rewrite Hd.
  vm_compute. reflexivity.
Defined.

Lemma status_beside_top :
  beside "ui.autoSaveStatus" "document".
Proof.
  exists [], "ui", ["autoSaveStatus"], "document", [].
  repeat split; try reflexivity; discriminate.
Qed.

(** X19: [saveState] sets [ui.autoSaveStatus] to [saving] and returns a
    pending promise; its timer then stores a snapshot of the state and
    sets the status to [saved].  The snapshot is taken in between: what
    is stored has, beside the status, what the state had when
    [saveState] was called, and its status is [saving]. *)
Theorem saveState_stores_the_state_as_saving a u ps :
  get_prop (state (CPQEditor.core a)) "ui" = VObj u ->
  past_of (state (CPQEditor.core a)) = VArr ps ->
  exists a1 a2 stored,
    CPQEditor.saveState a = (Ok CPQEditor.Pending, a1)
    /\ CPQEditor.localStorage a1 = CPQEditor.localStorage a
    /\ CPQEditor.saveState_timer a1
       = (Ok (CPQEditor.Resolved (VBool true)), a2)
    /\ CPQEditor.localStorage a2 = Some stored
    /\ getValueAtPath stored "ui.autoSaveStatus" = VStr "saving"
    /\ (forall q,
          beside "ui.autoSaveStatus" q -> off_history q = true ->
          getValueAtPath (state (CPQEditor.core a)) q <> VUndef ->
          getValueAtPath stored q
          = serialize (getValueAtPath (state (CPQEditor.core a)) q))
    /\ getValueAtPath (state (CPQEditor.core a2)) "ui.autoSaveStatus"
       = VStr "saved".
Proof.
  intros Hu Hp.
  assert (Hn : nullish (state (CPQEditor.core a)) = false)
    by (eapply past_array_not_nullish; exact Hp).
  destruct (@update_path_run "ui.autoSaveStatus" (VStr "saving")
              (CPQEditor.core a) ps
              (@status_path_through _ u Hn Hu) eq_refl Hp)
    as (st1 & data1 & Hup1 & Hread1 & Hframe1 & Hpast1 & _).
  assert (Hn1 : nullish (state st1) = false)
    by (eapply past_array_not_nullish; exact Hpast1).
  assert (Hu1 : exists u1, get_prop (state st1) "ui" = VObj u1).
  { unfold getValueAtPath in Hread1.
    change (split_dot "ui.autoSaveStatus") with ["ui"; "autoSaveStatus"]
      in Hread1.
    rewrite walk_cons in Hread1 by exact Hn1.
    destruct (get_prop (state st1) "ui") as [| | b | n | t | e | u1];
      try (vm_compute in Hread1; discriminate).
    exists u1. reflexivity. }
  destruct Hu1 as (u1 & Hu1).
  destruct (@update_path_run "ui.autoSaveStatus" (VStr "saved") st1 _
              (@status_path_through _ u1 Hn1 Hu1) eq_refl Hpast1)
    as (st2 & data2 & Hup2 & Hread2 & _).
  assert (Hd1 : state st1 <> VUndef)
    by (intros E; rewrite E in Hn1; discriminate).
  exists (CPQEditor.set_core st1 a),
    (CPQEditor.set_core st2
       (CPQEditor.set_localStorage (Some (serialize (state st1)))
          (CPQEditor.set_core st1 a))),
    (serialize (state st1)).
  split.
  { unfold CPQEditor.saveState. apply promise_run.
    erewrite bind_run by (apply app_in_core_run; exact Hup1). reflexivity. }
  split; [reflexivity |].
  split.
  { unfold CPQEditor.saveState_timer.
    erewrite bind_run
      by (apply app_in_core_run; apply getState_run; exact Hd1).
    assert (Hj : JSON_stringify (serialize (state st1))
                 = Some (serialize (state st1))).
    { unfold JSON_stringify. rewrite serialize_idempotent.
      pose proof (serialize_defined Hd1) as Hs.
      destruct (serialize (state st1)); try reflexivity. congruence. }
    cbn [CPQEditor.core CPQEditor.set_core CPQEditor.localStorage].
    rewrite Hj. rewrite bind_modify.
    erewrite bind_run by (apply app_in_core_run; exact Hup2). reflexivity. }
  split; [reflexivity |].
  split.
  { unfold getValueAtPath in *.
    rewrite walk_serialize by (rewrite Hread1; discriminate).
    rewrite Hread1. reflexivity. }
  split; [| exact Hread2].
  intros q Hq Hoff Hdef.
  assert (E : getValueAtPath (state st1) q
              = getValueAtPath (state (CPQEditor.core a)) q)
    by (apply Hframe1; assumption).
  unfold getValueAtPath in *.
  rewrite walk_serialize; rewrite E; [reflexivity | exact Hdef].
Qed.

(** The initial document, saved. *)
Lemma saveState_stores_the_state_as_saving_witness :
  exists a1 a2 stored,
    CPQEditor.saveState fresh_app = (Ok CPQEditor.Pending, a1)
    /\ CPQEditor.saveState_timer a1
       = (Ok (CPQEditor.Resolved (VBool true)), a2)
    /\ CPQEditor.localStorage a2 = Some stored
    /\ getValueAtPath stored "ui.autoSaveStatus" = VStr "saving"
    /\ getValueAtPath stored "document"
       = getValueAtPath (state (CPQEditor.core fresh_app)) "document"
    /\ getValueAtPath (state (CPQEditor.core a2)) "ui.autoSaveStatus"
       = VStr "saved".
Proof.
  destruct (@saveState_stores_the_state_as_saving fresh_app
              match get_prop (state (CPQEditor.core fresh_app)) "ui" with
              | VObj u => u
              | _ => []
              end [] eq_refl eq_refl)
    as (a1 & a2 & stored & H1 & _ & H2 & H3 & H4 & H5 & H6).
  exists a1, a2, stored.
  split; [exact H1 |]. split; [exact H2 |]. split; [exact H3 |].
  split; [exact H4 |]. split; [| exact H6].
  rewrite H5.
  - vm_compute. reflexivity.
  - exact status_beside_top.
  - reflexivity.
  - vm_compute. discriminate.
Defined.

(* ===================================================================== *)
(** ** mention.js: moving through the suggestions *)
(* ===================================================================== *)

Lemma select_only_length items : forall index newIndex,
  List.length (MentionSystem.select_only items index newIndex)
  = List.length items.
Proof.
  induction items as [| it items IH]; intros index newIndex; [reflexivity |].
  cbn [MentionSystem.select_only List.length]. rewrite IH. reflexivity.
Qed.

Lemma select_only_ids items : forall index newIndex,
  map MentionSystem.item_id (MentionSystem.select_only items index newIndex)
  = map MentionSystem.item_id items.
Proof.
  induction items as [| it items IH]; intros index newIndex; [reflexivity |].
  cbn [MentionSystem.select_only map MentionSystem.item_id].
  rewrite IH. reflexivity.
Qed.

Lemma select_only_selected items : forall index newIndex j,
  j < List.length items ->
  MentionSystem.selected
    (nth j (MentionSystem.select_only items index newIndex)
       (MentionSystem.mkItemEl EmptyString false))
  = (index + Z.of_nat j =? newIndex)%Z.
Proof.
  induction items as [| it items IH]; intros index newIndex j Hj;
    [inversion Hj |].
  cbn [MentionSystem.select_only]. destruct j as [| j].
  - cbn [nth MentionSystem.selected]. rewrite Z.add_0_r. reflexivity.
  - cbn [nth]. cbn [List.length] in Hj. rewrite IH by lia.
    f_equal. lia.
Qed.

Lemma select_only_only items i :
  i < List.length items ->
  only_selected i (MentionSystem.select_only items 0 (Z.of_nat i)).
Proof.
  intros Hi j Hj. rewrite select_only_length in Hj.
  rewrite select_only_selected by exact Hj. cbn [Z.add].
  destruct (Nat.eqb_spec j i) as [-> | Hne].
  - apply Z.eqb_refl.
  - apply Z.eqb_neq. lia.
Qed.

Lemma last_selected_range items : forall index acc,
  let r := MentionSystem.last_selected items index acc in
  r = acc \/ (index <= r < index + Z.of_nat (List.length items))%Z.
Proof.
  induction items as [| it items IH]; intros index acc; cbv zeta;
    [left; reflexivity |].
  cbn [MentionSystem.last_selected List.length].
  destruct (IH (index + 1)%Z
              (if MentionSystem.selected it then index else acc))
    as [-> | H].
  - destruct (MentionSystem.selected it); [right; lia | left; reflexivity].
  - right. lia.
Qed.

Lemma only_selected_tail it items i :
  only_selected (S i) (it :: items) -> only_selected i items.
Proof.
  intros H j Hj. specialize (H (S j)). cbn [List.length nth] in H.
  rewrite H by lia. reflexivity.
Qed.

Lemma last_selected_none items : forall index acc,
  (forall j, j < List.length items ->
     MentionSystem.selected
       (nth j items (MentionSystem.mkItemEl EmptyString false)) = false) ->
  MentionSystem.last_selected items index acc = acc.
Proof.
  induction items as [| it items IH]; intros index acc H; [reflexivity |].
  cbn [MentionSystem.last_selected].
  pose proof (H 0 ltac:(cbn; lia)) as H0. cbn [nth] in H0. rewrite H0.
  apply IH. intros j Hj. apply (H (S j)). cbn [List.length]. lia.
Qed.

Lemma last_selected_only items : forall i index acc,
  only_selected i items -> i < List.length items ->
  MentionSystem.last_selected items index acc = (index + Z.of_nat i)%Z.
Proof.
  induction items as [| it items IH]; intros i index acc H Hi;
    [inversion Hi |].
  cbn [MentionSystem.last_selected]. destruct i as [| i].
  - pose proof (H 0 ltac:(cbn; lia)) as H0. cbn [nth Nat.eqb] in H0.
    rewrite H0. rewrite last_selected_none; [lia |].
    intros j Hj. specialize (H (S j)). cbn [List.length nth Nat.eqb] in H.
    apply H. lia.
  - pose proof (H 0 ltac:(cbn; lia)) as H0. cbn [nth Nat.eqb] in H0.
    rewrite H0. cbn [List.length] in Hi.
    rewrite (IH i) by (eauto using only_selected_tail; lia). lia.
Qed.

(** [navigateMentionItems], run forward. *)
Lemma navigate_run p items direction :
  MentionSystem.mentionItems p = Some items ->
  items <> [] ->
  exists items' i,
    MentionSystem.navigateMentionItems direction p
    = (Ok tt, MentionSystem.set_mentionItems (Some items') p)
    /\ map MentionSystem.item_id items' = map MentionSystem.item_id items
    /\ i < List.length items
    /\ only_selected i items'
    /\ forall s,
         only_selected s items -> s < List.length items ->
         (direction = 1%Z \/ direction = (-1)%Z) ->
         i = round (List.length items) s direction.
Proof.
  intros Hitems Hne.
  set (n := Z.of_nat (List.length items)).
  assert (Hn : (0 < n)%Z)
    by (unfold n; destruct items; [congruence | cbn [List.length]; lia]).
  set (s0 := MentionSystem.last_selected items 0 (-1)).
  set (n1 := (if (s0 + direction <? 0)%Z then (n - 1)%Z
              else (s0 + direction)%Z)).
  set (n2 := (if (n <=? n1)%Z then 0%Z else n1)).
  assert (Hrange : (0 <= n2 < n)%Z).
  { unfold n2, n1.
    destruct (s0 + direction <? 0)%Z eqn:E1.
    - destruct (n <=? n - 1)%Z eqn:E2; [apply Z.leb_le in E2 |]; lia.
    - apply Z.ltb_ge in E1.
      destruct (n <=? s0 + direction)%Z eqn:E2;
        [| apply Z.leb_gt in E2]; lia. }
  exists (MentionSystem.select_only items 0 n2), (Z.to_nat n2).
  split.
  { unfold MentionSystem.navigateMentionItems.
    rewrite bind_reads, Hitems. fold n.
    replace (n =? 0)%Z with false by (symmetry; apply Z.eqb_neq; lia).
    reflexivity. }
  split; [apply select_only_ids |].
  split; [unfold n in Hrange; lia |].
  split.
  { assert (H : only_selected (Z.to_nat n2)
                  (MentionSystem.select_only items 0
                     (Z.of_nat (Z.to_nat n2))))
      by (apply select_only_only; unfold n in Hrange; lia).
    rewrite Z2Nat.id in H by lia. exact H. }
  intros s Hs Hlt Hd. unfold round. fold n. f_equal.
  assert (Es : s0 = Z.of_nat s)
    by (unfold s0; rewrite (last_selected_only 0 (-1) Hs Hlt); lia).
  unfold n2, n1. rewrite Es.
  assert (Hsn : (0 <= Z.of_nat s < n)%Z) by (unfold n; lia).
  destruct Hd as [-> | ->].
  - replace (Z.of_nat s + 1 <? 0)%Z with false
      by (symmetry; apply Z.ltb_ge; lia).
    destruct (n <=? Z.of_nat s + 1)%Z eqn:E.
    + apply Z.leb_le in E.
      replace (Z.of_nat s + 1)%Z with n by lia.
      rewrite Z.mod_same by lia. reflexivity.
    + apply Z.leb_gt in E. rewrite Z.mod_small by lia. reflexivity.
  - destruct (Z.of_nat s + -1 <? 0)%Z eqn:E.
    + apply Z.ltb_lt in E.
      replace (n <=? n - 1)%Z with false by (symmetry; apply Z.leb_gt; lia).
      replace (Z.of_nat s + -1)%Z with (n - 1 + (-1) * n)%Z by lia.
      rewrite Z.mod_add by lia. rewrite Z.mod_small by lia. reflexivity.
    + apply Z.ltb_ge in E.
      replace (n <=? Z.of_nat s + -1)%Z with false
        by (symmetry; apply Z.leb_gt; lia).
      rewrite Z.mod_small by lia. reflexivity.
Qed.

Lemma only_selected_unique i j items :
  only_selected i items -> only_selected j items ->
  i < List.length items -> i = j.
Proof.
  intros Hi Hj Hlt. pose proof (Hi i Hlt) as H. rewrite (Hj i Hlt) in H.
  rewrite Nat.eqb_refl in H. apply Nat.eqb_eq in H. exact H.
Qed.

(** With nothing selected, the first element is selected for direction
    1 and the last one for direction -1. *)
Lemma navigate_none_run p items direction :
  MentionSystem.mentionItems p = Some items ->
  items <> [] ->
  (forall it, In it items -> MentionSystem.selected it = false) ->
  direction = 1%Z \/ direction = (-1)%Z ->
  MentionSystem.navigateMentionItems direction p
  = (Ok tt,
     MentionSystem.set_mentionItems
       (Some (MentionSystem.select_only items 0
                (Z.of_nat (if (direction =? 1)%Z then 0
                           else List.length items - 1)))) p).
Proof.
  intros Hitems Hne Hnone Hd.
  assert (Hn : 0 < List.length items)
    by (destruct items; [congruence | cbn [List.length]; lia]).
  unfold MentionSystem.navigateMentionItems.
  rewrite bind_reads, Hitems.
  replace (Z.of_nat (List.length items) =? 0)%Z with false
    by (symmetry; apply Z.eqb_neq; lia).
  rewrite last_selected_none
    by (intros j Hj; apply Hnone; apply nth_In; exact Hj).
  destruct Hd as [-> | ->]; cbv zeta.
  - change (-1 + 1 <? 0)%Z with false. cbv iota.
    replace (Z.of_nat (List.length items) <=? -1 + 1)%Z with false
      by (symmetry; apply Z.leb_gt; lia).
    reflexivity.
  - change (-1 + -1 <? 0)%Z with true. cbv iota.
    replace (Z.of_nat (List.length items)
             <=? Z.of_nat (List.length items) - 1)%Z with false
      by (symmetry; apply Z.leb_gt; lia).
    change (-1 =? 1)%Z with false. cbv iota.
    replace (Z.of_nat (List.length items - 1))
      with (Z.of_nat (List.length items) - 1)%Z by lia.
    reflexivity.
Qed.

(** X20: [navigateMentionItems(direction)] does nothing without the
    list element or on an empty list.  On a list that is not empty it
    leaves exactly one element selected, whatever was selected before,
    and keeps the elements as they are otherwise.  For direction 1 or
    -1: when exactly one element was selected, the selection moves one
    place down or up, round the list (from the last element down to the
    first, from the first up to the last); when none was selected,
    direction 1 selects the first element and direction -1 the last. *)
Theorem navigateMentionItems_selects_exactly_one p direction :
  (MentionSystem.mentionItems p = None
   \/ MentionSystem.mentionItems p = Some [] ->
   MentionSystem.navigateMentionItems direction p = (Ok tt, p))
  /\ forall items,
       MentionSystem.mentionItems p = Some items ->
       items <> [] ->
       exists items' i,
         MentionSystem.navigateMentionItems direction p
         = (Ok tt, MentionSystem.set_mentionItems (Some items') p)
         /\ map MentionSystem.item_id items' = map MentionSystem.item_id items
         /\ i < List.length items
         /\ only_selected i items'
         /\ (direction = 1%Z \/ direction = (-1)%Z ->
             (forall s,
                only_selected s items -> s < List.length items ->
                i = round (List.length items) s direction)
             /\ ((forall it, In it items ->
                    MentionSystem.selected it = false) ->
                 i = if (direction =? 1)%Z then 0
                     else List.length items - 1)).
Proof.
  split.
  - intros [H | H]; unfold MentionSystem.navigateMentionItems;
      rewrite bind_reads, H; reflexivity.
  - intros items Hitems Hne.
    destruct (@navigate_run p items direction Hitems Hne)
      as (items' & i & Hrun & Hids & Hi & Honly & Hround).
    exists items', i. split; [exact Hrun |]. split; [exact Hids |].
    split; [exact Hi |]. split; [exact Honly |].
    intros Hd. split; [intros s Hs Hlt; exact (Hround s Hs Hlt Hd) |].
    intros Hnone.
    pose proof (@navigate_none_run p items direction Hitems Hne Hnone Hd) as Hrun'.
    rewrite Hrun in Hrun'. inversion Hrun' as [E].
    assert (Hlen : List.length items' = List.length items)
      by (rewrite <- (length_map MentionSystem.item_id), Hids;
          apply length_map).
    apply (@only_selected_unique i _ items' Honly);
      [| rewrite Hlen; exact Hi].
    rewrite E. apply select_only_only.
    destruct (direction =? 1)%Z; [| lia].
    destruct items; [congruence | cbn [List.length]; lia].
Qed.

(** The four table suggestions: up from the first one is the last; and
    with none of them selected, down is the first. *)
Lemma navigateMentionItems_selects_exactly_one_witness :
  (exists items' i,
      MentionSystem.navigateMentionItems (-1) (open_panel "table")
      = (Ok tt, MentionSystem.set_mentionItems (Some items')
                  (open_panel "table"))
      /\ map MentionSystem.item_id items'
         = ["table"; "table-2x2"; "table-3x3"; "table-4x4"]
      /\ only_selected i items'
      /\ i = 3)
  /\ (exists items' i,
         MentionSystem.navigateMentionItems 1
           (MentionSystem.set_mentionItems
              (Some [MentionSystem.mkItemEl "h1" false;
                     MentionSystem.mkItemEl "h2" false])
              (open_panel "h"))
         = (Ok tt, MentionSystem.set_mentionItems (Some items')
                     (open_panel "h"))
         /\ only_selected i items'
         /\ i = 0).
Proof.
  split.
  - destruct (@navigateMentionItems_selects_exactly_one (open_panel "table")
                (-1)) as [_ H].
    destruct (H (MentionSystem.render (MentionSystem.filterItems "table") 0)
                eq_refl)
      as (items' & i & Hrun & Hids & _ & Honly & Hround).
    + discriminate.
    + exists items', i. split; [exact Hrun |]. split; [exact Hids |].
      split; [exact Honly |].
      destruct (Hround (or_intror eq_refl)) as [Hone _].
      apply (Hone 0).
      * intros [| [| [| [| j]]]] Hj; try reflexivity.
        vm_compute in Hj. lia.
      * vm_compute. lia.
  - destruct (@navigateMentionItems_selects_exactly_one
                (MentionSystem.set_mentionItems
                   (Some [MentionSystem.mkItemEl "h1" false;
                          MentionSystem.mkItemEl "h2" false])
                   (open_panel "h")) 1) as [_ H].
    destruct (H [MentionSystem.mkItemEl "h1" false;
                 MentionSystem.mkItemEl "h2" false] eq_refl)
      as (items' & i & Hrun & _ & _ & Honly & Hround).
    + discriminate.
    + exists items', i. split; [exact Hrun |]. split; [exact Honly |].
      destruct (Hround (or_introl eq_refl)) as [_ Hnone].
      apply Hnone. intros it [<- | [<- | []]]; reflexivity.
Defined.

(* ===================================================================== *)
(** ** mention.js: choosing a suggestion with the keyboard *)
(* ===================================================================== *)

Lemma panel_in_core_run {A} (m : M A) p a st' :
  m (MentionSystem.core p) = (Ok a, st') ->
  MentionSystem.in_core m p = (Ok a, MentionSystem.set_core st' p).
Proof. unfold MentionSystem.in_core. intros ->. reflexivity. Qed.

Lemma render_ids items : forall index,
  map MentionSystem.item_id (MentionSystem.render items index)
  = map MentionSystem.id items.
Proof.
  induction items as [| it items IH]; intros index; [reflexivity |].
  cbn [MentionSystem.render map MentionSystem.item_id]. rewrite IH.
  reflexivity.
Qed.

Lemma render_length items : forall index,
  List.length (MentionSystem.render items index) = List.length items.
Proof.
  induction items as [| it items IH]; intros index; [reflexivity |].
  cbn [MentionSystem.render List.length]. rewrite IH. reflexivity.
Qed.

Lemma render_selected items : forall index j,
  j < List.length items ->
  MentionSystem.selected
    (nth j (MentionSystem.render items index)
       (MentionSystem.mkItemEl EmptyString false))
  = Nat.eqb (index + j) 0.
Proof.
  induction items as [| it items IH]; intros index j Hj; [inversion Hj |].
  cbn [MentionSystem.render]. destruct j as [| j].
  - cbn [nth MentionSystem.selected]. rewrite Nat.add_0_r. reflexivity.
  - cbn [nth]. cbn [List.length] in Hj. rewrite IH by lia.
    replace (S index + j) with (index + S j) by lia. reflexivity.
Qed.

Lemma render_only_first items :
  only_selected 0 (MentionSystem.render items 0).
Proof.
  intros j Hj. rewrite render_length in Hj.
  rewrite render_selected by exact Hj. reflexivity.
Qed.

Lemma find_only_selected items : forall i,
  only_selected i items -> i < List.length items ->
  find MentionSystem.selected items
  = Some (nth i items (MentionSystem.mkItemEl EmptyString false)).
Proof.
  induction items as [| it items IH]; intros i H Hi; [inversion Hi |].
  pose proof (H 0 ltac:(cbn; lia)) as H0. cbn [nth] in H0.
  cbn [find]. rewrite H0. destruct i as [| i]; [reflexivity |].
  cbn [Nat.eqb nth]. apply IH.
  - eapply only_selected_tail. exact H.
  - cbn [List.length] in Hi. lia.
Qed.

Lemma find_none_selected items :
  (forall j, j < List.length items ->
     MentionSystem.selected
       (nth j items (MentionSystem.mkItemEl EmptyString false)) = false) ->
  find MentionSystem.selected items = None.
Proof.
  induction items as [| it items IH]; intros H; [reflexivity |].
  pose proof (H 0 ltac:(cbn; lia)) as H0. cbn [nth] in H0.
  cbn [find]. rewrite H0. apply IH.
  intros j Hj. apply (H (S j)). cbn [List.length]. lia.
Qed.

(** Every suggestion is the first one with its identifier. *)
Lemma suggestion_by_id x :
  In x MentionSystem.suggestions ->
  find (fun suggestion =>
          String.eqb (MentionSystem.id suggestion) (MentionSystem.id x))
       MentionSystem.suggestions
  = Some x.
Proof.
  intros H. cbn [MentionSystem.suggestions In] in H.
  repeat (destruct H as [<- | H]; [vm_compute; reflexivity |]).
  destruct H.
Qed.

Lemma filterItems_suggestions q x :
  In x (MentionSystem.filterItems q) -> In x MentionSystem.suggestions.
Proof.
  rewrite filterItems_filter. intros H. apply filter_In in H. tauto.
Qed.

Lemma panel_path_through s u :
  nullish s = false -> get_prop s "ui" = VObj u ->
  through s (split_dot "ui.showMentionPanel") = true.
Proof.
  intros Hn Hu.
  change (split_dot "ui.showMentionPanel") with ["ui"; "showMentionPanel"].
  rewrite through_two, Hu.
  destruct (get_prop_reference s name_ui) as (props & -> & _);
    [rewrite Hu; reflexivity |].
  reflexivity.
Qed.

(** [hideMentionPanel], run forward. *)
Lemma hideMentionPanel_run p shown u ps :
  MentionSystem.mentionPanel p = Some shown ->
  get_prop (state (MentionSystem.core p)) "ui" = VObj u ->
  past_of (state (MentionSystem.core p)) = VArr ps ->
  exists st' later,
    MentionSystem.hideMentionPanel p
    = (Ok tt,
       MentionSystem.set_targetRange VNull
         (MentionSystem.set_isVisible false
            (MentionSystem.set_mentionPanel (Some false)
               (MentionSystem.set_core st' p))))
    /\ getValueAtPath (state st') "ui.showMentionPanel" = VBool false
    /\ (forall q, beside "ui.showMentionPanel" q -> off_history q = true ->
          getValueAtPath (state st') q
          = getValueAtPath (state (MentionSystem.core p)) q)
    /\ invoked st' = invoked (MentionSystem.core p) ++ later
    /\ requests st' = requests (MentionSystem.core p).
Proof.
  intros Hp Hu Hpast.
  assert (Hn : nullish (state (MentionSystem.core p)) = false)
    by (eapply past_array_not_nullish; exact Hpast).
  destruct (@update_path_run "ui.showMentionPanel" (VBool false)
              (MentionSystem.core p) ps
              (@panel_path_through _ u Hn Hu) eq_refl Hpast)
    as (st' & data & Hup & Hread & Hframe & _ & _ & Hst).
  exists st'. eexists. split.
  { unfold MentionSystem.hideMentionPanel. rewrite bind_reads, Hp.
    erewrite bind_run by (apply panel_in_core_run; exact Hup).
    rewrite !bind_modify. reflexivity. }
  split; [exact Hread |]. split; [exact Hframe |].
  rewrite Hst. cbn [invoked requests set_invoked set_state set_changedPaths].
  split; reflexivity.
Qed.

Lemma round_lt n i steps : 0 < n -> round n i steps < n.
Proof.
  intros Hn. unfold round.
  pose proof (Z.mod_pos_bound (Z.of_nat i + steps) (Z.of_nat n)
                ltac:(lia)). lia.
Qed.

Lemma round_round n i k :
  0 < n -> round n (round n i 1) k = round n i (1 + k).
Proof.
  intros Hn. unfold round. f_equal.
  pose proof (Z.mod_pos_bound (Z.of_nat i + 1) (Z.of_nat n) ltac:(lia)).
  rewrite Z2Nat.id by lia. rewrite Zplus_mod_idemp_l. f_equal. lia.
Qed.

Lemma round_start n i : i < n -> round n i 0 = i.
Proof.
  intros Hi. unfold round. rewrite Z.add_0_r, Z.mod_small by lia.
  apply Nat2Z.id.
Qed.

(** One press of ArrowDown with the panel open. *)
Lemma arrow_down_run p items i :
  MentionSystem.isVisible p = true ->
  MentionSystem.mentionItems p = Some items ->
  only_selected i items -> i < List.length items ->
  exists items',
    MentionSystem.handleKeydown "ArrowDown" p
    = (Ok tt,
       MentionSystem.set_mentionItems (Some items')
         (MentionSystem.set_core
            (record_request PreventDefault (MentionSystem.core p)) p))
    /\ map MentionSystem.item_id items' = map MentionSystem.item_id items
    /\ only_selected (round (List.length items) i 1) items'.
Proof.
  intros Hv Hitems Honly Hi.
  set (p1 := MentionSystem.set_core
               (record_request PreventDefault (MentionSystem.core p)) p).
  destruct (@navigate_run p1 items 1 Hitems) as (items' & j & Hrun & Hids & _ & Hj & Hround).
  { intros ->. inversion Hi. }
  exists items'. split.
  { unfold MentionSystem.handleKeydown. rewrite bind_reads, Hv.
    cbn [negb String.eqb Ascii.eqb Bool.eqb orb].
    erewrite bind_run by (apply panel_in_core_run; reflexivity).
    exact Hrun. }
  split; [exact Hids |].
  rewrite <- (Hround i Honly Hi (or_introl eq_refl)). exact Hj.
Qed.

Lemma ids_length (items items' : list MentionSystem.item_el) :
  map MentionSystem.item_id items' = map MentionSystem.item_id items ->
  List.length items' = List.length items.
Proof.
  intros H. apply (f_equal (@List.length string)) in H.
  rewrite !length_map in H. exact H.
Qed.

(** [k] presses of ArrowDown with the panel open. *)
Lemma arrows_down_run k : forall p items i,
  MentionSystem.isVisible p = true ->
  MentionSystem.mentionItems p = Some items ->
  only_selected i items -> i < List.length items ->
  exists items',
    times k (MentionSystem.handleKeydown "ArrowDown") p
    = (Ok tt,
       MentionSystem.set_mentionItems (Some items')
         (MentionSystem.set_core
            (set_requests
               (requests (MentionSystem.core p) ++ repeat PreventDefault k)
               (MentionSystem.core p)) p))
    /\ map MentionSystem.item_id items' = map MentionSystem.item_id items
    /\ only_selected (round (List.length items) i (Z.of_nat k)) items'.
Proof.
  induction k as [| k IH]; intros p items i Hv Hitems Honly Hi.
  - exists items. split.
    + cbn [times repeat]. unfold ret. f_equal. rewrite app_nil_r.
      destruct p as [c mp mi si sf iv tr cq]; cbn in *. rewrite Hitems.
      destruct c; reflexivity.
    + split; [reflexivity |].
      cbn [Z.of_nat]. rewrite round_start by exact Hi. exact Honly.
  - destruct (arrow_down_run p Hv Hitems Honly Hi)
      as (items1 & Hrun1 & Hids1 & Honly1).
    assert (Hn : 0 < List.length items) by lia.
    destruct (IH (MentionSystem.set_mentionItems (Some items1)
                    (MentionSystem.set_core
                       (record_request PreventDefault (MentionSystem.core p))
                       p))
                items1 (round (List.length items) i 1))
      as (items' & Hrun & Hids & Honly'); auto.
    { rewrite (ids_length _ _ Hids1). apply round_lt. exact Hn. }
    exists items'. split.
    { cbn [times]. erewrite bind_run by exact Hrun1. rewrite Hrun.
      cbn [MentionSystem.core MentionSystem.set_core
           MentionSystem.set_mentionItems requests record_request
           set_requests repeat].
      rewrite <- app_assoc. reflexivity. }
    split; [congruence |].
    rewrite (ids_length _ _ Hids1), round_round in Honly' by exact Hn.
    replace (Z.of_nat (S k)) with (1 + Z.of_nat k)%Z by lia.
    exact Honly'.
Qed.
Lemma ids_length' (items' : list MentionSystem.item_el)
  (l : list MentionSystem.item) :
  map MentionSystem.item_id items' = map MentionSystem.id l ->
  List.length items' = List.length l.
Proof.
  intros H. apply (f_equal (@List.length string)) in H.
  rewrite !length_map in H. exact H.
Qed.

Lemma nth_ids (items : list MentionSystem.item_el) j :
  MentionSystem.item_id
    (nth j items (MentionSystem.mkItemEl EmptyString false))
  = nth j (map MentionSystem.item_id items) EmptyString.
Proof.
  change EmptyString
    with (MentionSystem.item_id (MentionSystem.mkItemEl EmptyString false))
    at 2.
  symmetry. apply map_nth.
Qed.

Lemma nth_item_ids (l : list MentionSystem.item) j first :
  j < List.length l ->
  nth j (map MentionSystem.id l) EmptyString
  = MentionSystem.id (nth j l first).
Proof.
  intros Hj. rewrite (nth_indep _ EmptyString (MentionSystem.id first))
    by (rewrite length_map; exact Hj).
  apply map_nth.
Qed.

(** X21: with the panel open on the suggestions for a query, the first
    one selected, [k] presses of ArrowDown followed by Enter choose the
    suggestion [k] places down, round the list: the subscribers of
    [mention:select] are called with it, then the panel is hidden and
    [ui.showMentionPanel] is false in the state; each key press is kept
    from the editor.  When nothing matches the query, Enter is kept from
    the editor and does nothing else: the panel stays open. *)
Theorem arrows_then_enter_choose_a_suggestion p q :
  MentionSystem.isVisible p = true ->
  MentionSystem.mentionItems p
  = Some (MentionSystem.render (MentionSystem.filterItems q) 0) ->
  (MentionSystem.filterItems q = [] ->
   MentionSystem.handleKeydown "Enter" p
   = (Ok tt,
      MentionSystem.set_core
        (record_request PreventDefault (MentionSystem.core p)) p))
  /\ forall k shown u ps first,
       MentionSystem.mentionPanel p = Some shown ->
       get_prop (state (MentionSystem.core p)) "ui" = VObj u ->
       past_of (state (MentionSystem.core p)) = VArr ps ->
       nth_error (MentionSystem.filterItems q) 0 = Some first ->
       let n := List.length (MentionSystem.filterItems q) in
       let chosen :=
         nth (round n 0 (Z.of_nat k)) (MentionSystem.filterItems q) first in
       exists p' later,
         (times k (MentionSystem.handleKeydown "ArrowDown") ;;
          MentionSystem.handleKeydown "Enter") p
         = (Ok tt, p')
         /\ invoked (MentionSystem.core p')
            = invoked (MentionSystem.core p)
              ++ flat_map
                   (fired (changedPaths (MentionSystem.core p))
                      (MentionSystem.item_value chosen))
                   (subscribed "mention:select" (MentionSystem.core p))
              ++ later
         /\ MentionSystem.isVisible p' = false
         /\ MentionSystem.mentionPanel p' = Some false
         /\ getValueAtPath (state (MentionSystem.core p'))
              "ui.showMentionPanel"
            = VBool false
         /\ requests (MentionSystem.core p')
            = requests (MentionSystem.core p)
              ++ repeat PreventDefault (S k).
Proof.
  intros Hv Hitems. split.
  - intros Hnone. unfold MentionSystem.handleKeydown.
    rewrite bind_reads, Hv.
    cbn [negb String.eqb Ascii.eqb Bool.eqb orb].
    erewrite bind_run by (apply panel_in_core_run; reflexivity).
    unfold MentionSystem.selectCurrentMentionItem. rewrite bind_reads.
    cbn [MentionSystem.mentionItems MentionSystem.set_core].
    rewrite Hitems, Hnone. reflexivity.
  - intros k shown u ps first Hp Hu Hpast Hfirst. cbv zeta.
    set (l := MentionSystem.filterItems q) in *.
    set (n := List.length l).
    assert (Hn : 0 < n).
    { unfold n. destruct l; [discriminate | cbn; lia]. }
    set (j := round n 0 (Z.of_nat k)).
    assert (Hj : j < n) by (apply round_lt; exact Hn).
    destruct (@arrows_down_run k p (MentionSystem.render l 0) 0 Hv Hitems)
      as (items' & Hrun & Hids & Honly).
    { apply render_only_first. }
    { rewrite render_length. exact Hn. }
    rewrite render_length in Honly. fold n in Honly. fold j in Honly.
    rewrite render_ids in Hids.
    pose proof (ids_length' _ _ Hids) as Hlen.
    set (st1 := set_requests
                  (requests (MentionSystem.core p) ++ repeat PreventDefault k)
                  (MentionSystem.core p)) in *.
    set (x := nth j l first).
    assert (Hx : In x l) by (apply nth_In; exact Hj).
    assert (Hid : MentionSystem.item_id
                    (nth j items' (MentionSystem.mkItemEl EmptyString false))
                  = MentionSystem.id x).
    { rewrite nth_ids, Hids. apply nth_item_ids. exact Hj. }
    set (st2 := emitted "mention:select" (MentionSystem.item_value x)
                  (record_request PreventDefault st1)).
    destruct (@hideMentionPanel_run
                (MentionSystem.set_core st2
                   (MentionSystem.set_mentionItems (Some items')
                      (MentionSystem.set_core st1 p)))
                shown u ps Hp Hu Hpast)
      as (st3 & later & Hhide & Hread & _ & Hinv & Hreq).
    eexists. exists later. split.
    { erewrite bind_run by exact Hrun.
      unfold MentionSystem.handleKeydown. rewrite bind_reads.
      cbn [MentionSystem.isVisible MentionSystem.set_mentionItems
           MentionSystem.set_core].
      rewrite Hv.
      cbn [negb String.eqb Ascii.eqb Bool.eqb orb].
      erewrite bind_run by (apply panel_in_core_run; reflexivity).
      unfold MentionSystem.selectCurrentMentionItem. rewrite bind_reads.
      cbn [MentionSystem.mentionItems MentionSystem.set_mentionItems
           MentionSystem.set_core].
      rewrite (find_only_selected Honly) by (rewrite Hlen; exact Hj).
      rewrite Hid. unfold MentionSystem.selectMentionItem.
      rewrite (suggestion_by_id (filterItems_suggestions _ _ Hx)).
      erewrite bind_run by (apply panel_in_core_run; apply emit_run).
      exact Hhide. }
    cbn [MentionSystem.core MentionSystem.isVisible MentionSystem.mentionPanel
         MentionSystem.set_targetRange MentionSystem.set_isVisible
         MentionSystem.set_mentionPanel MentionSystem.set_core].
    split.
    { rewrite Hinv.
      cbn [MentionSystem.core MentionSystem.set_core
           MentionSystem.set_mentionItems].
      unfold st2, emitted, st1.
      cbn [invoked set_invoked record_request set_requests changedPaths].
      rewrite <- app_assoc. reflexivity. }
    split; [reflexivity |]. split; [reflexivity |].
    split; [exact Hread |].
    rewrite Hreq.
    cbn [MentionSystem.core MentionSystem.set_core
         MentionSystem.set_mentionItems].
    unfold st2, emitted, st1.
    cbn [requests set_invoked record_request set_requests].
    rewrite <- app_assoc. f_equal.
    change [PreventDefault] with (repeat PreventDefault 1).
    rewrite <- repeat_app. f_equal. lia.
Qed.

(** The four table suggestions: five times down from the first is the
    second, which Enter chooses. *)
Lemma arrows_then_enter_choose_a_suggestion_witness :
  exists p' chosen later,
    (times 5 (MentionSystem.handleKeydown "ArrowDown") ;;
     MentionSystem.handleKeydown "Enter") (listening_panel "table")
    = (Ok tt, p')
    /\ MentionSystem.id chosen = "table-2x2"
    /\ invoked (MentionSystem.core p')
       = (3, MentionSystem.item_value chosen) :: later
    /\ MentionSystem.isVisible p' = false
    /\ getValueAtPath (state (MentionSystem.core p')) "ui.showMentionPanel"
       = VBool false.
Proof.
  destruct (@arrows_then_enter_choose_a_suggestion
              (listening_panel "table") "table" eq_refl eq_refl)
    as [_ H].
  destruct (H 5 true
              match get_prop (state (StateManager.loaded sample_random)) "ui"
              with VObj u => u | _ => [] end []
              (nth 0 (MentionSystem.filterItems "table")
                 (MentionSystem.mkItem EmptyString MentionSystem.field []
                    EmptyString EmptyString))
              eq_refl eq_refl eq_refl eq_refl)
    as (p' & later & Hrun & Hinv & Hvis & _ & Hshow & _).
  exists p'. eexists. exists later.
  split; [exact Hrun |].
  split; [| split; [exact Hinv | split; [exact Hvis | exact Hshow]]].
  vm_compute. reflexivity.
Defined.

(* ===================================================================== *)
(** ** mention.js: showing and updating the panel *)
(* ===================================================================== *)

Lemma assign_object props k v c' :
  assign (VObj props) k v = Ok c' -> exists props', c' = VObj props'.
Proof. cbn [assign]. intros H. inversion H. eexists. reflexivity. Qed.

Lemma with_member_object props k x :
  exists props', with_member (VObj props) k x = VObj props'.
Proof. eexists. reflexivity. Qed.

(** A write into an object leaves an object. *)
Lemma assignPath_object parts : forall props v c',
  parts <> [] ->
  assignPath (VObj props) parts v = Ok c' -> exists props', c' = VObj props'.
Proof.
  destruct parts as [| part [| p2 rest]]; intros props v c' Hp H;
    [congruence | eapply assign_object; exact H |].
  rewrite assignPath_two in H.
  apply obind_Ok in H. destruct H as (child0 & _ & H).
  apply obind_Ok in H. destruct H as (current1 & H1 & H).
  apply obind_Ok in H. destruct H as (child & _ & H).
  apply obind_Ok in H. destruct H as (child' & _ & H).
  inversion H; subst c'; clear H.
  assert (Hc : exists props1, current1 = VObj props1).
  { destruct (falsy child0).
    - eapply assign_object. exact H1.
    - inversion H1. eexists. reflexivity. }
  destruct Hc as (props1 & ->).
  destruct (is_reference child); eexists; reflexivity.
Qed.

(** A commit below [ui], or beside it, leaves [ui] an object. *)
Lemma update_keeps_ui path v st st' u :
  StateManager.update (VStr path) v st = (Ok tt, st') ->
  get_prop (state st) "ui" = VObj u ->
  split_dot path <> ["ui"] ->
  exists u', get_prop (state st') "ui" = VObj u'.
Proof.
  intros H Hu Hne.
  destruct (update_history _ _ _ H eq_refl)
    as (mid & ps & Hm & _ & _ & _ & Hsame).
  assert (Hui : get_prop (state st') "ui" = get_prop (state mid) "ui")
    by (apply Hsame; discriminate).
  rewrite Hui.
  cbn [mutation] in Hm. apply write_Ok in Hm. destruct Hm as (Ha & _ & _).
  change (state (set_changedPaths [] st)) with (state st) in Ha.
  destruct (split_dot path) as [| k [| p2 rest]] eqn:Es.
  - exfalso. eapply split_dot_nonempty. exact Es.
  - destruct (String.eqb_spec k "ui") as [-> | Hk]; [congruence |].
    destruct (assignPath_sibling _ _ _ Ha Hk eq_refl) as [-> _].
    exists u. exact Hu.
  - destruct (String.eqb_spec k "ui") as [-> | Hk].
    + rewrite assignPath_two in Ha.
      apply obind_Ok in Ha. destruct Ha as (child0 & Hc0 & Ha).
      apply member_Ok in Hc0. destruct Hc0 as [_ ->].
      rewrite Hu in Ha. cbn [falsy obind] in Ha.
      apply obind_Ok in Ha. destruct Ha as (child & Hc & Ha).
      apply member_Ok in Hc. destruct Hc as [_ ->].
      rewrite Hu in Ha.
      apply obind_Ok in Ha. destruct Ha as (child' & Hrec & Ha).
      cbn [is_reference] in Ha. inversion Ha as [E].
      destruct (@assignPath_object (p2 :: rest) u v child'
                  ltac:(discriminate) Hrec) as (u' & ->).
      exists u'.
      apply with_member_same. rewrite Hu. reflexivity.
    + destruct (assignPath_sibling _ _ _ Ha Hk eq_refl) as [-> _].
      exists u. exact Hu.
Qed.

Lemma ui_field_through s u k :
  nullish s = false -> get_prop s "ui" = VObj u ->
  through s ["ui"; k] = true.
Proof.
  intros Hn Hu. rewrite through_two, Hu.
  destruct (get_prop_reference s name_ui) as (props & -> & _);
    [rewrite Hu; reflexivity |].
  reflexivity.
Qed.

Lemma beside_ui_fields k k' :
  k <> k' -> k' <> "length" ->
  split_dot ("ui." ++ k) = ["ui"; k] ->
  split_dot ("ui." ++ k') = ["ui"; k'] ->
  beside ("ui." ++ k) ("ui." ++ k').
Proof.
  intros Hne Hl Hk Hk'. exists ["ui"], k, [], k', [].
  rewrite Hk, Hk'. auto.
Qed.

Lemma filterItems_of_string q :
  MentionSystem.filterItems_of (VStr q) = Ok (MentionSystem.filterItems q).
Proof. destruct q; reflexivity. Qed.

Lemma query_of_string props q :
  lookup "query" props = Some (VStr q) ->
  MentionSystem.query_of (VObj props) = Ok (VStr q).
Proof.
  intros H. unfold MentionSystem.query_of.
  rewrite member_defined by reflexivity. cbn [obind].
  rewrite get_prop_VObj, H. destruct q; reflexivity.
Qed.

Lemma filterAndRenderItems_run p items q :
  MentionSystem.mentionItems p = Some items ->
  MentionSystem.currentQuery p = VStr q ->
  MentionSystem.filterAndRenderItems p
  = (Ok tt,
     MentionSystem.set_mentionItems
       (Some (MentionSystem.render (MentionSystem.filterItems q) 0)) p).
Proof.
  intros Hi Hq. unfold MentionSystem.filterAndRenderItems.
  rewrite bind_reads, Hi, bind_modify, bind_reads.
  cbn [MentionSystem.currentQuery MentionSystem.set_mentionItems].
  rewrite Hq. erewrite bind_lift by apply filterItems_of_string.
  reflexivity.
Qed.

Lemma ui_update_run k v st u ps :
  split_dot ("ui." ++ k) = ["ui"; k] ->
  get_prop (state st) "ui" = VObj u ->
  past_of (state st) = VArr ps ->
  exists st' u',
    StateManager.update (VStr ("ui." ++ k)) v st = (Ok tt, st')
    /\ getValueAtPath (state st') ("ui." ++ k) = v
    /\ (forall q, beside ("ui." ++ k) q -> off_history q = true ->
          getValueAtPath (state st') q = getValueAtPath (state st) q)
    /\ get_prop (state st') "ui" = VObj u'
    /\ past_of (state st') = VArr (capped (ps ++ [serialize (state st)])).
Proof.
  intros Hk Hu Hp.
  assert (Hn : nullish (state st) = false)
    by (eapply past_array_not_nullish; exact Hp).
  destruct (@update_path_run ("ui." ++ k) v st ps)
    as (st' & data & Hup & Hread & Hframe & Hpast & _).
  - rewrite Hk. eapply ui_field_through; eauto.
  - unfold off_history. rewrite Hk. reflexivity.
  - exact Hp.
  - destruct (update_keeps_ui _ _ _ Hup Hu) as (u' & Hu').
    + rewrite Hk. discriminate.
    + exists st', u'. auto.
Qed.

(** X22: [showMentionPanel] with a range and a query shows the panel
    with the suggestions that match the query, the first one selected,
    and commits [ui.showMentionPanel] and [ui.mentionQuery];
    [updateMentionPanel] with a new query lists the matches of the new
    query, the first one selected again, and commits the query.  While
    the panel is not visible, [updateMentionPanel] does nothing. *)
Theorem showMentionPanel_lists_the_matches p :
  (MentionSystem.isVisible p = false ->
   forall data, MentionSystem.updateMentionPanel data p = (Ok tt, p))
  /\ forall shown items u ps range q q',
       MentionSystem.mentionPanel p = Some shown ->
       MentionSystem.mentionItems p = Some items ->
       get_prop (state (MentionSystem.core p)) "ui" = VObj u ->
       past_of (state (MentionSystem.core p)) = VArr ps ->
       exists p1 p2,
         MentionSystem.showMentionPanel
           (VObj [("targetRange", range); ("query", VStr q)]) p
         = (Ok tt, p1)
         /\ MentionSystem.isVisible p1 = true
         /\ MentionSystem.mentionPanel p1 = Some true
         /\ MentionSystem.targetRange p1 = range
         /\ MentionSystem.mentionItems p1
            = Some (MentionSystem.render (MentionSystem.filterItems q) 0)
         /\ getValueAtPath (state (MentionSystem.core p1))
              "ui.showMentionPanel" = VBool true
         /\ getValueAtPath (state (MentionSystem.core p1)) "ui.mentionQuery"
            = VStr q
         /\ MentionSystem.updateMentionPanel (VObj [("query", VStr q')]) p1
            = (Ok tt, p2)
         /\ MentionSystem.isVisible p2 = true
         /\ MentionSystem.mentionItems p2
            = Some (MentionSystem.render (MentionSystem.filterItems q') 0)
         /\ getValueAtPath (state (MentionSystem.core p2))
              "ui.showMentionPanel" = VBool true
         /\ getValueAtPath (state (MentionSystem.core p2)) "ui.mentionQuery"
            = VStr q'.
Proof.
  split.
  - intros Hv data. unfold MentionSystem.updateMentionPanel.
    rewrite !bind_reads, Hv. reflexivity.
  - intros shown items u ps range q q' Hp Hi Hu Hpast.
    destruct (@ui_update_run "showMentionPanel" (VBool true)
                (MentionSystem.core p) u ps eq_refl Hu Hpast)
      as (st1 & u1 & Hup1 & Hread1 & _ & Hu1 & Hpast1).
    destruct (@ui_update_run "mentionQuery" (VStr q) st1 u1 _ eq_refl Hu1
                Hpast1)
      as (st2 & u2 & Hup2 & Hread2 & Hframe2 & Hu2 & Hpast2).
    destruct (@ui_update_run "mentionQuery" (VStr q') st2 u2 _ eq_refl Hu2
                Hpast2)
      as (st3 & u3 & Hup3 & Hread3 & Hframe3 & _).
    assert (Hb : beside "ui.mentionQuery" "ui.showMentionPanel").
    { apply (@beside_ui_fields "mentionQuery" "showMentionPanel");
        try reflexivity; discriminate. }
    set (p1 := MentionSystem.set_isVisible true
                 (MentionSystem.set_mentionPanel (Some true)
                    (MentionSystem.set_mentionItems
                       (Some (MentionSystem.render
                                (MentionSystem.filterItems q) 0))
                       (MentionSystem.set_core st2
                          (MentionSystem.set_currentQuery (VStr q)
                             (MentionSystem.set_targetRange range p)))))).
    assert (Hshow : MentionSystem.showMentionPanel
                      (VObj [("targetRange", range); ("query", VStr q)]) p
                    = (Ok tt, p1)).
    { unfold MentionSystem.showMentionPanel. rewrite bind_reads, Hp.
      erewrite bind_lift by reflexivity.
      rewrite bind_modify.
      erewrite bind_lift by (apply query_of_string; reflexivity).
      rewrite bind_modify.
      erewrite bind_run
        by (apply panel_in_core_run; exact Hup1).
      erewrite bind_run
        by (apply panel_in_core_run; exact Hup2).
      erewrite bind_run
        by (apply (@filterAndRenderItems_run _ items q); [exact Hi | reflexivity]).
      rewrite !bind_modify. reflexivity. }
    assert (Hrest : exists p2,
              MentionSystem.updateMentionPanel (VObj [("query", VStr q')]) p1
              = (Ok tt, p2)
              /\ MentionSystem.isVisible p2 = true
              /\ MentionSystem.mentionItems p2
                 = Some (MentionSystem.render
                           (MentionSystem.filterItems q') 0)
              /\ MentionSystem.core p2 = st3).
    { unfold MentionSystem.updateMentionPanel, p1. rewrite !bind_reads.
      cbn [MentionSystem.isVisible MentionSystem.mentionPanel
           MentionSystem.set_isVisible MentionSystem.set_mentionPanel].
      erewrite bind_lift by (apply query_of_string; reflexivity).
      rewrite bind_modify.
      erewrite bind_run
        by (apply panel_in_core_run; exact Hup3).
      rewrite !bind_reads.
      cbn [MentionSystem.searchInput MentionSystem.searchFocused
           MentionSystem.set_core MentionSystem.set_currentQuery
           MentionSystem.set_isVisible MentionSystem.set_mentionPanel
           MentionSystem.set_mentionItems MentionSystem.set_targetRange].
      destruct (MentionSystem.searchInput p) as [typed |];
        [destruct (MentionSystem.searchFocused p) |].
      - erewrite bind_run by reflexivity.
        erewrite filterAndRenderItems_run by reflexivity.
        eexists. repeat split.
      - rewrite bind_modify.
        erewrite filterAndRenderItems_run by reflexivity.
        eexists. repeat split.
      - erewrite bind_run by reflexivity.
        erewrite filterAndRenderItems_run by reflexivity.
        eexists. repeat split. }
    destruct Hrest as (p2 & Hupd & Hv2 & Hi2 & Hc2).
    exists p1, p2.
    split; [exact Hshow |].
    split; [reflexivity |]. split; [reflexivity |]. split; [reflexivity |].
    split; [reflexivity |].
    unfold p1.
    cbn [MentionSystem.core MentionSystem.set_isVisible
         MentionSystem.set_mentionPanel MentionSystem.set_mentionItems
         MentionSystem.set_core].
    split; [rewrite Hframe2 by (auto; reflexivity); exact Hread1 |].
    split; [exact Hread2 |].
    split; [exact Hupd |]. split; [exact Hv2 |]. split; [exact Hi2 |].
    rewrite Hc2.
    split; [| exact Hread3].
    rewrite Hframe3, Hframe2 by (auto; reflexivity). exact Hread1.
Qed.

(** The panel is shown for an empty query and the query becomes [col]:
    all suggestions, then the three column layouts. *)
Lemma showMentionPanel_lists_the_matches_witness :
  exists p1 p2,
    MentionSystem.showMentionPanel
      (VObj [("targetRange", TextEditor.range_value (TextEditor.mkRange 0 1 1));
             ("query", VStr EmptyString)])
      (MentionSystem.set_isVisible false (open_panel "table"))
    = (Ok tt, p1)
    /\ option_map (map MentionSystem.item_id) (MentionSystem.mentionItems p1)
       = Some (map MentionSystem.id MentionSystem.suggestions)
    /\ MentionSystem.updateMentionPanel (VObj [("query", VStr "col")]) p1
       = (Ok tt, p2)
    /\ option_map (map MentionSystem.item_id) (MentionSystem.mentionItems p2)
       = Some ["cols-2"; "cols-3"; "cols-4"]
    /\ getValueAtPath (state (MentionSystem.core p2)) "ui.mentionQuery"
       = VStr "col".
Proof.
  destruct (proj2 (@showMentionPanel_lists_the_matches
                     (MentionSystem.set_isVisible false (open_panel "table")))
              true
              (MentionSystem.render (MentionSystem.filterItems "table") 0)
              match get_prop (state (StateManager.loaded sample_random)) "ui"
              with VObj u => u | _ => [] end []
              (TextEditor.range_value (TextEditor.mkRange 0 1 1))
              EmptyString "col" eq_refl eq_refl eq_refl eq_refl)
    as (p1 & p2 & H1 & _ & _ & _ & Hi1 & _ & _ & H2 & _ & Hi2 & _ & Hq).
  exists p1, p2. split; [exact H1 |].
  split; [rewrite Hi1; reflexivity |].
  split; [exact H2 |].
  split; [rewrite Hi2; reflexivity | exact Hq].
Defined.
Lemma occurrences_without c sub s b :
  without c s = true ->
  occurrences (String c sub) (s ++ b)%string = occurrences (String c sub) b.
Proof.
  induction s as [| a s IH]; [reflexivity |].
  cbn [without]. intros H. apply andb_true_iff in H. destruct H as [Ha Hs].
  change (String a s ++ b)%string with (String a (s ++ b)%string).
  cbn [occurrences prefix].
  destruct (ascii_dec c a) as [-> | _].
  - rewrite Ascii.eqb_refl in Ha. discriminate.
  - rewrite (IH Hs). reflexivity.
Qed.

Lemma uint_without_lt u :
  without "<" (NilEmpty.string_of_uint u) = true.
Proof.
  induction u; cbn [NilEmpty.string_of_uint without]; try exact IHu;
    reflexivity.
Qed.

Lemma string_of_Z_without_lt z : without "<" (string_of_Z z) = true.
Proof.
  unfold string_of_Z, NilEmpty.string_of_int.
  destruct (Z.to_int z); [| cbn [without]]; apply uint_without_lt.
Qed.

Lemma occurrences_number sub z b :
  occurrences (String "<" sub) (string_of_Z z ++ b)%string
  = occurrences (String "<" sub) b.
Proof. apply occurrences_without, string_of_Z_without_lt. Qed.

Lemma occurrences_appended sub k piece :
  (forall j b, occurrences sub (piece j ++ b)%string = k + occurrences sub b) ->
  forall count i b,
    occurrences sub (TextEditor.appended count i piece ++ b)%string
    = count * k + occurrences sub b.
Proof.
  intros Hpiece count. induction count as [| count IH]; intros i b.
  - reflexivity.
  - cbn [TextEditor.appended]. rewrite append_assoc, Hpiece, IH.
    cbn [Nat.mul]. lia.
Qed.
Lemma prefix_empty s : prefix EmptyString s = true.
Proof. destruct s; reflexivity. Qed.

(** Counting through the text of a markup: the pieces are put in a row,
    a number holds no [<], the rest is read off. *)
Ltac count_markup :=
  repeat rewrite append_assoc;
  repeat first
    [ rewrite occurrences_number
    | rewrite prefix_empty
    | progress cbn -[string_of_Z Z.add Nat.mul TextEditor.loop
                     TextEditor.appended TextEditor.body_cell
                     TextEditor.header_cell TextEditor.body_row
                     TextEditor.column] ].

Lemma occurrences_loop sub k piece n b :
  (forall j b, occurrences sub (piece j ++ b)%string = k + occurrences sub b) ->
  occurrences sub (TextEditor.loop n piece ++ b)%string
  = Z.to_nat n * k + occurrences sub b.
Proof. intros H. apply occurrences_appended. exact H. Qed.

Lemma header_cell_th c b :
  occurrences "<th " (TextEditor.header_cell c ++ b)%string
  = 1 + occurrences "<th " b.
Proof. unfold TextEditor.header_cell. count_markup. reflexivity. Qed.

Lemma header_cell_td c b :
  occurrences "<td " (TextEditor.header_cell c ++ b)%string
  = 0 + occurrences "<td " b.
Proof. unfold TextEditor.header_cell. count_markup. reflexivity. Qed.

Lemma header_cell_tr c b :
  occurrences "<tr>" (TextEditor.header_cell c ++ b)%string
  = 0 + occurrences "<tr>" b.
Proof. unfold TextEditor.header_cell. count_markup. reflexivity. Qed.

Lemma body_cell_th r c b :
  occurrences "<th " (TextEditor.body_cell r c ++ b)%string
  = 0 + occurrences "<th " b.
Proof. unfold TextEditor.body_cell. count_markup. reflexivity. Qed.

Lemma body_cell_td r c b :
  occurrences "<td " (TextEditor.body_cell r c ++ b)%string
  = 1 + occurrences "<td " b.
Proof. unfold TextEditor.body_cell. count_markup. reflexivity. Qed.

Lemma body_cell_tr r c b :
  occurrences "<tr>" (TextEditor.body_cell r c ++ b)%string
  = 0 + occurrences "<tr>" b.
Proof. unfold TextEditor.body_cell. count_markup. reflexivity. Qed.

Lemma body_row_th cols r b :
  occurrences "<th " (TextEditor.body_row cols r ++ b)%string
  = 0 + occurrences "<th " b.
Proof.
  unfold TextEditor.body_row. count_markup.
  rewrite (@occurrences_loop _ (0) _ _ _ (body_cell_th _)).
  count_markup. lia.
Qed.

Lemma body_row_td cols r b :
  occurrences "<td " (TextEditor.body_row cols r ++ b)%string
  = Z.to_nat cols + occurrences "<td " b.
Proof.
  unfold TextEditor.body_row. count_markup.
  rewrite (@occurrences_loop _ (1) _ _ _ (body_cell_td _)).
  count_markup. lia.
Qed.

Lemma body_row_tr cols r b :
  occurrences "<tr>" (TextEditor.body_row cols r ++ b)%string
  = 1 + occurrences "<tr>" b.
Proof.
  unfold TextEditor.body_row. count_markup.
  rewrite (@occurrences_loop _ (0) _ _ _ (body_cell_tr _)).
  count_markup. lia.
Qed.

Lemma table_html_th rows cols :
  occurrences "<th " (TextEditor.table_html rows cols) = Z.to_nat cols.
Proof.
  unfold TextEditor.table_html. count_markup.
  rewrite (@occurrences_loop _ (1) _ _ _ (header_cell_th)).
  count_markup.
  rewrite (@occurrences_loop _ (0) _ _ _ (body_row_th _)).
  count_markup. lia.
Qed.

Lemma table_html_td rows cols :
  occurrences "<td " (TextEditor.table_html rows cols)
  = Z.to_nat rows * Z.to_nat cols.
Proof.
  unfold TextEditor.table_html. count_markup.
  rewrite (@occurrences_loop _ (0) _ _ _ (header_cell_td)).
  count_markup.
  rewrite (@occurrences_loop _ (Z.to_nat cols) _ _ _ (body_row_td _)).
  count_markup. lia.
Qed.

Lemma table_html_tr rows cols :
  occurrences "<tr>" (TextEditor.table_html rows cols) = S (Z.to_nat rows).
Proof.
  unfold TextEditor.table_html. count_markup.
  rewrite (@occurrences_loop _ (0) _ _ _ (header_cell_tr)).
  count_markup.
  rewrite (@occurrences_loop _ (1) _ _ _ (body_row_tr _)).
  count_markup. lia.
Qed.

Ltac spell_column_tag :=
  let t := eval vm_compute in column_tag in change column_tag with t in *.

Lemma column_one i b :
  occurrences column_tag (TextEditor.column i ++ b)%string
  = 1 + occurrences column_tag b.
Proof.
  unfold TextEditor.column. spell_column_tag. count_markup. reflexivity.
Qed.

Lemma columns_html_columns count :
  occurrences column_tag (TextEditor.columns_html count) = Z.to_nat count.
Proof.
  pose proof column_one as Hone.
  unfold TextEditor.columns_html. spell_column_tag. count_markup.
  rewrite (@occurrences_loop _ 1 _ _ _ Hone).
  count_markup. lia.
Qed.
(* ===================================================================== *)
(** ** The text editor: headings, tables and columns *)
(* ===================================================================== *)

(** X23 ([insertTable]).  Without an active editor [insertTable] does
    nothing at all; with one it hands [insertContent] the markup of a
    grid: one header row of [cols] header cells, then [rows] rows of
    [cols] cells each, so [rows + 1] rows and [rows * cols] body cells.
    A count that is not positive gives none. *)
Theorem insertTable_builds_a_grid sanitizeHtml rows cols pg :
  TextEditor.insertTable sanitizeHtml rows cols pg
  = match TextEditor.activeEditor pg with
    | None => (Ok tt, pg)
    | Some _ =>
        TextEditor.insertContent sanitizeHtml
          (TextEditor.table_html rows cols) pg
    end
  /\ occurrences "<tr>" (TextEditor.table_html rows cols)
     = S (Z.to_nat rows)
  /\ occurrences "<th " (TextEditor.table_html rows cols) = Z.to_nat cols
  /\ occurrences "<td " (TextEditor.table_html rows cols)
     = Z.to_nat rows * Z.to_nat cols.
Proof.
  split; [| split; [apply table_html_tr |
                    split; [apply table_html_th | apply table_html_td]]].
  unfold TextEditor.insertTable. rewrite bind_reads.
  destruct (TextEditor.activeEditor pg); reflexivity.
Qed.

(** X24 ([insertColumns]).  Without an active editor [insertColumns]
    does nothing at all; with one it hands [insertContent] a layout that
    holds exactly [count] columns, none when [count] is not positive. *)
Theorem insertColumns_builds_the_columns sanitizeHtml count pg :
  TextEditor.insertColumns sanitizeHtml count pg
  = match TextEditor.activeEditor pg with
    | None => (Ok tt, pg)
    | Some _ =>
        TextEditor.insertContent sanitizeHtml
          (TextEditor.columns_html count) pg
    end
  /\ occurrences column_tag (TextEditor.columns_html count)
     = Z.to_nat count.
Proof.
  split; [| apply columns_html_columns].
  unfold TextEditor.insertColumns. rewrite bind_reads.
  destruct (TextEditor.activeEditor pg); reflexivity.
Qed.

(** X25 (the handler of [mention:select]).  A chosen suggestion is
    inserted with its own parameters: a heading of its level, a table
    of its rows and columns, a layout of its count.  The suggestion of
    type [field] inserts nothing and leaves the page as it is. *)
Theorem mention_select_inserts_the_suggestion sanitizeHtml x pg :
  TextEditor.handleMentionSelect sanitizeHtml (MentionSystem.item_value x) pg
  = match MentionSystem.type x with
    | MentionSystem.heading level =>
        TextEditor.insertHeading sanitizeHtml level pg
    | MentionSystem.table rows cols =>
        TextEditor.insertTable sanitizeHtml rows cols pg
    | MentionSystem.columns count =>
        TextEditor.insertColumns sanitizeHtml count pg
    | MentionSystem.field => (Ok tt, pg)
    end.
Proof.
  destruct x as [i t ic l d]. destruct t; reflexivity.
Qed.
(* ===================================================================== *)
(** ** navigation.js: the tabs *)
(* ===================================================================== *)

(** X26 ([handleTabChange], [updateActiveTab]).  A click on a tab
    commits its name as [ui.activeTab]; when the tabs are then brought
    up to date, they are the same tabs, and the active ones are exactly
    those that carry the name of the clicked tab: every other tab has
    lost the mark, and a name that no tab carries leaves none marked. *)
Theorem tab_click_marks_that_tab_only b name u ps :
  get_prop (state (Navigation.core b)) "ui" = VObj u ->
  past_of (state (Navigation.core b)) = VArr ps ->
  exists b1 b2,
    Navigation.handleTabChange name b = (Ok tt, b1)
    /\ Navigation.updateActiveTab b1 = (Ok tt, b2)
    /\ getValueAtPath (state (Navigation.core b1)) "ui.activeTab" = VStr name
    /\ Navigation.navTabs b1 = Navigation.navTabs b
    /\ map Navigation.tab (Navigation.navTabs b2)
       = map Navigation.tab (Navigation.navTabs b)
    /\ (forall t, In t (Navigation.navTabs b2) ->
          Navigation.active t = true <-> Navigation.tab t = name)
    /\ Navigation.core b2 = Navigation.core b1.
Proof.
  intros Hu Hp.
  destruct (@ui_update_run "activeTab" (VStr name) (Navigation.core b) u ps
              eq_refl Hu Hp) as (st' & u' & Hup & Hread & _).
  exists (Navigation.set_core st' b).
  eexists. split.
  { unfold Navigation.handleTabChange. apply nav_in_core_run. exact Hup. }
  split.
  { unfold Navigation.updateActiveTab.
    erewrite bind_run
      by (apply nav_in_core_run; apply get_run;
          [exact Hread | discriminate]).
    reflexivity. }
  split; [exact Hread |]. split; [reflexivity |].
  cbn [Navigation.navTabs Navigation.set_navTabs Navigation.set_core
       Navigation.core serialize].
  split.
  { rewrite map_map. apply map_ext. reflexivity. }
  split; [| reflexivity].
  intros t Ht. apply in_map_iff in Ht. destruct Ht as (t0 & <- & _).
  cbn [Navigation.active Navigation.tab strict_eq_str].
  rewrite String.eqb_eq. split; intros H; symmetry; exact H.
Qed.

(** A click on [preview] while [create] is marked. *)
Lemma tab_click_marks_that_tab_only_witness :
  let b := Navigation.mkBar (StateManager.loaded sample_random) None
             [Navigation.mkTab "create" true;
              Navigation.mkTab "preview" false;
              Navigation.mkTab "settings" false] in
  exists b1 b2,
    Navigation.handleTabChange "preview" b = (Ok tt, b1)
    /\ Navigation.updateActiveTab b1 = (Ok tt, b2)
    /\ Navigation.navTabs b2
       = [Navigation.mkTab "create" false;
          Navigation.mkTab "preview" true;
          Navigation.mkTab "settings" false].
Proof.
  cbv zeta.
  destruct (@tab_click_marks_that_tab_only
              (Navigation.mkBar (StateManager.loaded sample_random) None
                 [Navigation.mkTab "create" true;
                  Navigation.mkTab "preview" false;
                  Navigation.mkTab "settings" false])
              "preview"
              match get_prop (state (StateManager.loaded sample_random)) "ui"
              with VObj u => u | _ => [] end [] eq_refl eq_refl)
    as (b1 & b2 & H1 & H2 & _).
  exists b1, b2. split; [exact H1 |]. split; [exact H2 |].
  vm_compute in H1. injection H1 as <-.
  vm_compute in H2. injection H2 as <-. reflexivity.
Defined.
(* ===================================================================== *)
(** ** The text editor: typing after the slash *)
(* ===================================================================== *)

Lemma substring_skip front n s :
  substring (String.length front) n (front ++ s)%string = substring 0 n s.
Proof.
  induction front as [| c front IH]; [reflexivity |].
  cbn [String.length append substring]. exact IH.
Qed.

Lemma substring_front q rest :
  substring 0 (String.length q) (q ++ rest)%string = q.
Proof.
  induction q as [| c q IH].
  - destruct rest; reflexivity.
  - cbn [String.length append substring]. rewrite IH. reflexivity.
Qed.

Lemma prefix_first c q s :
  without c s = true -> prefix (String c q) s = false.
Proof.
  destruct s as [| a s]; [reflexivity |].
  cbn [without prefix]. intros H. apply andb_true_iff in H.
  destruct H as [Ha _].
  destruct (ascii_dec c a) as [-> | _]; [| reflexivity].
  rewrite Ascii.eqb_refl in Ha. discriminate.
Qed.

Lemma includes_without c q s :
  without c s = true -> MentionSystem.includes s (String c q) = false.
Proof.
  induction s as [| a s IH]; intros H.
  - reflexivity.
  - cbn [MentionSystem.includes]. rewrite (@prefix_first c q _ H).
    cbn [without] in H. apply andb_true_iff in H. destruct H as [_ Hs].
    apply IH. exact Hs.
Qed.

Lemma filter_without c q (l : list MentionSystem.item) :
  forallb (fun x =>
             without c (MentionSystem.toLowerCase (MentionSystem.label x))
             && without c
                  (MentionSystem.toLowerCase (MentionSystem.description x)))
          l = true ->
  filter (fun item =>
            MentionSystem.includes
              (MentionSystem.toLowerCase (MentionSystem.label item))
              (String c q)
            || MentionSystem.includes
                 (MentionSystem.toLowerCase (MentionSystem.description item))
                 (String c q)) l = [].
Proof.
  induction l as [| x l IH]; [reflexivity |].
  cbn [forallb filter]. intros H.
  apply andb_true_iff in H. destruct H as [Hx Hl].
  apply andb_true_iff in Hx. destruct Hx as [Hlabel Hdescr].
  rewrite (@includes_without c q _ Hlabel), (@includes_without c q _ Hdescr).
  apply IH. exact Hl.
Qed.

(** No suggestion has a slash in its label or in its description. *)
Lemma filterItems_slash typed :
  MentionSystem.filterItems (String "/" typed) = [].
Proof.
  unfold MentionSystem.filterItems.
  cbn [MentionSystem.toLowerCase].
  change (MentionSystem.lower_char "/") with "/"%char.
  apply filter_without. vm_compute. reflexivity.
Qed.
(** X27 ([handleEditorInput]).  While a slash session is open, an input
    moves the query along with the caret.  With the caret at or before
    the place where the slash was keyed, the session is closed.  With
    the caret behind it, the query is the text from that place on, so
    when the slash stands there the query holds the slash itself,
    followed by what was typed; a space or a line feed in it closes the
    session, otherwise the query is announced and kept.  No suggestion
    has a slash in its label or description, so such a query matches
    none of the suggestions. *)
Theorem handleEditorInput_query_holds_the_slash pg t cur editor el :
  TextEditor.mentionTriggerPos pg = Some t ->
  TextEditor.selection pg = Some cur ->
  TextEditor.activeEditor pg = Some editor ->
  TextEditor.element editor pg = Some el ->
  let hidden :=
    TextEditor.set_mentionTriggerPos None
      (TextEditor.set_core
         (emitted "mention:hide" VUndef (TextEditor.core pg)) pg) in
  (TextEditor.startOffset cur
   <= TextEditor.startOffset (TextEditor.trigger_range t) ->
   TextEditor.handleEditorInput pg = (Ok tt, hidden))
  /\ forall front typed rest,
       TextEditor.content el = (front ++ "/" ++ typed ++ rest)%string ->
       TextEditor.startOffset (TextEditor.trigger_range t)
       = String.length front ->
       TextEditor.startOffset cur
       = String.length front + 1 + String.length typed ->
       let query := ("/" ++ typed)%string in
       MentionSystem.filterItems query = []
       /\ TextEditor.handleEditorInput pg
          = if (MentionSystem.includes typed " "
                || MentionSystem.includes typed TextEditor.line_feed)%bool
            then (Ok tt, hidden)
            else (Ok tt,
                  TextEditor.set_mentionTriggerPos
                    (Some (TextEditor.mkTrigger
                             (TextEditor.trigger_range t) query))
                    (TextEditor.set_core
                       (emitted "mention:update"
                          (VObj [("query", VStr query)])
                          (TextEditor.core pg)) pg)).
Proof.
  intros Ht Hsel Ha He. cbv zeta.
  assert (Hstart : TextEditor.handleEditorInput pg
          = (if (TextEditor.startOffset (TextEditor.trigger_range t)
                 <? TextEditor.startOffset cur)%nat then
               let query :=
                 substring
                   (TextEditor.startOffset (TextEditor.trigger_range t))
                   (TextEditor.startOffset cur
                    - TextEditor.startOffset (TextEditor.trigger_range t))
                   (TextEditor.content el) in
               if (MentionSystem.includes query " "
                   || MentionSystem.includes query TextEditor.line_feed)%bool
               then
                 TextEditor.in_core (EventSystem.emit "mention:hide" VUndef) ;;
                 modify (TextEditor.set_mentionTriggerPos None)
               else
                 TextEditor.in_core
                   (EventSystem.emit "mention:update"
                      (VObj [("query", VStr query)])) ;;
                 modify (TextEditor.set_mentionTriggerPos
                           (Some (TextEditor.mkTrigger
                                    (TextEditor.trigger_range t) query)))
             else
               TextEditor.in_core (EventSystem.emit "mention:hide" VUndef) ;;
               modify (TextEditor.set_mentionTriggerPos None)) pg).
  { unfold TextEditor.handleEditorInput.
    rewrite bind_reads, Ht, bind_reads, Hsel, bind_reads, Ha.
    erewrite bind_run by (apply attached_run; exact He). reflexivity. }
  assert (Hhide :
    (TextEditor.in_core (EventSystem.emit "mention:hide" VUndef) ;;
     modify (TextEditor.set_mentionTriggerPos None)) pg
    = (Ok tt,
       TextEditor.set_mentionTriggerPos None
         (TextEditor.set_core
            (emitted "mention:hide" VUndef (TextEditor.core pg)) pg))).
  { erewrite bind_run by (apply in_core_run; apply emit_run). reflexivity. }
  split.
  - intros Hle. rewrite Hstart. cbv zeta.
    replace (_ <? _)%nat with false by (symmetry; apply Nat.ltb_ge; exact Hle).
    exact Hhide.
  - intros front typed rest Hc Hto Hco.
    split; [apply filterItems_slash |].
    rewrite Hstart. cbv zeta.
    replace (_ <? _)%nat with true by (symmetry; apply Nat.ltb_lt; lia).
    rewrite Hc, Hto, Hco, substring_skip.
    replace (String.length front + 1 + String.length typed
             - String.length front)
      with (String.length ("/" ++ typed)%string)
      by (cbn [append String.length]; lia).
    rewrite <- append_assoc, substring_front.
    change (MentionSystem.includes ("/" ++ typed)%string " ")
      with (MentionSystem.includes typed " ").
    change (MentionSystem.includes ("/" ++ typed)%string
              TextEditor.line_feed)
      with (MentionSystem.includes typed TextEditor.line_feed).
    destruct (MentionSystem.includes typed " "
              || MentionSystem.includes typed TextEditor.line_feed)%bool.
    + exact Hhide.
    + erewrite bind_run by (apply in_core_run; apply emit_run). reflexivity.
Qed.

(** The editor holds [Dear /tab], the slash was keyed at offset 5 and
    the caret is behind [tab]: the query is [/tab], which matches no
    suggestion, where [tab] matches the four tables. *)
Lemma handleEditorInput_query_holds_the_slash_witness :
  let session := TextEditor.mkTrigger (TextEditor.mkRange 0 5 5) EmptyString in
  let pg := editing sample_random "Dear /tab" 9 (Some session) in
  exists pg',
    TextEditor.handleEditorInput pg = (Ok tt, pg')
    /\ TextEditor.mentionTriggerPos pg'
       = Some (TextEditor.mkTrigger (TextEditor.mkRange 0 5 5) "/tab")
    /\ MentionSystem.filterItems "/tab" = []
    /\ List.length (MentionSystem.filterItems "tab") = 4.
Proof.
  cbv zeta.
  destruct (@handleEditorInput_query_holds_the_slash
              (editing sample_random "Dear /tab" 9
                 (Some (TextEditor.mkTrigger (TextEditor.mkRange 0 5 5)
                          EmptyString)))
              (TextEditor.mkTrigger (TextEditor.mkRange 0 5 5) EmptyString)
              (TextEditor.mkRange 0 9 9) 0
              (TextEditor.mkBlock 0 "block-z9y8x7w6v" "Dear /tab")
              eq_refl eq_refl eq_refl eq_refl) as [_ H].
  destruct (H "Dear " "tab" EmptyString eq_refl eq_refl eq_refl)
    as [Hnone Hrun].
  eexists. split; [exact Hrun |].
  split; [reflexivity |]. split; [exact Hnone | reflexivity].
Defined.
(* ===================================================================== *)
(** ** The text editor: adding and deleting blocks *)
(* ===================================================================== *)

Lemma split_dot_blocks_path P :
  split_dot (blocks_path P)
  = ["document"; "pages"; TextEditor.index_key P; "blocks"].
Proof.
  unfold blocks_path.
  change ("document.pages." ++ TextEditor.index_key P ++ ".blocks")%string
    with ("document"
          ++ String dot ("pages"
          ++ String dot (TextEditor.index_key P
          ++ String dot "blocks")))%string.
  rewrite !split_dot_app, split_dot_index_key. reflexivity.
Qed.

Lemma page_there s pages P :
  getValueAtPath s "document.pages" = VArr pages ->
  forallb is_page pages = true ->
  P < List.length pages ->
  is_index P ->
  exists props dprops pprops,
    s = VObj props
    /\ get_prop s "document" = VObj dprops
    /\ get_prop (VObj dprops) "pages" = VArr pages
    /\ get_prop (VArr pages) (TextEditor.index_key P) = VObj pprops
    /\ get_prop (VObj pprops) "blocks"
       = VArr (blocks_of (nth P pages VUndef))
    /\ nth P pages VUndef = VObj pprops.
Proof.
  intros H Hs HP HiP.
  destruct (pages_shape _ H) as (props & dprops & -> & Hd & Hp).
  pose proof (forallb_nth _ _ Hs HP) as Hpage.
  destruct (is_page_shape _ Hpage)
    as (pprops & pid & blocks & Ep & _ & Hb & Hbs).
  assert (Hblocks : blocks_of (nth P pages VUndef) = blocks).
  { unfold blocks_of. rewrite Ep, get_prop_VObj, Hb. reflexivity. }
  rewrite Hblocks.
  exists props, dprops, pprops.
  rewrite !get_prop_index by assumption.
  rewrite !get_prop_VObj, Hd, Hp, Hb. auto 10.
Qed.

Lemma blocks_path_through s pages P :
  getValueAtPath s "document.pages" = VArr pages ->
  forallb is_page pages = true ->
  P < List.length pages ->
  is_index P ->
  through s (split_dot (blocks_path P)) = true.
Proof.
  intros H Hs HP HiP.
  destruct (page_there _ H Hs HP HiP)
    as (props & dprops & pprops & -> & H1 & H2 & H3 & _).
  rewrite split_dot_blocks_path. rewrite !through_two.
  rewrite H1, H2, H3. reflexivity.
Qed.

Lemma blocks_at_run pages P st :
  forallb is_page pages = true ->
  P < List.length pages ->
  TextEditor.blocks_at (VArr pages) P st
  = (Ok (blocks_of (nth P pages VUndef)), st).
Proof.
  intros Hs HP. unfold TextEditor.blocks_at.
  pose proof (forallb_nth _ _ Hs HP) as Hpage.
  destruct (is_page_shape _ Hpage)
    as (pprops & pid & blocks & Ep & _ & Hb & Hbs).
  erewrite bind_lift by reflexivity.
  rewrite Ep.
  erewrite bind_lift by (apply member_defined; reflexivity).
  rewrite get_prop_VObj, Hb. unfold blocks_of.
  rewrite get_prop_VObj, Hb. reflexivity.
Qed.
(** [addBlockAfter] up to the look-up in the state: the new block is in
    the tree, the caret is in it. *)
Lemma addBlockAfter_start id pg block :
  TextEditor.querySelector id pg = Some block ->
  let n := TextEditor.nodes pg in
  let newId := ("block" ++ "-"
                ++ entropy (TextEditor.core pg) (draws (TextEditor.core pg)))%string in
  let st1 := record_request (Focus n)
               (set_draws (S (draws (TextEditor.core pg))) (TextEditor.core pg)) in
  let pg1 :=
    TextEditor.set_selection (Some (TextEditor.mkRange n 0 0))
      (TextEditor.set_core st1
         (TextEditor.insert_after (TextEditor.node block)
            (TextEditor.mkBlock n newId EmptyString)
            (TextEditor.set_nodes (S n) pg))) in
  TextEditor.addBlockAfter id pg
  = (found <- TextEditor.in_core (TextEditor.locate id) ;;
     match snd found with
     | Some (pageIndex, blockIndex) =>
         blocks <- TextEditor.in_core
                     (TextEditor.blocks_at (fst found) pageIndex) ;;
         TextEditor.in_core
           (StateManager.update
              (VStr (blocks_path pageIndex))
              (VArr (insert_at (blockIndex + 1) (empty_block newId) blocks)))
     | None => ret tt
     end) pg1.
Proof.
  intros Hq. cbv zeta. unfold TextEditor.addBlockAfter.
  rewrite bind_reads, Hq.
  erewrite bind_run by (apply in_core_run; apply generateId_run).
  rewrite bind_reads, !bind_modify.
  erewrite bind_run by (apply in_core_run; reflexivity).
  rewrite bind_modify. reflexivity.
Qed.
Lemma index_below n P :
  (N.of_nat n <= 4294967295)%N -> P < n -> is_index P.
Proof. unfold is_index. lia. Qed.

Lemma index_key_injective P P' :
  is_index P -> is_index P' ->
  TextEditor.index_key P = TextEditor.index_key P' -> P = P'.
Proof.
  unfold TextEditor.index_key. intros HP HP' E.
  pose proof (index_of_key_of_index HP) as H.
  rewrite E, (index_of_key_of_index HP') in H.
  inversion H. lia.
Qed.

Lemma index_key_not_length P : TextEditor.index_key P <> "length".
Proof.
  unfold TextEditor.index_key, key_of_index. intros E.
  destruct (N.to_uint (N.of_nat P)); cbn in E; discriminate.
Qed.

Lemma beside_blocks_paths P P' :
  is_index P -> is_index P' -> P' <> P ->
  beside (blocks_path P) (blocks_path P').
Proof.
  intros HP HP' Hne.
  exists ["document"; "pages"], (TextEditor.index_key P), ["blocks"],
    (TextEditor.index_key P'), ["blocks"].
  rewrite !split_dot_blocks_path.
  split; [reflexivity |]. split; [reflexivity |].
  split; [| apply index_key_not_length].
  intros E. apply Hne. symmetry. apply (index_key_injective HP HP' E).
Qed.

Lemma blocks_path_reads s pages P :
  getValueAtPath s "document.pages" = VArr pages ->
  forallb is_page pages = true ->
  P < List.length pages ->
  is_index P ->
  getValueAtPath s (blocks_path P) = VArr (blocks_of (nth P pages VUndef)).
Proof.
  intros H Hs HP HiP.
  destruct (page_there _ H Hs HP HiP)
    as (props & dprops & pprops & -> & H1 & H2 & H3 & H4 & _).
  unfold getValueAtPath. rewrite split_dot_blocks_path.
  rewrite !walk_cons by reflexivity.
  rewrite H1, walk_cons by reflexivity.
  rewrite H2, walk_cons by reflexivity.
  rewrite H3, walk_cons by reflexivity.
  rewrite H4. reflexivity.
Qed.

Lemma map_insert_at {A B} (f : A -> B) i x l :
  map f (firstn i l ++ x :: skipn i l)
  = firstn i (map f l) ++ f x :: skipn i (map f l).
Proof. rewrite map_app, firstn_map, skipn_map. reflexivity. Qed.

Lemma ids_at_frame s s' P P' :
  is_index P -> is_index P' -> P' <> P ->
  (forall q, beside (blocks_path P) q -> off_history q = true ->
     getValueAtPath s' q = getValueAtPath s q) ->
  ids_at s' P' = ids_at s P'.
Proof.
  intros HP HP' Hne Hframe. unfold ids_at.
  rewrite Hframe; [reflexivity | apply beside_blocks_paths; assumption |].
  unfold off_history. rewrite split_dot_blocks_path. reflexivity.
Qed.

Lemma map_remove_at (f : value -> value) i l :
  map f (remove_at i l) = remove_at i (map f l).
Proof.
  unfold remove_at. rewrite map_app, firstn_map, skipn_map. reflexivity.
Qed.

Lemma id_at_located pages id P B :
  located pages id = Some (P, B) ->
  nth_error (map id_of (blocks_of (nth P pages VUndef))) B = Some (VStr id).
Proof.
  intros H. destruct (located_sound _ _ H) as (_ & HB & Hid).
  rewrite nth_error_map.
  rewrite (nth_error_nth' _ VUndef HB). cbn. rewrite Hid. reflexivity.
Qed.

(** X28 ([addBlockAfter]).  For a block that is not in the document
    tree nothing happens.  For one that is, a new identifier is drawn;
    when the state has a block of the given identifier, an empty text
    block with the new identifier is put right behind its last
    occurrence in the state, the blocks of that page keep their
    identifiers and their order, and so do the blocks of every other
    page; when the state has none, the identifiers of the blocks stay
    as they are on every page.  (Identifiers are taken to be made of
    letters, digits, hyphens and underscores, as the drawn ones are.
    What the handlers of focus and blur write when the caret moves, the
    content of a block and the active element, is not followed here: it
    leaves the identifiers alone.) *)
Theorem addBlockAfter_adds_to_the_state id pg pages ps :
  plain_id id = true ->
  getValueAtPath (state (TextEditor.core pg)) "document.pages" = VArr pages ->
  forallb json_clean pages = true ->
  forallb is_page pages = true ->
  (N.of_nat (List.length pages) <= 4294967295)%N ->
  past_of (state (TextEditor.core pg)) = VArr ps ->
  (TextEditor.querySelector id pg = None ->
   TextEditor.addBlockAfter id pg = (Ok tt, pg))
  /\ forall block,
       TextEditor.querySelector id pg = Some block ->
       let newId :=
         ("block-" ++ entropy (TextEditor.core pg)
                        (draws (TextEditor.core pg)))%string in
       exists pg',
         TextEditor.addBlockAfter id pg = (Ok tt, pg')
         /\ (located pages id = None ->
             forall P', P' < List.length pages ->
               ids_at (state (TextEditor.core pg')) P'
               = ids_at (state (TextEditor.core pg)) P')
         /\ forall P B,
              located pages id = Some (P, B) ->
              (exists kept,
                  getValueAtPath (state (TextEditor.core pg')) (blocks_path P)
                  = VArr (insert_at (B + 1) (empty_block newId) kept)
                  /\ map id_of kept
                     = ids_at (state (TextEditor.core pg)) P)
              /\ nth_error (ids_at (state (TextEditor.core pg)) P) B
                 = Some (VStr id)
              /\ forall P', P' <> P -> P' < List.length pages ->
                   ids_at (state (TextEditor.core pg')) P'
                   = ids_at (state (TextEditor.core pg)) P'.
Proof.
  intros _ Hpages Hclean Hshape Hlen Hp. split.
  - intros Hq. unfold TextEditor.addBlockAfter.
    rewrite bind_reads, Hq. reflexivity.
  - intros block Hq. cbv zeta.
    rewrite (addBlockAfter_start _ _ Hq). cbv zeta.
    set (newId := ("block" ++ "-"
                   ++ entropy (TextEditor.core pg)
                        (draws (TextEditor.core pg)))%string).
    change ("block-" ++ entropy (TextEditor.core pg)
                          (draws (TextEditor.core pg)))%string with newId.
    set (st1 := record_request (Focus (TextEditor.nodes pg))
                  (set_draws (S (draws (TextEditor.core pg)))
                     (TextEditor.core pg))).
    set (pg1 := TextEditor.set_selection _ _).
    assert (Hpages1 : getValueAtPath (state st1) "document.pages" = VArr pages)
      by exact Hpages.
    erewrite bind_run
      by (apply in_core_run;
          apply (@locate_run id st1 pages Hpages1 Hclean Hshape)).
    cbn [fst snd].
    destruct (located pages id) as [[P B] |] eqn:Hloc.
    + destruct (located_sound _ _ Hloc) as (HP & HB & _).
      pose proof (index_below Hlen HP) as HiP.
      erewrite bind_run
        by (apply in_core_run; apply blocks_at_run; assumption).
      destruct (@update_path_run (blocks_path P)
                  (VArr (insert_at (B + 1) (empty_block newId)
                           (blocks_of (nth P pages VUndef))))
                  st1 ps)
        as (st' & data & Hup & Hread & Hframe & _).
      * apply (blocks_path_through _ Hpages1 Hshape HP HiP).
      * unfold off_history. rewrite split_dot_blocks_path. reflexivity.
      * exact Hp.
      * eexists. split.
        { apply in_core_run.
          cbn [TextEditor.core TextEditor.set_core TextEditor.set_selection
               pg1]. exact Hup. }
        split; [discriminate |].
        intros P' B' E. inversion E; subst P' B'.
        cbn [TextEditor.core TextEditor.set_core].
        split.
        { exists (blocks_of (nth P pages VUndef)).
          split; [exact Hread |].
          unfold ids_at.
          rewrite (blocks_path_reads _ Hpages Hshape HP HiP). reflexivity. }
        split.
        { unfold ids_at.
          rewrite (blocks_path_reads _ Hpages Hshape HP HiP).
          exact (id_at_located _ _ Hloc). }
        intros P' Hne HP'.
        apply (@ids_at_frame (state (TextEditor.core pg)) (state st') P P'
                 HiP (index_below Hlen HP') Hne).
        exact Hframe.
    + eexists. split; [reflexivity |].
      split; [intros _ P' _; reflexivity |].
      intros P B E. discriminate E.
Qed.

(** A block added after the block of the initial document. *)
Lemma addBlockAfter_adds_to_the_state_witness :
  let pg := editing sample_random EmptyString 0 None in
  exists pg',
    TextEditor.addBlockAfter "block-z9y8x7w6v" pg = (Ok tt, pg')
    /\ ids_at (state (TextEditor.core pg)) 0 = [VStr "block-z9y8x7w6v"]
    /\ ids_at (state (TextEditor.core pg')) 0
       = [VStr "block-z9y8x7w6v"; VStr "block-h7g6f5d4s"].
Proof.
  cbv zeta.
  destruct (@addBlockAfter_adds_to_the_state "block-z9y8x7w6v"
              (editing sample_random EmptyString 0 None)
              (pages_of (state (StateManager.loaded sample_random))) [])
    as [_ H]; try reflexivity.
  { vm_compute. discriminate. }
  destruct (H (TextEditor.mkBlock 0 "block-z9y8x7w6v" EmptyString) eq_refl)
    as (pg' & Hrun & _ & Hstate).
  destruct (Hstate 0 0 eq_refl) as ((kept & Hblocks & Hkept) & _ & _).
  exists pg'. split; [exact Hrun |]. split; [reflexivity |].
  unfold ids_at. rewrite Hblocks.
  destruct kept as [| b [| b' kept]]; try discriminate Hkept.
  injection Hkept as Hb. cbn. rewrite Hb. reflexivity.
Defined.

(** X29 ([deleteBlock]).  For a block that is not in the document tree
    nothing happens.  For one that is: when the state has a block of
    the given identifier, its last occurrence is taken out of the
    blocks of its page, the other blocks of that page keep their
    identifiers and their order, and so do the blocks of every other
    page; when the state has none, the identifiers of the blocks stay
    as they are on every page.  Nothing here looks at how many blocks
    are left.  (Identifiers are taken to be made of letters, digits,
    hyphens and underscores, as the drawn ones are.  What the handlers
    of focus and blur write when the caret moves, the content of a
    block and the active element, is not followed here: it leaves the
    identifiers alone.) *)
Theorem deleteBlock_removes_from_the_state id pg pages ps :
  plain_id id = true ->
  getValueAtPath (state (TextEditor.core pg)) "document.pages" = VArr pages ->
  forallb json_clean pages = true ->
  forallb is_page pages = true ->
  (N.of_nat (List.length pages) <= 4294967295)%N ->
  past_of (state (TextEditor.core pg)) = VArr ps ->
  (TextEditor.querySelector id pg = None ->
   TextEditor.deleteBlock id pg = (Ok tt, pg))
  /\ forall block,
       TextEditor.querySelector id pg = Some block ->
       exists pg',
         TextEditor.deleteBlock id pg = (Ok tt, pg')
         /\ (located pages id = None ->
             forall P', P' < List.length pages ->
               ids_at (state (TextEditor.core pg')) P'
               = ids_at (state (TextEditor.core pg)) P')
         /\ forall P B,
              located pages id = Some (P, B) ->
              ids_at (state (TextEditor.core pg')) P
              = remove_at B (ids_at (state (TextEditor.core pg)) P)
              /\ nth_error (ids_at (state (TextEditor.core pg)) P) B
                 = Some (VStr id)
              /\ forall P', P' <> P -> P' < List.length pages ->
                   ids_at (state (TextEditor.core pg')) P'
                   = ids_at (state (TextEditor.core pg)) P'.
Proof.
  intros _ Hpages Hclean Hshape Hlen Hp. split.
  - intros Hq. unfold TextEditor.deleteBlock.
    rewrite bind_reads, Hq. reflexivity.
  - intros block Hq. unfold TextEditor.deleteBlock.
    rewrite bind_reads, Hq. cbv zeta.
    erewrite bind_run
      by (apply in_core_run;
          apply (@locate_run id (TextEditor.core pg) pages
                   Hpages Hclean Hshape)).
    cbn [fst snd].
    destruct (located pages id) as [[P B] |] eqn:Hloc.
    + destruct (located_sound _ _ Hloc) as (HP & HB & Hid).
      pose proof (index_below Hlen HP) as HiP.
      destruct (@update_path_run (blocks_path P)
                  (VArr (remove_at B (blocks_of (nth P pages VUndef))))
                  (TextEditor.core pg) ps)
        as (st' & data & Hup & Hread & Hframe & _).
      * apply (blocks_path_through _ Hpages Hshape HP HiP).
      * unfold off_history. rewrite split_dot_blocks_path. reflexivity.
      * exact Hp.
      * assert (Hinner :
          (blocks <- TextEditor.in_core
                       (TextEditor.blocks_at (VArr pages) P) ;;
           TextEditor.in_core
             (StateManager.update (VStr (blocks_path P))
                (VArr (remove_at B blocks))))
            (TextEditor.set_core (TextEditor.core pg) pg)
          = (Ok tt,
             TextEditor.set_core st'
               (TextEditor.set_core (TextEditor.core pg) pg))).
        { erewrite bind_run
            by (apply in_core_run; apply blocks_at_run; assumption).
          apply in_core_run. exact Hup. }
        erewrite bind_run by exact Hinner.
        rewrite bind_modify.
        assert (Hids : ids_at (state st') P
                       = remove_at B (ids_at (state (TextEditor.core pg)) P)).
        { unfold ids_at. rewrite Hread.
          rewrite (blocks_path_reads _ Hpages Hshape HP HiP).
          apply map_remove_at. }
        assert (Hthere : nth_error (ids_at (state (TextEditor.core pg)) P) B
                         = Some (VStr id)).
        { unfold ids_at.
          rewrite (blocks_path_reads _ Hpages Hshape HP HiP).
          exact (id_at_located _ _ Hloc). }
        assert (Hothers : forall P', P' <> P -> P' < List.length pages ->
                  ids_at (state st') P'
                  = ids_at (state (TextEditor.core pg)) P').
        { intros P' Hne HP'.
          apply (@ids_at_frame (state (TextEditor.core pg)) (state st') P P'
                   HiP (index_below Hlen HP') Hne).
          exact Hframe. }
        destruct (TextEditor.previousElementSibling (TextEditor.node block) pg)
          as [prev |] eqn:Hprev.
        { erewrite bind_run by (apply in_core_run; reflexivity).
          eexists. split; [reflexivity |].
          split; [discriminate |].
          intros P' B' E. inversion E; subst P' B'.
          split; [exact Hids |]. split; [exact Hthere |]. exact Hothers. }
        { eexists. split; [reflexivity |].
          split; [discriminate |].
          intros P' B' E. inversion E; subst P' B'.
          split; [exact Hids |]. split; [exact Hthere |]. exact Hothers. }
    + erewrite bind_run by reflexivity.
      rewrite bind_modify.
      destruct (TextEditor.previousElementSibling (TextEditor.node block) pg)
        as [prev |] eqn:Hprev.
      { erewrite bind_run by (apply in_core_run; reflexivity).
        eexists. split; [reflexivity |].
        split; [intros _ P' _; reflexivity |].
        intros P B E. discriminate E. }
      { eexists. split; [reflexivity |].
        split; [intros _ P' _; reflexivity |].
        intros P B E. discriminate E. }
Qed.

(** The second of two blocks is deleted: the state is left with the
    first. *)
Lemma deleteBlock_removes_from_the_state_witness :
  exists pg',
    TextEditor.deleteBlock "block-h7g6f5d4s" two_blocks = (Ok tt, pg')
    /\ ids_at (state (TextEditor.core two_blocks)) 0
       = [VStr "block-z9y8x7w6v"; VStr "block-h7g6f5d4s"]
    /\ ids_at (state (TextEditor.core pg')) 0 = [VStr "block-z9y8x7w6v"].
Proof.
  destruct (@deleteBlock_removes_from_the_state "block-h7g6f5d4s"
              two_blocks
              (pages_of (state (TextEditor.core two_blocks)))
              match past_of (state (TextEditor.core two_blocks)) with
              | VArr ps => ps
              | _ => []
              end)
    as [_ H]; try (vm_compute; reflexivity).
  { vm_compute. discriminate. }
  destruct (H (TextEditor.mkBlock 1 "block-h7g6f5d4s" EmptyString))
    as (pg' & Hrun & _ & Hstate);
    [vm_compute; reflexivity |].
  destruct (Hstate 0 1) as (Hids & _ & _); [vm_compute; reflexivity |].
  exists pg'. split; [exact Hrun |].
  split; [vm_compute; reflexivity |].
  rewrite Hids. vm_compute. reflexivity.
Defined.

(* ===================================================================== *)
(** ** A write below a value that is not an object *)
(* ===================================================================== *)

Lemma define_same k x props :
  lookup k props = Some x -> define k x props = props.
Proof.
  induction props as [| [k' v'] props IH]; [discriminate |].
  cbn [lookup define].
  destruct (String.eqb k' k) eqn:E.
  - intros H. inversion H. apply String.eqb_eq in E. subst. reflexivity.
  - intros H. rewrite (IH H). reflexivity.
Qed.

Lemma store_at_same elems : forall i,
  i < List.length elems -> store_at i (nth i elems VUndef) elems = elems.
Proof.
  induction elems as [| x elems IH]; intros [| i] H; cbn in *; try lia.
  - reflexivity.
  - rewrite IH by lia. reflexivity.
Qed.

(** Putting back what is there changes nothing. *)
Lemma with_member_unchanged s k :
  is_reference (get_prop s k) = true ->
  with_member s k (get_prop s k) = s.
Proof.
  intros Hr.
  destruct s as [| | b | n | t | elems | props]; try reflexivity.
  - cbn [get_prop with_member] in *.
    destruct (String.eqb k "length"); [discriminate |].
    destruct (index_of_key k) as [i |]; [| reflexivity].
    rewrite store_at_same; [reflexivity |].
    destruct (Nat.lt_ge_cases (N.to_nat i) (List.length elems)) as [Hlt | Hge];
      [exact Hlt |].
    rewrite nth_overflow in Hr by exact Hge. discriminate.
  - cbn [get_prop with_member] in *.
    destruct (lookup k props) as [x |] eqn:Hl; [| discriminate].
    rewrite (define_same _ _ Hl). reflexivity.
Qed.

(** A write one part below a value that is neither falsy nor an
    object or array leaves everything as it is. *)
Lemma assignPath_below_primitive parts : forall current k v,
  parts <> [] ->
  through current parts = true ->
  is_reference (walk current parts) = false ->
  falsy (walk current parts) = false ->
  assignPath current (parts ++ [k]) v = Ok current.
Proof.
  induction parts as [| part rest IH]; intros current k v Hne Ht Hr Hf;
    [congruence |].
  destruct rest as [| p2 rest].
  - cbn [app]. rewrite assignPath_two.
    assert (Hc : is_reference current = true)
      by (cbn [through] in Ht; destruct current; try discriminate; reflexivity).
    pose proof (reference_not_nullish _ Hc) as Hn.
    rewrite walk_cons in Hr, Hf by exact Hn. cbn [walk] in Hr, Hf.
    rewrite member_defined by exact Hn. cbn [obind]. rewrite Hf. cbn [obind].
    rewrite member_defined by exact Hn. cbn [obind assignPath].
    rewrite Hr.
    destruct (get_prop current part); try discriminate; reflexivity.
  - change ((part :: p2 :: rest) ++ [k]) with (part :: (p2 :: rest) ++ [k]).
    change ((p2 :: rest) ++ [k]) with (p2 :: rest ++ [k]) at 1.
    rewrite assignPath_two. rewrite through_two in Ht.
    apply andb_true_iff in Ht. destruct Ht as [Ht Hthrough].
    apply andb_true_iff in Ht. destruct Ht as [Hc Hchild].
    pose proof (reference_not_nullish _ Hc) as Hn.
    rewrite walk_cons in Hr, Hf by exact Hn.
    rewrite member_defined by exact Hn. cbn [obind].
    rewrite (reference_not_falsy _ Hchild). cbn [obind].
    rewrite member_defined by exact Hn. cbn [obind].
    change (p2 :: rest ++ [k]) with ((p2 :: rest) ++ [k]).
    rewrite (IH (get_prop current part) k v ltac:(discriminate)
               Hthrough Hr Hf).
    cbn [obind]. rewrite Hchild, with_member_unchanged by exact Hchild.
    reflexivity.
Qed.

(** X30 ([setValueAtPath], [update]).  A write one part below a value
    that is neither an object nor an array, and not falsy (a string
    that is not empty, a number other than zero, [true]), is dropped:
    outside [history] the state reads as before.  The commit is made
    all the same: the path is recorded as changed, the state before is
    pushed on [history.past], and the subscribers of [state:changed]
    are called with that path. *)
Theorem update_below_a_primitive_writes_nothing path k v st ps :
  through (state st) (split_dot path) = true ->
  is_reference (getValueAtPath (state st) path) = false ->
  falsy (getValueAtPath (state st) path) = false ->
  split_dot k = [k] ->
  off_history path = true ->
  past_of (state st) = VArr ps ->
  let below := (path ++ "." ++ k)%string in
  exists st' data,
    StateManager.update (VStr below) v st = (Ok tt, st')
    /\ (forall q, off_history q = true ->
          getValueAtPath (state st') q = getValueAtPath (state st) q)
    /\ past_of (state st') = VArr (capped (ps ++ [serialize (state st)]))
    /\ changedPaths st' = [below]
    /\ invoked st'
       = invoked st
         ++ flat_map (fired [below] data) (subscribed "state:changed" st).
Proof.
  intros Ht Hr Hf Hk Hoff Hp. cbv zeta.
  assert (Hparts : split_dot (path ++ "." ++ k) = split_dot path ++ [k]).
  { change (path ++ "." ++ k)%string with (path ++ String dot k)%string.
    rewrite split_dot_app, Hk. reflexivity. }
  assert (Ha : assignPath (state st) (split_dot (path ++ "." ++ k)) v
               = Ok (state st)).
  { rewrite Hparts.
    apply assignPath_below_primitive; auto using split_dot_nonempty. }
  set (mid := set_state (state st)
                (set_changedPaths [(path ++ "." ++ k)%string] st)).
  assert (Hm : mutation (VStr (path ++ "." ++ k)) v (set_changedPaths [] st)
               = (Ok tt, mid)).
  { cbn [mutation]. rewrite (write_run _ _ (set_changedPaths [] st) Ha).
    reflexivity. }
  destruct (@update_run (VStr (path ++ "." ++ k)) v st mid ps)
    as (s' & data & Hrun & Hpast & Hfut & Hsame); auto.
  { intros E. rewrite E in Hp. discriminate. }
  eexists. exists data. split; [exact Hrun |].
  cbn [state set_invoked set_state changedPaths invoked mid
       set_changedPaths].
  split; [| split; [exact Hpast | split; reflexivity]].
  intros q Hq. apply getValueAtPath_off_history; auto.
  - eapply past_array_not_nullish. exact Hp.
  - eapply past_array_not_nullish. exact Hpast.
Qed.

(** The name of the template is a string: a write to [document.name.first]
    changes nothing, and is kept in the history. *)
Lemma update_below_a_primitive_writes_nothing_witness :
  let st := StateManager.loaded sample_random in
  exists st',
    StateManager.update (VStr "document.name.first") (VStr "Quote") st
    = (Ok tt, st')
    /\ getValueAtPath (state st') "document.name" = VStr "Untitled Template"
    /\ getValueAtPath (state st') "document"
       = getValueAtPath (state st) "document"
    /\ past_of (state st') = VArr [serialize (state st)]
    /\ changedPaths st' = ["document.name.first"].
Proof.
  cbv zeta.
  destruct (@update_below_a_primitive_writes_nothing "document.name" "first"
              (VStr "Quote") (StateManager.loaded sample_random) [])
    as (st' & data & Hrun & Hsame & Hpast & Hchanged & _);
    try reflexivity.
  exists st'. split; [exact Hrun |].
  split; [rewrite (Hsame "document.name" eq_refl); reflexivity |].
  split; [apply (Hsame "document" eq_refl) |].
  split; [exact Hpast | exact Hchanged].
Defined.
